(* ===== verification/_CoqProject ===== *)
-Q . S2P
Prelude.v
Buffers.v
Page.v
Node.v
NodeSlots.v
KeyOrder.v
NodeCells.v
NodeKinds.v
NodeOps.v
NodeInsert.v
NodeSplit.v
NodeMerge.v
DiskManager.v
FreeList.v
BufferPool.v
PoolSpec.v
PoolOps.v
BTree.v
NodeSeparator.v
Tree.v
NodeCalls.v
TreeNav.v
TreeFrame.v
TreeChain.v
TreeSplit.v
TreeOps.v
TreeUpdate.v
TreeHalves.v
TreeParent.v
TreeBorrow.v
TreeLend.v
TreeMerge.v
TreeAbsorb.v
TreeFix.v
TreeInsert.v
TreeRemove.v
Store.v
TreeStore.v
LogManager.v
LogRep.v
Recovery.v
History.v
LockManager.v
Db.v
Open.v
DbRep.v
DbSteps.v
OpenRep.v
ClientHandler.v
SessionRep.v
SessionRun.v
Serial.v
Service.v
ServiceRep.v
Server.v
Samples.v
LogSpec.v
RecoverySpec.v
LockSpec.v
DbSpec.v
OpenSpec.v
SessionSpec.v
ServiceSpec.v
ServerSpec.v
Demo.v
TreeSpec.v
NodeSpec.v
StorageSpec.v
