(* ===== verification/Prelude.v ===== *)
(** * KeyVDB in Rocq

    KeyVDB is an embedded key-value store with a TCP server, in C++.  From the
    bottom up: pages of 4096 bytes in one file ([src/src/storage]); B+tree
    nodes as slotted pages and the tree over them ([src/src/btree]); a
    write-ahead log and recovery from it ([src/src/wal]); key locks
    ([src/src/txn]); databases and transactions ([src/src/db.cpp]); the
    protocol and the session of a client ([src/server]).  [DB::Open] builds
    the lower parts, recovers and truncates the log; a transaction locks each
    key it touches, logs each write before it changes the tree, and flushes the
    log, then the pages, when it commits.

    ** How the program is modelled

    Methods are functions in the state and error monad [M] of this file: an
    object is a record of its fields, a member object or a referenced one is a
    part of the state of its user ([zoom]), an exception or a failed assertion
    is an [exn] and keeps the mutations made before it.  A page is a list of
    4096 bytes and every field of a page is read and written at its offset, so
    that what a node contains is what its bytes say.  Machine integers are [Z]
    with [wrap] and [swrap] written where the source converts.  Loops whose end
    depends on data have fuel: the number of pages for the descent of the tree
    (a path visits a page once), the number of slots for the scans of a node,
    the size of the file for the scans of the log, the number of bytes asked
    for in the I/O loops of a session; the theorems show that the fuel is
    enough ([find_leaf_ok], [lower_bound_terminates], [log_scans_terminate],
    [session_refines]).

    The operating system is a parameter: classes of operations ([PosixFile],
    [TruncFile], [Socket], [Network]) and, for the theorems that need them, of the laws
    POSIX states for a medium that works ([ReliableFile], [ReliableLog],
    [ReliableSocket], [ReliableNetwork]).  Each has an instance in memory, on which the witnesses
    run.

    ** The files

    - [Prelude]: the monad, machine integers, little and big endian, lists.
      [Buffers]: bytes at offsets.
    - [Page]: [storage/page.h].  [Node]: [btree/btree_defs.h] and
      [btree/node.cpp], every method.  [NodeSlots], [NodeCells], [KeyOrder],
      [NodeKinds], [NodeOps], [NodeInsert], [NodeSplit], [NodeMerge]: a page
      holds the list of its cells; the methods change it as sorted lists of
      entries ([upsert], [remove_key], splits, merges) change.
      [NodeSeparator]: separators and children overwritten in place.
      [NodeCalls]: the methods in any order, with what they assert and what they
      ask of their callers.  [NodeSpec]: the claims on nodes, [Samples] the
      pages they are tried on.
    - [DiskManager], [FreeList], [BufferPool]: [storage/disk_manager.cpp],
      [free_list.cpp], [buffer_pool.cpp].  [PoolSpec]: the invariant of the
      pool and the content of a page, cached or on disk.  [PoolOps]: the pool
      represents an abstract store of pages ([pool_rep]), which its operations
      change one page at a time.  [StorageSpec]: the claims.
    - [BTree]: [btree/btree.cpp].  [Tree]: a tree of pages under a root
      represents a sorted list of entries ([subtree]); a tree with a hole
      ([context]) has the breadcrumbs of the hole.  [TreeNav], [TreeOps],
      [TreeUpdate]: [find_leaf], [get], and updates that stay in one leaf, for
      trees of any height.  [TreeFrame]: what the operations leave alone.
      [TreeChain]: the right links of the leaves go through them from left to
      right.  [TreeSplit]: nodes and their subtrees cut in two, the invariant
      of updates ([tree_inv]).  [TreeHalves], [TreeParent], [TreeInsert]:
      splits of pages, separators that move up through [insert_into_parent],
      and [insert] on any tree ([tree_map]).  [TreeBorrow], [TreeLend]: two
      leaves side by side, and an entry that moves from one to the other with
      the separator between them.  [TreeMerge], [TreeAbsorb]: one leaf absorbs
      the other, whose page is freed, and a root without separators goes.
      [TreeFix]: [fix_underflow] of a leaf where its neighbours settle it
      ([settles]).  [TreeRemove]: [remove] on any tree, where the leaf does not
      underflow or is settled ([can_remove]).  [TreeSpec]: claims.
    - [Store]: the interface [KVStore] that recovery and transactions use, its
      laws [KVLaws] for the updates that a store can do ([kv_can], decidable),
      and the map as an instance.  [TreeStore]: the B+tree as an instance, for
      trees of any height.
    - [LogManager], [LogRep]: [wal/log_manager.cpp] and what a log file holds.
      [Recovery]: [wal/recovery_manager.cpp].  [History]: the logs that locked
      transactions can write, and the map that the committed ones leave.
      [LogSpec], [RecoverySpec]: claims.
    - [LockManager]: [txn/lock_manager.cpp] with its invariant, as the steps of
      concurrent requests, timeouts and releases.  [LockSpec]: claims.
    - [Db], [DbRep], [DbSteps]: [db.cpp]; the invariant of a database with open
      transactions ([db_rep]) and the calls of all threads as a step relation
      ([sys_step]).  [DbSpec]: claims.  [Open], [OpenRep], [OpenSpec]:
      [DB::Open], and the life of a database over crashes.
    - [ClientHandler], [SessionRep], [SessionRun], [SessionSpec]:
      [src/server/protocol.h] and [client_handler.cpp], as the exchange of
      messages that the bytes encode.
    - [Serial]: what concurrent transactions promise: the calls of each, in
      the order of the commits, replayed one transaction after the other.
      [Service], [ServiceRep]: the sessions of all connections on one database,
      interleaved ([service_step]), refine that specification; what the oracle
      of a session stands for ([serve_waits], [serve_at_once]).
      [ServiceSpec]: claims.
    - [Server], [ServerSpec]: [src/server/server.cpp] and [main.cpp]: sockets,
      the accept loop as steps, the end by signal.  [Demo]: [src/src/main.cpp],
      run on the model.

    ** What the theorems show

    - Nodes: whatever is called on a fresh node, its page is a well-formed node,
      no call leaves the page, and a call fails exactly at its assertions;
      [insert_leaf_cell], [remove_cell], the splits, merges and steals
      change the entries as they should, and say when there is no room;
      [compact] loses nothing; the binary search is right and ends.
    - Storage: fetching, evicting and flushing in any order change no page;
      new pages are unused ones; page 0 keeps the free list and the root.
    - Tree: [get] is a lookup, on a tree of any height.  [insert] of an entry
      that takes at most a quarter of a page is insertion into the map, with
      every split that it causes; larger entries can be dropped
      ([insert_drops_large_entry]).  The height is logarithmic in the number
      of pages.  [remove] is deletion as long as the leaf does not underflow, is
      the root, borrows from its left neighbour (a first child from its right
      one), or is the first or last child of its parent and is merged with its
      neighbour while the parent stays half full or is the root.  A child in
      the middle that finds no lender on its left is merged under the wrong
      separator ([remove_destroys_neighbours]).  The theorems on
      databases hold for trees of any height and ask for these two things of
      the updates that a call or recovery leads to; both are decided by
      computation on the state.
    - Log and recovery: what is appended is read back, also after reopening;
      torn appends; recovery from any prefix of the log, and from a crash of
      recovery itself, gives the map of the committed transactions.
    - Locks and transactions: conflicting locks are never held together, a
      request is granted when it can be and not before; on every schedule the
      log is a history of locked writes, reads see committed values,
      [Rollback] restores and [Commit] lasts.
    - Opening: [crash_and_reopen] puts these together for files and crashes.
    - Sessions: the request loop refines the exchange of messages; a client
      that goes away is rolled back.
    - Service: what clients see of any interleaving of their sessions is a
      serial run in the order of the commits; every request is answered as
      soon as no conflicting lock is in the way; what was acknowledged as
      committed is there after a crash, and after a kill right after the
      answer from the very files that the process leaves.
    - Server: it closes the descriptors that it opened, once; a signal ends the
      loop, which joins no client; a start that fails leaves a new database
      unusable.
    - Some theorems show behaviour that the code does not want: entries lost
      by insertions and removals, separators after steals of inner nodes, frames lost by [delete_page],
      aborted writes and empty values after a crash, a root page that is named
      before it is written, [Close] and failing commits with open
      transactions, payloads served as requests.

    ** Not modelled

    Threads that cannot be created, what is printed on the console, the use of
    the database by the detached client threads after [~Server], what a failed
    [DB::Open] leaves allocated, and what is not C++ (the TypeScript client,
    the tests).
    Mutexes make calls atomic; the interleaving of calls is that of [sys_step]
    and, in a session, of the oracle [Others].  The hash maps and sets are
    finite maps and sets: a loop over one visits it in some order, and the
    theorems hold for the order of [map_to_list] or for every order.  The
    messages of exceptions are not kept.

    Modelled, but with nothing proved of it beyond single nodes: removals after
    which an internal node is to be fixed in its turn, or that find fewer than
    five frames in the pool or no room in the free list. *)

From Stdlib Require Import Strings.Byte.
From stdpp Require Export base numbers list option gmap fin_maps sorting.

Open Scope Z_scope.

(** ** Exceptions and results *)

(** What a call can end with besides a value.  [AssertionFailure] is a failed
    [assert], [OutOfBounds] an access outside a page buffer (undefined
    behaviour in C++), [OutOfFuel] a loop that used up its fuel; the others
    are the exceptions the source throws. *)
Inductive exn : Type :=
| AssertionFailure
| OutOfBounds
| OutOfFuel
| StdOutOfRange
| StdInvalidArgument
| StdRuntimeError
| StdSystemError
| DeadlockException.

#[export] Instance exn_eq_dec : EqDecision exn.
Proof. solve_decision. Defined.

Inductive result (A : Type) : Type :=
| Ok (a : A)
| Err (e : exn).
Arguments Ok {A} a.
Arguments Err {A} e.

Definition result_bind {A B : Type} (r : result A) (f : A -> result B) : result B :=
  match r with
  | Ok a => f a
  | Err e => Err e
  end.

(** A state and error monad.  An exception keeps the state reached when it was
    thrown, as in C++: the mutations before the throw are not undone. *)
Definition M (S A : Type) : Type := S -> result A * S.

Definition ret {S A : Type} (a : A) : M S A := fun s => (Ok a, s).

Definition throw {S A : Type} (e : exn) : M S A := fun s => (Err e, s).

Definition bind {S A B : Type} (m : M S A) (f : A -> M S B) : M S B :=
  fun s =>
    match m s with
    | (Ok a, s') => f a s'
    | (Err e, s') => (Err e, s')
    end.

(** A failed assertion aborts the process; only exceptions can be caught. *)
Definition is_exception (e : exn) : bool :=
  match e with
  | AssertionFailure | OutOfBounds | OutOfFuel => false
  | _ => true
  end.

(** [try { m } catch (const std::exception& e) { handler }] *)
Definition try_catch {S A : Type} (m : M S A) (handler : exn -> M S A) : M S A :=
  fun s =>
    match m s with
    | (Err e, s') => if is_exception e then handler e s' else (Err e, s')
    | r => r
    end.

(** A read-only method ([const] in the source) run in the monad. *)
Definition query {S A : Type} (q : S -> result A) : M S A := fun s => (q s, s).

Definition getS {S : Type} : M S S := fun s => (Ok s, s).

Definition modifyS {S : Type} (f : S -> S) : M S unit := fun s => (Ok tt, f s).

Definition assert_ {S : Type} (b : bool) : M S unit :=
  if b then ret tt else throw AssertionFailure.

Definition assert_r (b : bool) : result unit :=
  if b then Ok tt else Err AssertionFailure.

(** Run an operation of a part of the state (a member object, or the object a
    reference member points to) in the state of the whole. *)
Definition zoom {S T A : Type} (get : S -> T) (put : T -> S -> S) (m : M T A) : M S A :=
  fun s => let '(r, t) := m (get s) in (r, put t s).

(** A block with a local object, which the block may mutate and which goes away
    at its end, whether it returns or throws. *)
Definition with_local {S T A : Type} (t0 : T) (m : M (S * T) A) : M S A :=
  fun s => let '(r, (s', _)) := m (s, t0) in (r, s').

(** In such a block: an operation of the enclosing object, one of the local. *)
Definition on_outer {S T A : Type} (m : M S A) : M (S * T) A :=
  zoom fst (fun s st => (s, st.2)) m.
Definition on_local {S T A : Type} (m : M T A) : M (S * T) A :=
  zoom snd (fun t st => (st.1, t)) m.

Declare Scope keyv_scope.
Delimit Scope keyv_scope with keyv.
Open Scope keyv_scope.

Notation "'let*' x := m 'in' k" := (bind m (fun x => k))
  (at level 10, x name, k at level 200) : keyv_scope.
Notation "'do*' m 'in' k" := (bind m (fun _ => k))
  (at level 10, m at level 100, k at level 200) : keyv_scope.
Notation "'let?' x := m 'in' k" := (result_bind m (fun x => k))
  (at level 10, x name, k at level 200) : keyv_scope.
Notation "'do?' m 'in' k" := (result_bind m (fun _ => k))
  (at level 10, m at level 100, k at level 200) : keyv_scope.

(** [for (i = from; n times; ++i)] *)
Fixpoint for_up {S : Type} (n : nat) (i : Z) (body : Z -> M S unit) : M S unit :=
  match n with
  | O => ret tt
  | Datatypes.S n' => do* body i in for_up n' (i + 1) body
  end.

(** [for (i = from; n times; --i)] *)
Fixpoint for_down {S : Type} (n : nat) (i : Z) (body : Z -> M S unit) : M S unit :=
  match n with
  | O => ret tt
  | Datatypes.S n' => do* body i in for_down n' (i - 1) body
  end.

Fixpoint for_each {S A : Type} (l : list A) (body : A -> M S unit) : M S unit :=
  match l with
  | [] => ret tt
  | a :: l' => do* body a in for_each l' body
  end.

(** ** Machine integers and bytes *)

Abbreviation byte := Byte.byte.
Abbreviation bytes := (list Byte.byte).

(** Conversion to an unsigned or a signed integer of [w] bits. *)
Definition wrap (w z : Z) : Z := z mod 2 ^ w.
Definition swrap (w z : Z) : Z :=
  let u := z mod 2 ^ w in if u <? 2 ^ (w - 1) then u else u - 2 ^ w.

Definition byte_of_Z (z : Z) : byte :=
  match Byte.of_N (Z.to_N (z mod 256)) with
  | Some b => b
  | None => Byte.x00
  end.
Definition Z_of_byte (b : byte) : Z := Z.of_N (Byte.to_N b).

(** Little-endian integers, as the host stores them ([memcpy] of an integer). *)
Fixpoint le_enc (n : nat) (z : Z) : bytes :=
  match n with
  | O => []
  | S n' => byte_of_Z z :: le_enc n' (z / 256)
  end.
Fixpoint le_dec (bs : bytes) : Z :=
  match bs with
  | [] => 0
  | b :: bs' => Z_of_byte b + 256 * le_dec bs'
  end.

(** Big-endian (network order). *)
Definition be_enc (n : nat) (z : Z) : bytes := reverse (le_enc n z).
Definition be_dec (bs : bytes) : Z := le_dec (reverse bs).

Definition zlen {A : Type} (l : list A) : Z := Z.of_nat (length l).

#[export] Instance byte_eq_dec : EqDecision byte.
Proof. intros x y. exact (Byte.byte_eq_dec x y). Defined.

Lemma byte_to_of_N (b : byte) : Byte.of_N (Byte.to_N b) = Some b.
Proof. apply Byte.of_to_N. Qed.

#[export] Instance byte_countable : Countable byte :=
  inj_countable Byte.to_N Byte.of_N byte_to_of_N.

Lemma Z_of_byte_range (b : byte) : 0 <= Z_of_byte b < 256.
Proof. unfold Z_of_byte. pose proof (Byte.to_N_bounded b). lia. Qed.

Lemma byte_of_Z_of_byte (b : byte) : byte_of_Z (Z_of_byte b) = b.
Proof.
  unfold byte_of_Z. pose proof (Z_of_byte_range b) as Hr.
  rewrite Z.mod_small by lia. unfold Z_of_byte. rewrite N2Z.id.
  by rewrite byte_to_of_N.
Qed.

Lemma Z_of_byte_of_Z (z : Z) : Z_of_byte (byte_of_Z z) = z mod 256.
Proof.
  unfold byte_of_Z, Z_of_byte.
  assert (Hr : 0 <= z mod 256 < 256) by (apply Z.mod_pos_bound; lia).
  destruct (Byte.of_N (Z.to_N (z mod 256))) as [b|] eqn:Hb.
  - apply Byte.to_of_N in Hb. rewrite Hb. lia.
  - apply Byte.of_N_None_iff in Hb. lia.
Qed.

Lemma Z_of_byte_inj (a b : byte) : Z_of_byte a = Z_of_byte b -> a = b.
Proof.
  intros H. rewrite <- (byte_of_Z_of_byte a), <- (byte_of_Z_of_byte b).
  by rewrite H.
Qed.

Lemma length_le_enc (n : nat) (z : Z) : length (le_enc n z) = n.
Proof. revert z. induction n as [|n IH]; intros z; simpl; [done|]. by rewrite IH. Qed.

Lemma le_dec_enc (n : nat) (z : Z) : le_dec (le_enc n z) = z mod 256 ^ Z.of_nat n.
Proof.
  revert z. induction n as [|n IH]; intros z.
  - simpl. by rewrite Z.mod_1_r.
  - cbn [le_enc le_dec]. rewrite IH, Z_of_byte_of_Z.
    rewrite Nat2Z.inj_succ, Z.pow_succ_r by lia.
    rewrite Z.rem_mul_r by lia. lia.
Qed.

Lemma le_dec_range (bs : bytes) : 0 <= le_dec bs < 256 ^ zlen bs.
Proof.
  unfold zlen. induction bs as [|b bs IH]; [simpl; lia|].
  cbn [le_dec length]. rewrite Nat2Z.inj_succ, Z.pow_succ_r by lia.
  pose proof (Z_of_byte_range b). lia.
Qed.

Lemma le_enc_dec (bs : bytes) (n : nat) : n = length bs -> le_enc n (le_dec bs) = bs.
Proof.
  intros ->. induction bs as [|b bs IH]; [done|].
  cbn [le_dec length le_enc]. pose proof (Z_of_byte_range b) as Hb.
  f_equal.
  - apply Z_of_byte_inj. rewrite Z_of_byte_of_Z, Z.mul_comm, Z.mod_add by lia.
    by apply Z.mod_small.
  - rewrite Z.mul_comm, Z.div_add by lia. rewrite Z.div_small by lia. exact IH.
Qed.

Lemma swrap_small (w z : Z) : 0 < w -> - 2 ^ (w - 1) <= z < 2 ^ (w - 1) -> swrap w z = z.
Proof.
  intros Hw Hz. unfold swrap.
  assert (H2 : 2 ^ w = 2 * 2 ^ (w - 1)).
  { rewrite <- Z.pow_succ_r by lia. f_equal. lia. }
  assert (Hp : 0 < 2 ^ (w - 1)) by (apply Z.pow_pos_nonneg; lia).
  rewrite H2. destruct (decide (0 <= z)).
  - rewrite Z.mod_small by lia. destruct (Z.ltb_spec z (2 ^ (w - 1))); lia.
  - replace (z mod (2 * 2 ^ (w - 1))) with (z + 2 * 2 ^ (w - 1)).
    + destruct (Z.ltb_spec (z + 2 * 2 ^ (w - 1)) (2 ^ (w - 1))); lia.
    + symmetry. rewrite <- (Z.mod_add _ 1) by lia. rewrite Z.mod_small; lia.
Qed.

Lemma swrap_mod (w z : Z) : swrap w (z mod 2 ^ w) = swrap w z.
Proof. unfold swrap. by rewrite Zmod_mod. Qed.

Lemma length_be_enc (n : nat) (z : Z) : length (be_enc n z) = n.
Proof. unfold be_enc. by rewrite length_reverse, length_le_enc. Qed.

Lemma be_dec_enc (n : nat) (z : Z) : be_dec (be_enc n z) = z mod 256 ^ Z.of_nat n.
Proof. unfold be_dec, be_enc. rewrite reverse_involutive. apply le_dec_enc. Qed.

Lemma zlen_app {A : Type} (l1 l2 : list A) : zlen (l1 ++ l2) = zlen l1 + zlen l2.
Proof. unfold zlen. rewrite length_app. lia. Qed.

Lemma zlen_cons {A : Type} (x : A) (l : list A) : zlen (x :: l) = 1 + zlen l.
Proof. unfold zlen. simpl length. lia. Qed.

Lemma zlen_nil {A : Type} : zlen (@nil A) = 0.
Proof. done. Qed.

Lemma zlen_nonneg {A : Type} (l : list A) : 0 <= zlen l.
Proof. unfold zlen. lia. Qed.

Lemma zlen_le_enc (n : nat) (z : Z) : zlen (le_enc n z) = Z.of_nat n.
Proof. unfold zlen. by rewrite length_le_enc. Qed.

(** ** Stepping through the monad *)

Lemma bind_ok {S A B : Type} (m : M S A) (f : A -> M S B) (s s' : S) (a : A) :
  m s = (Ok a, s') -> bind m f s = f a s'.
Proof. intros H. unfold bind. by rewrite H. Qed.

Lemma bind_err {S A B : Type} (m : M S A) (f : A -> M S B) (s s' : S) (e : exn) :
  m s = (Err e, s') -> bind m f s = (Err e, s').
Proof. intros H. unfold bind. by rewrite H. Qed.

Lemma bind_query {S A B : Type} (q : S -> result A) (f : A -> M S B) (s : S) (a : A) :
  q s = Ok a -> bind (query q) f s = f a s.
Proof. intros H. unfold bind, query. by rewrite H. Qed.

Lemma bind_query_err {S A B : Type} (q : S -> result A) (f : A -> M S B) (s : S) (e : exn) :
  q s = Err e -> bind (query q) f s = (Err e, s).
Proof. intros H. unfold bind, query. by rewrite H. Qed.

Lemma bind_assert {S B : Type} (b : bool) (f : unit -> M S B) (s : S) :
  b = true -> bind (assert_ b) f s = f tt s.
Proof. by intros ->. Qed.

Lemma bind_assert_false {S B : Type} (b : bool) (f : unit -> M S B) (s : S) :
  b = false -> bind (assert_ b) f s = (Err AssertionFailure, s).
Proof. by intros ->. Qed.

Lemma bind_assoc {S A B C : Type} (m : M S A) (f : A -> M S B) (g : B -> M S C) (s : S) :
  bind (bind m f) g s = bind m (fun a => bind (f a) g) s.
Proof. unfold bind. by destruct (m s) as [[a|e] s']. Qed.

Lemma result_bind_ok {A B : Type} (r : result A) (f : A -> result B) (a : A) :
  r = Ok a -> result_bind r f = f a.
Proof. by intros ->. Qed.

(** [mstep H]: the head of the computation is known by [H]. *)
Ltac mstep H :=
  first [ rewrite (bind_ok _ _ _ _ _ H)
        | rewrite (bind_query _ _ _ _ H)
        | rewrite (bind_assert _ _ _ H)
        | rewrite (bind_err _ _ _ _ _ H)
        | rewrite (result_bind_ok _ _ _ H)
        | rewrite H ]; cbn beta.

(** Stepping inside a block with a local object. *)
Section local_blocks.
Context {S T A B : Type}.
Implicit Types (s : S) (t : T).

Lemma with_local_eq t0 (m : M (S * T) A) s r s' t' :
  m (s, t0) = (r, (s', t')) -> with_local t0 m s = (r, s').
Proof. intros E. unfold with_local. by rewrite E. Qed.

Lemma bind_on_local (m : M T A) (k : A -> M (S * T) B) s t t' a :
  m t = (Ok a, t') -> bind (on_local m) k (s, t) = k a (s, t').
Proof. intros E. unfold bind, on_local, zoom. cbn. by rewrite E. Qed.

Lemma bind_on_local_query (q : T -> result A) (k : A -> M (S * T) B) s t a :
  q t = Ok a -> bind (on_local (query q)) k (s, t) = k a (s, t).
Proof. intros E. unfold bind, on_local, zoom, query. cbn. by rewrite E. Qed.

Lemma bind_on_outer (m : M S A) (k : A -> M (S * T) B) s s' t a :
  m s = (Ok a, s') -> bind (on_outer m) k (s, t) = k a (s', t).
Proof. intros E. unfold bind, on_outer, zoom. cbn. by rewrite E. Qed.

Lemma on_outer_eq (m : M S A) s s' t r :
  m s = (r, s') -> on_outer m (s, t) = (r, (s', t)).
Proof. intros E. unfold on_outer, zoom. cbn. by rewrite E. Qed.
End local_blocks.

Lemma zoom_eq {S T A : Type} (get : S -> T) (put : T -> S -> S) (m : M T A) s t' r :
  m (get s) = (r, t') -> zoom get put m s = (r, put t' s).
Proof. intros E. unfold zoom. by rewrite E. Qed.

Ltac lstep H :=
  first [ rewrite (bind_on_local _ _ _ _ _ _ H) | rewrite (bind_on_local_query _ _ _ _ _ H)
        | rewrite (bind_on_outer _ _ _ _ _ _ H) ]; cbn beta.

(** ** Insertion at an index ([std::vector] style) *)

Definition insert_at {A : Type} (i : nat) (x : A) (l : list A) : list A :=
  take i l ++ x :: drop i l.

Lemma length_insert_at {A} (i : nat) (x : A) (l : list A) :
  length (insert_at i x l) = S (length l).
Proof. unfold insert_at. rewrite length_app. simpl. rewrite length_take, length_drop. lia. Qed.

Lemma zlen_insert_at {A} (i : nat) (x : A) (l : list A) :
  zlen (insert_at i x l) = zlen l + 1.
Proof. unfold zlen. rewrite length_insert_at. lia. Qed.

Lemma lookup_insert_at {A} (i j : nat) (x : A) (l : list A) :
  (i <= length l)%nat ->
  insert_at i x l !! j =
    if decide (j < i)%nat then l !! j
    else if decide (j = i) then Some x else l !! (j - 1)%nat.
Proof.
  intros Hi. unfold insert_at. repeat case_decide.
  - rewrite lookup_app_l by (rewrite length_take; lia). by rewrite lookup_take_lt by lia.
  - subst. rewrite lookup_app_r by (rewrite length_take; lia).
    rewrite length_take. by replace (i - i `min` length l)%nat with O by lia.
  - rewrite lookup_app_r by (rewrite length_take; lia). rewrite length_take.
    replace (j - i `min` length l)%nat with (S (j - 1 - i)) by lia.
    simpl. rewrite lookup_drop. f_equal. lia.
Qed.

Lemma fmap_insert_at {A B} (f : A -> B) (i : nat) (x : A) (l : list A) :
  f <$> insert_at i x l = insert_at i (f x) (f <$> l).
Proof. unfold insert_at. by rewrite fmap_app, fmap_cons, fmap_take, fmap_drop. Qed.

Lemma insert_at_Permutation {A} (i : nat) (x : A) (l : list A) :
  insert_at i x l ≡ₚ x :: l.
Proof.
  unfold insert_at. rewrite <- Permutation_middle. by rewrite take_drop.
Qed.

Lemma Forall_insert_at {A} (P : A -> Prop) (i : nat) (x : A) (l : list A) :
  Forall P (insert_at i x l) <-> P x /\ Forall P l.
Proof. by rewrite insert_at_Permutation, Forall_cons. Qed.

Lemma insert_at_end {A} (i : nat) (x : A) (l : list A) :
  i = length l -> insert_at i x l = l ++ [x].
Proof. intros ->. unfold insert_at. by rewrite firstn_all, drop_all. Qed.

Lemma zlen_delete {A} (i : nat) (l : list A) :
  (i < length l)%nat -> zlen (delete i l) = zlen l - 1.
Proof. intros Hi. unfold zlen. rewrite length_delete by (by apply lookup_lt_is_Some). lia. Qed.

Lemma lookup_delete {A} (i j : nat) (l : list A) :
  delete i l !! j = if decide (j < i)%nat then l !! j else l !! S j.
Proof.
  case_decide.
  - by rewrite list_lookup_delete_lt.
  - by rewrite list_lookup_delete_ge by lia.
Qed.

#[global] Arguments le_enc : simpl never.
#[global] Arguments le_dec : simpl never.
