(* ===== verification/Buffers.v ===== *)
(** * Byte buffers

    Reads and writes of ranges of a byte buffer ([memcpy] from and to a
    [char*] inside a page or a file image), with the bounds check that turns
    an access outside the buffer into the [OutOfBounds] outcome, and the frame
    reasoning the page proofs use: [same_outside lo hi l l'] says that [l']
    differs from [l] inside [lo, hi) only. *)

From S2P Require Import Prelude.

Definition rd (off n : Z) (l : bytes) : bytes :=
  take (Z.to_nat n) (drop (Z.to_nat off) l).

Definition wr (off : Z) (bs l : bytes) : bytes :=
  take (Z.to_nat off) l ++ bs ++ drop (Z.to_nat off + length bs) l.

Definition in_bounds (off n : Z) (l : bytes) : bool :=
  (0 <=? off) && (0 <=? n) && (off + n <=? zlen l).

(** [memcpy(dst, buf + off, n)] and [memcpy(buf + off, bs, |bs|)]. *)
Definition ld (off n : Z) (l : bytes) : result bytes :=
  if in_bounds off n l then Ok (rd off n l) else Err OutOfBounds.

Definition st (off : Z) (bs : bytes) : M bytes unit :=
  fun l => if in_bounds off (zlen bs) l then (Ok tt, wr off bs l) else (Err OutOfBounds, l).

(** Typed fields of a buffer. *)
Definition get_u (n off : Z) (l : bytes) : Z := le_dec (rd off n l).
Definition get_s (n off : Z) (l : bytes) : Z := swrap (8 * n) (le_dec (rd off n l)).

Definition ld_u (n off : Z) (l : bytes) : result Z :=
  let? bs := ld off n l in Ok (le_dec bs).
Definition ld_s (n off : Z) (l : bytes) : result Z :=
  let? bs := ld off n l in Ok (swrap (8 * n) (le_dec bs)).
Definition st_i (n off z : Z) : M bytes unit := st off (le_enc (Z.to_nat n) z).

Definition same_outside (lo hi : Z) (l l' : bytes) : Prop :=
  length l' = length l /\
  forall i : nat, Z.of_nat i < lo \/ hi <= Z.of_nat i -> l' !! i = l !! i.

Lemma in_bounds_true (off n : Z) (l : bytes) :
  in_bounds off n l = true <-> 0 <= off /\ 0 <= n /\ off + n <= zlen l.
Proof. unfold in_bounds. rewrite !andb_true_iff, !Z.leb_le. tauto. Qed.

Lemma ld_ok (off n : Z) (l : bytes) :
  0 <= off -> 0 <= n -> off + n <= zlen l -> ld off n l = Ok (rd off n l).
Proof.
  intros. unfold ld. by rewrite (proj2 (in_bounds_true off n l)).
Qed.

Lemma st_ok (off : Z) (bs l : bytes) :
  0 <= off -> off + zlen bs <= zlen l -> st off bs l = (Ok tt, wr off bs l).
Proof.
  intros. unfold st. pose proof (zlen_nonneg bs).
  by rewrite (proj2 (in_bounds_true off (zlen bs) l)).
Qed.

Lemma length_wr (off : Z) (bs l : bytes) :
  0 <= off -> off + zlen bs <= zlen l -> length (wr off bs l) = length l.
Proof.
  unfold wr, zlen. intros. rewrite !length_app, length_take, length_drop. lia.
Qed.

Lemma zlen_wr (off : Z) (bs l : bytes) :
  0 <= off -> off + zlen bs <= zlen l -> zlen (wr off bs l) = zlen l.
Proof. intros. unfold zlen. by rewrite length_wr. Qed.

Lemma zlen_rd (off n : Z) (l : bytes) :
  0 <= off -> 0 <= n -> off + n <= zlen l -> zlen (rd off n l) = n.
Proof. unfold rd, zlen. intros. rewrite length_take, length_drop. lia. Qed.

Lemma lookup_rd (off n : Z) (l : bytes) (i : nat) :
  0 <= off -> Z.of_nat i < n -> rd off n l !! i = l !! (Z.to_nat off + i)%nat.
Proof.
  intros. unfold rd. rewrite lookup_take_lt by lia. by rewrite lookup_drop.
Qed.

Lemma rd_nil (off n : Z) (l : bytes) : n <= 0 -> rd off n l = [].
Proof. intros. unfold rd. by replace (Z.to_nat n) with O by lia. Qed.

(** Two reads are equal when the buffers agree on the range. *)
Lemma rd_ext (off off' n : Z) (l l' : bytes) :
  0 <= off -> 0 <= off' ->
  (forall i : nat, Z.of_nat i < n -> l !! (Z.to_nat off + i)%nat = l' !! (Z.to_nat off' + i)%nat) ->
  rd off n l = rd off' n l'.
Proof.
  intros Ho Ho' H. apply list_eq. intros i.
  destruct (decide (Z.of_nat i < n)) as [Hi|Hi].
  - rewrite !lookup_rd by lia. by apply H.
  - rewrite !lookup_ge_None_2; [done| |];
      unfold rd; rewrite length_take; lia.
Qed.

Lemma lookup_wr_in (off : Z) (bs l : bytes) (i : nat) :
  0 <= off -> off + zlen bs <= zlen l -> (i < length bs)%nat ->
  wr off bs l !! (Z.to_nat off + i)%nat = bs !! i.
Proof.
  unfold wr, zlen. intros. rewrite lookup_app_r; rewrite length_take; [|lia].
  replace (Z.to_nat off + i - Z.to_nat off `min` length l)%nat with i by lia.
  by rewrite lookup_app_l by lia.
Qed.

Lemma lookup_wr_out (off : Z) (bs l : bytes) (i : nat) :
  0 <= off -> off + zlen bs <= zlen l ->
  Z.of_nat i < off \/ off + zlen bs <= Z.of_nat i ->
  wr off bs l !! i = l !! i.
Proof.
  unfold wr, zlen. intros Ho Hb [Hi|Hi].
  - rewrite lookup_app_l by (rewrite length_take; lia).
    by rewrite lookup_take_lt by lia.
  - rewrite lookup_app_r; rewrite length_take; [|lia].
    rewrite lookup_app_r by lia. rewrite lookup_drop. f_equal. lia.
Qed.

Lemma rd_wr_same (off : Z) (bs l : bytes) :
  0 <= off -> off + zlen bs <= zlen l -> rd off (zlen bs) (wr off bs l) = bs.
Proof.
  intros Ho Hb. apply list_eq. intros i.
  destruct (decide (i < length bs)%nat) as [Hi|Hi].
  - rewrite lookup_rd by (unfold zlen; lia). by apply lookup_wr_in.
  - rewrite !lookup_ge_None_2; [done|lia|].
    unfold rd. rewrite length_take. unfold zlen. lia.
Qed.

(** A read inside the written range. *)
Lemma rd_wr_inner (off d n : Z) (bs l : bytes) :
  0 <= off -> off + zlen bs <= zlen l -> 0 <= d -> 0 <= n -> d + n <= zlen bs ->
  rd (off + d) n (wr off bs l) = rd d n bs.
Proof.
  intros Ho Hb Hd Hn Hdn. unfold zlen in Hdn. apply rd_ext; [lia..|]. intros i Hi.
  replace (Z.to_nat (off + d) + i)%nat with (Z.to_nat off + (Z.to_nat d + i))%nat by lia.
  apply lookup_wr_in; lia.
Qed.

Lemma same_outside_refl (lo hi : Z) (l : bytes) : same_outside lo hi l l.
Proof. by split. Qed.

Lemma same_outside_trans (lo hi : Z) (l1 l2 l3 : bytes) :
  same_outside lo hi l1 l2 -> same_outside lo hi l2 l3 -> same_outside lo hi l1 l3.
Proof.
  intros [Hl H] [Hl' H']. split; [congruence|].
  intros i Hi. rewrite H' by done. by apply H.
Qed.

Lemma same_outside_weaken (lo hi lo' hi' : Z) (l l' : bytes) :
  same_outside lo hi l l' -> lo' <= lo -> hi <= hi' -> same_outside lo' hi' l l'.
Proof. intros [Hl H] ??. split; [done|]. intros i Hi. apply H. lia. Qed.

Lemma same_outside_length (lo hi : Z) (l l' : bytes) :
  same_outside lo hi l l' -> zlen l' = zlen l.
Proof. intros [Hl _]. unfold zlen. by rewrite Hl. Qed.

Lemma wr_same_outside (off : Z) (bs l : bytes) :
  0 <= off -> off + zlen bs <= zlen l ->
  same_outside off (off + zlen bs) l (wr off bs l).
Proof.
  intros Ho Hb. split; [by apply length_wr|]. intros i Hi. by apply lookup_wr_out.
Qed.

(** The frame rule of reads. *)
Lemma rd_same_outside (lo hi off n : Z) (l l' : bytes) :
  same_outside lo hi l l' -> 0 <= off -> off + n <= lo \/ hi <= off ->
  rd off n l' = rd off n l.
Proof.
  intros [Hl H] Ho Hd. apply rd_ext; [lia..|]. intros i Hi. apply H. lia.
Qed.

Lemma rd_wr_disjoint (off off' n : Z) (bs l : bytes) :
  0 <= off -> off + zlen bs <= zlen l -> 0 <= off' ->
  off' + n <= off \/ off + zlen bs <= off' ->
  rd off' n (wr off bs l) = rd off' n l.
Proof.
  intros. eapply rd_same_outside; [by apply wr_same_outside|done|lia].
Qed.

(** A read split in two, and a read inside a read. *)
Lemma rd_app (off n m : Z) (l : bytes) :
  0 <= off -> 0 <= n -> 0 <= m -> rd off (n + m) l = rd off n l ++ rd (off + n) m l.
Proof.
  intros. unfold rd.
  replace (Z.to_nat (n + m)) with (Z.to_nat n + Z.to_nat m)%nat by lia.
  rewrite <- take_take_drop. f_equal. rewrite drop_drop. do 2 f_equal. lia.
Qed.

Lemma rd_rd (off n d m : Z) (l : bytes) :
  0 <= off -> 0 <= d -> 0 <= m -> d + m <= n -> rd d m (rd off n l) = rd (off + d) m l.
Proof.
  intros. apply list_eq. intros i. destruct (decide (Z.of_nat i < m)) as [Hi|Hi].
  - rewrite !lookup_rd by lia. f_equal. lia.
  - rewrite !lookup_ge_None_2; [done| |]; unfold rd; rewrite length_take; lia.
Qed.

Lemma rd_app_l (n : Z) (a b : bytes) : n = zlen a -> rd 0 n (a ++ b) = a.
Proof. intros ->. unfold rd, zlen. rewrite Nat2Z.id. simpl. apply take_app_length. Qed.

Lemma rd_app_r (off n : Z) (a b : bytes) :
  zlen a <= off -> rd off n (a ++ b) = rd (off - zlen a) n b.
Proof.
  unfold zlen. intros. unfold rd. rewrite drop_app_ge by lia. do 2 f_equal. lia.
Qed.

Lemma rd_all (n : Z) (l : bytes) : n = zlen l -> rd 0 n l = l.
Proof. intros ->. unfold rd, zlen. rewrite Nat2Z.id. simpl. by rewrite firstn_all. Qed.

(** Typed accesses. *)
Lemma ld_u_ok (n off : Z) (l : bytes) :
  0 <= off -> 0 <= n -> off + n <= zlen l -> ld_u n off l = Ok (get_u n off l).
Proof. intros. unfold ld_u. by rewrite ld_ok. Qed.

Lemma ld_s_ok (n off : Z) (l : bytes) :
  0 <= off -> 0 <= n -> off + n <= zlen l -> ld_s n off l = Ok (get_s n off l).
Proof. intros. unfold ld_s. by rewrite ld_ok. Qed.

Lemma st_i_ok (n off z : Z) (l : bytes) :
  0 <= off -> 0 <= n -> off + n <= zlen l ->
  st_i n off z l = (Ok tt, wr off (le_enc (Z.to_nat n) z) l).
Proof. intros. unfold st_i. apply st_ok; rewrite ?zlen_le_enc; lia. Qed.

Lemma get_u_wr (n off z : Z) (l : bytes) :
  0 <= off -> 0 <= n -> off + n <= zlen l ->
  get_u n off (wr off (le_enc (Z.to_nat n) z) l) = z mod 256 ^ n.
Proof.
  intros. unfold get_u.
  replace n with (zlen (le_enc (Z.to_nat n) z)) at 1 by (rewrite zlen_le_enc; lia).
  rewrite rd_wr_same by (rewrite ?zlen_le_enc; lia).
  rewrite le_dec_enc. do 2 f_equal. lia.
Qed.

Lemma get_s_wr (n off z : Z) (l : bytes) :
  0 <= off -> 0 < n -> off + n <= zlen l -> - 2 ^ (8 * n - 1) <= z < 2 ^ (8 * n - 1) ->
  get_s n off (wr off (le_enc (Z.to_nat n) z) l) = z.
Proof.
  intros ? ? ? Hz. unfold get_s. fold (get_u n off (wr off (le_enc (Z.to_nat n) z) l)).
  rewrite get_u_wr by lia.
  replace (256 ^ n) with (2 ^ (8 * n)) by (by rewrite Z.pow_mul_r by lia).
  rewrite swrap_mod. apply swrap_small; lia.
Qed.

Lemma get_u_same_outside (lo hi n off : Z) (l l' : bytes) :
  same_outside lo hi l l' -> 0 <= off -> off + n <= lo \/ hi <= off ->
  get_u n off l' = get_u n off l.
Proof. intros. unfold get_u. by erewrite rd_same_outside. Qed.

Lemma get_s_same_outside (lo hi n off : Z) (l l' : bytes) :
  same_outside lo hi l l' -> 0 <= off -> off + n <= lo \/ hi <= off ->
  get_s n off l' = get_s n off l.
Proof. intros. unfold get_s. by erewrite rd_same_outside. Qed.

Lemma get_u_range (n off : Z) (l : bytes) : 0 <= n -> 0 <= get_u n off l < 256 ^ n.
Proof.
  intros Hn. unfold get_u. pose proof (le_dec_range (rd off n l)) as Hr.
  assert (zlen (rd off n l) <= n).
  { unfold rd, zlen. rewrite length_take. lia. }
  assert (256 ^ zlen (rd off n l) <= 256 ^ n) by (apply Z.pow_le_mono_r; lia). lia.
Qed.

(** [same_on P l l']: the buffers agree at the positions that satisfy [P]. *)
Definition same_on (P : Z -> Prop) (l l' : bytes) : Prop :=
  zlen l' = zlen l /\ forall i : nat, P (Z.of_nat i) -> l' !! i = l !! i.

Lemma same_on_trans (P Q : Z -> Prop) (l1 l2 l3 : bytes) :
  same_on P l1 l2 -> same_on Q l2 l3 -> same_on (fun i => P i /\ Q i) l1 l3.
Proof.
  intros [Hl H] [Hl' H']. split; [congruence|].
  intros i [Hp Hq]. rewrite H' by done. by apply H.
Qed.

Lemma same_on_weaken (P Q : Z -> Prop) (l l' : bytes) :
  same_on P l l' -> (forall i, Q i -> P i) -> same_on Q l l'.
Proof. intros [Hl H] HPQ. split; [done|]. intros i Hi. apply H. by apply HPQ. Qed.

Lemma same_outside_on (lo hi : Z) (l l' : bytes) :
  same_outside lo hi l l' -> same_on (fun i => i < lo \/ hi <= i) l l'.
Proof. intros [Hl H]. split; [unfold zlen; by rewrite Hl|]. exact H. Qed.

Lemma rd_same_on (P : Z -> Prop) (off n : Z) (l l' : bytes) :
  same_on P l l' -> 0 <= off -> (forall i, off <= i < off + n -> P i) ->
  rd off n l' = rd off n l.
Proof.
  intros [Hl H] Ho HP. apply rd_ext; [lia..|]. intros i Hi. apply H. apply HP. lia.
Qed.

Lemma get_u_same_on (P : Z -> Prop) (off n : Z) (l l' : bytes) :
  same_on P l l' -> 0 <= off -> (forall i, off <= i < off + n -> P i) ->
  get_u n off l' = get_u n off l.
Proof. intros. unfold get_u. by erewrite rd_same_on. Qed.

Lemma get_s_same_on (P : Z -> Prop) (off n : Z) (l l' : bytes) :
  same_on P l l' -> 0 <= off -> (forall i, off <= i < off + n -> P i) ->
  get_s n off l' = get_s n off l.
Proof. intros. unfold get_s. by erewrite rd_same_on. Qed.

(** Consecutive writes are one write; a write inside a range rewrites the
    corresponding part of what is read from it. *)
Lemma wr_wr_adjacent (off : Z) (a b l : bytes) :
  0 <= off -> off + zlen a + zlen b <= zlen l ->
  wr (off + zlen a) b (wr off a l) = wr off (a ++ b) l.
Proof.
  unfold zlen. intros Ho Hb. unfold wr.
  replace (Z.to_nat (off + Z.of_nat (length a))) with (Z.to_nat off + length a)%nat by lia.
  rewrite (app_assoc (take _ l) a).
  assert (Hlen : length (take (Z.to_nat off) l ++ a) = (Z.to_nat off + length a)%nat).
  { rewrite length_app, length_take. lia. }
  rewrite (take_app_le _ _ (Z.to_nat off + length a)) by lia. rewrite take_ge by lia.
  rewrite (drop_app_add' _ _ (Z.to_nat off + length a) (length b)) by lia.
  rewrite drop_drop, length_app, <- !app_assoc. do 4 f_equal. lia.
Qed.

Lemma rd_wr_within (off n d : Z) (bs l : bytes) :
  0 <= off -> 0 <= d -> d + zlen bs <= n -> off + n <= zlen l ->
  rd off n (wr (off + d) bs l) = wr d bs (rd off n l).
Proof.
  intros Ho Hd Hn Hl. pose proof (zlen_nonneg bs) as Hbs.
  assert (Hr : zlen (rd off n l) = n) by (apply zlen_rd; lia).
  apply list_eq. intros i. destruct (decide (Z.of_nat i < n)) as [Hi|Hi].
  - rewrite lookup_rd by lia.
    destruct (decide (d <= Z.of_nat i < d + zlen bs)) as [Hin|Hout].
    + unfold zlen in Hin.
      replace (Z.to_nat off + i)%nat with (Z.to_nat (off + d) + (i - Z.to_nat d))%nat by lia.
      rewrite lookup_wr_in by lia.
      replace i with (Z.to_nat d + (i - Z.to_nat d))%nat at 2 by lia.
      by rewrite lookup_wr_in by lia.
    + rewrite !lookup_wr_out by lia. by rewrite lookup_rd by lia.
  - assert (Hw : zlen (wr d bs (rd off n l)) = n) by (rewrite zlen_wr; lia).
    unfold zlen in Hw. rewrite !lookup_ge_None_2; [done|lia|].
    unfold rd. rewrite length_take. lia.
Qed.

(** Two [memcpy]s to adjacent ranges are one. *)
Lemma st_fuse {A : Type} (off off' : Z) (a b : bytes) (k : M bytes A) (p : bytes) :
  0 <= off -> off' = off + zlen a -> off + zlen a + zlen b <= zlen p ->
  (do* st off a in do* st off' b in k) p = (do* st off (a ++ b) in k) p.
Proof.
  intros Ho -> Hb. pose proof (zlen_nonneg a). pose proof (zlen_nonneg b).
  mstep (st_ok off a p ltac:(lia) ltac:(lia)).
  assert (Hl : zlen (wr off a p) = zlen p) by (apply zlen_wr; lia).
  mstep (st_ok (off + zlen a) b (wr off a p) ltac:(lia) ltac:(lia)).
  rewrite wr_wr_adjacent by lia.
  by mstep (st_ok off (a ++ b) p ltac:(lia) ltac:(rewrite zlen_app; lia)).
Qed.

Lemma get_s_range (n off : Z) (l : bytes) :
  0 < n -> - 2 ^ (8 * n - 1) <= get_s n off l < 2 ^ (8 * n - 1).
Proof.
  intros Hn. unfold get_s, swrap. set (z := le_dec _ mod 2 ^ (8 * n)).
  assert (H2 : 2 ^ (8 * n) = 2 * 2 ^ (8 * n - 1)).
  { rewrite <- Z.pow_succ_r by lia. f_equal. lia. }
  assert (Hz : 0 <= z < 2 ^ (8 * n)) by (apply Z.mod_pos_bound; lia).
  destruct (Z.ltb_spec z (2 ^ (8 * n - 1))); lia.
Qed.
