(* ===== verification/Page.v ===== *)
(** * Pages ([src/src/storage/page.h])

    A page is its raw 4096-byte buffer; the [PageHeader] fields and the data
    area are ranges of that buffer, read and written at their C++ offsets. *)

From S2P Require Import Prelude.
From S2P Require Import Buffers.

Definition PAGE_SIZE : Z := 4096.
Definition BUFFER_POOL_SIZE : Z := 64.
Definition INVALID_PAGE_ID : Z := -1.

Inductive PageType : Type :=
| INVALID
| DB_HEADER
| BTREE_INTERNAL
| BTREE_LEAF
| WAL_SEGMENT
| UNKNOWN_TYPE (raw : Z).

#[export] Instance PageType_eq_dec : EqDecision PageType.
Proof. solve_decision. Defined.

Definition PageType_to_Z (t : PageType) : Z :=
  match t with
  | INVALID => 0
  | DB_HEADER => 1
  | BTREE_INTERNAL => 2
  | BTREE_LEAF => 3
  | WAL_SEGMENT => 4
  | UNKNOWN_TYPE raw => raw
  end.

Definition PageType_of_Z (z : Z) : PageType :=
  if z =? 0 then INVALID
  else if z =? 1 then DB_HEADER
  else if z =? 2 then BTREE_INTERNAL
  else if z =? 3 then BTREE_LEAF
  else if z =? 4 then WAL_SEGMENT
  else UNKNOWN_TYPE z.

(** [struct PageHeader]: the offsets and the size of its fields. *)
Definition OFF_PAGE_ID : Z := 0.
Definition OFF_PAGE_TYPE : Z := 4.
Definition OFF_PAGE_LSN : Z := 16.
Definition HEADER_SIZE : Z := 24.
Definition DATA_SIZE : Z := PAGE_SIZE - HEADER_SIZE.

Abbreviation Page := (list Byte.byte).

Definition zero_page : Page := replicate (Z.to_nat PAGE_SIZE) Byte.x00.

(** [Page::clear] and the constructor that calls it. *)
Definition clear : M Page unit := modifyS (fun _ => zero_page).

Definition page_id (p : Page) : result Z := ld_s 4 OFF_PAGE_ID p.
Definition page_type (p : Page) : result PageType :=
  let? z := ld_u 4 OFF_PAGE_TYPE p in Ok (PageType_of_Z z).
Definition page_lsn (p : Page) : result Z := ld_s 8 OFF_PAGE_LSN p.

Definition set_page_id (id : Z) : M Page unit := st_i 4 OFF_PAGE_ID id.
Definition set_page_type (t : PageType) : M Page unit :=
  st_i 4 OFF_PAGE_TYPE (PageType_to_Z t).
Definition set_page_lsn (lsn : Z) : M Page unit := st_i 8 OFF_PAGE_LSN lsn.

(** [data() + off]: the offset of a data-area position in the raw buffer. *)
Definition data (off : Z) : Z := HEADER_SIZE + off.

(** The fields of a page as values, for pages of the right length. *)
Definition pg_id (p : Page) : Z := get_s 4 OFF_PAGE_ID p.
Definition pg_type (p : Page) : PageType := PageType_of_Z (get_u 4 OFF_PAGE_TYPE p).
Definition pg_lsn (p : Page) : Z := get_s 8 OFF_PAGE_LSN p.

Definition is_page_id (z : Z) : Prop := - 2 ^ 31 <= z < 2 ^ 31.

Lemma zlen_zero_page : zlen zero_page = PAGE_SIZE.
Proof. unfold zlen, zero_page. rewrite length_replicate. done. Qed.

Lemma page_id_ok (p : Page) : zlen p = PAGE_SIZE -> page_id p = Ok (pg_id p).
Proof. intros Hl. unfold page_id. apply ld_s_ok; rewrite ?Hl; done. Qed.

Lemma page_type_ok (p : Page) : zlen p = PAGE_SIZE -> page_type p = Ok (pg_type p).
Proof. intros Hl. unfold page_type. rewrite ld_u_ok; rewrite ?Hl; done. Qed.

Lemma set_page_id_ok (p : Page) (id : Z) :
  zlen p = PAGE_SIZE -> is_page_id id ->
  exists p', set_page_id id p = (Ok tt, p') /\ same_outside 0 4 p p' /\ pg_id p' = id.
Proof.
  intros Hl Hid. unfold set_page_id, is_page_id in *.
  rewrite st_i_ok by (rewrite ?Hl; done). eexists. split; [done|]. split.
  - apply (wr_same_outside 0 (le_enc 4 id)); rewrite ?Hl; done.
  - apply (get_s_wr 4 0); rewrite ?Hl; (done || lia).
Qed.

Lemma PageType_of_to_Z (t : PageType) :
  match t with UNKNOWN_TYPE _ => True | _ => PageType_of_Z (PageType_to_Z t) = t end.
Proof. by destruct t. Qed.

Lemma set_page_type_ok (p : Page) (t : PageType) :
  zlen p = PAGE_SIZE -> t = BTREE_LEAF \/ t = BTREE_INTERNAL \/ t = DB_HEADER ->
  exists p', set_page_type t p = (Ok tt, p') /\ same_outside 4 8 p p' /\ pg_type p' = t.
Proof.
  intros Hl Ht. unfold set_page_type.
  rewrite st_i_ok by (rewrite ?Hl; done). eexists. split; [done|]. split.
  - apply (wr_same_outside 4 (le_enc 4 (PageType_to_Z t))); rewrite ?Hl; done.
  - unfold pg_type. rewrite (get_u_wr 4 OFF_PAGE_TYPE) by (rewrite ?Hl; done).
    by destruct Ht as [->|[->| ->]].
Qed.

Lemma pg_id_outside (lo hi : Z) (p p' : Page) :
  same_outside lo hi p p' -> 4 <= lo -> pg_id p' = pg_id p.
Proof. intros. eapply get_s_same_outside; [done|done|]. unfold OFF_PAGE_ID. lia. Qed.

Lemma pg_type_outside (lo hi : Z) (p p' : Page) :
  same_outside lo hi p p' -> 8 <= lo \/ hi <= 4 -> pg_type p' = pg_type p.
Proof.
  intros. unfold pg_type. f_equal.
  eapply get_u_same_outside; [done|done|]. unfold OFF_PAGE_TYPE. lia.
Qed.
