(* ===== verification/Node.v ===== *)
(** * B+Tree nodes: the slotted page ([src/src/btree/btree_defs.h],
    [node.h], [node.cpp])

    A [Node] is a view of a page: its read-only methods are functions of the
    page, its mutating ones are in the monad over the page.  [split_into]
    works on the pair (this, right), [merge_*] and [steal_*] on the pair of the
    node and its sibling.  The parts of [merge_from] and
    [steal_from_*] that fetch child pages are in [BTree.v]. *)

From S2P Require Import Prelude.
From S2P Require Import Buffers.
From S2P Require Import Page.

(** ** [btree_defs.h] *)

(** Data-area offsets of the fields of [struct NodeHeader]. *)
Definition OFF_NUM_KEYS : Z := 0.
Definition OFF_FREE_END : Z := 2.
Definition OFF_CELL_END : Z := 4.
Definition OFF_PARENT_ID : Z := 8.
Definition OFF_RIGHT_SIBLING : Z := 12.
Definition OFF_LEFT_SIBLING : Z := 16.
Definition OFF_FIRST_CHILD : Z := 20.
Definition NODE_HEADER_SIZE : Z := 32.

Definition SLOT_ARRAY_START : Z := NODE_HEADER_SIZE.
Definition NODE_DATA_SIZE : Z := DATA_SIZE.
Definition NODE_USABLE_SIZE : Z := DATA_SIZE - NODE_HEADER_SIZE.

Definition leaf_cell_size (key_len val_len : Z) : Z := 2 + key_len + 2 + val_len.
Definition internal_cell_size (key_len : Z) : Z := 2 + key_len + 4.
Definition total_cell_cost (cell_payload_bytes : Z) : Z := 2 + cell_payload_bytes.

(** ** Keys are compared as [std::string_view]: bytewise, unsigned *)

Fixpoint key_ltb (a b : bytes) : bool :=
  match a, b with
  | _, [] => false
  | [], _ :: _ => true
  | x :: a', y :: b' =>
      if Z_of_byte x <? Z_of_byte y then true
      else if Z_of_byte y <? Z_of_byte x then false
      else key_ltb a' b'
  end.

(** ** Header accessors: [hdr().field] and its assignment *)

Definition num_keys : Page -> result Z := ld_u 2 (data OFF_NUM_KEYS).
Definition free_end : Page -> result Z := ld_u 2 (data OFF_FREE_END).
Definition cell_end : Page -> result Z := ld_u 2 (data OFF_CELL_END).
Definition parent_id : Page -> result Z := ld_s 4 (data OFF_PARENT_ID).
Definition right_sibling : Page -> result Z := ld_s 4 (data OFF_RIGHT_SIBLING).
Definition left_sibling : Page -> result Z := ld_s 4 (data OFF_LEFT_SIBLING).
Definition first_child : Page -> result Z := ld_s 4 (data OFF_FIRST_CHILD).

Definition set_num_keys : Z -> M Page unit := st_i 2 (data OFF_NUM_KEYS).
Definition set_free_end : Z -> M Page unit := st_i 2 (data OFF_FREE_END).
Definition set_cell_end : Z -> M Page unit := st_i 2 (data OFF_CELL_END).
Definition set_parent_id : Z -> M Page unit := st_i 4 (data OFF_PARENT_ID).
Definition set_right_sibling : Z -> M Page unit := st_i 4 (data OFF_RIGHT_SIBLING).
Definition set_left_sibling : Z -> M Page unit := st_i 4 (data OFF_LEFT_SIBLING).
Definition set_first_child : Z -> M Page unit := st_i 4 (data OFF_FIRST_CHILD).

Definition is_leaf (p : Page) : result bool :=
  let? t := page_type p in Ok (bool_decide (t = BTREE_LEAF)).

(** The asserts of the constructor [Node::Node]. *)
Definition Node_ctor (p : Page) : result unit :=
  let? t := page_type p in
  assert_r (bool_decide (t = BTREE_LEAF) || bool_decide (t = BTREE_INTERNAL)).

(** [slots()[i]] *)
Definition slot_at (i : Z) : Page -> result Z := ld_u 2 (data (SLOT_ARRAY_START + 2 * i)).
Definition set_slot (i off : Z) : M Page unit := st_i 2 (data (SLOT_ARRAY_START + 2 * i)) off.

(** ** Construction *)

(** The bytes of a local [NodeHeader h] with the given fields. *)
Definition node_header (nk fe ce par rs ls fc : Z) : bytes :=
  le_enc 2 nk ++ le_enc 2 fe ++ le_enc 2 ce ++ le_enc 2 0 ++ le_enc 4 par ++
  le_enc 4 rs ++ le_enc 4 ls ++ le_enc 4 fc ++ le_enc 4 0 ++ le_enc 4 0.

Definition init_leaf (pid parent : Z) : M Page unit :=
  do* clear in
  do* set_page_id pid in
  do* set_page_type BTREE_LEAF in
  st (data 0) (node_header 0 SLOT_ARRAY_START NODE_DATA_SIZE parent
                 INVALID_PAGE_ID INVALID_PAGE_ID INVALID_PAGE_ID).

Definition init_internal (pid parent : Z) : M Page unit :=
  do* clear in
  do* set_page_id pid in
  do* set_page_type BTREE_INTERNAL in
  st (data 0) (node_header 0 SLOT_ARRAY_START NODE_DATA_SIZE parent
                 INVALID_PAGE_ID INVALID_PAGE_ID INVALID_PAGE_ID).

(** ** Capacity queries *)

Definition free_space (p : Page) : result Z :=
  let? ce := cell_end p in
  let? fe := free_end p in
  do? assert_r (fe <=? ce) in
  Ok (ce - fe).

Definition is_full (new_cell_bytes : Z) (p : Page) : result bool :=
  let? fs := free_space p in Ok (fs <? total_cell_cost new_cell_bytes).

Definition underflow (p : Page) : result bool :=
  let? fs := free_space p in
  let occupied := wrap 64 (NODE_USABLE_SIZE - fs) in
  Ok (occupied <? NODE_USABLE_SIZE / 2).

(** ** Key, value and child access *)

Definition key_at (slot : Z) (p : Page) : result bytes :=
  let? n := num_keys p in
  do? assert_r (slot <? n) in
  let? off := slot_at slot p in
  let? klen := ld_u 2 (data off) p in
  ld (data off + 2) klen p.

Definition value_at (slot : Z) (p : Page) : result bytes :=
  let? leaf := is_leaf p in
  do? assert_r leaf in
  let? n := num_keys p in
  do? assert_r (slot <? n) in
  let? off := slot_at slot p in
  let? klen := ld_u 2 (data off) p in
  let vptr := data off + 2 + klen in
  let? vlen := ld_u 2 vptr p in
  ld (vptr + 2) vlen p.

Definition child_at (slot : Z) (p : Page) : result Z :=
  let? leaf := is_leaf p in
  do? assert_r (negb leaf) in
  let? n := num_keys p in
  do? assert_r (slot <? n) in
  let? off := slot_at slot p in
  let? klen := ld_u 2 (data off) p in
  ld_s 4 (data off + 2 + klen) p.

(** ** Search *)

Fixpoint lower_bound_loop (fuel : nat) (key : bytes) (lo hi : Z) (p : Page) : result Z :=
  if lo <? hi then
    match fuel with
    | O => Err OutOfFuel
    | Datatypes.S fuel' =>
        let mid := wrap 16 (lo + (hi - lo) / 2) in
        let? k := key_at mid p in
        if key_ltb k key then lower_bound_loop fuel' key (wrap 16 (mid + 1)) hi p
        else lower_bound_loop fuel' key lo mid p
    end
  else Ok lo.

(** The interval halves, so 17 rounds are enough for 16-bit bounds
    ([lower_bound_terminates]). *)
Definition LOWER_BOUND_FUEL : nat := 17.

Definition lower_bound (key : bytes) (p : Page) : result Z :=
  let? n := num_keys p in lower_bound_loop LOWER_BOUND_FUEL key 0 n p.

(** ** Slot array helpers *)

Definition move_slot (from to : Z) : M Page unit :=
  let* off := query (slot_at from) in set_slot to off.

Definition shift_slots_right (from_slot : Z) : M Page unit :=
  let* n := query num_keys in
  for_down (Z.to_nat (n - from_slot)) n (fun i => move_slot (i - 1) i).

Definition shift_slots_left (from_slot : Z) : M Page unit :=
  let* n := query num_keys in
  for_up (Z.to_nat (n - 1 - from_slot)) from_slot (fun i => move_slot (i + 1) i).

(** ** Write helpers *)

(** The tail shared by the cell writers: [shift_slots_right(s);
    slots()[s] = cell_off; h.free_end += 2; ++h.num_keys]. *)
Definition add_slot (insert_slot cell_off : Z) : M Page unit :=
  do* shift_slots_right insert_slot in
  do* set_slot insert_slot cell_off in
  let* fe := query free_end in
  do* set_free_end (fe + 2) in
  let* n := query num_keys in
  set_num_keys (n + 1).

Definition write_leaf_cell (insert_slot : Z) (key value : bytes) : M Page unit :=
  let payload := leaf_cell_size (zlen key) (zlen value) in
  let* full := query (is_full payload) in
  do* assert_ (negb full) in
  let* ce := query cell_end in
  do* set_cell_end (ce - payload) in
  let* cell_off := query cell_end in
  let dst := data cell_off in
  do* st_i 2 dst (zlen key) in
  do* st (dst + 2) key in
  do* st_i 2 (dst + 2 + zlen key) (zlen value) in
  do* st (dst + 2 + zlen key + 2) value in
  add_slot insert_slot cell_off.

Definition write_internal_cell (insert_slot : Z) (key : bytes) (right_child : Z) : M Page unit :=
  let payload := internal_cell_size (zlen key) in
  let* full := query (is_full payload) in
  do* assert_ (negb full) in
  let* ce := query cell_end in
  do* set_cell_end (ce - payload) in
  let* cell_off := query cell_end in
  let dst := data cell_off in
  do* st_i 2 dst (zlen key) in
  do* st (dst + 2) key in
  do* st_i 4 (dst + 2 + zlen key) right_child in
  add_slot insert_slot cell_off.

(** ** Compact *)

Fixpoint collect {A : Type} (cell_at : Z -> Page -> result A) (n : nat) (i : Z) (p : Page)
  : result (list A) :=
  match n with
  | O => Ok []
  | Datatypes.S n' =>
      let? c := cell_at i p in
      let? cs := collect cell_at n' (i + 1) p in
      Ok (c :: cs)
  end.

Definition leaf_cell_at (i : Z) (p : Page) : result (bytes * bytes) :=
  let? k := key_at i p in let? v := value_at i p in Ok (k, v).

Definition internal_cell_at (i : Z) (p : Page) : result (bytes * Z) :=
  let? k := key_at i p in let? c := child_at i p in Ok (k, c).

(** The reset in the middle of [compact]: the counters start over, everything
    else of the header is as saved. *)
Definition compact_reset (saved_pid : Z) (saved_ptype : PageType) (saved_hdr : bytes)
    (saved_first_child : Z) : M Page unit :=
  do* clear in
  do* set_page_id saved_pid in
  do* set_page_type saved_ptype in
  do* st (data 0) saved_hdr in
  do* set_num_keys 0 in
  do* set_free_end SLOT_ARRAY_START in
  do* set_cell_end NODE_DATA_SIZE in
  set_first_child saved_first_child.

Definition compact : M Page unit :=
  let* n := query num_keys in
  if n =? 0 then set_cell_end NODE_DATA_SIZE
  else
    let* saved_pid := query page_id in
    let* saved_ptype := query page_type in
    let* saved_hdr := query (ld (data 0) NODE_HEADER_SIZE) in
    let* saved_first_child := query first_child in
    let* leaf := query is_leaf in
    let* leaf_cells := query (fun p =>
      if leaf then collect leaf_cell_at (Z.to_nat n) 0 p else Ok []) in
    let* internal_cells := query (fun p =>
      if leaf then Ok [] else collect internal_cell_at (Z.to_nat n) 0 p) in
    do* compact_reset saved_pid saved_ptype saved_hdr saved_first_child in
    let* leaf' := query is_leaf in
    if leaf' then
      for_each leaf_cells (fun c =>
        let* m := query num_keys in write_leaf_cell m c.1 c.2)
    else
      for_each internal_cells (fun c =>
        let* m := query num_keys in write_internal_cell m c.1 c.2).

(** ** Remove *)

Definition remove_cell (slot : Z) : M Page unit :=
  let* n := query num_keys in
  do* assert_ (slot <? n) in
  do* shift_slots_left slot in
  let* n' := query num_keys in
  do* set_num_keys (n' - 1) in
  let* fe := query free_end in
  set_free_end (fe - 2).

(** ** Insertion *)

(** [if (is_full(payload)) compact(); if (is_full(payload)) return false;] then
    the cell is written and [true] returned. *)
Definition make_room (payload : Z) (write : M Page unit) : M Page bool :=
  let* full := query (is_full payload) in
  do* (if full then compact else ret tt) in
  let* still_full := query (is_full payload) in
  if still_full then ret false
  else do* write in ret true.

Definition insert_leaf_cell (key value : bytes) : M Page bool :=
  let* leaf := query is_leaf in
  do* assert_ leaf in
  let payload := leaf_cell_size (zlen key) (zlen value) in
  let* slot := query (lower_bound key) in
  let* n := query num_keys in
  let* present := query (fun p =>
    if slot <? n then let? k := key_at slot p in Ok (bool_decide (k = key))
    else Ok false) in
  if present then
    let* old_val := query (value_at slot) in
    if zlen old_val =? zlen value then
      let* off := query (slot_at slot) in
      let* klen := query (ld_u 2 (data off)) in
      do* st (data off + 2 + klen + 2) value in
      ret true
    else
      do* remove_cell slot in
      let* slot' := query (lower_bound key) in
      make_room payload (write_leaf_cell slot' key value)
  else make_room payload (write_leaf_cell slot key value).

Definition insert_separator (key : bytes) (right_child : Z) : M Page bool :=
  let* leaf := query is_leaf in
  do* assert_ (negb leaf) in
  let payload := internal_cell_size (zlen key) in
  let* slot := query (lower_bound key) in
  make_room payload (write_internal_cell slot key right_child).

Definition update_separator_key (slot : Z) (new_key : bytes) : M Page unit :=
  let* leaf := query is_leaf in
  do* assert_ (negb leaf) in
  let* n := query num_keys in
  do* assert_ (slot <? n) in
  let* k := query (key_at slot) in
  do* assert_ (zlen k =? zlen new_key) in
  let* off := query (slot_at slot) in
  do* st_i 2 (data off) (zlen new_key) in
  st (data off + 2) new_key.

Definition update_child_at (slot child_id : Z) : M Page unit :=
  let* leaf := query is_leaf in
  do* assert_ (negb leaf) in
  let* n := query num_keys in
  do* assert_ (slot <? n) in
  let* off := query (slot_at slot) in
  let* klen := query (ld_u 2 (data off)) in
  st_i 4 (data off + 2 + klen) child_id.

(** ** Split: the pair (this, right) *)

Definition on_this {A : Type} (m : M Page A) : M (Page * Page) A :=
  zoom fst (fun p pr => (p, pr.2)) m.
Definition on_right {A : Type} (m : M Page A) : M (Page * Page) A :=
  zoom snd (fun p pr => (pr.1, p)) m.

(** The loop that walks the cells from the left until half the bytes are
    passed: [cost i] is the size of cell [i] with its slot. *)
Fixpoint split_loop (cost : Z -> Page -> result Z) (fuel : nat) (i half acc idx : Z) (p : Page)
  : result Z :=
  match fuel with
  | O => Ok idx
  | Datatypes.S fuel' =>
      let? cell_bytes := cost i p in
      if (half <? acc + cell_bytes) && (0 <? i) then Ok i
      else split_loop cost fuel' (i + 1) half (acc + cell_bytes) (wrap 16 (i + 1)) p
  end.

Definition leaf_cost (i : Z) (p : Page) : result Z :=
  let? k := key_at i p in
  let? v := value_at i p in
  Ok (leaf_cell_size (zlen k) (zlen v) + 2).

Definition internal_cost (i : Z) (p : Page) : result Z :=
  let? k := key_at i p in Ok (internal_cell_size (zlen k) + 2).

(** [NODE_USABLE_SIZE - free_space()], halved. *)
Definition half_used (p : Page) : result Z :=
  let? fs := free_space p in Ok (wrap 64 (NODE_USABLE_SIZE - fs) / 2).

(** Copy cells [from .. from + n) of this into right. *)
Definition copy_leaf_cells (n : nat) (from : Z) : M (Page * Page) unit :=
  for_up n from (fun i =>
    let* k := on_this (query (key_at i)) in
    let* v := on_this (query (value_at i)) in
    let* ok := on_right (insert_leaf_cell k v) in
    assert_ ok).

Definition copy_internal_cells (n : nat) (from : Z) : M (Page * Page) unit :=
  for_up n from (fun i =>
    let* k := on_this (query (key_at i)) in
    let* c := on_this (query (child_at i)) in
    let* ok := on_right (insert_separator k c) in
    assert_ ok).

(** [for (int i = n - 1; i >= from; --i) remove_cell(i);] *)
Definition remove_tail (n from : Z) : M Page unit :=
  for_down (Z.to_nat (n - from)) (n - 1) remove_cell.

Definition split_leaf (n : Z) : M (Page * Page) bytes :=
  let* half := on_this (query half_used) in
  let* split_idx := on_this (query (split_loop leaf_cost (Z.to_nat n) 0 half 0 0)) in
  let* separator_key := on_this (query (key_at split_idx)) in
  do* copy_leaf_cells (Z.to_nat (n - split_idx)) split_idx in
  do* on_this (remove_tail n split_idx) in
  let* rs := on_this (query right_sibling) in
  do* on_right (set_right_sibling rs) in
  let* pid := on_this (query page_id) in
  do* on_right (set_left_sibling pid) in
  let* rpid := on_right (query page_id) in
  do* on_this (set_right_sibling rpid) in
  ret separator_key.

Definition split_internal (n : Z) : M (Page * Page) bytes :=
  let* half := on_this (query half_used) in
  let* mid0 := on_this (query (split_loop internal_cost (Z.to_nat n) 0 half 0 0)) in
  let mid1 := if mid0 =? 0 then 1 else mid0 in
  let mid := if n - 1 <=? mid1 then wrap 16 (n - 1) else mid1 in
  let* separator_key := on_this (query (key_at mid)) in
  let* fc := on_this (query (child_at mid)) in
  do* on_right (set_first_child fc) in
  do* copy_internal_cells (Z.to_nat (n - (mid + 1))) (mid + 1) in
  do* on_this (remove_tail n mid) in
  ret separator_key.

Definition split_into : M (Page * Page) bytes :=
  let* n := on_this (query num_keys) in
  do* assert_ (2 <=? n) in
  let* rn := on_right (query num_keys) in
  do* assert_ (rn =? 0) in
  let* par := on_this (query parent_id) in
  do* on_right (set_parent_id par) in
  let* leaf := on_this (query is_leaf) in
  if leaf then split_leaf n else split_internal n.

(** ** Merge and steal: the pair (this, right) or (this, left)

    The cells move between the two nodes; the [parent_id] of the children that
    change parent is rewritten through the buffer pool, in [BTree.v]. *)

Abbreviation on_left := on_right.

Definition merge_leaf : M (Page * Page) unit :=
  let* rn := on_right (query num_keys) in
  do* for_up (Z.to_nat rn) 0 (fun i =>
    let* k := on_right (query (key_at i)) in
    let* v := on_right (query (value_at i)) in
    let* ok := on_this (insert_leaf_cell k v) in
    assert_ ok) in
  let* rs := on_right (query right_sibling) in
  on_this (set_right_sibling rs).

Definition merge_internal (separator_key : bytes) : M (Page * Page) unit :=
  let* fc := on_right (query first_child) in
  let* ok := on_this (insert_separator separator_key fc) in
  do* assert_ ok in
  let* rn := on_right (query num_keys) in
  for_up (Z.to_nat rn) 0 (fun i =>
    let* k := on_right (query (key_at i)) in
    let* c := on_right (query (child_at i)) in
    let* ok := on_this (insert_separator k c) in
    assert_ ok).

Definition steal_left_leaf : M (Page * Page) bytes :=
  let* ln := on_left (query num_keys) in
  let last := wrap 16 (ln - 1) in
  let* k := on_left (query (key_at last)) in
  let* v := on_left (query (value_at last)) in
  do* on_left (remove_cell last) in
  let* ok := on_this (insert_leaf_cell k v) in
  do* assert_ ok in
  ret k.

(** The cell [(key, child)] written by hand in front of the others. *)
Definition push_front (key : bytes) (child : Z) : M Page unit :=
  let payload := internal_cell_size (zlen key) in
  let* full := query (is_full payload) in
  do* (if full then compact else ret tt) in
  let* full' := query (is_full payload) in
  do* assert_ (negb full') in
  let* ce := query cell_end in
  do* set_cell_end (ce - payload) in
  let* cell_off := query cell_end in
  let dst := data cell_off in
  do* st_i 2 dst (zlen key) in
  do* st (dst + 2) key in
  do* st_i 4 (dst + 2 + zlen key) child in
  add_slot 0 cell_off.

(** The new separator and the child that changes parent. *)
Definition steal_left_internal : M (Page * Page) (bytes * Z) :=
  let* ln := on_left (query num_keys) in
  let last := wrap 16 (ln - 1) in
  let* stolen_key := on_left (query (key_at last)) in
  let* stolen_child := on_left (query (child_at last)) in
  do* on_left (remove_cell last) in
  let* old_fc := on_this (query first_child) in
  do* on_this (set_first_child stolen_child) in
  do* on_this (push_front stolen_key old_fc) in
  ret (stolen_key, stolen_child).

Definition steal_right_leaf : M (Page * Page) bytes :=
  let* k := on_right (query (key_at 0)) in
  let* v := on_right (query (value_at 0)) in
  do* on_right (remove_cell 0) in
  let* ok := on_this (insert_leaf_cell k v) in
  do* assert_ ok in
  on_right (query (key_at 0)).

Definition steal_right_internal : M (Page * Page) (bytes * Z) :=
  let* stolen_key := on_right (query (key_at 0)) in
  let* stolen_child := on_right (query first_child) in
  let* c0 := on_right (query (child_at 0)) in
  do* on_right (set_first_child c0) in
  do* on_right (remove_cell 0) in
  let* ok := on_this (insert_separator stolen_key stolen_child) in
  do* assert_ ok in
  ret (stolen_key, stolen_child).
