(* ===== verification/NodeSlots.v ===== *)
(** * The slotted-page invariant and the slot array

    [slotted p oes] says that the page [p] holds the cells [oes]: the list, in
    slot order, of the pairs (heap offset, encoded bytes).  This file proves
    what the slot-array helpers and the two cell-independent operations
    ([add_slot], [remove_cell]) do to it. *)

From S2P Require Import Prelude.
From S2P Require Import Buffers.
From S2P Require Import Page.
From S2P Require Import Node.

Create HintDb keyv_consts.
#[export] Hint Unfold data SLOT_ARRAY_START NODE_HEADER_SIZE HEADER_SIZE NODE_DATA_SIZE
  NODE_USABLE_SIZE DATA_SIZE PAGE_SIZE OFF_NUM_KEYS OFF_FREE_END OFF_CELL_END
  OFF_PARENT_ID OFF_RIGHT_SIBLING OFF_LEFT_SIBLING OFF_FIRST_CHILD
  OFF_PAGE_ID OFF_PAGE_TYPE OFF_PAGE_LSN : keyv_consts.

(** Linear arithmetic with the layout constants in view. *)
Ltac klia := autounfold with keyv_consts in *; lia.

(** The header fields as values. *)
Definition pg_num (p : Page) : Z := get_u 2 (data OFF_NUM_KEYS) p.
Definition pg_fe (p : Page) : Z := get_u 2 (data OFF_FREE_END) p.
Definition pg_ce (p : Page) : Z := get_u 2 (data OFF_CELL_END) p.
Definition pg_parent (p : Page) : Z := get_s 4 (data OFF_PARENT_ID) p.
Definition pg_right (p : Page) : Z := get_s 4 (data OFF_RIGHT_SIBLING) p.
Definition pg_left (p : Page) : Z := get_s 4 (data OFF_LEFT_SIBLING) p.
Definition pg_first (p : Page) : Z := get_s 4 (data OFF_FIRST_CHILD) p.
Definition pg_slot (i : Z) (p : Page) : Z := get_u 2 (data (SLOT_ARRAY_START + 2 * i)) p.

(** What the cell operations leave alone: identity, type and links. *)
Definition meta (p : Page) : Z * PageType * (Z * Z * Z * Z) :=
  (pg_id p, pg_type p, (pg_parent p, pg_right p, pg_left p, pg_first p)).

Definition cell_ok (p : Page) (ce : Z) (c : Z * bytes) : Prop :=
  ce <= c.1 /\ c.1 + zlen c.2 <= NODE_DATA_SIZE /\ rd (data c.1) (zlen c.2) p = c.2.

Definition disj (a b : Z * bytes) : Prop :=
  a.1 + zlen a.2 <= b.1 \/ b.1 + zlen b.2 <= a.1.

Fixpoint pairwise {A : Type} (R : A -> A -> Prop) (l : list A) : Prop :=
  match l with
  | [] => True
  | x :: l' => Forall (R x) l' /\ pairwise R l'
  end.

Definition cells_size (oes : list (Z * bytes)) : Z :=
  foldr (fun c acc => zlen c.2 + acc) 0 oes.

Record slotted (p : Page) (oes : list (Z * bytes)) : Prop := {
  sl_len : zlen p = PAGE_SIZE;
  sl_num : pg_num p = zlen oes;
  sl_fe : pg_fe p = SLOT_ARRAY_START + 2 * zlen oes;
  sl_le : pg_fe p <= pg_ce p;
  sl_ce : pg_ce p <= NODE_DATA_SIZE;
  sl_slots : forall i c, oes !! i = Some c -> pg_slot (Z.of_nat i) p = c.1;
  sl_cells : Forall (cell_ok p (pg_ce p)) oes;
  sl_disj : pairwise disj oes;
  sl_size : cells_size oes <= NODE_DATA_SIZE - pg_ce p;
}.

(** ** Pairwise relations and sizes of cell lists *)

#[export] Instance disj_sym : Symmetric disj.
Proof. intros a b [H|H]; [by right|by left]. Qed.

Lemma pairwise_middle {A} (R : A -> A -> Prop) `{!Symmetric R} (l1 l2 : list A) (x : A) :
  pairwise R (l1 ++ x :: l2) <-> Forall (R x) (l1 ++ l2) /\ pairwise R (l1 ++ l2).
Proof.
  induction l1 as [|y l1 IH]; simpl; [tauto|].
  rewrite IH, !Forall_app, !Forall_cons, Forall_app. split; intros; destruct_and!; split_and!; auto; by symmetry.
Qed.

Lemma pairwise_delete {A} (R : A -> A -> Prop) `{!Symmetric R} (l : list A) (i : nat) :
  pairwise R l -> pairwise R (delete i l).
Proof.
  intros H. destruct (l !! i) as [x|] eqn:Hi.
  - rewrite delete_take_drop. rewrite <- (take_drop_middle l i x Hi) in H.
    by apply pairwise_middle in H as [_ H].
  - apply lookup_ge_None in Hi. rewrite delete_take_drop.
    rewrite take_ge, drop_ge by lia. by rewrite app_nil_r.
Qed.

Lemma pairwise_lookup {A} (R : A -> A -> Prop) `{!Symmetric R} (l : list A) (i j : nat) (x y : A) :
  pairwise R l -> l !! i = Some x -> l !! j = Some y -> i <> j -> R x y.
Proof.
  revert i j. induction l as [|z l IH]; intros i j Hp Hi Hj Hij; [done|].
  destruct Hp as [Hz Hp]. rewrite Forall_lookup in Hz.
  destruct i as [|i], j as [|j]; simplify_eq/=; eauto.
Qed.

Lemma cells_size_app (l1 l2 : list (Z * bytes)) :
  cells_size (l1 ++ l2) = cells_size l1 + cells_size l2.
Proof. induction l1 as [|c l1 IH]; simpl; lia. Qed.

Lemma cells_size_nonneg (l : list (Z * bytes)) : 0 <= cells_size l.
Proof. induction l as [|c l IH]; simpl; [lia|]. pose proof (zlen_nonneg c.2). lia. Qed.

Lemma cells_size_middle (l1 l2 : list (Z * bytes)) (c : Z * bytes) :
  cells_size (l1 ++ c :: l2) = zlen c.2 + cells_size (l1 ++ l2).
Proof. rewrite !cells_size_app. simpl. lia. Qed.

Lemma cells_size_delete (l : list (Z * bytes)) (i : nat) (c : Z * bytes) :
  l !! i = Some c -> cells_size (delete i l) = cells_size l - zlen c.2.
Proof.
  intros Hi. rewrite <- (take_drop_middle l i c Hi) at 2.
  rewrite cells_size_middle, delete_take_drop. lia.
Qed.

(** ** Fields of a page of the right length *)

Section fields.
Context (p : Page) (Hlen : zlen p = PAGE_SIZE).

Lemma num_keys_ok : num_keys p = Ok (pg_num p).
Proof. apply ld_u_ok; rewrite ?Hlen; klia. Qed.
Lemma free_end_ok : free_end p = Ok (pg_fe p).
Proof. apply ld_u_ok; rewrite ?Hlen; klia. Qed.
Lemma cell_end_ok : cell_end p = Ok (pg_ce p).
Proof. apply ld_u_ok; rewrite ?Hlen; klia. Qed.
Lemma parent_id_ok : parent_id p = Ok (pg_parent p).
Proof. apply ld_s_ok; rewrite ?Hlen; klia. Qed.
Lemma right_sibling_ok : right_sibling p = Ok (pg_right p).
Proof. apply ld_s_ok; rewrite ?Hlen; klia. Qed.
Lemma left_sibling_ok : left_sibling p = Ok (pg_left p).
Proof. apply ld_s_ok; rewrite ?Hlen; klia. Qed.
Lemma first_child_ok : first_child p = Ok (pg_first p).
Proof. apply ld_s_ok; rewrite ?Hlen; klia. Qed.
Lemma is_leaf_ok : is_leaf p = Ok (bool_decide (pg_type p = BTREE_LEAF)).
Proof. unfold is_leaf. by rewrite page_type_ok. Qed.
Lemma slot_at_ok (i : Z) :
  0 <= i -> data (SLOT_ARRAY_START + 2 * i) + 2 <= PAGE_SIZE ->
  slot_at i p = Ok (pg_slot i p).
Proof. intros. apply ld_u_ok; rewrite ?Hlen; klia. Qed.

(** Assigning a 16-bit field. *)
Lemma set_u16_ok (off z : Z) :
  0 <= off -> off + 2 <= PAGE_SIZE -> 0 <= z < 65536 ->
  exists p', st_i 2 off z p = (Ok tt, p') /\ same_outside off (off + 2) p p' /\
    get_u 2 off p' = z.
Proof.
  intros. rewrite st_i_ok by (rewrite ?Hlen; lia). eexists. split; [done|]. split.
  - apply (wr_same_outside off (le_enc 2 z)); rewrite ?Hlen; done.
  - rewrite get_u_wr by (rewrite ?Hlen; lia). by rewrite Z.mod_small by lia.
Qed.

(** Assigning a 32-bit page id. *)
Lemma set_i32_ok (off z : Z) :
  0 <= off -> off + 4 <= PAGE_SIZE -> is_page_id z ->
  exists p', st_i 4 off z p = (Ok tt, p') /\ same_outside off (off + 4) p p' /\
    get_s 4 off p' = z.
Proof.
  intros Ho Hb Hz. unfold is_page_id in Hz.
  rewrite st_i_ok by (rewrite ?Hlen; lia). eexists. split; [done|]. split.
  - apply (wr_same_outside off (le_enc 4 z)); rewrite ?Hlen; done.
  - apply (get_s_wr 4); rewrite ?Hlen; lia.
Qed.
End fields.

Lemma pg_num_range (p : Page) : 0 <= pg_num p < 65536.
Proof. apply (get_u_range 2); lia. Qed.
Lemma pg_fe_range (p : Page) : 0 <= pg_fe p < 65536.
Proof. apply (get_u_range 2); lia. Qed.
Lemma pg_ce_range (p : Page) : 0 <= pg_ce p < 65536.
Proof. apply (get_u_range 2); lia. Qed.
Lemma pg_slot_range (i : Z) (p : Page) : 0 <= pg_slot i p < 65536.
Proof. apply (get_u_range 2); lia. Qed.

(** The positions of a page outside the counters and the slots [a, b). *)
Definition off_slots (a b : Z) (i : Z) : Prop :=
  (i < data OFF_NUM_KEYS \/ data OFF_CELL_END <= i) /\
  (i < data (SLOT_ARRAY_START + 2 * a) \/ data (SLOT_ARRAY_START + 2 * b) <= i).

(** ** The shifting loops *)

Lemma move_slot_ok (p : Page) (from to : Z) :
  zlen p = PAGE_SIZE -> 0 <= from -> 0 <= to ->
  data (SLOT_ARRAY_START + 2 * from) + 2 <= PAGE_SIZE ->
  data (SLOT_ARRAY_START + 2 * to) + 2 <= PAGE_SIZE ->
  exists p', move_slot from to p = (Ok tt, p') /\
    same_outside (data (SLOT_ARRAY_START + 2 * to)) (data (SLOT_ARRAY_START + 2 * to) + 2) p p' /\
    pg_slot to p' = pg_slot from p.
Proof.
  intros. unfold move_slot. rewrite (bind_query _ _ _ (pg_slot from p)) by (by apply slot_at_ok).
  apply set_u16_ok; [done|klia|done|apply pg_slot_range].
Qed.

Lemma pg_slot_outside (lo hi i : Z) (p p' : Page) :
  same_outside lo hi p p' -> 0 <= i ->
  data (SLOT_ARRAY_START + 2 * i) + 2 <= lo \/ hi <= data (SLOT_ARRAY_START + 2 * i) ->
  pg_slot i p' = pg_slot i p.
Proof. intros. eapply get_u_same_outside; [done|klia|done]. Qed.

(** [for (i = top; m times; --i) s[i] = s[i - 1];] *)
Lemma shift_right_loop (m : nat) (p : Page) (top : Z) :
  zlen p = PAGE_SIZE -> 0 <= top - Z.of_nat m ->
  data (SLOT_ARRAY_START + 2 * top) + 2 <= PAGE_SIZE ->
  exists p', for_down m top (fun i => move_slot (i - 1) i) p = (Ok tt, p') /\
    same_outside (data (SLOT_ARRAY_START + 2 * (top - Z.of_nat m + 1)))
                 (data (SLOT_ARRAY_START + 2 * top) + 2) p p' /\
    forall j, top - Z.of_nat m < j <= top -> pg_slot j p' = pg_slot (j - 1) p.
Proof.
  revert p top. induction m as [|m IH]; intros p top Hlen Hm Htop.
  - exists p. split; [done|]. split; [apply same_outside_refl|]. lia.
  - destruct (move_slot_ok p (top - 1) top) as (p1 & E1 & F1 & S1); [done|klia..|].
    pose proof (same_outside_length _ _ _ _ F1) as L1.
    destruct (IH p1 (top - 1)) as (p' & E & F & S); [congruence|klia..|].
    exists p'. cbn [for_down]. mstep E1. split; [exact E|]. split.
    + eapply same_outside_trans; eapply same_outside_weaken; try done; klia.
    + intros j Hj. destruct (decide (j = top)) as [->|].
      * rewrite <- S1. eapply pg_slot_outside; [exact F|klia..].
      * rewrite S by lia. eapply pg_slot_outside; [exact F1|klia..].
Qed.

(** [for (i = from; m times; ++i) s[i] = s[i + 1];] *)
Lemma shift_left_loop (m : nat) (p : Page) (from : Z) :
  zlen p = PAGE_SIZE -> 0 <= from ->
  data (SLOT_ARRAY_START + 2 * (from + Z.of_nat m)) + 2 <= PAGE_SIZE ->
  exists p', for_up m from (fun i => move_slot (i + 1) i) p = (Ok tt, p') /\
    same_outside (data (SLOT_ARRAY_START + 2 * from))
                 (data (SLOT_ARRAY_START + 2 * (from + Z.of_nat m))) p p' /\
    forall j, from <= j < from + Z.of_nat m -> pg_slot j p' = pg_slot (j + 1) p.
Proof.
  revert p from. induction m as [|m IH]; intros p from Hlen Hf Hm.
  - exists p. split; [done|]. split; [apply same_outside_refl|]. lia.
  - destruct (move_slot_ok p (from + 1) from) as (p1 & E1 & F1 & S1); [done|klia..|].
    pose proof (same_outside_length _ _ _ _ F1) as L1.
    destruct (IH p1 (from + 1)) as (p' & E & F & S); [congruence|klia..|].
    exists p'. cbn [for_up]. mstep E1. split; [exact E|]. split.
    + eapply same_outside_trans; eapply same_outside_weaken; try done; klia.
    + intros j Hj. destruct (decide (j = from)) as [->|].
      * rewrite <- S1. eapply pg_slot_outside; [exact F|klia..].
      * rewrite S by lia. eapply pg_slot_outside; [exact F1|klia..].
Qed.

(** ** [add_slot] and [remove_cell] *)

Lemma pg_slot_on (P : Z -> Prop) (i : Z) (p p' : Page) :
  same_on P p p' -> 0 <= i ->
  (forall j, data (SLOT_ARRAY_START + 2 * i) <= j < data (SLOT_ARRAY_START + 2 * i) + 2 -> P j) ->
  pg_slot i p' = pg_slot i p.
Proof. intros. eapply get_u_same_on; [done|klia|done]. Qed.

Lemma add_slot_ok (p : Page) (i off : Z) :
  zlen p = PAGE_SIZE -> 0 <= i <= pg_num p -> 0 <= off < 65536 ->
  data (SLOT_ARRAY_START + 2 * pg_num p) + 2 <= PAGE_SIZE -> pg_fe p < 65000 ->
  exists p', add_slot i off p = (Ok tt, p') /\
    same_on (off_slots i (pg_num p + 1)) p p' /\
    pg_num p' = pg_num p + 1 /\ pg_fe p' = pg_fe p + 2 /\ pg_slot i p' = off /\
    forall j, i < j <= pg_num p -> pg_slot j p' = pg_slot (j - 1) p.
Proof.
  intros Hlen Hi Hoff Hb Hfe. unfold add_slot, shift_slots_right.
  rewrite bind_assoc. rewrite (bind_query _ _ _ _ (num_keys_ok p Hlen)).
  destruct (shift_right_loop (Z.to_nat (pg_num p - i)) p (pg_num p)) as (p1 & E1 & F1 & S1);
    [done|klia..|]. rewrite Z2Nat.id in F1, S1 by lia. mstep E1.
  pose proof (same_outside_length _ _ _ _ F1) as L1.
  destruct (set_u16_ok p1 ltac:(congruence) (data (SLOT_ARRAY_START + 2 * i)) off)
    as (p2 & E2 & F2 & S2); [klia..|]. unfold set_slot. mstep E2.
  pose proof (same_outside_length _ _ _ _ F2) as L2.
  rewrite (bind_query _ _ _ _ (free_end_ok p2 ltac:(congruence))).
  assert (Hfe2 : pg_fe p2 = pg_fe p).
  { unfold pg_fe. rewrite (get_u_same_outside _ _ _ _ _ _ F2) by klia.
    by rewrite (get_u_same_outside _ _ _ _ _ _ F1) by klia. }
  pose proof (pg_fe_range p) as Rfe. pose proof (pg_num_range p) as Rn.
  destruct (set_u16_ok p2 ltac:(congruence) (data OFF_FREE_END) (pg_fe p2 + 2))
    as (p3 & E3 & F3 & S3); [klia..|]. unfold set_free_end. mstep E3.
  pose proof (same_outside_length _ _ _ _ F3) as L3.
  rewrite (bind_query _ _ _ _ (num_keys_ok p3 ltac:(congruence))).
  assert (Hn3 : pg_num p3 = pg_num p).
  { unfold pg_num. rewrite (get_u_same_outside _ _ _ _ _ _ F3) by klia.
    rewrite (get_u_same_outside _ _ _ _ _ _ F2) by klia.
    by rewrite (get_u_same_outside _ _ _ _ _ _ F1) by klia. }
  destruct (set_u16_ok p3 ltac:(congruence) (data OFF_NUM_KEYS) (pg_num p3 + 1))
    as (p4 & E4 & F4 & S4); [klia..|]. unfold set_num_keys.
  exists p4. split; [exact E4|].
  assert (F : same_on (off_slots i (pg_num p + 1)) p p4).
  { eapply same_on_weaken.
    - eapply same_on_trans; [apply same_outside_on, F1|].
      eapply same_on_trans; [apply same_outside_on, F2|].
      eapply same_on_trans; [apply same_outside_on, F3|apply same_outside_on, F4].
    - unfold off_slots. intros j. klia. }
  split; [exact F|]. split; [unfold pg_num in *; lia|]. split.
  { unfold pg_fe in *. rewrite (get_u_same_outside _ _ _ _ _ _ F4) by klia. lia. }
  assert (Hs : forall j, 0 <= j -> pg_slot j p4 = pg_slot j p2).
  { intros j Hj. rewrite (pg_slot_outside _ _ _ _ _ F4) by klia.
    by rewrite (pg_slot_outside _ _ _ _ _ F3) by klia. }
  split; [rewrite Hs by lia; exact S2|]. intros j Hj. rewrite Hs by lia.
  rewrite (pg_slot_outside _ _ _ _ _ F2) by klia. apply S1. lia.
Qed.

Lemma remove_cell_raw (p : Page) (i : Z) :
  zlen p = PAGE_SIZE -> 0 <= i < pg_num p ->
  data (SLOT_ARRAY_START + 2 * pg_num p) <= PAGE_SIZE -> 2 <= pg_fe p ->
  exists p', remove_cell i p = (Ok tt, p') /\
    same_on (off_slots i (pg_num p)) p p' /\
    pg_num p' = pg_num p - 1 /\ pg_fe p' = pg_fe p - 2 /\
    forall j, i <= j < pg_num p - 1 -> pg_slot j p' = pg_slot (j + 1) p.
Proof.
  intros Hlen Hi Hb Hfe. unfold remove_cell, shift_slots_left.
  rewrite (bind_query _ _ _ _ (num_keys_ok p Hlen)).
  rewrite bind_assert by (apply Z.ltb_lt; lia).
  rewrite bind_assoc. rewrite (bind_query _ _ _ _ (num_keys_ok p Hlen)).
  destruct (shift_left_loop (Z.to_nat (pg_num p - 1 - i)) p i) as (p1 & E1 & F1 & S1);
    [done|klia..|]. rewrite Z2Nat.id in F1, S1 by lia. mstep E1.
  pose proof (same_outside_length _ _ _ _ F1) as L1.
  rewrite (bind_query _ _ _ _ (num_keys_ok p1 ltac:(congruence))).
  assert (Hn1 : pg_num p1 = pg_num p).
  { unfold pg_num. by rewrite (get_u_same_outside _ _ _ _ _ _ F1) by klia. }
  pose proof (pg_fe_range p) as Rfe. pose proof (pg_num_range p) as Rn.
  destruct (set_u16_ok p1 ltac:(congruence) (data OFF_NUM_KEYS) (pg_num p1 - 1))
    as (p2 & E2 & F2 & S2); [klia..|]. unfold set_num_keys. mstep E2.
  pose proof (same_outside_length _ _ _ _ F2) as L2.
  rewrite (bind_query _ _ _ _ (free_end_ok p2 ltac:(congruence))).
  assert (Hfe2 : pg_fe p2 = pg_fe p).
  { unfold pg_fe. rewrite (get_u_same_outside _ _ _ _ _ _ F2) by klia.
    by rewrite (get_u_same_outside _ _ _ _ _ _ F1) by klia. }
  destruct (set_u16_ok p2 ltac:(congruence) (data OFF_FREE_END) (pg_fe p2 - 2))
    as (p3 & E3 & F3 & S3); [klia..|]. unfold set_free_end.
  exists p3. split; [exact E3|].
  split.
  { eapply same_on_weaken.
    - eapply same_on_trans; [apply same_outside_on, F1|].
      eapply same_on_trans; [apply same_outside_on, F2|apply same_outside_on, F3].
    - unfold off_slots. intros j. klia. }
  split.
  { unfold pg_num in *. rewrite (get_u_same_outside _ _ _ _ _ _ F3) by klia. lia. }
  split; [unfold pg_fe in *; lia|]. intros j Hj.
  rewrite (pg_slot_outside _ _ _ _ _ F3) by klia.
  rewrite (pg_slot_outside _ _ _ _ _ F2) by klia. apply S1. lia.
Qed.

(** ** Preservation of the invariant *)

Lemma meta_same_on (P : Z -> Prop) (p p' : Page) :
  same_on P p p' ->
  (forall i, 0 <= i < 8 \/ data OFF_PARENT_ID <= i < data OFF_FIRST_CHILD + 4 -> P i) ->
  meta p' = meta p.
Proof.
  intros Hs HP.
  assert (H : forall off, data OFF_PARENT_ID <= off <= data OFF_FIRST_CHILD ->
                get_s 4 off p' = get_s 4 off p).
  { intros off Ho. eapply get_s_same_on; [exact Hs|klia|]. intros i Hi. apply HP. klia. }
  unfold meta, pg_parent, pg_right, pg_left, pg_first. rewrite !H by klia.
  unfold pg_id, pg_type.
  rewrite (get_s_same_on _ _ _ _ _ Hs) by first [klia | intros i Hi; apply HP; klia].
  by rewrite (get_u_same_on _ _ _ _ _ Hs) by first [klia | intros i Hi; apply HP; klia].
Qed.

Lemma cell_ok_same_on (P : Z -> Prop) (p p' : Page) (ce ce' : Z) (c : Z * bytes) :
  same_on P p p' -> cell_ok p ce c -> ce' <= ce -> 0 <= ce ->
  (forall i, data c.1 <= i < data c.1 + zlen c.2 -> P i) -> cell_ok p' ce' c.
Proof.
  intros Hs (H1 & H2 & H3) Hc H0 HP. split; [lia|]. split; [done|].
  rewrite <- H3 at 2. eapply rd_same_on; [exact Hs|klia|done].
Qed.

Lemma slotted_num_bound (p : Page) (oes : list (Z * bytes)) :
  slotted p oes -> 0 <= zlen oes /\ SLOT_ARRAY_START + 2 * zlen oes <= NODE_DATA_SIZE.
Proof. intros [Hl Hn Hf Hle Hc _ _ _ _]. pose proof (zlen_nonneg oes). lia. Qed.

Lemma slotted_remove (p : Page) (oes : list (Z * bytes)) (i : nat) :
  slotted p oes -> (i < length oes)%nat ->
  exists p', remove_cell (Z.of_nat i) p = (Ok tt, p') /\
    slotted p' (delete i oes) /\ pg_ce p' = pg_ce p /\ meta p' = meta p.
Proof.
  intros Hsl Hi. pose proof (slotted_num_bound _ _ Hsl) as Hb.
  destruct Hsl as [Hl Hn Hf Hle Hc Hs Hcells Hd Hsz].
  destruct (remove_cell_raw p (Z.of_nat i)) as (p' & E & F & N' & Fe' & S');
    [done|rewrite Hn; unfold zlen; lia|klia..|].
  exists p'. split; [exact E|].
  assert (Hce : pg_ce p' = pg_ce p).
  { eapply get_u_same_on; [exact F|klia|]. unfold off_slots. klia. }
  pose proof (pg_ce_range p) as Rce.
  split; [|split; [exact Hce|]].
  - assert (Hzl := zlen_delete i oes Hi). split; rewrite ?Hce.
    + destruct F as [F _]. congruence.
    + lia.
    + lia.
    + lia.
    + done.
    + intros j c Hj. rewrite lookup_delete in Hj. case_decide as Hji.
      * rewrite <- (Hs _ _ Hj). eapply pg_slot_on; [exact F|lia|]. unfold off_slots. klia.
      * rewrite <- (Hs _ _ Hj). rewrite S'.
        -- f_equal. lia.
        -- apply lookup_lt_Some in Hj. unfold zlen in Hn. lia.
    + apply Forall_delete. apply (Forall_impl _ _ _ Hcells). intros c Hok.
      eapply cell_ok_same_on; [exact F|exact Hok|lia|lia|].
      destruct Hok as (Hok & _). unfold off_slots. klia.
    + by apply pairwise_delete; [apply _|].
    + destruct (lookup_lt_is_Some_2 oes i Hi) as [c Hic].
      rewrite (cells_size_delete _ _ _ Hic). pose proof (zlen_nonneg c.2). lia.
  - eapply meta_same_on; [exact F|]. unfold off_slots. klia.
Qed.

(** Placing an encoded cell [e] in the heap and adding its slot: what the two
    cell writers do. *)
Lemma slotted_place (p : Page) (oes : list (Z * bytes)) (i : nat) (e : bytes) :
  slotted p oes -> (i <= length oes)%nat -> 0 < zlen e ->
  zlen e + 2 <= pg_ce p - pg_fe p ->
  let ce := pg_ce p - zlen e in
  exists p1 p', set_cell_end ce p = (Ok tt, p1) /\ zlen p1 = PAGE_SIZE /\ pg_ce p1 = ce /\
    add_slot (Z.of_nat i) ce (wr (data ce) e p1) = (Ok tt, p') /\
    slotted p' (insert_at i (ce, e) oes) /\ pg_ce p' = ce /\ meta p' = meta p.
Proof.
  intros Hsl Hi He Hroom ce. pose proof (slotted_num_bound _ _ Hsl) as Hb.
  destruct Hsl as [Hl Hn Hf Hle Hc Hs Hcells Hd Hsz].
  pose proof (pg_ce_range p) as Rce. subst ce. set (ce := pg_ce p - zlen e) in *.
  destruct (set_u16_ok p Hl (data OFF_CELL_END) ce) as (p1 & E1 & F1 & S1); [klia..|].
  pose proof (same_outside_length _ _ _ _ F1) as L1.
  assert (F2 : same_outside (data ce) (data ce + zlen e) p1 (wr (data ce) e p1)).
  { apply wr_same_outside; klia. }
  set (p2 := wr (data ce) e p1) in *. pose proof (same_outside_length _ _ _ _ F2) as L2.
  assert (F12 := same_on_trans _ _ _ _ _ (same_outside_on _ _ _ _ F1) (same_outside_on _ _ _ _ F2)).
  assert (Hn2 : pg_num p2 = pg_num p).
  { eapply get_u_same_on; [exact F12|klia|]. klia. }
  assert (Hfe2 : pg_fe p2 = pg_fe p).
  { eapply get_u_same_on; [exact F12|klia|]. klia. }
  destruct (add_slot_ok p2 (Z.of_nat i) ce) as (p' & E & F & N' & Fe' & Si & Sj);
    [congruence|rewrite Hn2, Hn; unfold zlen; lia|klia|rewrite Hn2; klia|klia|].
  exists p1, p'. split; [exact E1|]. split; [congruence|]. split; [exact S1|].
  split; [exact E|].
  assert (Hce : pg_ce p' = ce).
  { rewrite <- S1. unfold pg_ce. rewrite (get_u_same_on _ _ _ _ _ F); [|klia|unfold off_slots; klia].
    eapply get_u_same_outside; [exact F2|klia|klia]. }
  assert (Fall := same_on_trans _ _ _ _ _ F12 F). cbn beta in Fall.
  split; [|split; [exact Hce|]].
  - split; rewrite ?Hce, ?zlen_insert_at.
    + destruct F as [F _]. congruence.
    + lia.
    + lia.
    + lia.
    + lia.
    + intros j c Hj. rewrite lookup_insert_at in Hj by done. repeat case_decide.
      * rewrite <- (Hs _ _ Hj). eapply pg_slot_on; [exact Fall|lia|].
        unfold off_slots, zlen in *. klia.
      * simplify_eq/=. exact Si.
      * rewrite <- (Hs _ _ Hj). apply lookup_lt_Some in Hj. unfold zlen in Hn.
        rewrite Sj by lia. replace (Z.of_nat j - 1) with (Z.of_nat (j - 1)) by lia.
        eapply pg_slot_on; [exact F12|lia|]. unfold zlen in *. klia.
    + apply Forall_insert_at. split.
      * split; [simpl; lia|]. split; [simpl; klia|]. simpl.
        rewrite (rd_same_on _ _ _ _ _ F) by (first [klia|unfold off_slots; klia]).
        apply rd_wr_same; klia.
      * apply (Forall_impl _ _ _ Hcells). intros c Hok.
        eapply cell_ok_same_on; [exact Fall|exact Hok|lia|lia|].
        destruct Hok as (Hok & _). unfold off_slots. klia.
    + unfold insert_at. apply pairwise_middle; [apply _|]. rewrite take_drop. split; [|done].
      apply (Forall_impl _ _ _ Hcells). intros c (Hok & _). left. simpl. lia.
    + unfold insert_at. rewrite cells_size_middle, take_drop. simpl. lia.
  - eapply meta_same_on; [exact Fall|]. unfold off_slots. klia.
Qed.
