(* ===== verification/KeyOrder.v ===== *)
(** * Keys in order

    The order of [std::string_view] on keys is a strict total order; sorted
    cell lists, the position [lower_bound] must return in them, and what
    insertion, replacement and removal at that position do to the finite map
    the cells stand for. *)

From S2P Require Import Prelude.
From S2P Require Import Node.

Definition key_lt (a b : bytes) : Prop := key_ltb a b = true.

#[export] Instance key_lt_dec (a b : bytes) : Decision (key_lt a b).
Proof. unfold key_lt. apply _. Defined.

Lemma key_lt_irrefl (a : bytes) : ~ key_lt a a.
Proof.
  unfold key_lt. induction a as [|x a IH]; [done|]. simpl.
  by rewrite Z.ltb_irrefl.
Qed.

Lemma key_lt_trans (a b c : bytes) : key_lt a b -> key_lt b c -> key_lt a c.
Proof.
  unfold key_lt. revert b c. induction a as [|x a IH]; intros b c Hab Hbc.
  - destruct b as [|y b], c as [|z c]; done.
  - destruct b as [|y b]; [done|]. destruct c as [|z c]; [done|]. simpl in *.
    destruct (Z.ltb_spec (Z_of_byte x) (Z_of_byte y)), (Z.ltb_spec (Z_of_byte y) (Z_of_byte x)),
      (Z.ltb_spec (Z_of_byte y) (Z_of_byte z)), (Z.ltb_spec (Z_of_byte z) (Z_of_byte y));
      try done; try lia;
      destruct (Z.ltb_spec (Z_of_byte x) (Z_of_byte z)), (Z.ltb_spec (Z_of_byte z) (Z_of_byte x));
      try done; try lia.
    by eapply IH.
Qed.

Lemma key_lt_total (a b : bytes) : ~ key_lt a b -> ~ key_lt b a -> a = b.
Proof.
  unfold key_lt. revert b. induction a as [|x a IH]; intros [|y b] H1 H2; try done.
  simpl in *.
  destruct (Z.ltb_spec (Z_of_byte x) (Z_of_byte y)), (Z.ltb_spec (Z_of_byte y) (Z_of_byte x));
    try done.
  f_equal; [apply Z_of_byte_inj; lia|by apply IH].
Qed.

Lemma key_lt_ne (a b : bytes) : key_lt a b -> a <> b.
Proof. intros H ->. by apply key_lt_irrefl in H. Qed.

Lemma key_lt_asym (a b : bytes) : key_lt a b -> ~ key_lt b a.
Proof. intros H H'. eapply key_lt_irrefl. by eapply key_lt_trans. Qed.

Create HintDb keyv_order.
#[export] Hint Resolve key_lt_trans key_lt_ne key_lt_asym : keyv_order.

Section sorted.
Context {A : Type} (key : A -> bytes).
Implicit Types (l : list A) (k : bytes).

Definition sorted_cells l : Prop :=
  StronglySorted (fun x y => key_lt (key x) (key y)) l.

Definition is_lower_bound k l (i : nat) : Prop :=
  (i <= length l)%nat /\
  (forall j c, l !! j = Some c -> (j < i)%nat -> key_lt (key c) k) /\
  (forall j c, l !! j = Some c -> (i <= j)%nat -> ~ key_lt (key c) k).

Lemma sorted_lookup l i j x y :
  sorted_cells l -> l !! i = Some x -> l !! j = Some y -> (i < j)%nat ->
  key_lt (key x) (key y).
Proof.
  intros H. revert i j. induction H as [|z l Hl IH Hz]; intros i j Hi Hj Hij; [done|].
  destruct i as [|i], j as [|j]; simplify_eq/=; [lia| |lia|eapply IH; eauto; lia].
  rewrite Forall_lookup in Hz. eauto.
Qed.

Lemma sorted_of_lookup l :
  (forall i j x y, l !! i = Some x -> l !! j = Some y -> (i < j)%nat ->
     key_lt (key x) (key y)) -> sorted_cells l.
Proof.
  induction l as [|z l IH]; intros H; constructor.
  - apply IH. intros i j x y Hi Hj Hij. apply (H (S i) (S j)); auto. lia.
  - apply Forall_lookup. intros j y Hj. apply (H 0%nat (S j)); auto. lia.
Qed.

Lemma sorted_app l1 l2 :
  sorted_cells (l1 ++ l2) <->
  sorted_cells l1 /\ sorted_cells l2 /\
  (forall x y, x ∈ l1 -> y ∈ l2 -> key_lt (key x) (key y)).
Proof.
  unfold sorted_cells. induction l1 as [|z l1 IH]; simpl.
  - split; [intros H; split_and!; [constructor|done|set_solver]|tauto].
  - split.
    + intros H. inversion H as [|? ? H1 H2]; subst. apply IH in H1 as (H3 & H4 & H5).
      apply Forall_app in H2 as [H2 H6]. rewrite Forall_forall in H6. split_and!; auto.
      * by constructor.
      * intros x y [->|Hx]%elem_of_cons Hy; auto.
    + intros (H1 & H2 & H3). inversion H1; subst. constructor.
      * apply IH. split_and!; auto. intros x y Hx Hy. apply H3; [by right|done].
      * apply Forall_app. split; [done|]. apply Forall_forall. intros y Hy.
        apply H3; [by left|done].
Qed.

Lemma is_lower_bound_unique k l i j :
  is_lower_bound k l i -> is_lower_bound k l j -> i = j.
Proof.
  assert (H : forall i j, is_lower_bound k l i -> is_lower_bound k l j -> ~ (i < j)%nat).
  { intros a b (Ha & _ & Ha2) (Hb & Hb1 & _) Hab.
    destruct (lookup_lt_is_Some_2 l a) as [c Hc]; [lia|].
    apply (Ha2 a c Hc); [lia|]. by apply (Hb1 a c Hc). }
  intros Hi Hj. pose proof (H i j Hi Hj). pose proof (H j i Hj Hi). lia.
Qed.

(** In a sorted list the key can only be at its lower bound. *)
Lemma lower_bound_present k l i j c :
  sorted_cells l -> is_lower_bound k l i -> l !! j = Some c -> key c = k -> j = i.
Proof.
  intros Hs (Hi & H1 & H2) Hj Hk. destruct (decide (j < i)%nat) as [Hlt|Hge].
  - exfalso. eapply (key_lt_irrefl k). rewrite <- Hk at 1. eauto.
  - destruct (decide (j = i)) as [|Hne]; [done|]. exfalso.
    destruct (lookup_lt_is_Some_2 l i) as [d Hd]; [apply lookup_lt_Some in Hj; lia|].
    apply (H2 i d Hd); [lia|]. rewrite <- Hk.
    eapply sorted_lookup; eauto. lia.
Qed.

Lemma sorted_insert_at k l i x :
  sorted_cells l -> is_lower_bound k l i -> key x = k ->
  (forall c, l !! i = Some c -> key c <> k) -> sorted_cells (insert_at i x l).
Proof.
  intros Hs (Hi & H1 & H2) Hx Hne. unfold insert_at.
  rewrite <- (take_drop i l) in Hs. apply sorted_app in Hs as (Hs1 & Hs2 & Hs12).
  apply sorted_app. split; [done|]. split.
  - constructor; [done|]. apply Forall_lookup. intros j c Hj. rewrite lookup_drop in Hj.
    destruct (decide (key_lt (key x) (key c))) as [|Hn]; [done|]. exfalso.
    assert (key c = k) as Hck.
    { rewrite Hx in Hn. symmetry. apply key_lt_total; [done|]. eapply H2; [done|lia]. }
    destruct (lookup_lt_is_Some_2 l i) as [d Hd]; [apply lookup_lt_Some in Hj; lia|].
    destruct j as [|j]; [apply (Hne c); [by rewrite Nat.add_0_r in Hj|done]|].
    apply (H2 i d Hd); [lia|]. rewrite <- Hck.
    assert (Hs' : sorted_cells l) by (rewrite <- (take_drop i l); by apply sorted_app).
    eapply (sorted_lookup l i (i + S j)); eauto. lia.
  - intros a b Ha Hb. apply list_elem_of_lookup in Ha as [j Hj].
    apply lookup_take_Some in Hj as [Hj Hji].
    assert (key_lt (key a) k) by eauto.
    apply elem_of_cons in Hb as [->|Hb]; [by rewrite Hx|].
    apply Hs12; [|done]. apply list_elem_of_lookup. exists j.
    by rewrite lookup_take_lt by lia.
Qed.

Lemma sorted_delete l i : sorted_cells l -> sorted_cells (delete i l).
Proof.
  intros Hs. apply sorted_of_lookup. intros a b x y Ha Hb Hab.
  rewrite lookup_delete in Ha, Hb.
  repeat case_decide; eapply (sorted_lookup l); eauto; lia.
Qed.

Lemma sorted_replace l i c x :
  sorted_cells l -> l !! i = Some c -> key x = key c -> sorted_cells (<[i:=x]> l).
Proof.
  intros Hs Hi Hx. apply sorted_of_lookup. intros a b y z Ha Hb Hab.
  apply list_lookup_insert_Some in Ha as [(-> & -> & _)|[Hia Ha]],
    Hb as [(-> & -> & _)|[Hib Hb]]; rewrite ?Hx; try lia;
    eapply (sorted_lookup l); eauto.
Qed.

Lemma lower_bound_delete k l i c :
  sorted_cells l -> is_lower_bound k l i -> l !! i = Some c -> key c = k ->
  is_lower_bound k (delete i l) i.
Proof.
  intros Hs (Hi & H1 & H2) Hc Hk. apply lookup_lt_Some in Hc as Hlt.
  split_and!.
  - rewrite length_delete by eauto. lia.
  - intros j d Hd Hj. rewrite lookup_delete, decide_True in Hd by done. eauto.
  - intros j d Hd Hj. rewrite lookup_delete, decide_False in Hd by lia.
    eapply H2; eauto.
Qed.

Lemma sorted_keys_NoDup l : sorted_cells l -> NoDup (key <$> l).
Proof.
  intros Hs. apply NoDup_alt. intros i j k Hi Hj.
  apply list_lookup_fmap_Some in Hi as (x & -> & Hi).
  apply list_lookup_fmap_Some in Hj as (y & Hxy & Hj).
  destruct (decide (i < j)%nat).
  - exfalso. eapply key_lt_ne; [|exact Hxy]. by eapply sorted_lookup.
  - destruct (decide (j < i)%nat); [|lia].
    exfalso. eapply key_lt_ne; [|exact (eq_sym Hxy)]. by eapply sorted_lookup.
Qed.

(** ** The position, computed *)
Fixpoint lb_index k l : nat :=
  match l with
  | [] => O
  | c :: l' => if key_ltb (key c) k then S (lb_index k l') else O
  end.

Lemma lb_index_spec k l : sorted_cells l -> is_lower_bound k l (lb_index k l).
Proof.
  induction 1 as [|c l Hl (IH1 & IH2 & IH3) Hc]; [split_and!; [done|done|done]|].
  simpl. destruct (key_ltb (key c) k) eqn:Hk.
  - split_and!; [simpl; lia| |].
    + intros [|j] d Hd Hj; simplify_eq/=; [done|]. eapply IH2; eauto. lia.
    + intros [|j] d Hd Hj; simplify_eq/=; [lia|]. eapply IH3; eauto. lia.
  - split_and!; [lia|lia|]. intros j d Hd _ Hlt.
    destruct j as [|j]; simplify_eq/=; [unfold key_lt in Hlt; congruence|].
    rewrite Forall_lookup in Hc. specialize (Hc _ _ Hd).
    enough (key_lt (key c) k) by (unfold key_lt in *; congruence). by eapply key_lt_trans.
Qed.
End sorted.

(** ** Sorted association lists as maps *)

Section upsert.
Context {V : Type}.
Implicit Types (l : list (bytes * V)) (k : bytes) (v : V).

(** Insert or overwrite in a sorted list. *)
Fixpoint upsert k v l : list (bytes * V) :=
  match l with
  | [] => [(k, v)]
  | c :: l' =>
      if key_ltb c.1 k then c :: upsert k v l'
      else if bool_decide (c.1 = k) then (k, v) :: l'
      else (k, v) :: c :: l'
  end.

Fixpoint remove_key k l : list (bytes * V) :=
  match l with
  | [] => []
  | c :: l' => if bool_decide (c.1 = k) then l' else c :: remove_key k l'
  end.

Definition kv_map l : gmap bytes V := list_to_map l.

Lemma upsert_absent k v l i :
  sorted_cells fst l -> is_lower_bound fst k l i ->
  (forall c, l !! i = Some c -> c.1 <> k) -> upsert k v l = insert_at i (k, v) l.
Proof.
  intros Hs Hlb Hne.
  assert (i = lb_index fst k l) as ->.
  { eapply is_lower_bound_unique; [done|by apply lb_index_spec]. }
  clear Hlb. induction Hs as [|c l Hl IH Hc]; [done|]. simpl in *.
  destruct (key_ltb c.1 k) eqn:Hk.
  - simpl in *. rewrite IH; [done|]. intros d Hd. by apply Hne.
  - rewrite bool_decide_eq_false_2 by (by apply Hne). done.
Qed.

Lemma upsert_present k v l i c :
  sorted_cells fst l -> l !! i = Some c -> c.1 = k -> upsert k v l = <[i:=(k, v)]> l.
Proof.
  intros Hs. revert i. induction Hs as [|d l Hl IH Hd]; intros i Hi Hk; [done|].
  destruct i as [|i]; simplify_eq/=.
  - rewrite bool_decide_eq_true_2 by done.
    destruct (key_ltb c.1 c.1) eqn:E; [by apply key_lt_irrefl in E|done].
  - rewrite Forall_lookup in Hd. assert (Hlt := Hd _ _ Hi). unfold key_lt in Hlt.
    rewrite Hlt. f_equal. by apply IH.
Qed.

Lemma remove_key_present k l i c :
  sorted_cells fst l -> l !! i = Some c -> c.1 = k -> remove_key k l = delete i l.
Proof.
  intros Hs. revert i. induction Hs as [|d l Hl IH Hd]; intros i Hi Hk; [done|].
  destruct i as [|i]; simplify_eq/=; [by rewrite bool_decide_eq_true_2|].
  rewrite Forall_lookup in Hd. rewrite bool_decide_eq_false_2.
  - f_equal. by apply IH.
  - by apply key_lt_ne, (Hd i).
Qed.

Lemma remove_key_absent k l : k ∉ l.*1 -> remove_key k l = l.
Proof.
  induction l as [|d l IH]; [done|]. simpl. intros Hk.
  apply not_elem_of_cons in Hk as [Hk1 Hk2].
  rewrite bool_decide_eq_false_2 by congruence. by rewrite IH.
Qed.

Lemma kv_map_upsert k v l :
  sorted_cells fst l -> kv_map (upsert k v l) = <[k:=v]> (kv_map l).
Proof.
  unfold kv_map. induction 1 as [|c l Hl IH Hc]; [done|]. destruct c as [k' v']. simpl.
  destruct (key_ltb k' k) eqn:Hk.
  - simpl. rewrite IH. apply insert_insert_ne. intros ->. by apply key_lt_irrefl in Hk.
  - case_bool_decide as Heq; [|done]. subst. simpl. by rewrite insert_insert_eq.
Qed.

Lemma kv_map_remove_key k l :
  sorted_cells fst l -> kv_map (remove_key k l) = delete k (kv_map l).
Proof.
  unfold kv_map. induction 1 as [|c l Hl IH Hc]; [symmetry; apply delete_empty|].
  destruct c as [k' v']. simpl. case_bool_decide as Heq.
  - simpl in Heq. subst. rewrite delete_insert_id; [done|].
    apply not_elem_of_list_to_map. intros Hin.
    apply list_elem_of_fmap in Hin as ([k2 v2] & Hk2 & Hin).
    rewrite Forall_forall in Hc. apply Hc in Hin. simpl in *. subst.
    by apply key_lt_irrefl in Hin.
  - simpl. simpl in Heq. rewrite IH. by rewrite delete_insert_ne.
Qed.

Lemma kv_map_lookup_Some k v l :
  sorted_cells fst l -> kv_map l !! k = Some v <-> exists i, l !! i = Some (k, v).
Proof.
  intros Hs. apply sorted_keys_NoDup in Hs. unfold kv_map.
  rewrite <- elem_of_list_to_map by done. by rewrite list_elem_of_lookup.
Qed.

Lemma kv_map_lookup_at k l i :
  sorted_cells fst l -> is_lower_bound fst k l i ->
  kv_map l !! k =
    match l !! i with
    | Some c => if bool_decide (c.1 = k) then Some c.2 else None
    | None => None
    end.
Proof.
  intros Hs Hlb. destruct (kv_map l !! k) as [v|] eqn:Hm.
  - apply kv_map_lookup_Some in Hm as [j Hj]; [|done].
    assert (j = i) as -> by (by eapply lower_bound_present).
    rewrite Hj. simpl. by rewrite bool_decide_eq_true_2.
  - destruct (l !! i) as [[k' v']|] eqn:Hi; [|done]. case_bool_decide as Heq; [|done].
    simpl in Heq. subst. exfalso.
    assert (kv_map l !! k = Some v') as Hm' by (apply kv_map_lookup_Some; eauto).
    congruence.
Qed.

Lemma absent_at_lower_bound k l i :
  sorted_cells fst l -> is_lower_bound fst k l i ->
  (forall c, l !! i = Some c -> c.1 <> k) -> k ∉ l.*1.
Proof.
  intros Hs Hlb Hne Hin. apply list_elem_of_fmap in Hin as (c & Hk & Hc).
  apply list_elem_of_lookup in Hc as [j Hj]. symmetry in Hk.
  assert (j = i) as -> by (by eapply lower_bound_present). by eapply Hne.
Qed.

(** Overwriting is removing and inserting again, at the same place. *)
Lemma upsert_delete k v l i c :
  sorted_cells fst l -> is_lower_bound fst k l i -> l !! i = Some c -> c.1 = k ->
  lb_index fst k (delete i l) = i /\
  (forall d, delete i l !! i = Some d -> d.1 <> k) /\
  upsert k v (delete i l) = upsert k v l.
Proof.
  intros Hs Hlb Hi Hk. assert (Hlt := lookup_lt_Some _ _ _ Hi).
  assert (Hsd := sorted_delete fst l i Hs).
  assert (Hlbd := lower_bound_delete fst k l i c Hs Hlb Hi Hk).
  assert (Hne : forall d, delete i l !! i = Some d -> d.1 <> k).
  { intros d Hd Heq. rewrite lookup_delete, decide_False in Hd by lia.
    assert (S i = i) by (by eapply (lower_bound_present fst k l)). lia. }
  split_and!; [|done|].
  - eapply is_lower_bound_unique; [by apply lb_index_spec|exact Hlbd].
  - rewrite (upsert_present k v l i c) by done.
    rewrite (upsert_absent k v (delete i l) i) by done.
    rewrite insert_take_drop by done. unfold insert_at.
    rewrite delete_take_drop, take_app_le by (rewrite length_take; lia).
    rewrite take_take, Nat.min_id. do 2 f_equal.
    rewrite drop_app_ge by (rewrite length_take; lia). rewrite length_take, drop_drop.
    f_equal. lia.
Qed.

Lemma sorted_upsert k v l : sorted_cells fst l -> sorted_cells fst (upsert k v l).
Proof.
  intros Hs. assert (Hlb := lb_index_spec fst k l Hs).
  set (i := lb_index fst k l) in *.
  destruct (l !! i) as [c|] eqn:Hi; [destruct (decide (c.1 = k)) as [Hk|Hk]|].
  - rewrite (upsert_present k v l i c) by done. by eapply sorted_replace.
  - rewrite (upsert_absent k v l i) by (done || (intros d Hd; congruence)).
    eapply sorted_insert_at; try done. intros d Hd. congruence.
  - rewrite (upsert_absent k v l i) by (done || (intros d Hd; congruence)).
    eapply sorted_insert_at; try done. intros d Hd. congruence.
Qed.

Lemma sorted_remove_key k l : sorted_cells fst l -> sorted_cells fst (remove_key k l).
Proof.
  intros Hs. destruct (decide (k ∈ l.*1)) as [Hin|Hout].
  - apply list_elem_of_fmap in Hin as (c & Hk & Hin).
    apply list_elem_of_lookup in Hin as [i Hi].
    rewrite (remove_key_present k l i c) by done. by apply sorted_delete.
  - by rewrite remove_key_absent.
Qed.
End upsert.
