(* ===== verification/NodeCells.v ===== *)
(** * Typed cells in a slotted page

    [holds p cells] says that the page [p] is a slotted page whose cells, in
    slot order, are the encodings of [cells].  The class [Cell] is what leaf
    cells (key, value) and internal cells (key, child) have in common; the
    accessors, the search, removal and the cell writers are proved here
    against [holds]. *)

From S2P Require Import Prelude.
From S2P Require Import Buffers.
From S2P Require Import Page.
From S2P Require Import Node.
From S2P Require Import NodeSlots.
From S2P Require Import KeyOrder.

Class Cell (A : Type) : Type := {
  cell_key : A -> bytes;
  cell_rest : A -> bytes;  (* the bytes after the key *)
}.

#[export] Instance leaf_cell : Cell (bytes * bytes) :=
  {| cell_key := fst; cell_rest c := le_enc 2 (zlen c.2) ++ c.2 |}.
#[export] Instance internal_cell : Cell (bytes * Z) :=
  {| cell_key := fst; cell_rest c := le_enc 4 c.2 |}.

(** Reduces the projections of the two codecs, and nothing else. *)
Ltac cell_simpl := cbn [cell_key cell_rest leaf_cell internal_cell fst snd] in *.

Definition enc {A : Type} `{Cell A} (a : A) : bytes :=
  le_enc 2 (zlen (cell_key a)) ++ cell_key a ++ cell_rest a.

#[global] Arguments enc : simpl never.

Definition holds {A : Type} `{Cell A} (p : Page) (cells : list A) : Prop :=
  exists oes, slotted p oes /\ oes.*2 = enc <$> cells.

(** Bytes of the cells, and of the cells with their slots. *)
Definition used {A : Type} `{Cell A} (cells : list A) : Z :=
  foldr (fun c acc => zlen (enc c) + acc) 0 cells.
Definition occupied {A : Type} `{Cell A} (cells : list A) : Z := used cells + 2 * zlen cells.

Lemma zlen_enc_leaf (k v : bytes) : zlen (enc (k, v)) = leaf_cell_size (zlen k) (zlen v).
Proof. unfold enc, leaf_cell_size. cell_simpl. rewrite !zlen_app, !zlen_le_enc. lia. Qed.

Lemma zlen_enc_internal (k : bytes) (c : Z) : zlen (enc (k, c)) = internal_cell_size (zlen k).
Proof.
  unfold enc, internal_cell_size. cell_simpl. rewrite !zlen_app, !zlen_le_enc. lia.
Qed.

Section holds.
Context {A : Type} `{Cell A}.
Implicit Types (p : Page) (cells : list A) (a : A).

Lemma zlen_enc a : zlen (enc a) = 2 + zlen (cell_key a) + zlen (cell_rest a).
Proof. unfold enc. rewrite !zlen_app, zlen_le_enc. lia. Qed.

Lemma rd_enc_len a : rd 0 2 (enc a) = le_enc 2 (zlen (cell_key a)).
Proof. unfold enc. apply rd_app_l. by rewrite zlen_le_enc. Qed.

Lemma rd_enc_key a : rd 2 (zlen (cell_key a)) (enc a) = cell_key a.
Proof.
  unfold enc. rewrite rd_app_r by (rewrite zlen_le_enc; lia).
  rewrite zlen_le_enc. by apply rd_app_l.
Qed.

Lemma rd_enc_rest a : rd (2 + zlen (cell_key a)) (zlen (cell_rest a)) (enc a) = cell_rest a.
Proof.
  pose proof (zlen_nonneg (cell_key a)). unfold enc.
  rewrite app_assoc, rd_app_r by (rewrite zlen_app, zlen_le_enc; lia).
  rewrite zlen_app, zlen_le_enc, Z.sub_diag. by apply rd_all.
Qed.

Lemma used_app cells1 cells2 : used (cells1 ++ cells2) = used cells1 + used cells2.
Proof. induction cells1 as [|a l IH]; simpl; lia. Qed.

Lemma used_nonneg cells : 0 <= used cells.
Proof. induction cells as [|a l IH]; simpl; [lia|]. pose proof (zlen_nonneg (enc a)). lia. Qed.

Lemma used_Permutation cells1 cells2 : cells1 ≡ₚ cells2 -> used cells1 = used cells2.
Proof. induction 1; simpl; lia. Qed.

Lemma used_insert_at i a cells : used (insert_at i a cells) = zlen (enc a) + used cells.
Proof. by rewrite (used_Permutation _ _ (insert_at_Permutation i a cells)). Qed.

Lemma used_delete i a cells :
  cells !! i = Some a -> used (delete i cells) = used cells - zlen (enc a).
Proof.
  intros Hi. rewrite (used_Permutation cells (a :: delete i cells)).
  - simpl. lia.
  - by apply delete_Permutation.
Qed.

Lemma occupied_cons a cells : occupied (a :: cells) = zlen (enc a) + 2 + occupied cells.
Proof. unfold occupied. rewrite zlen_cons. simpl. lia. Qed.

Lemma occupied_nil : occupied (@nil A) = 0.
Proof. done. Qed.

Lemma occupied_app cells1 cells2 :
  occupied (cells1 ++ cells2) = occupied cells1 + occupied cells2.
Proof. unfold occupied. rewrite used_app, zlen_app. lia. Qed.

Lemma occupied_insert_at i a cells :
  occupied (insert_at i a cells) = zlen (enc a) + 2 + occupied cells.
Proof. unfold occupied. rewrite used_insert_at, zlen_insert_at. lia. Qed.

Lemma occupied_nonneg cells : 0 <= occupied cells.
Proof. unfold occupied. pose proof (used_nonneg cells). pose proof (zlen_nonneg cells). lia. Qed.

Lemma cells_size_used (oes : list (Z * bytes)) cells :
  oes.*2 = enc <$> cells -> cells_size oes = used cells.
Proof.
  revert cells. induction oes as [|[o e] oes IH]; intros [|a cells] Heq; simplify_eq/=; [done|].
  by rewrite (IH cells).
Qed.

(** ** What [holds] gives *)
Section facts.
Context p cells (Hh : holds p cells).

Lemma holds_length : zlen p = PAGE_SIZE.
Proof. destruct Hh as (oes & Hsl & _). apply (sl_len _ _ Hsl). Qed.

Lemma holds_num : pg_num p = zlen cells.
Proof.
  destruct Hh as (oes & Hsl & Heq). rewrite (sl_num _ _ Hsl). unfold zlen.
  rewrite <- (length_fmap snd oes), Heq. by rewrite length_fmap.
Qed.

Lemma holds_fe : pg_fe p = SLOT_ARRAY_START + 2 * zlen cells.
Proof.
  rewrite <- holds_num. destruct Hh as (oes & Hsl & Heq).
  by rewrite (sl_num _ _ Hsl), (sl_fe _ _ Hsl).
Qed.

Lemma holds_bounds : pg_fe p <= pg_ce p <= NODE_DATA_SIZE.
Proof.
  destruct Hh as (oes & Hsl & _). split; [apply (sl_le _ _ Hsl)|apply (sl_ce _ _ Hsl)].
Qed.

Lemma holds_used : used cells <= NODE_DATA_SIZE - pg_ce p.
Proof.
  destruct Hh as (oes & Hsl & Heq). rewrite <- (cells_size_used _ _ Heq).
  apply (sl_size _ _ Hsl).
Qed.

Lemma holds_occupied : occupied cells <= NODE_USABLE_SIZE - (pg_ce p - pg_fe p).
Proof. unfold occupied. pose proof holds_used. rewrite holds_fe. klia. Qed.

Lemma holds_cell (i : nat) a :
  cells !! i = Some a ->
  let off := pg_slot (Z.of_nat i) p in
  pg_ce p <= off /\ off + zlen (enc a) <= NODE_DATA_SIZE /\
  rd (data off) (zlen (enc a)) p = enc a /\ 0 <= off.
Proof.
  intros Hi. destruct Hh as (oes & Hsl & Heq).
  assert (He : (enc <$> cells) !! i = Some (enc a)) by (by rewrite list_lookup_fmap, Hi).
  rewrite <- Heq, list_lookup_fmap in He.
  destruct (oes !! i) as [[o e]|] eqn:Ho; simplify_eq/=.
  destruct Hsl as [? ? ? ? ? Hs Hc ? ?]. rewrite (Hs _ _ Ho).
  rewrite Forall_lookup in Hc. apply Hc in Ho as (H1 & H2 & H3). simpl in *.
  pose proof (pg_ce_range p). split_and!; (done || lia).
Qed.

Lemma holds_cell_len (i : nat) a :
  cells !! i = Some a -> zlen (cell_key a) + zlen (cell_rest a) <= NODE_DATA_SIZE.
Proof.
  intros Hi. destruct (holds_cell i a Hi) as (H1 & H2 & _ & H4).
  rewrite zlen_enc in H2. lia.
Qed.

(** The key length field and any range of the cell of index [i]. *)
Lemma holds_klen (i : nat) a :
  cells !! i = Some a ->
  ld_u 2 (data (pg_slot (Z.of_nat i) p)) p = Ok (zlen (cell_key a)).
Proof.
  intros Hi. destruct (holds_cell i a Hi) as (H1 & H2 & H3 & H4).
  pose proof holds_length as Hl. pose proof (zlen_nonneg (cell_key a)) as Hk.
  pose proof (zlen_nonneg (cell_rest a)) as Hr. rewrite zlen_enc in H2.
  rewrite ld_u_ok by klia. f_equal. unfold get_u.
  rewrite <- (Z.add_0_r (data _)).
  rewrite <- (rd_rd _ (zlen (enc a))) by (rewrite ?zlen_enc; klia).
  rewrite H3, rd_enc_len, le_dec_enc. apply Z.mod_small. klia.
Qed.

Lemma holds_range (i : nat) a (d n : Z) :
  cells !! i = Some a -> 0 <= d -> 0 <= n -> d + n <= zlen (enc a) ->
  ld (data (pg_slot (Z.of_nat i) p) + d) n p = Ok (rd d n (enc a)).
Proof.
  intros Hi Hd Hn Hdn. destruct (holds_cell i a Hi) as (H1 & H2 & H3 & H4).
  pose proof holds_length as Hl. rewrite ld_ok by klia. f_equal.
  rewrite <- (rd_rd _ (zlen (enc a))) by klia. by rewrite H3.
Qed.

Lemma holds_slot_at (i : nat) :
  (i < length cells)%nat -> slot_at (Z.of_nat i) p = Ok (pg_slot (Z.of_nat i) p).
Proof.
  intros Hi. apply slot_at_ok; [apply holds_length|lia|].
  pose proof holds_fe. pose proof holds_bounds. unfold zlen in *. klia.
Qed.

Lemma key_at_holds (i : nat) a :
  cells !! i = Some a -> key_at (Z.of_nat i) p = Ok (cell_key a).
Proof.
  intros Hi. assert (Hlt := lookup_lt_Some _ _ _ Hi). unfold key_at.
  mstep (num_keys_ok p holds_length). rewrite holds_num.
  rewrite (result_bind_ok _ _ tt) by (unfold assert_r, zlen; by rewrite (proj2 (Z.ltb_lt _ _)) by lia).
  mstep (holds_slot_at i Hlt). mstep (holds_klen i a Hi).
  rewrite (holds_range i a) by (first [exact Hi|lia|apply zlen_nonneg|
    rewrite zlen_enc; pose proof (zlen_nonneg (cell_rest a)); lia]).
  by rewrite rd_enc_key.
Qed.

Lemma key_at_out (i : Z) : zlen cells <= i -> key_at i p = Err AssertionFailure.
Proof.
  intros Hi. unfold key_at. mstep (num_keys_ok p holds_length). rewrite holds_num.
  unfold assert_r. by rewrite (proj2 (Z.ltb_ge _ _)) by lia.
Qed.

(** ** Search *)
Lemma lower_bound_loop_holds (fuel : nat) (k : bytes) (lb : nat) (lo hi : Z) :
  is_lower_bound cell_key k cells lb -> 0 <= lo <= Z.of_nat lb -> Z.of_nat lb <= hi <= zlen cells ->
  hi - lo < 2 ^ Z.of_nat fuel -> zlen cells < 65536 ->
  lower_bound_loop fuel k lo hi p = Ok (Z.of_nat lb).
Proof.
  intros (Hlb & Hlt & Hge). revert lo hi. induction fuel as [|fuel IH]; intros lo hi Hlo Hhi Hf Hc.
  - simpl in *. destruct (Z.ltb_spec lo hi); [lia|]. f_equal. lia.
  - cbn [lower_bound_loop]. destruct (Z.ltb_spec lo hi) as [Hlh|]; [|f_equal; lia].
    assert (Hmid : lo <= lo + (hi - lo) / 2 < hi).
    { assert (0 <= (hi - lo) / 2 < hi - lo); [|lia].
      split; [apply Z.div_pos; lia|apply Z.div_lt; lia]. }
    rewrite Nat2Z.inj_succ, Z.pow_succ_r in Hf by lia.
    assert ((hi - lo) / 2 < 2 ^ Z.of_nat fuel) by (apply Z.div_lt_upper_bound; lia).
    assert (hi - lo <= 2 * ((hi - lo) / 2) + 1).
    { pose proof (Z.div_mod (hi - lo) 2 ltac:(lia)). pose proof (Z.mod_pos_bound (hi - lo) 2). lia. }
    set (mid := lo + (hi - lo) / 2) in *.
    unfold wrap. change (2 ^ 16) with 65536. rewrite (Z.mod_small mid) by lia.
    destruct (lookup_lt_is_Some_2 cells (Z.to_nat mid)) as [a Ha]; [unfold zlen in *; lia|].
    replace mid with (Z.of_nat (Z.to_nat mid)) at 1 by lia.
    rewrite (result_bind_ok _ _ _ (key_at_holds _ _ Ha)).
    rewrite (Z.mod_small (mid + 1)) by lia.
    destruct (key_ltb (cell_key a) k) eqn:Hk.
    + assert (~ (lb <= Z.to_nat mid)%nat) by (intros Hc'; by apply (Hge _ _ Ha Hc')).
      apply IH; lia.
    + assert (~ (Z.to_nat mid < lb)%nat).
      { intros Hc'. assert (key_lt (cell_key a) k) as Hk' by eauto.
        unfold key_lt in Hk'. congruence. }
      apply IH; lia.
Qed.

Lemma lower_bound_holds (k : bytes) :
  sorted_cells cell_key cells ->
  lower_bound k p = Ok (Z.of_nat (lb_index cell_key k cells)).
Proof.
  intros Hs. unfold lower_bound. mstep (num_keys_ok p holds_length). rewrite holds_num.
  assert (Hlb := lb_index_spec cell_key k cells Hs). pose proof (pg_num_range p) as Hn.
  rewrite holds_num in Hn. unfold LOWER_BOUND_FUEL.
  apply lower_bound_loop_holds; [done|lia| |change (2 ^ Z.of_nat 17) with 131072; lia|lia].
  destruct Hlb as (Hlb & _). unfold zlen. lia.
Qed.

Lemma free_space_holds : free_space p = Ok (pg_ce p - pg_fe p).
Proof.
  unfold free_space. mstep (cell_end_ok p holds_length). mstep (free_end_ok p holds_length).
  pose proof holds_bounds. unfold assert_r. by rewrite (proj2 (Z.leb_le _ _)) by lia.
Qed.

Lemma is_full_holds (n : Z) :
  is_full n p = Ok (pg_ce p - pg_fe p <? total_cell_cost n).
Proof. unfold is_full. by mstep free_space_holds. Qed.
End facts.

(** ** Removal, frame and in-place update *)
Lemma holds_remove p cells (i : nat) :
  holds p cells -> (i < length cells)%nat ->
  exists p', remove_cell (Z.of_nat i) p = (Ok tt, p') /\ holds p' (delete i cells) /\
    pg_ce p' = pg_ce p /\ meta p' = meta p.
Proof.
  intros (oes & Hsl & Heq) Hi.
  assert (Hlen : length oes = length cells).
  { by rewrite <- (length_fmap snd oes), Heq, length_fmap. }
  destruct (slotted_remove p oes i Hsl) as (p' & E & S & C & Mt); [lia|].
  exists p'. split_and!; try done. exists (delete i oes). split; [done|].
  rewrite !delete_take_drop, fmap_app, fmap_take, fmap_drop, Heq.
  by rewrite <- fmap_take, <- fmap_drop, <- fmap_app.
Qed.

Lemma holds_frame lo hi p p' cells :
  same_outside lo hi p p' -> hi <= data 0 \/ (data 6 <= lo /\ hi <= data NODE_HEADER_SIZE) ->
  holds p cells -> holds p' cells /\ pg_ce p' = pg_ce p.
Proof.
  intros F Hr (oes & [Hl Hn Hf Hle Hce Hs Hc Hd Hsz] & Heq).
  assert (HU : forall off, data 0 <= off -> off + 2 <= data 6 \/ data NODE_HEADER_SIZE <= off ->
            get_u 2 off p' = get_u 2 off p).
  { intros off H1 H2. eapply get_u_same_outside; [exact F|klia|klia]. }
  assert (Hce' : pg_ce p' = pg_ce p) by (apply HU; klia).
  assert (Hfe' : pg_fe p' = pg_fe p) by (apply HU; klia).
  split; [|done]. exists oes. split; [|done]. split; rewrite ?Hce', ?Hfe'; try done.
  - by rewrite (same_outside_length _ _ _ _ F).
  - rewrite <- Hn. apply HU; klia.
  - intros i c Hi. rewrite <- (Hs _ _ Hi). apply HU; klia.
  - apply (Forall_impl _ _ _ Hc). intros c (H1 & H2 & H3). pose proof (pg_ce_range p).
    split_and!; [done|done|].
    pose proof (zlen_nonneg oes). rewrite <- H3 at 2. eapply rd_same_outside; [exact F|klia|klia].
Qed.

Lemma holds_replace p cells (i : nat) a a' :
  holds p cells -> cells !! i = Some a -> zlen (enc a') = zlen (enc a) ->
  forall p', same_outside (data (pg_slot (Z.of_nat i) p))
               (data (pg_slot (Z.of_nat i) p) + zlen (enc a)) p p' ->
    rd (data (pg_slot (Z.of_nat i) p)) (zlen (enc a)) p' = enc a' ->
    holds p' (<[i:=a']> cells) /\ pg_ce p' = pg_ce p /\ meta p' = meta p.
Proof.
  intros Hh Hi Hlen p' F Hrd. pose proof (holds_cell p cells Hh i a Hi) as (C1 & C2 & C3 & C4).
  pose proof (holds_fe p cells Hh) as Hfe. pose proof (holds_bounds p cells Hh) as Hb.
  destruct Hh as (oes & [Hl Hn Hf Hle Hce Hs Hc Hd Hsz] & Heq).
  assert (He : (enc <$> cells) !! i = Some (enc a)) by (by rewrite list_lookup_fmap, Hi).
  rewrite <- Heq, list_lookup_fmap in He.
  destruct (oes !! i) as [[o e]|] eqn:Ho; [|done]. cbn [fmap option_fmap option_map snd] in He.
  injection He as ->. assert (Hslot := Hs _ _ Ho). simpl in Hslot. rewrite Hslot in *.
  pose proof (zlen_nonneg cells) as Hcn. pose proof (zlen_nonneg (enc a)) as Hen.
  assert (HU : forall off, 0 <= off -> off + 2 <= data (pg_fe p) -> get_u 2 off p' = get_u 2 off p).
  { intros off H1 H2. eapply get_u_same_outside; [exact F|klia|klia]. }
  assert (Hce' : pg_ce p' = pg_ce p) by (apply HU; klia).
  assert (Hfe' : pg_fe p' = pg_fe p) by (apply HU; klia).
  split; [|split; [done|]].
  - exists (<[i:=(o, enc a')]> oes).
    split; [|by rewrite !list_fmap_insert, Heq].
    assert (Hlo : (i < length oes)%nat) by (by eapply lookup_lt_Some).
    split; rewrite ?Hce', ?Hfe'; unfold zlen in *; rewrite ?length_insert; try done.
    + apply same_outside_length in F. unfold zlen in F. congruence.
    + rewrite <- Hn. apply HU; klia.
    + intros j c Hj. apply list_lookup_insert_Some in Hj as [(<- & <- & _)|[Hne Hj]].
      * simpl. rewrite <- Hslot. apply HU; klia.
      * rewrite <- (Hs _ _ Hj). apply lookup_lt_Some in Hj. apply HU; klia.
    + apply Forall_lookup. intros j c Hj.
      apply list_lookup_insert_Some in Hj as [(<- & <- & _)|[Hne Hj]].
      * unfold cell_ok, zlen. cbn [fst snd]. rewrite Hlen. done.
      * rewrite Forall_lookup in Hc. destruct (Hc _ _ Hj) as (H1 & H2 & H3).
        split_and!; [done|done|]. rewrite <- H3 at 2.
        assert (Hdj := pairwise_lookup disj _ _ _ _ _ Hd Ho Hj Hne).
        unfold disj, zlen in Hdj. cbn [fst snd] in Hdj.
        pose proof (pg_ce_range p). eapply rd_same_outside; [exact F|klia|]. unfold zlen. klia.
    + rewrite insert_take_drop by done. apply pairwise_middle; [apply _|].
      rewrite <- (take_drop_middle _ _ _ Ho) in Hd. apply pairwise_middle in Hd as [Hd1 Hd2]; [|apply _].
      split; [|done]. apply (Forall_impl _ _ _ Hd1). unfold disj, zlen. cbn [fst snd]. intros c. lia.
    + rewrite insert_take_drop by done. rewrite cells_size_middle.
      rewrite <- (take_drop_middle _ _ _ Ho) in Hsz. rewrite cells_size_middle in Hsz.
      cbn [snd] in *. unfold zlen in *. lia.
  - eapply (meta_same_on _ _ _ (same_outside_on _ _ _ _ F)). klia.
Qed.
End holds.
