(* ===== verification/NodeKinds.v ===== *)
(** * The two kinds of node

    Leaf and internal nodes differ in the type tag, in how a cell is read and
    in how it is written.  [NodeKind] is that interface and [NodeKindLaws]
    what its two implementations promise; compaction, insertion with
    compaction and the bulk copies are proved once, against the interface. *)

From S2P Require Import Prelude.
From S2P Require Import Buffers.
From S2P Require Import Page.
From S2P Require Import Node.
From S2P Require Import NodeSlots.
From S2P Require Import KeyOrder.
From S2P Require Import NodeCells.

Class NodeKind (A : Type) `{Cell A} : Type := {
  nk_type : PageType;
  nk_ok : A -> Prop;
  nk_cell_at : Z -> Page -> result A;
  nk_write : Z -> A -> M Page unit;
}.

#[export] Instance leaf_kind : NodeKind (bytes * bytes) :=
  {| nk_type := BTREE_LEAF; nk_ok _ := True;
     nk_cell_at := leaf_cell_at;
     nk_write i c := write_leaf_cell i c.1 c.2 |}.

#[export] Instance internal_kind : NodeKind (bytes * Z) :=
  {| nk_type := BTREE_INTERNAL; nk_ok c := is_page_id c.2;
     nk_cell_at := internal_cell_at;
     nk_write i c := write_internal_cell i c.1 c.2 |}.

(** A node page: its cells, its tag, its keys in order. *)
Record node {A : Type} `{NodeKind A} (p : Page) (cells : list A) : Prop := {
  node_holds : holds p cells;
  node_type : pg_type p = nk_type;
  node_sorted : sorted_cells cell_key cells;
  node_ok : Forall nk_ok cells;
}.

(** Room left for one more cell of [n] bytes, slot included. *)
Definition has_room (p : Page) (n : Z) : Prop := n + 2 <= pg_ce p - pg_fe p.

Class NodeKindLaws (A : Type) `{NodeKind A} : Prop := {
  nk_not_unknown : nk_type = BTREE_LEAF \/ nk_type = BTREE_INTERNAL;
  nk_enc_pos : forall a : A, 0 < zlen (enc a);
  nk_cell_at_ok : forall (p : Page) (cells : list A) (i : nat) (a : A),
    holds p cells -> pg_type p = nk_type -> cells !! i = Some a -> nk_ok a ->
    nk_cell_at (Z.of_nat i) p = Ok a;
  nk_write_ok : forall (p : Page) (cells : list A) (i : nat) (a : A),
    holds p cells -> (i <= length cells)%nat -> has_room p (zlen (enc a)) ->
    exists p', nk_write (Z.of_nat i) a p = (Ok tt, p') /\ holds p' (insert_at i a cells) /\
      pg_ce p' = pg_ce p - zlen (enc a) /\ meta p' = meta p;
}.

(** ** Reading values and children *)

Lemma value_at_holds (p : Page) (cells : list (bytes * bytes)) (i : nat) (k v : bytes) :
  holds p cells -> pg_type p = BTREE_LEAF -> cells !! i = Some (k, v) ->
  value_at (Z.of_nat i) p = Ok v.
Proof.
  intros Hh Ht Hi. assert (Hlt := lookup_lt_Some _ _ _ Hi).
  pose proof (holds_length p cells Hh) as Hl. unfold value_at.
  mstep (is_leaf_ok p Hl). rewrite bool_decide_eq_true_2 by done. cbn [assert_r result_bind].
  mstep (num_keys_ok p Hl). rewrite (holds_num p cells Hh).
  rewrite (result_bind_ok _ _ tt) by (unfold assert_r, zlen; by rewrite (proj2 (Z.ltb_lt _ _)) by lia).
  mstep (holds_slot_at p cells Hh i Hlt). mstep (holds_klen p cells Hh i _ Hi). cell_simpl.
  assert (Hlen := holds_cell_len p cells Hh i _ Hi). cell_simpl.
  rewrite zlen_app, zlen_le_enc in Hlen.
  pose proof (zlen_nonneg k). pose proof (zlen_nonneg v).
  assert (Hv : ld_u 2 (data (pg_slot (Z.of_nat i) p) + 2 + zlen k) p = Ok (zlen v)).
  { unfold ld_u. rewrite <- (Z.add_assoc _ 2).
    rewrite (holds_range p cells Hh i _ _ _ Hi) by (rewrite ?zlen_enc_leaf; unfold leaf_cell_size; lia).
    cbn [result_bind]. f_equal.
    rewrite <- (Z.add_0_r (2 + zlen k)), <- (rd_rd _ (zlen (cell_rest (k, v))))
      by (cell_simpl; rewrite ?zlen_app, ?zlen_le_enc; lia).
    change (zlen k) with (zlen (cell_key (k, v))) at 1. rewrite rd_enc_rest. cell_simpl.
    rewrite rd_app_l by (by rewrite zlen_le_enc). rewrite le_dec_enc. apply Z.mod_small. klia. }
  mstep Hv. rewrite <- !(Z.add_assoc (data _)).
  rewrite (holds_range p cells Hh i _ _ _ Hi) by (rewrite ?zlen_enc_leaf; unfold leaf_cell_size; lia).
  f_equal.
  rewrite <- (rd_rd _ (zlen (cell_rest (k, v))))
    by (cell_simpl; rewrite ?zlen_app, ?zlen_le_enc; lia).
  change (zlen k) with (zlen (cell_key (k, v))). rewrite rd_enc_rest. cell_simpl.
  rewrite rd_app_r by (by rewrite zlen_le_enc). rewrite zlen_le_enc. by apply rd_all.
Qed.

Lemma child_at_holds (p : Page) (cells : list (bytes * Z)) (i : nat) (k : bytes) (c : Z) :
  holds p cells -> pg_type p = BTREE_INTERNAL -> cells !! i = Some (k, c) -> is_page_id c ->
  child_at (Z.of_nat i) p = Ok c.
Proof.
  intros Hh Ht Hi Hc. assert (Hlt := lookup_lt_Some _ _ _ Hi).
  pose proof (holds_length p cells Hh) as Hl. unfold child_at.
  mstep (is_leaf_ok p Hl). rewrite bool_decide_eq_false_2 by (by rewrite Ht).
  cbn [assert_r negb result_bind].
  mstep (num_keys_ok p Hl). rewrite (holds_num p cells Hh).
  rewrite (result_bind_ok _ _ tt) by (unfold assert_r, zlen; by rewrite (proj2 (Z.ltb_lt _ _)) by lia).
  mstep (holds_slot_at p cells Hh i Hlt). mstep (holds_klen p cells Hh i _ Hi). cell_simpl.
  pose proof (zlen_nonneg k). unfold ld_s. rewrite <- (Z.add_assoc _ 2).
  rewrite (holds_range p cells Hh i _ _ _ Hi)
    by (rewrite ?zlen_enc_internal; unfold internal_cell_size; lia).
  cbn [result_bind]. f_equal.
  assert (Hr := rd_enc_rest (k, c)). cell_simpl. rewrite zlen_le_enc in Hr.
  change (Z.of_nat 4) with 4 in Hr. rewrite Hr, le_dec_enc.
  change (256 ^ Z.of_nat 4) with (2 ^ (8 * 4)). rewrite swrap_mod.
  unfold is_page_id in Hc. apply swrap_small; lia.
Qed.

(** ** The writers *)

Section writers.
Context {A : Type} `{Cell A} (p : Page) (cells : list A) (i : nat) (a : A).

(** The steps the two writers share around the copies of the fields. *)
Lemma place_holds :
  holds p cells -> (i <= length cells)%nat -> has_room p (zlen (enc a)) -> 0 < zlen (enc a) ->
  let ce := pg_ce p - zlen (enc a) in
  exists p1 p', set_cell_end ce p = (Ok tt, p1) /\ zlen p1 = PAGE_SIZE /\ pg_ce p1 = ce /\
    0 <= ce /\ ce + zlen (enc a) <= NODE_DATA_SIZE /\
    add_slot (Z.of_nat i) ce (wr (data ce) (enc a) p1) = (Ok tt, p') /\
    holds p' (insert_at i a cells) /\ pg_ce p' = ce /\ meta p' = meta p.
Proof.
  intros Hh Hi Hr Ha ce. pose proof (holds_bounds p cells Hh) as Hb.
  pose proof (pg_fe_range p) as Hf. unfold has_room in Hr.
  destruct Hh as (oes & Hsl & Heq).
  assert (Hlen : length oes = length cells).
  { by rewrite <- (length_fmap snd oes), Heq, length_fmap. }
  destruct (slotted_place p oes i (enc a) Hsl) as (p1 & p' & E1 & L1 & C1 & E & S & C & Mt);
    [lia|lia|lia|].
  exists p1, p'. split_and!; try done; [lia|lia|].
  exists (insert_at i (ce, enc a) oes). split; [done|].
  by rewrite !fmap_insert_at, Heq.
Qed.
End writers.

Lemma write_leaf_cell_ok (p : Page) (cells : list (bytes * bytes)) (i : nat) (c : bytes * bytes) :
  holds p cells -> (i <= length cells)%nat -> has_room p (zlen (enc c)) ->
  exists p', write_leaf_cell (Z.of_nat i) c.1 c.2 p = (Ok tt, p') /\
    holds p' (insert_at i c cells) /\ pg_ce p' = pg_ce p - zlen (enc c) /\ meta p' = meta p.
Proof.
  destruct c as [k v]. intros Hh Hi Hr. pose proof (holds_length p cells Hh) as Hl. cbn [fst snd].
  pose proof (zlen_nonneg k). pose proof (zlen_nonneg v).
  destruct (place_holds p cells i (k, v) Hh Hi Hr)
    as (p1 & p' & E1 & L1 & C1 & B1 & B2 & E & Hh' & C & Mt).
  { rewrite zlen_enc_leaf. unfold leaf_cell_size. lia. }
  exists p'. split_and!; try done. unfold write_leaf_cell. rewrite <- zlen_enc_leaf.
  mstep (is_full_holds p cells Hh (zlen (enc (k, v)))).
  unfold total_cell_cost, has_room in *.
  rewrite bind_assert by (rewrite (proj2 (Z.ltb_ge _ _)) by lia; done).
  mstep (cell_end_ok p Hl). mstep E1. mstep (cell_end_ok p1 L1). rewrite C1.
  assert (Hd1 : 0 <= data (pg_ce p - zlen (enc (k, v)))) by klia.
  assert (Hd2 : data (pg_ce p - zlen (enc (k, v))) + zlen (enc (k, v)) <= zlen p1) by klia.
  assert (Hs : leaf_cell_size (zlen k) (zlen v) = zlen (enc (k, v))) by (by rewrite zlen_enc_leaf).
  unfold leaf_cell_size in Hs. unfold st_i. change (Z.to_nat 2) with 2%nat.
  rewrite st_fuse by (rewrite ?zlen_le_enc; klia).
  rewrite st_fuse by (rewrite ?zlen_app, ?zlen_le_enc; klia).
  rewrite st_fuse by (rewrite ?zlen_app, ?zlen_le_enc; klia).
  rewrite <- !app_assoc. change (_ ++ _ ++ _ ++ v) with (enc (k, v)).
  rewrite (bind_ok _ _ _ _ _ (st_ok (data (pg_ce p - zlen (enc (k, v)))) (enc (k, v)) p1 Hd1 Hd2)).
  exact E.
Qed.

Lemma write_internal_cell_ok (p : Page) (cells : list (bytes * Z)) (i : nat) (c : bytes * Z) :
  holds p cells -> (i <= length cells)%nat -> has_room p (zlen (enc c)) ->
  exists p', write_internal_cell (Z.of_nat i) c.1 c.2 p = (Ok tt, p') /\
    holds p' (insert_at i c cells) /\ pg_ce p' = pg_ce p - zlen (enc c) /\ meta p' = meta p.
Proof.
  destruct c as [k c]. intros Hh Hi Hr. pose proof (holds_length p cells Hh) as Hl. cbn [fst snd].
  pose proof (zlen_nonneg k).
  destruct (place_holds p cells i (k, c) Hh Hi Hr)
    as (p1 & p' & E1 & L1 & C1 & B1 & B2 & E & Hh' & C & Mt).
  { rewrite zlen_enc_internal. unfold internal_cell_size. lia. }
  exists p'. split_and!; try done. unfold write_internal_cell. rewrite <- zlen_enc_internal with (c := c).
  mstep (is_full_holds p cells Hh (zlen (enc (k, c)))).
  unfold total_cell_cost, has_room in *.
  rewrite bind_assert by (rewrite (proj2 (Z.ltb_ge _ _)) by lia; done).
  mstep (cell_end_ok p Hl). mstep E1. mstep (cell_end_ok p1 L1). rewrite C1.
  assert (Hd1 : 0 <= data (pg_ce p - zlen (enc (k, c)))) by klia.
  assert (Hd2 : data (pg_ce p - zlen (enc (k, c))) + zlen (enc (k, c)) <= zlen p1) by klia.
  assert (Hs : internal_cell_size (zlen k) = zlen (enc (k, c))) by (by rewrite zlen_enc_internal).
  unfold internal_cell_size in Hs. unfold st_i.
  change (Z.to_nat 2) with 2%nat. change (Z.to_nat 4) with 4%nat.
  rewrite st_fuse by (rewrite ?zlen_le_enc; klia).
  rewrite st_fuse by (rewrite ?zlen_app, ?zlen_le_enc; klia).
  rewrite <- !app_assoc. change (_ ++ _ ++ le_enc 4 c) with (enc (k, c)).
  rewrite (bind_ok _ _ _ _ _ (st_ok (data (pg_ce p - zlen (enc (k, c)))) (enc (k, c)) p1 Hd1 Hd2)).
  exact E.
Qed.

(** ** The two implementations of the interface *)

#[export] Instance leaf_laws : NodeKindLaws (bytes * bytes).
Proof.
  split.
  - by left.
  - intros [k v]. rewrite zlen_enc_leaf. unfold leaf_cell_size.
    pose proof (zlen_nonneg k). pose proof (zlen_nonneg v). lia.
  - intros p cells i [k v] Hh Ht Hi _. simpl. unfold leaf_cell_at.
    mstep (key_at_holds p cells Hh i _ Hi). by mstep (value_at_holds p cells i k v Hh Ht Hi).
  - apply write_leaf_cell_ok.
Qed.

#[export] Instance internal_laws : NodeKindLaws (bytes * Z).
Proof.
  split.
  - by right.
  - intros [k c]. rewrite zlen_enc_internal. unfold internal_cell_size.
    pose proof (zlen_nonneg k). lia.
  - intros p cells i [k c] Hh Ht Hi Hc. simpl in *. unfold internal_cell_at.
    mstep (key_at_holds p cells Hh i _ Hi). by mstep (child_at_holds p cells i k c Hh Ht Hi Hc).
  - apply write_internal_cell_ok.
Qed.
