(* ===== verification/NodeOps.v ===== *)
(** * Fresh nodes and compaction

    The effect of [init_leaf], [init_internal] and [compact] on a node page,
    and the lemmas on appended cells that the insertions share. *)

From S2P Require Import Prelude.
From S2P Require Import Buffers.
From S2P Require Import Page.
From S2P Require Import Node.
From S2P Require Import NodeSlots.
From S2P Require Import KeyOrder.
From S2P Require Import NodeCells.
From S2P Require Import NodeKinds.

(** ** Fresh pages *)

Lemma is_page_id_pg_id (p : Page) : is_page_id (pg_id p).
Proof. exact (get_s_range 4 OFF_PAGE_ID p ltac:(lia)). Qed.
Lemma is_page_id_field (off : Z) (p : Page) : is_page_id (get_s 4 off p).
Proof. exact (get_s_range 4 off p ltac:(lia)). Qed.

Lemma slotted_empty (p : Page) :
  zlen p = PAGE_SIZE -> pg_num p = 0 -> pg_fe p = SLOT_ARRAY_START -> pg_ce p = NODE_DATA_SIZE ->
  slotted p [].
Proof.
  intros Hl Hn Hf Hc. split; rewrite ?zlen_nil; try done.
  - rewrite Hf, Hc. done.
  - by rewrite Hc.
  - simpl. rewrite Hc. done.
Qed.

Lemma holds_empty {A : Type} `{Cell A} (p : Page) :
  zlen p = PAGE_SIZE -> pg_num p = 0 -> pg_fe p = SLOT_ARRAY_START -> pg_ce p = NODE_DATA_SIZE ->
  holds p (@nil A).
Proof. intros. exists []. split; [by apply slotted_empty|done]. Qed.

(** [page->clear(); set_page_id; set_page_type; memcpy(page->data(), hdr, 32)]:
    what the initialisers and [compact] start with. *)
Lemma fresh_page_ok {B : Type} (p : Page) (pid : Z) (t : PageType) (hdr : bytes) (k : unit -> M Page B) :
  is_page_id pid -> t = BTREE_LEAF \/ t = BTREE_INTERNAL -> zlen hdr = NODE_HEADER_SIZE ->
  exists p',
    (do* clear in do* set_page_id pid in do* set_page_type t in bind (st (data 0) hdr) k) p = k tt p' /\
    zlen p' = PAGE_SIZE /\ pg_id p' = pid /\ pg_type p' = t /\
    (forall d n, 0 <= d -> 0 <= n -> d + n <= NODE_HEADER_SIZE ->
       rd (data d) n p' = rd d n hdr).
Proof.
  intros Hpid Ht Hh. unfold clear.
  rewrite (bind_ok _ _ _ zero_page tt) by done.
  destruct (set_page_id_ok zero_page pid zlen_zero_page Hpid) as (p1 & E1 & F1 & I1). mstep E1.
  pose proof (same_outside_length _ _ _ _ F1) as L1. rewrite zlen_zero_page in L1.
  destruct (set_page_type_ok p1 t L1) as (p2 & E2 & F2 & T2); [tauto|]. mstep E2.
  pose proof (same_outside_length _ _ _ _ F2) as L2. rewrite L1 in L2.
  assert (Hb : data 0 + zlen hdr <= zlen p2) by klia.
  erewrite bind_ok by (apply st_ok; klia). eexists. split; [done|].
  assert (F3 : same_outside (data 0) (data 0 + zlen hdr) p2 (wr (data 0) hdr p2)).
  { apply wr_same_outside; klia. }
  split_and!.
  - rewrite zlen_wr by klia. done.
  - rewrite (pg_id_outside _ _ _ _ F3) by klia. by rewrite (pg_id_outside _ _ _ _ F2) by klia.
  - by rewrite (pg_type_outside _ _ _ _ F3) by klia.
  - intros d n Hd Hn Hdn. unfold data in *. rewrite Z.add_0_r in *.
    apply rd_wr_inner; klia.
Qed.

Lemma bind_ret_r {S A : Type} (m : M S A) (s : S) : bind m ret s = m s.
Proof. unfold bind, ret. by destruct (m s) as [[a|e] s']. Qed.

(** The initialisers: an empty node with the given identity and parent. *)
Lemma node_header_fields (p : Page) (par : Z) :
  is_page_id par -> zlen p = PAGE_SIZE ->
  (forall d n, 0 <= d -> 0 <= n -> d + n <= NODE_HEADER_SIZE ->
     rd (data d) n p =
     rd d n (node_header 0 SLOT_ARRAY_START NODE_DATA_SIZE par
               INVALID_PAGE_ID INVALID_PAGE_ID INVALID_PAGE_ID)) ->
  slotted p [] /\ pg_parent p = par /\ pg_right p = INVALID_PAGE_ID /\
  pg_left p = INVALID_PAGE_ID /\ pg_first p = INVALID_PAGE_ID.
Proof.
  intros Hpar Hl Hrd. split_and!.
  - apply slotted_empty; [done| | |]; unfold pg_num, pg_fe, pg_ce, get_u; rewrite Hrd by klia;
      vm_compute; done.
  - unfold pg_parent, get_s. rewrite Hrd by klia.
    change (rd OFF_PARENT_ID 4 (node_header 0 SLOT_ARRAY_START NODE_DATA_SIZE par
              INVALID_PAGE_ID INVALID_PAGE_ID INVALID_PAGE_ID)) with (le_enc 4 par).
    rewrite le_dec_enc. change (256 ^ Z.of_nat 4) with (2 ^ (8 * 4)). rewrite swrap_mod.
    apply swrap_small; [lia|exact Hpar].
  - unfold pg_right, get_s. rewrite Hrd by klia. vm_compute. done.
  - unfold pg_left, get_s. rewrite Hrd by klia. vm_compute. done.
  - unfold pg_first, get_s. rewrite Hrd by klia. vm_compute. done.
Qed.

Definition fresh_meta (pid : Z) (t : PageType) (par : Z) : Z * PageType * (Z * Z * Z * Z) :=
  (pid, t, (par, INVALID_PAGE_ID, INVALID_PAGE_ID, INVALID_PAGE_ID)).

Lemma init_ok (t : PageType) (pid par : Z) (p : Page) :
  is_page_id pid -> is_page_id par -> t = BTREE_LEAF \/ t = BTREE_INTERNAL ->
  exists p', (do* clear in do* set_page_id pid in do* set_page_type t in
              st (data 0) (node_header 0 SLOT_ARRAY_START NODE_DATA_SIZE par
                 INVALID_PAGE_ID INVALID_PAGE_ID INVALID_PAGE_ID)) p = (Ok tt, p') /\
    slotted p' [] /\ pg_ce p' = NODE_DATA_SIZE /\ meta p' = fresh_meta pid t par.
Proof.
  intros Hpid Hpar Ht.
  destruct (fresh_page_ok p pid t (node_header 0 SLOT_ARRAY_START NODE_DATA_SIZE par
    INVALID_PAGE_ID INVALID_PAGE_ID INVALID_PAGE_ID) ret Hpid Ht eq_refl)
    as (p' & E & L & I & T & R).
  exists p'. split; [exact E|].
  destruct (node_header_fields p' par Hpar L R) as (S & P & Rs & Ls & Fc).
  split; [done|]. split; [unfold pg_ce, get_u; rewrite R by klia; vm_compute; done|].
  unfold meta, fresh_meta. by rewrite I, T, P, Rs, Ls, Fc.
Qed.

Lemma empty_node {A : Type} `{NodeKind A} (p : Page) :
  slotted p [] -> pg_type p = nk_type -> node p (@nil A).
Proof.
  intros Hs Ht. split; [by exists []|done|constructor|constructor].
Qed.

Lemma init_leaf_ok (pid par : Z) (p : Page) :
  is_page_id pid -> is_page_id par ->
  exists p', init_leaf pid par p = (Ok tt, p') /\ node p' (@nil (bytes * bytes)) /\
    pg_ce p' = NODE_DATA_SIZE /\ meta p' = fresh_meta pid BTREE_LEAF par.
Proof.
  intros Hpid Hpar. destruct (init_ok BTREE_LEAF pid par p) as (p' & E & S & C & Mt); [done|done|tauto|].
  exists p'. split; [exact E|]. split; [|done]. apply empty_node; [done|]. by injection Mt.
Qed.

Lemma init_internal_ok (pid par : Z) (p : Page) :
  is_page_id pid -> is_page_id par ->
  exists p', init_internal pid par p = (Ok tt, p') /\ node p' (@nil (bytes * Z)) /\
    pg_ce p' = NODE_DATA_SIZE /\ meta p' = fresh_meta pid BTREE_INTERNAL par.
Proof.
  intros Hpid Hpar.
  destruct (init_ok BTREE_INTERNAL pid par p) as (p' & E & S & C & Mt); [done|done|tauto|].
  exists p'. split; [exact E|]. split; [|done]. apply empty_node; [done|]. by injection Mt.
Qed.

(** ** Compaction *)

Lemma compact_reset_ok (p q : Page) :
  zlen p = PAGE_SIZE -> pg_type p = BTREE_LEAF \/ pg_type p = BTREE_INTERNAL ->
  exists p', compact_reset (pg_id p) (pg_type p) (rd (data 0) NODE_HEADER_SIZE p) (pg_first p) q
               = (Ok tt, p') /\
    slotted p' [] /\ pg_ce p' = NODE_DATA_SIZE /\ meta p' = meta p.
Proof.
  intros Hl Ht. unfold compact_reset.
  assert (Hh : zlen (rd (data 0) NODE_HEADER_SIZE p) = NODE_HEADER_SIZE) by (apply zlen_rd; klia).
  destruct (fresh_page_ok q (pg_id p) (pg_type p) _
    (fun _ => do* set_num_keys 0 in do* set_free_end SLOT_ARRAY_START in
              do* set_cell_end NODE_DATA_SIZE in set_first_child (pg_first p))
    (is_page_id_pg_id p) Ht Hh) as (p1 & E1 & L1 & I1 & T1 & R1).
  rewrite E1. clear E1.
  destruct (set_u16_ok p1 L1 (data OFF_NUM_KEYS) 0) as (p2 & E2 & F2 & S2); [klia..|].
  unfold set_num_keys. mstep E2. pose proof (same_outside_length _ _ _ _ F2) as L2.
  destruct (set_u16_ok p2 ltac:(congruence) (data OFF_FREE_END) SLOT_ARRAY_START)
    as (p3 & E3 & F3 & S3); [klia..|].
  unfold set_free_end. mstep E3. pose proof (same_outside_length _ _ _ _ F3) as L3.
  destruct (set_u16_ok p3 ltac:(congruence) (data OFF_CELL_END) NODE_DATA_SIZE)
    as (p4 & E4 & F4 & S4); [klia..|].
  unfold set_cell_end. mstep E4. pose proof (same_outside_length _ _ _ _ F4) as L4.
  destruct (set_i32_ok p4 ltac:(congruence) (data OFF_FIRST_CHILD) (pg_first p))
    as (p5 & E5 & F5 & S5); [klia|klia|apply is_page_id_field|].
  exists p5. split; [exact E5|]. pose proof (same_outside_length _ _ _ _ F5) as L5.
  assert (Hce : pg_ce p5 = NODE_DATA_SIZE).
  { unfold pg_ce. by rewrite (get_u_same_outside _ _ _ _ _ _ F5) by klia. }
  assert (F15 := same_on_trans _ _ _ _ _ (same_outside_on _ _ _ _ F2)
    (same_on_trans _ _ _ _ _ (same_outside_on _ _ _ _ F3) (same_outside_on _ _ _ _ F4))).
  split_and!; [|done|].
  - apply slotted_empty; [congruence| | |done].
    + unfold pg_num. rewrite (get_u_same_outside _ _ _ _ _ _ F5) by klia.
      rewrite (get_u_same_outside _ _ _ _ _ _ F4) by klia.
      by rewrite (get_u_same_outside _ _ _ _ _ _ F3) by klia.
    + unfold pg_fe. rewrite (get_u_same_outside _ _ _ _ _ _ F5) by klia.
      by rewrite (get_u_same_outside _ _ _ _ _ _ F4) by klia.
  - assert (Hf : forall d, 6 <= d -> d + 4 <= OFF_FIRST_CHILD ->
              get_s 4 (data d) p5 = get_s 4 (data d) p).
    { intros d H6 Hd. rewrite (get_s_same_outside _ _ _ _ _ _ F5) by klia.
      rewrite (get_s_same_on _ _ _ _ _ F15) by klia.
      unfold get_s. rewrite R1 by klia. by rewrite rd_rd by klia. }
    unfold meta, pg_parent, pg_right, pg_left. rewrite !Hf by klia.
    assert (Hid : pg_id p5 = pg_id p).
    { rewrite (pg_id_outside _ _ _ _ F5), (pg_id_outside _ _ _ _ F4), (pg_id_outside _ _ _ _ F3),
        (pg_id_outside _ _ _ _ F2) by klia. done. }
    assert (Hty : pg_type p5 = pg_type p).
    { rewrite (pg_type_outside _ _ _ _ F5), (pg_type_outside _ _ _ _ F4),
        (pg_type_outside _ _ _ _ F3), (pg_type_outside _ _ _ _ F2) by klia. done. }
    unfold pg_first. by rewrite S5, Hid, Hty.
Qed.

Section bulk.
Context {A : Type} `{NodeKindLaws A}.
Implicit Types (p : Page) (cells rest : list A).

Lemma collect_ok p cells (n i : nat) :
  holds p cells -> pg_type p = nk_type -> Forall nk_ok cells -> (i + n = length cells)%nat ->
  collect nk_cell_at n (Z.of_nat i) p = Ok (drop i cells).
Proof.
  intros Hh Ht Hok. revert i. induction n as [|n IH]; intros i Hn.
  - simpl. by rewrite drop_ge by lia.
  - destruct (lookup_lt_is_Some_2 cells i) as [a Ha]; [lia|]. cbn [collect].
    rewrite Forall_lookup in Hok.
    rewrite (result_bind_ok _ _ a) by (eapply nk_cell_at_ok; eauto).
    replace (Z.of_nat i + 1) with (Z.of_nat (S i)) by lia.
    rewrite (result_bind_ok _ _ _ (IH (S i) ltac:(lia))).
    by rewrite (drop_S _ _ _ Ha).
Qed.

(** Appending cells one by one at the end. *)
Lemma append_cells p cells rest :
  holds p cells -> occupied rest <= pg_ce p - pg_fe p ->
  exists p', for_each rest (fun c => let* m := query num_keys in nk_write m c) p = (Ok tt, p') /\
    holds p' (cells ++ rest) /\ pg_ce p' = pg_ce p - used rest /\ meta p' = meta p.
Proof.
  revert p cells. induction rest as [|a rest IH]; intros p cells Hh Hroom.
  - exists p. rewrite app_nil_r. split_and!; try done. simpl. lia.
  - rewrite occupied_cons in Hroom. pose proof (occupied_nonneg rest).
    destruct (nk_write_ok p cells (length cells) a Hh) as (p1 & E1 & Hp1 & C1 & M1);
      [lia|unfold has_room; lia|].
    rewrite insert_at_end in Hp1 by done.
    destruct (IH p1 (cells ++ [a]) Hp1) as (p' & E & Hp' & C & Mt).
    { rewrite C1, (holds_fe p1 _ Hp1), zlen_app, zlen_cons, zlen_nil.
      rewrite (holds_fe p _ Hh) in Hroom. lia. }
    exists p'. cbn [for_each]. rewrite bind_assoc.
    mstep (num_keys_ok p (holds_length p cells Hh)). rewrite (holds_num p cells Hh).
    mstep E1. split; [exact E|]. rewrite <- app_assoc in Hp'. split; [exact Hp'|].
    split; [|congruence]. rewrite C, C1. simpl. lia.
Qed.

Definition compacted p cells : Prop := pg_ce p = NODE_DATA_SIZE - used cells.

(** [compact] with the reads and writes of the kind of node it runs on. *)
Definition compact_kind : M Page unit :=
  let* n := query num_keys in
  if n =? 0 then set_cell_end NODE_DATA_SIZE
  else
    let* cells := query (fun p => collect nk_cell_at (Z.to_nat n) 0 p) in
    fun p =>
      (do* compact_reset (pg_id p) (pg_type p) (rd (data 0) NODE_HEADER_SIZE p) (pg_first p) in
       for_each cells (fun c => let* m := query num_keys in nk_write m c)) p.

Lemma compact_kind_ok p cells :
  node p cells ->
  exists p', compact_kind p = (Ok tt, p') /\ node p' cells /\ compacted p' cells /\
    meta p' = meta p.
Proof.
  intros [Hh Ht Hs Hok]. pose proof (holds_length p cells Hh) as Hl.
  unfold compact_kind. mstep (num_keys_ok p Hl). rewrite (holds_num p cells Hh).
  assert (Hpt : pg_type p = BTREE_LEAF \/ pg_type p = BTREE_INTERNAL).
  { rewrite Ht. apply nk_not_unknown. }
  destruct (Z.eqb_spec (zlen cells) 0) as [Hz|Hz].
  - destruct cells as [|a cells]; [|rewrite zlen_cons in Hz; pose proof (zlen_nonneg cells); lia].
    destruct (set_u16_ok p Hl (data OFF_CELL_END) NODE_DATA_SIZE) as (p' & E & F & C); [klia..|].
    assert (Mt : meta p' = meta p).
    { eapply (meta_same_on _ _ _ (same_outside_on _ _ _ _ F)). klia. }
    exists p'. split; [exact E|]. split_and!; [|unfold compacted, pg_ce; rewrite C; simpl; klia|done].
    split; [|by rewrite <- Ht; injection Mt|done|done].
    apply holds_empty; [by rewrite (same_outside_length _ _ _ _ F)| | |done].
    + rewrite <- (holds_num p _ Hh : pg_num p = 0).
      unfold pg_num. by rewrite (get_u_same_outside _ _ _ _ _ _ F) by klia.
    + rewrite <- (holds_fe p _ Hh : pg_fe p = SLOT_ARRAY_START).
      unfold pg_fe. by rewrite (get_u_same_outside _ _ _ _ _ _ F) by klia.
  - assert (Hc : collect nk_cell_at (Z.to_nat (zlen cells)) 0 p = Ok cells).
    { apply (collect_ok p cells _ 0 Hh Ht Hok). unfold zlen. lia. }
    mstep Hc.
    destruct (compact_reset_ok p p Hl Hpt) as (p1 & E1 & S1 & C1 & M1). mstep E1.
    assert (Hp1 : holds p1 (@nil A)) by (by exists []).
    destruct (append_cells p1 [] cells Hp1) as (p' & E & Hp' & C & Mt).
    { rewrite C1, (holds_fe p1 _ Hp1), (@zlen_nil A).
      pose proof (holds_occupied p cells Hh). pose proof (holds_bounds p cells Hh). klia. }
    exists p'. split; [exact E|]. rewrite C1 in C. split_and!; [|exact C|congruence].
    split; [exact Hp'| |done|done]. rewrite <- Ht. rewrite M1 in Mt. by injection Mt.
Qed.
End bulk.

Lemma compact_leaf_ok (p : Page) (cells : list (bytes * bytes)) :
  node p cells ->
  exists p', compact p = (Ok tt, p') /\ node p' cells /\ compacted p' cells /\ meta p' = meta p.
Proof.
  intros Hn. destruct (compact_kind_ok p cells Hn) as (p' & E & Hn' & C & Mt).
  exists p'. split; [|done]. rewrite <- E. clear E Hn' C Mt.
  destruct Hn as [Hh Ht Hs Hok]. pose proof (holds_length p cells Hh) as Hl. cbn [nk_type leaf_kind] in Ht.
  unfold compact, compact_kind. mstep (num_keys_ok p Hl). mstep (num_keys_ok p Hl).
  destruct (pg_num p =? 0); [done|].
  mstep (page_id_ok p Hl). mstep (page_type_ok p Hl).
  rewrite (bind_query _ _ _ (rd (data 0) NODE_HEADER_SIZE p)) by (apply ld_ok; rewrite ?Hl; klia).
  mstep (first_child_ok p Hl). mstep (is_leaf_ok p Hl). rewrite bool_decide_eq_true_2 by done.
  assert (Hc : collect (nk_cell_at (A := bytes * bytes)) (Z.to_nat (pg_num p)) 0 p = Ok cells).
  { rewrite (holds_num p cells Hh). apply (collect_ok p cells _ 0); [done|done|done|unfold zlen; lia]. }
  cbn [nk_cell_at leaf_kind] in *. mstep Hc. mstep Hc. rewrite (bind_query _ _ _ []) by done.
  destruct (compact_reset_ok p p Hl) as (p1 & E1 & S1 & C1 & M1); [by left|].
  mstep E1. mstep E1. mstep (is_leaf_ok p1 (sl_len _ _ S1)).
  injection M1 as _ Hty _ _ _ _. rewrite Hty, bool_decide_eq_true_2 by done. done.
Qed.

Lemma compact_internal_ok (p : Page) (cells : list (bytes * Z)) :
  node p cells ->
  exists p', compact p = (Ok tt, p') /\ node p' cells /\ compacted p' cells /\ meta p' = meta p.
Proof.
  intros Hn. destruct (compact_kind_ok p cells Hn) as (p' & E & Hn' & C & Mt).
  exists p'. split; [|done]. rewrite <- E. clear E Hn' C Mt.
  destruct Hn as [Hh Ht Hs Hok]. pose proof (holds_length p cells Hh) as Hl. cbn [nk_type internal_kind] in Ht.
  unfold compact, compact_kind. mstep (num_keys_ok p Hl). mstep (num_keys_ok p Hl).
  destruct (pg_num p =? 0); [done|].
  mstep (page_id_ok p Hl). mstep (page_type_ok p Hl).
  rewrite (bind_query _ _ _ (rd (data 0) NODE_HEADER_SIZE p)) by (apply ld_ok; rewrite ?Hl; klia).
  mstep (first_child_ok p Hl). mstep (is_leaf_ok p Hl).
  rewrite bool_decide_eq_false_2 by (by rewrite Ht). rewrite (bind_query _ _ _ []) by done.
  assert (Hc : collect (nk_cell_at (A := bytes * Z)) (Z.to_nat (pg_num p)) 0 p = Ok cells).
  { rewrite (holds_num p cells Hh). apply (collect_ok p cells _ 0); [done|done|done|unfold zlen; lia]. }
  cbn [nk_cell_at internal_kind] in *. mstep Hc. mstep Hc.
  destruct (compact_reset_ok p p Hl) as (p1 & E1 & S1 & C1 & M1); [by right|].
  mstep E1. mstep E1. mstep (is_leaf_ok p1 (sl_len _ _ S1)).
  injection M1 as _ Hty _ _ _ _. rewrite Hty, bool_decide_eq_false_2 by (by rewrite Ht). done.
Qed.
