(* ===== verification/NodeInsert.v ===== *)
(** * Insertion and in-place updates of node cells *)

From S2P Require Import Prelude.
From S2P Require Import Buffers.
From S2P Require Import Page.
From S2P Require Import Node.
From S2P Require Import NodeSlots.
From S2P Require Import KeyOrder.
From S2P Require Import NodeCells.
From S2P Require Import NodeKinds.
From S2P Require Import NodeOps.

(** Compaction as the insertions use it, for both kinds. *)
Class CompactLaw (A : Type) `{NodeKind A} : Prop :=
  compact_ok : forall (p : Page) (cells : list A), node p cells ->
    exists p', compact p = (Ok tt, p') /\ node p' cells /\ compacted p' cells /\ meta p' = meta p.

#[export] Instance compact_law_leaf : CompactLaw (bytes * bytes) := compact_leaf_ok.
#[export] Instance compact_law_internal : CompactLaw (bytes * Z) := compact_internal_ok.

Section room.
Context {A : Type} `{NodeKindLaws A, !CompactLaw A}.
Implicit Types (p : Page) (cells : list A) (a : A).

Lemma compacted_room p cells (n : Z) :
  holds p cells -> compacted p cells ->
  has_room p n <-> occupied cells + n + 2 <= NODE_USABLE_SIZE.
Proof.
  intros Hh Hc. unfold has_room, compacted, occupied in *. rewrite Hc, (holds_fe p cells Hh). klia.
Qed.

(** Whatever the fragmentation, room implies that the cells fit. *)
Lemma room_fits p cells (n : Z) :
  holds p cells -> has_room p n -> occupied cells + n + 2 <= NODE_USABLE_SIZE.
Proof. intros Hh Hr. unfold has_room in Hr. pose proof (holds_occupied p cells Hh). lia. Qed.

Lemma node_meta_type p p' cells : meta p' = meta p -> node p cells -> pg_type p' = nk_type.
Proof. intros Mt [_ Ht _ _]. rewrite <- Ht. by injection Mt. Qed.

Lemma make_room_ok p cells (i : nat) a :
  node p cells -> (i <= length cells)%nat ->
  let fits := bool_decide (occupied (a :: cells) <= NODE_USABLE_SIZE) in
  exists p', make_room (zlen (enc a)) (nk_write (Z.of_nat i) a) p = (Ok fits, p') /\
    meta p' = meta p /\
    (if fits then holds p' (insert_at i a cells) else node p' cells /\ compacted p' cells) /\
    (compacted p cells -> compacted p' (if fits then insert_at i a cells else cells)).
Proof.
  intros Hn Hi fits. pose proof (node_holds p cells Hn) as Hh.
  assert (Hocc : occupied (a :: cells) = occupied cells + zlen (enc a) + 2).
  { rewrite occupied_cons. lia. }
  unfold make_room. mstep (is_full_holds p cells Hh (zlen (enc a))).
  destruct (Z.ltb_spec (pg_ce p - pg_fe p) (total_cell_cost (zlen (enc a)))) as [Hfull|Hroom];
    unfold total_cell_cost in *.
  - destruct (compact_ok p cells Hn) as (p1 & E1 & N1 & C1 & M1). mstep E1.
    pose proof (node_holds p1 cells N1) as Hh1.
    mstep (is_full_holds p1 cells Hh1 (zlen (enc a))). unfold total_cell_cost.
    pose proof (compacted_room p1 cells (zlen (enc a)) Hh1 C1) as Hiff. unfold has_room in Hiff.
    destruct (Z.ltb_spec (pg_ce p1 - pg_fe p1) (2 + zlen (enc a))) as [Hfull1|Hroom1].
    + subst fits. rewrite bool_decide_eq_false_2 by lia. exists p1. split_and!; done.
    + destruct (nk_write_ok p1 cells i a Hh1 Hi) as (p' & E & Hp' & C & Mt);
        [unfold has_room; lia|].
      subst fits. rewrite bool_decide_eq_true_2 by lia. mstep E. exists p'.
      split; [done|]. split; [congruence|]. split; [done|]. intros Hcomp.
      exfalso. pose proof (compacted_room p cells (zlen (enc a)) Hh Hcomp) as Hiff'.
      unfold has_room in Hiff'. lia.
  - assert (Hr : has_room p (zlen (enc a))) by (unfold has_room; lia).
    destruct (nk_write_ok p cells i a Hh Hi Hr) as (p' & E & Hp' & C & Mt).
    rewrite (bind_ok _ _ p p tt) by done.
    mstep (is_full_holds p cells Hh (zlen (enc a))). unfold total_cell_cost.
    rewrite (proj2 (Z.ltb_ge _ _)) by lia. mstep E.
    pose proof (room_fits p cells _ Hh Hr). subst fits. rewrite bool_decide_eq_true_2 by lia.
    exists p'. split_and!; try done. unfold compacted. rewrite used_insert_at, C. lia.
Qed.
End room.

(** ** Leaves *)

Lemma node_remove {A : Type} `{NodeKind A} (p : Page) (cells : list A) (i : nat) :
  node p cells -> (i < length cells)%nat ->
  exists p', remove_cell (Z.of_nat i) p = (Ok tt, p') /\ node p' (delete i cells) /\
    pg_ce p' = pg_ce p /\ meta p' = meta p.
Proof.
  intros Hn Hi. pose proof Hn as [Hh Ht Hs Hok].
  destruct (holds_remove p cells i Hh Hi) as (p' & E & Hp' & C & Mt).
  exists p'. split_and!; try done. split; [done| | |].
  - by eapply node_meta_type.
  - by apply sorted_delete.
  - by apply Forall_delete.
Qed.

Lemma occupied_upsert_present (k v : bytes) (cells : list (bytes * bytes)) (i : nat) (v0 : bytes) :
  sorted_cells fst cells -> cells !! i = Some (k, v0) ->
  occupied (upsert k v cells) = occupied ((k, v) :: delete i cells).
Proof.
  intros Hs Hi. rewrite (upsert_present k v cells i (k, v0)) by done.
  assert (Hlt := lookup_lt_Some _ _ _ Hi).
  rewrite insert_take_drop by done. rewrite delete_take_drop.
  rewrite occupied_cons, !occupied_app, occupied_cons. lia.
Qed.

Lemma same_value_size (k v0 v : bytes) :
  zlen v0 = zlen v -> zlen (enc (k, v)) = zlen (enc (k, v0)).
Proof. intros Hv. by rewrite !zlen_enc_leaf, Hv. Qed.

(** The in-place branch: the value bytes are overwritten where they are. *)
Lemma overwrite_value_ok (p : Page) (cells : list (bytes * bytes)) (i : nat) (k v0 v : bytes) :
  holds p cells -> cells !! i = Some (k, v0) -> zlen v0 = zlen v ->
  let off := pg_slot (Z.of_nat i) p in
  exists p', st (data off + 2 + zlen k + 2) v p = (Ok tt, p') /\
    holds p' (<[i:=(k, v)]> cells) /\ pg_ce p' = pg_ce p /\ meta p' = meta p.
Proof.
  intros Hh Hi Hv off. pose proof (holds_length p cells Hh) as Hl.
  destruct (holds_cell p cells Hh i _ Hi) as (H1 & H2 & H3 & H4). fold off in H1, H2, H3, H4.
  pose proof (zlen_nonneg k). pose proof (zlen_nonneg v).
  assert (Hsz : zlen (enc (k, v0)) = 2 + zlen k + 2 + zlen v).
  { rewrite zlen_enc_leaf. unfold leaf_cell_size. lia. }
  replace (data off + 2 + zlen k + 2) with (data off + (2 + zlen k + 2)) by lia.
  rewrite st_ok by klia. eexists. split; [done|].
  eapply holds_replace; [done|done|by apply same_value_size| |].
  - eapply same_outside_weaken; [apply wr_same_outside; klia|fold off; klia|fold off; klia].
  - fold off. rewrite rd_wr_within by klia. rewrite H3. unfold enc. cell_simpl.
    rewrite <- Hv. unfold wr, zlen.
    replace (Z.to_nat (2 + Z.of_nat (length k) + 2))
      with (length (le_enc 2 (Z.of_nat (length k)) ++ k ++ le_enc 2 (Z.of_nat (length v0))))
      by (rewrite !length_app, !length_le_enc; lia).
    rewrite !app_assoc, take_app_length. rewrite <- !app_assoc. do 3 f_equal.
    rewrite drop_ge; [by rewrite app_nil_r|].
    rewrite !length_app, !length_le_enc. unfold zlen in Hv. lia.
Qed.

Definition leaf_fits (k v : bytes) (cells : list (bytes * bytes)) : bool :=
  bool_decide (occupied (upsert k v cells) <= NODE_USABLE_SIZE).

Lemma occupied_upsert_le (k v : bytes) (cells : list (bytes * bytes)) :
  occupied (upsert k v cells) <= occupied cells + (zlen (enc (k, v)) + 2).
Proof.
  induction cells as [|c cells IH]; cbn [upsert].
  - rewrite occupied_cons. lia.
  - pose proof (zlen_nonneg (enc c)). destruct (key_ltb c.1 k); [|case_bool_decide];
      rewrite ?occupied_cons; lia.
Qed.

(** The key test of [insert_leaf_cell] and of the tree operations. *)
Lemma key_present_ok {A : Type} `{NodeKind A} (p : Page) (cells : list A) (k : bytes) :
  node p cells ->
  let i := lb_index cell_key k cells in
  (if Z.of_nat i <? pg_num p
   then let? k' := key_at (Z.of_nat i) p in Ok (bool_decide (k' = k)) else Ok false) =
  Ok (match cells !! i with Some c => bool_decide (cell_key c = k) | None => false end).
Proof.
  intros [Hh Ht Hs Hok] i. rewrite (holds_num p cells Hh).
  destruct (cells !! i) as [c|] eqn:Hi.
  - assert (Hlt := lookup_lt_Some _ _ _ Hi). unfold zlen. rewrite (proj2 (Z.ltb_lt _ _)) by lia.
    by rewrite (key_at_holds p cells Hh i c Hi).
  - apply lookup_ge_None in Hi. unfold zlen. by rewrite (proj2 (Z.ltb_ge _ _)) by lia.
Qed.

Lemma insert_absent_ok (p : Page) (cells : list (bytes * bytes)) (k v : bytes) (i : nat) :
  node p cells -> i = lb_index fst k cells ->
  (forall c, cells !! i = Some c -> c.1 <> k) ->
  exists p', make_room (leaf_cell_size (zlen k) (zlen v)) (write_leaf_cell (Z.of_nat i) k v) p
               = (Ok (leaf_fits k v cells), p') /\ meta p' = meta p /\
    node p' (if leaf_fits k v cells then upsert k v cells else cells) /\
    (leaf_fits k v cells = false \/ compacted p cells ->
     compacted p' (if leaf_fits k v cells then upsert k v cells else cells)).
Proof.
  intros Hn -> Hne. pose proof Hn as [Hh Ht Hs Hok].
  assert (Hlb := lb_index_spec fst k cells Hs). set (i := lb_index fst k cells) in *.
  assert (Hi : (i <= length cells)%nat) by apply Hlb.
  assert (Hup : upsert k v cells = insert_at i (k, v) cells) by (by apply upsert_absent).
  assert (Hfit : leaf_fits k v cells = bool_decide (occupied ((k, v) :: cells) <= NODE_USABLE_SIZE)).
  { unfold leaf_fits. rewrite Hup, occupied_insert_at, occupied_cons. done. }
  destruct (make_room_ok p cells i (k, v) Hn Hi) as (p' & E & Mt & Hres & Hcomp).
  rewrite zlen_enc_leaf in E. rewrite <- Hfit in *. exists p'.
  split; [exact E|]. split; [exact Mt|]. rewrite Hup.
  destruct (leaf_fits k v cells); [|by destruct Hres].
  split; [|intros [?|?]; [done|auto]]. split; [done| | |].
  - by eapply node_meta_type.
  - by eapply sorted_insert_at.
  - by apply Forall_insert_at.
Qed.

(** The branch that overwrites a value of another size: remove, then insert. *)
Lemma reinsert_ok (p : Page) (cells : list (bytes * bytes)) (k v0 v : bytes) (i : nat) :
  node p cells -> i = lb_index fst k cells -> cells !! i = Some (k, v0) ->
  exists p', (do* remove_cell (Z.of_nat i) in
              let* slot' := query (lower_bound k) in
              make_room (leaf_cell_size (zlen k) (zlen v)) (write_leaf_cell slot' k v)) p
               = (Ok (leaf_fits k v cells), p') /\ meta p' = meta p /\
    node p' (if leaf_fits k v cells then upsert k v cells else remove_key k cells) /\
    (leaf_fits k v cells = false -> compacted p' (remove_key k cells)).
Proof.
  intros Hn Hidx Hi. pose proof Hn as [Hh Ht Hs Hok].
  assert (Hlb := lb_index_spec fst k cells Hs). rewrite <- Hidx in Hlb.
  assert (Hlt := lookup_lt_Some _ _ _ Hi).
  destruct (upsert_delete k v cells i (k, v0) Hs Hlb Hi eq_refl) as (Hidx' & Hne & Hup).
  assert (Hrm : remove_key k cells = delete i cells) by (by eapply remove_key_present).
  destruct (node_remove p cells i Hn Hlt) as (p1 & E1 & N1 & C1 & M1). mstep E1.
  pose proof N1 as [Hh1 Ht1 Hs1 Hok1]. mstep (lower_bound_holds p1 _ Hh1 k Hs1). cell_simpl.
  rewrite Hidx'.
  destruct (insert_absent_ok p1 (delete i cells) k v i N1 (eq_sym Hidx') Hne)
    as (p' & E & Mt & N & Hcomp).
  assert (Hfit : leaf_fits k v (delete i cells) = leaf_fits k v cells).
  { unfold leaf_fits. by rewrite Hup. }
  rewrite Hfit, Hup in *. exists p'. rewrite Hrm.
  split; [exact E|]. split; [congruence|]. split; [done|].
  intros Hf. rewrite Hf in Hcomp. apply Hcomp. by left.
Qed.

(** The branch that overwrites a value of the same size. *)
Lemma overwrite_ok (p : Page) (cells : list (bytes * bytes)) (k v0 v : bytes) (i : nat) :
  node p cells -> cells !! i = Some (k, v0) -> zlen v0 = zlen v ->
  leaf_fits k v cells = true /\
  exists p', (let* off := query (slot_at (Z.of_nat i)) in
              let* klen := query (ld_u 2 (data off)) in
              do* st (data off + 2 + klen + 2) v in ret true) p = (Ok true, p') /\
    meta p' = meta p /\ node p' (upsert k v cells).
Proof.
  intros Hn Hi Hv. pose proof Hn as [Hh Ht Hs Hok]. assert (Hlt := lookup_lt_Some _ _ _ Hi).
  destruct (overwrite_value_ok p cells i k v0 v Hh Hi Hv) as (p' & E & Hp' & C & Mt).
  assert (Hup : upsert k v cells = <[i:=(k, v)]> cells) by (by eapply upsert_present).
  split.
  - apply bool_decide_eq_true_2. rewrite Hup.
    pose proof (holds_occupied p' _ Hp'). pose proof (holds_bounds p' _ Hp'). lia.
  - exists p'. mstep (holds_slot_at p cells Hh i Hlt).
    mstep (holds_klen p cells Hh i _ Hi). cell_simpl. mstep E. rewrite Hup.
    split; [done|]. split; [done|]. split; [done| | |].
    + by eapply node_meta_type.
    + by eapply sorted_replace.
    + by apply Forall_true.
Qed.

Lemma insert_leaf_cell_ok (p : Page) (cells : list (bytes * bytes)) (k v : bytes) :
  node p cells ->
  exists p', insert_leaf_cell k v p = (Ok (leaf_fits k v cells), p') /\ meta p' = meta p /\
    node p' (if leaf_fits k v cells then upsert k v cells else remove_key k cells) /\
    (leaf_fits k v cells = false \/ (compacted p cells /\ k ∉ cells.*1) ->
     compacted p' (if leaf_fits k v cells then upsert k v cells else remove_key k cells)).
Proof.
  intros Hn. pose proof Hn as [Hh Ht Hs Hok]. pose proof (holds_length p cells Hh) as Hl.
  assert (Hlb := lb_index_spec fst k cells Hs). unfold insert_leaf_cell.
  mstep (is_leaf_ok p Hl). rewrite bind_assert by (by apply bool_decide_eq_true_2).
  mstep (lower_bound_holds p cells Hh k Hs). mstep (num_keys_ok p Hl).
  mstep (key_present_ok p cells k Hn). cell_simpl.
  remember (lb_index fst k cells) as i eqn:Hidx.
  destruct (match cells !! i with Some c => bool_decide (c.1 = k) | None => false end) eqn:Hpres.
  - destruct (cells !! i) as [[k0 v0]|] eqn:Hi; [|done].
    apply bool_decide_eq_true_1 in Hpres. simpl in Hpres. subst k0.
    assert (Hin : k ∈ cells.*1).
    { apply list_elem_of_fmap. exists (k, v0). split; [done|].
      apply list_elem_of_lookup. by exists i. }
    mstep (value_at_holds p cells i k v0 Hh Ht Hi).
    destruct (Z.eqb_spec (zlen v0) (zlen v)) as [Hv|Hv].
    + destruct (overwrite_ok p cells k v0 v i Hn Hi Hv) as (Hfit & p' & E & Mt & N).
      rewrite Hfit. exists p'. split_and!; [exact E|done|done|]. intros [?|[_ ?]]; done.
    + destruct (reinsert_ok p cells k v0 v i Hn Hidx Hi) as (p' & E & Mt & N & Hc).
      exists p'. split; [exact E|]. split_and!; [done|done|].
      intros [Hf|[_ ?]]; [|done]. rewrite Hf. by apply Hc.
  - assert (Hne : forall c, cells !! i = Some c -> c.1 <> k).
    { intros c Hc. rewrite Hc in Hpres. by apply bool_decide_eq_false_1 in Hpres. }
    destruct (insert_absent_ok p cells k v i Hn Hidx Hne) as (p' & E & Mt & N & Hcomp).
    exists p'. split; [exact E|]. split; [done|].
    rewrite remove_key_absent by (by eapply absent_at_lower_bound).
    split; [done|]. intros [?|[? _]]; apply Hcomp; tauto.
Qed.

(** ** Internal nodes *)

Definition separator_fits (k : bytes) (c : Z) (cells : list (bytes * Z)) : bool :=
  bool_decide (occupied ((k, c) :: cells) <= NODE_USABLE_SIZE).

Lemma insert_separator_ok (p : Page) (cells : list (bytes * Z)) (k : bytes) (c : Z) :
  node p cells -> k ∉ cells.*1 -> is_page_id c ->
  exists p', insert_separator k c p = (Ok (separator_fits k c cells), p') /\ meta p' = meta p /\
    node p' (if separator_fits k c cells then upsert k c cells else cells) /\
    (separator_fits k c cells = false \/ compacted p cells ->
     compacted p' (if separator_fits k c cells then upsert k c cells else cells)).
Proof.
  intros Hn Hk Hc. pose proof Hn as [Hh Ht Hs Hok]. pose proof (holds_length p cells Hh) as Hl.
  assert (Hlb := lb_index_spec fst k cells Hs). unfold insert_separator.
  mstep (is_leaf_ok p Hl). rewrite bind_assert by (by rewrite bool_decide_eq_false_2 by (by rewrite Ht)).
  mstep (lower_bound_holds p cells Hh k Hs). cell_simpl. set (i := lb_index fst k cells) in *.
  assert (Hne : forall d, cells !! i = Some d -> d.1 <> k).
  { intros d Hd <-. apply Hk. apply list_elem_of_fmap. exists d. split; [done|].
    apply list_elem_of_lookup. by exists i. }
  rewrite (upsert_absent k c cells i) by done.
  destruct (make_room_ok p cells i (k, c) Hn) as (p' & E & Mt & Hres & Hcomp); [apply Hlb|].
  rewrite zlen_enc_internal in E. exists p'. split; [exact E|]. split; [done|].
  unfold separator_fits in *. case_bool_decide as Hfit.
  - split; [|intros [?|?]; [done|auto]]. split; [done| | |].
    + by eapply node_meta_type.
    + by eapply sorted_insert_at.
    + by apply Forall_insert_at.
  - destruct Hres. done.
Qed.
