(* ===== verification/NodeSplit.v ===== *)
(** * Splitting a node

    [split_into] distributes the cells of a full node over itself and an
    empty node of the same kind: where the split point lies, what each half
    holds afterwards, and how the links change. *)

From S2P Require Import Prelude.
From S2P Require Import Buffers.
From S2P Require Import Page.
From S2P Require Import Node.
From S2P Require Import NodeSlots.
From S2P Require Import KeyOrder.
From S2P Require Import NodeCells.
From S2P Require Import NodeKinds.
From S2P Require Import NodeOps.
From S2P Require Import NodeInsert.

(** ** Running an operation on one of the two nodes *)

Lemma bind_on_this {A B : Type} (m : M Page A) (k : A -> M (Page * Page) B) (p q p' : Page) (a : A) :
  m p = (Ok a, p') -> bind (on_this m) k (p, q) = k a (p', q).
Proof. intros E. unfold bind, on_this, zoom. simpl. by rewrite E. Qed.

Lemma bind_on_right {A B : Type} (m : M Page A) (k : A -> M (Page * Page) B) (p q q' : Page) (a : A) :
  m q = (Ok a, q') -> bind (on_right m) k (p, q) = k a (p, q').
Proof. intros E. unfold bind, on_right, zoom. simpl. by rewrite E. Qed.

Lemma bind_query_this {A B : Type} (f : Page -> result A) (k : A -> M (Page * Page) B) (p q : Page) (a : A) :
  f p = Ok a -> bind (on_this (query f)) k (p, q) = k a (p, q).
Proof. intros E. apply bind_on_this. unfold query. by rewrite E. Qed.

Lemma bind_query_right {A B : Type} (f : Page -> result A) (k : A -> M (Page * Page) B) (p q : Page) (a : A) :
  f q = Ok a -> bind (on_right (query f)) k (p, q) = k a (p, q).
Proof. intros E. apply bind_on_right. unfold query. by rewrite E. Qed.

Ltac pstep H :=
  first [ rewrite (bind_query_this _ _ _ _ _ H) | rewrite (bind_query_right _ _ _ _ _ H)
        | rewrite (bind_on_this _ _ _ _ _ _ H) | rewrite (bind_on_right _ _ _ _ _ _ H) ];
  cbn beta.

(** ** Links *)

Section links.
Context {A : Type} `{NodeKind A} (p : Page) (cells : list A) (z : Z).
Hypothesis Hn : node p cells.
Hypothesis Hz : is_page_id z.

Lemma set_link_ok (off : Z) :
  data OFF_PARENT_ID <= off <= data OFF_FIRST_CHILD ->
  exists p', st_i 4 off z p = (Ok tt, p') /\ node p' cells /\ pg_ce p' = pg_ce p /\
    same_outside off (off + 4) p p' /\ get_s 4 off p' = z /\
    pg_id p' = pg_id p /\ pg_type p' = pg_type p.
Proof.
  intros Ho. destruct Hn as [Hh Ht Hs Hok]. pose proof (holds_length p cells Hh) as Hl.
  destruct (set_i32_ok p Hl off z) as (p' & E & F & G); [klia|klia|done|].
  destruct (holds_frame _ _ p p' cells F) as [Hh' C]; [klia|done|].
  assert (pg_type p' = pg_type p) as T by (eapply pg_type_outside; [exact F|klia]).
  exists p'. split_and!; try done.
  - split; [done|congruence|done|done].
  - eapply pg_id_outside; [exact F|klia].
Qed.

Ltac link off :=
  destruct (set_link_ok (data off)) as (p' & E & N & C & F & G & I & T); [klia|];
  exists p'; split; [exact E|]; split; [exact N|]; split; [exact C|];
  unfold meta, pg_parent, pg_right, pg_left, pg_first in *; rewrite I, T, G;
  by repeat (rewrite (get_s_same_outside _ _ _ _ _ _ F) by klia).

Lemma set_parent_id_ok :
  exists p', set_parent_id z p = (Ok tt, p') /\ node p' cells /\ pg_ce p' = pg_ce p /\
    meta p' = (pg_id p, pg_type p, (z, pg_right p, pg_left p, pg_first p)).
Proof. link OFF_PARENT_ID. Qed.
Lemma set_right_sibling_ok :
  exists p', set_right_sibling z p = (Ok tt, p') /\ node p' cells /\ pg_ce p' = pg_ce p /\
    meta p' = (pg_id p, pg_type p, (pg_parent p, z, pg_left p, pg_first p)).
Proof. link OFF_RIGHT_SIBLING. Qed.
Lemma set_left_sibling_ok :
  exists p', set_left_sibling z p = (Ok tt, p') /\ node p' cells /\ pg_ce p' = pg_ce p /\
    meta p' = (pg_id p, pg_type p, (pg_parent p, pg_right p, z, pg_first p)).
Proof. link OFF_LEFT_SIBLING. Qed.
Lemma set_first_child_ok :
  exists p', set_first_child z p = (Ok tt, p') /\ node p' cells /\ pg_ce p' = pg_ce p /\
    meta p' = (pg_id p, pg_type p, (pg_parent p, pg_right p, pg_left p, z)).
Proof. link OFF_FIRST_CHILD. Qed.
End links.

(** ** Removing a tail of cells *)

Lemma remove_tail_ok {A : Type} `{NodeKind A} (p : Page) (cells : list A) (m : nat) :
  node p cells -> (m <= length cells)%nat ->
  exists p', remove_tail (zlen cells) (Z.of_nat m) p = (Ok tt, p') /\ node p' (take m cells) /\
    pg_ce p' = pg_ce p /\ meta p' = meta p.
Proof.
  unfold remove_tail. intros Hn Hm.
  replace (Z.to_nat (zlen cells - Z.of_nat m)) with (length cells - m)%nat by (unfold zlen; lia).
  remember (length cells - m)%nat as d eqn:Hd. revert p cells Hn Hm Hd.
  induction d as [|d IH]; intros p cells Hn Hm Hd.
  - exists p. rewrite take_ge by lia. done.
  - destruct (node_remove p cells (length cells - 1) Hn) as (p1 & E1 & N1 & C1 & M1); [lia|].
    assert (Hdel : delete (length cells - 1)%nat cells = take (length cells - 1)%nat cells).
    { rewrite delete_take_drop, drop_ge by lia. apply app_nil_r. }
    rewrite Hdel in N1.
    assert (Hlen : length (take (length cells - 1)%nat cells) = (length cells - 1)%nat).
    { rewrite length_take. lia. }
    destruct (IH p1 _ N1) as (p' & E & N & C & Mt); [lia|lia|].
    exists p'. cbn [for_down]. unfold zlen in *. rewrite Hlen in E.
    replace (Z.of_nat (length cells) - 1) with (Z.of_nat (length cells - 1)) by lia.
    mstep E1. split; [exact E|].
    rewrite take_take in N. replace (m `min` (length cells - 1))%nat with m in N by lia.
    split_and!; [done|congruence|congruence].
Qed.

(** ** The split point *)

Section split_point.
Context {A : Type} `{Cell A} (cost : Z -> Page -> result Z) (p : Page) (cells : list A) (half : Z).
Hypothesis cost_ok : forall (i : nat) (a : A), cells !! i = Some a ->
  cost (Z.of_nat i) p = Ok (zlen (enc a) + 2).
Hypothesis Hbound : zlen cells < 65536.

Lemma split_loop_ok (fuel i : nat) :
  (i + fuel = length cells)%nat -> (i <= 1)%nat \/ occupied (take i cells) <= half ->
  exists r, split_loop cost fuel (Z.of_nat i) half (occupied (take i cells)) (Z.of_nat i) p
              = Ok (Z.of_nat r) /\
    (i <= r <= length cells)%nat /\ ((r <= 1)%nat \/ occupied (take r cells) <= half) /\
    ((r < length cells)%nat -> (0 < r)%nat /\ half < occupied (take (S r) cells)).
Proof.
  revert i. induction fuel as [|fuel IH]; intros i Hi Hacc.
  - exists i. split; [done|]. split; [lia|]. split; [done|lia].
  - destruct (lookup_lt_is_Some_2 cells i) as [a Ha]; [lia|]. cbn [split_loop].
    rewrite (result_bind_ok _ _ _ (cost_ok i a Ha)).
    assert (Hocc : occupied (take (S i) cells) = occupied (take i cells) + (zlen (enc a) + 2)).
    { rewrite (take_S_r _ _ _ Ha), occupied_app, occupied_cons, occupied_nil. lia. }
    rewrite <- Hocc.
    destruct (Z.ltb_spec half (occupied (take (S i) cells))) as [Hgt|Hle];
      destruct (Z.ltb_spec 0 (Z.of_nat i)) as [Hpos|Hzero]; simpl.
    1: { exists i. split; [done|]. split; [lia|]. split; [done|]. intros _. split; [lia|done]. }
    all: unfold wrap; change (2 ^ 16) with 65536; unfold zlen in Hbound;
      rewrite Z.mod_small by lia; replace (Z.of_nat i + 1) with (Z.of_nat (S i)) by lia;
      destruct (IH (S i)) as (r & E & Hr & Hr1 & Hr2); [lia| |]; [lia|];
      exists r; split; [exact E|]; split; [lia|done].
Qed.

(** On a node whose bytes are all live, the point is strictly inside. *)
Lemma split_point_interior :
  (2 <= length cells)%nat -> half = occupied cells / 2 -> 0 < occupied cells ->
  exists r, split_loop cost (length cells) 0 half 0 0 p = Ok (Z.of_nat r) /\
    (0 < r < length cells)%nat /\ ((r <= 1)%nat \/ occupied (take r cells) <= half) /\
    half < occupied (take (S r) cells).
Proof.
  intros H2 Hhalf Hpos. destruct (split_loop_ok (length cells) 0) as (r & E & Hr & Hr1 & Hr2);
    [lia|left; lia|].
  exists r. split; [exact E|].
  assert (Hlt : (r < length cells)%nat).
  { destruct (decide (r < length cells)%nat); [done|]. destruct Hr1; [lia|].
    rewrite take_ge in * by lia.
    assert (occupied cells / 2 < occupied cells) by (apply Z.div_lt; lia). lia. }
  destruct (Hr2 Hlt) as [H1 H3]. split_and!; done || lia.
Qed.
End split_point.

Lemma leaf_cost_ok (p : Page) (cells : list (bytes * bytes)) (i : nat) (a : bytes * bytes) :
  node p cells -> cells !! i = Some a -> leaf_cost (Z.of_nat i) p = Ok (zlen (enc a) + 2).
Proof.
  destruct a as [k v]. intros [Hh Ht _ _] Hi. unfold leaf_cost.
  rewrite (result_bind_ok _ _ _ (key_at_holds p cells Hh i _ Hi)).
  rewrite (result_bind_ok _ _ _ (value_at_holds p cells i k v Hh Ht Hi)).
  by rewrite zlen_enc_leaf.
Qed.

Lemma internal_cost_ok (p : Page) (cells : list (bytes * Z)) (i : nat) (a : bytes * Z) :
  node p cells -> cells !! i = Some a -> internal_cost (Z.of_nat i) p = Ok (zlen (enc a) + 2).
Proof.
  destruct a as [k c]. intros [Hh Ht _ _] Hi. unfold internal_cost.
  rewrite (result_bind_ok _ _ _ (key_at_holds p cells Hh i _ Hi)).
  by rewrite zlen_enc_internal.
Qed.

Lemma half_used_ok {A : Type} `{NodeKind A} (p : Page) (cells : list A) :
  node p cells -> compacted p cells -> half_used p = Ok (occupied cells / 2).
Proof.
  intros [Hh _ _ _] Hc. unfold half_used.
  rewrite (result_bind_ok _ _ _ (free_space_holds p cells Hh)).
  pose proof (occupied_nonneg cells). pose proof (holds_bounds p cells Hh).
  rewrite (holds_fe p cells Hh) in *. unfold compacted, occupied in *. rewrite Hc.
  unfold wrap. rewrite Z.mod_small.
  - do 2 f_equal. klia.
  - change (2 ^ 64) with 18446744073709551616. klia.
Qed.

(** ** Copying cells to the right node *)

Lemma upsert_end {V : Type} (k : bytes) (v : V) (l : list (bytes * V)) :
  sorted_cells fst (l ++ [(k, v)]) -> upsert k v l = l ++ [(k, v)].
Proof.
  intros Hs. apply sorted_app in Hs as (Hl & _ & Hlt).
  induction l as [|c l IH]; [done|]. simpl.
  assert (key_ltb c.1 k = true) as -> by (apply (Hlt c (k, v)); by left).
  f_equal. inversion Hl; subst. apply IH; [done|]. intros x y Hx Hy. apply Hlt; [by right|done].
Qed.

Lemma sorted_drop_take {A : Type} (key : A -> bytes) (l : list A) (m n : nat) :
  sorted_cells key l -> sorted_cells key (drop m (take n l)).
Proof.
  intros Hs. rewrite <- (take_drop n l) in Hs. apply sorted_app in Hs as (Hs & _).
  rewrite <- (take_drop m (take n l)) in Hs. by apply sorted_app in Hs as (_ & Hs & _).
Qed.

Lemma drop_take_S {A : Type} (l : list A) (m i : nat) (a : A) :
  l !! i = Some a -> (m <= i)%nat -> drop m (take (S i) l) = drop m (take i l) ++ [a].
Proof.
  intros Ha Hm. rewrite (take_S_r _ _ _ Ha). apply lookup_lt_Some in Ha.
  by rewrite drop_app_le by (rewrite length_take; lia).
Qed.

Lemma occupied_drop_take {A : Type} `{Cell A} (l : list A) (m i : nat) :
  occupied (drop m (take i l)) <= occupied l.
Proof.
  rewrite <- (take_drop i l) at 2. rewrite <- (take_drop m (take i l)) at 2.
  rewrite !occupied_app. pose proof (occupied_nonneg (take m (take i l))).
  pose proof (occupied_nonneg (drop i l)). lia.
Qed.

Section copy.
Context {A : Type} `{NodeKindLaws A}.

(** [insert] of the kind, on a right node that holds the cells copied so
    far, appends one more. *)
Variable insert : A -> M Page bool.
Variable cells : list A.
Hypothesis Hsorted : sorted_cells cell_key cells.
Hypothesis insert_next : forall (q : Page) (m i : nat) (a : A),
  cells !! i = Some a -> (m <= i)%nat -> node q (drop m (take i cells)) ->
  compacted q (drop m (take i cells)) -> occupied cells <= NODE_USABLE_SIZE ->
  exists q', insert a q = (Ok true, q') /\ meta q' = meta q /\
    node q' (drop m (take (S i) cells)) /\ compacted q' (drop m (take (S i) cells)).

Variable body : Z -> M (Page * Page) unit.
Hypothesis body_ok : forall (p q q' : Page) (i : nat) (a : A),
  node p cells -> cells !! i = Some a -> insert a q = (Ok true, q') ->
  body (Z.of_nat i) (p, q) = (Ok tt, (p, q')).

Lemma copy_loop_ok (p q : Page) (n m i : nat) :
  node p cells -> (m <= i)%nat -> (i + n <= length cells)%nat ->
  node q (drop m (take i cells)) -> compacted q (drop m (take i cells)) ->
  exists q', for_up n (Z.of_nat i) body (p, q) = (Ok tt, (p, q')) /\ meta q' = meta q /\
    node q' (drop m (take (i + n) cells)) /\ compacted q' (drop m (take (i + n) cells)).
Proof.
  intros Hp. assert (Hocc : occupied cells <= NODE_USABLE_SIZE).
  { pose proof (holds_occupied p cells (node_holds _ _ Hp)).
    pose proof (holds_bounds p cells (node_holds _ _ Hp)). lia. }
  revert q i. induction n as [|n IH]; intros q i Hm Hi Hq Hc.
  - exists q. rewrite Nat.add_0_r. done.
  - destruct (lookup_lt_is_Some_2 cells i) as [a Ha]; [lia|].
    destruct (insert_next q m i a Ha Hm Hq Hc Hocc) as (q1 & E1 & M1 & N1 & C1).
    cbn [for_up]. rewrite (bind_ok _ _ _ _ _ (body_ok p q q1 i a Hp Ha E1)).
    replace (Z.of_nat i + 1) with (Z.of_nat (S i)) by lia.
    destruct (IH q1 (S i)) as (q' & E & Mt & N & C); [lia|lia|done|done|].
    exists q'. split; [exact E|]. split; [congruence|].
    by replace (S i + n)%nat with (i + S n)%nat in * by lia.
Qed.
End copy.

(** One more leaf cell at the end of the right half. *)
Lemma insert_next_leaf (cells : list (bytes * bytes)) (q : Page) (m i : nat) (a : bytes * bytes) :
  sorted_cells fst cells -> cells !! i = Some a -> (m <= i)%nat ->
  node q (drop m (take i cells)) -> compacted q (drop m (take i cells)) ->
  occupied cells <= NODE_USABLE_SIZE ->
  exists q', insert_leaf_cell a.1 a.2 q = (Ok true, q') /\ meta q' = meta q /\
    node q' (drop m (take (S i) cells)) /\ compacted q' (drop m (take (S i) cells)).
Proof.
  intros Hs Ha Hm Hq Hc Hocc. destruct a as [k v]. cbn [fst snd].
  assert (Hs' := sorted_drop_take fst cells m (S i) Hs).
  rewrite (drop_take_S _ _ _ _ Ha Hm) in *.
  assert (Hup := upsert_end k v _ Hs').
  assert (Hfit : leaf_fits k v (drop m (take i cells)) = true).
  { apply bool_decide_eq_true_2. rewrite Hup, <- (drop_take_S _ _ _ _ Ha Hm).
    etrans; [apply occupied_drop_take|done]. }
  destruct (insert_leaf_cell_ok q _ k v Hq) as (q' & E & Mt & N & C).
  rewrite Hfit, Hup in *. exists q'. split_and!; [done|done|done|]. apply C. right. split; [done|].
  apply sorted_keys_NoDup in Hs'. rewrite fmap_app in Hs'.
  apply NoDup_app in Hs' as (_ & Hd & _). intros Hin. apply (Hd _ Hin). by left.
Qed.

Lemma insert_next_internal (cells : list (bytes * Z)) (q : Page) (m i : nat) (a : bytes * Z) :
  sorted_cells fst cells -> Forall nk_ok cells -> cells !! i = Some a -> (m <= i)%nat ->
  node q (drop m (take i cells)) -> compacted q (drop m (take i cells)) ->
  occupied cells <= NODE_USABLE_SIZE ->
  exists q', insert_separator a.1 a.2 q = (Ok true, q') /\ meta q' = meta q /\
    node q' (drop m (take (S i) cells)) /\ compacted q' (drop m (take (S i) cells)).
Proof.
  intros Hs Hok Ha Hm Hq Hc Hocc. destruct a as [k c]. cbn [fst snd].
  assert (Hid : is_page_id c) by (rewrite Forall_lookup in Hok; apply (Hok i _ Ha)).
  assert (Hs' := sorted_drop_take fst cells m (S i) Hs).
  rewrite (drop_take_S _ _ _ _ Ha Hm) in *.
  assert (Hup := upsert_end k c _ Hs').
  assert (Hfit : separator_fits k c (drop m (take i cells)) = true).
  { apply bool_decide_eq_true_2. assert (Hle := occupied_drop_take cells m (S i)).
    rewrite (drop_take_S _ _ _ _ Ha Hm), occupied_app, occupied_cons, occupied_nil in Hle.
    rewrite occupied_cons. lia. }
  destruct (insert_separator_ok q _ k c Hq) as (q' & E & Mt & N & C); [|done|].
  - apply sorted_keys_NoDup in Hs'. rewrite fmap_app in Hs'.
    apply NoDup_app in Hs' as (_ & Hd & _). intros Hin. apply (Hd _ Hin). by left.
  - rewrite Hfit, Hup in *. exists q'. split_and!; [done|done|done|]. apply C. by right.
Qed.

Lemma copy_leaf_cells_ok (p q : Page) (cells : list (bytes * bytes)) (r : nat) :
  node p cells -> (r <= length cells)%nat -> node q (@nil (bytes * bytes)) ->
  compacted q (@nil (bytes * bytes)) ->
  exists q', copy_leaf_cells (length cells - r) (Z.of_nat r) (p, q) = (Ok tt, (p, q')) /\
    meta q' = meta q /\ node q' (drop r cells) /\ compacted q' (drop r cells).
Proof.
  intros Hp Hr Hq Hc.
  assert (Hnil : drop r (take r cells) = []) by (apply drop_ge; rewrite length_take; lia).
  destruct (copy_loop_ok (fun a => insert_leaf_cell a.1 a.2) cells
    (fun q m i a Ha => insert_next_leaf cells q m i a (node_sorted _ _ Hp) Ha)
    (fun i => let* k := on_this (query (key_at i)) in
              let* v := on_this (query (value_at i)) in
              let* ok := on_right (insert_leaf_cell k v) in assert_ ok))
    with (p := p) (q := q) (n := (length cells - r)%nat) (m := r) (i := r)
    as (q' & E & Mt & N & C); rewrite ?Hnil; try done; try lia.
  - intros p0 q0 q1 i [k v] [Hh Ht _ _] Ha E. pstep (key_at_holds p0 cells Hh i _ Ha).
    pstep (value_at_holds p0 cells i k v Hh Ht Ha). cell_simpl. by pstep E.
  - rewrite (take_ge cells) in N, C by lia. by exists q'.
Qed.

Lemma copy_internal_cells_ok (p q : Page) (cells : list (bytes * Z)) (r : nat) :
  node p cells -> (r <= length cells)%nat -> node q (@nil (bytes * Z)) ->
  compacted q (@nil (bytes * Z)) ->
  exists q', copy_internal_cells (length cells - r) (Z.of_nat r) (p, q) = (Ok tt, (p, q')) /\
    meta q' = meta q /\ node q' (drop r cells) /\ compacted q' (drop r cells).
Proof.
  intros Hp Hr Hq Hc.
  assert (Hnil : drop r (take r cells) = []) by (apply drop_ge; rewrite length_take; lia).
  destruct (copy_loop_ok (fun a => insert_separator a.1 a.2) cells
    (fun q m i a Ha =>
       insert_next_internal cells q m i a (node_sorted _ _ Hp) (node_ok _ _ Hp) Ha)
    (fun i => let* k := on_this (query (key_at i)) in
              let* c := on_this (query (child_at i)) in
              let* ok := on_right (insert_separator k c) in assert_ ok))
    with (p := p) (q := q) (n := (length cells - r)%nat) (m := r) (i := r)
    as (q' & E & Mt & N & C); rewrite ?Hnil; try done; try lia.
  - intros p0 q0 q1 i [k c] [Hh Ht _ Hok] Ha E. pstep (key_at_holds p0 cells Hh i _ Ha).
    rewrite Forall_lookup in Hok.
    pstep (child_at_holds p0 cells i k c Hh Ht Ha (Hok _ _ Ha)). cell_simpl. by pstep E.
  - rewrite (take_ge cells) in N, C by lia. by exists q'.
Qed.

(** ** [split_into] *)

(** The size of the left half: at most half of the bytes, unless the first
    cell alone is more; one cell more would be over half. *)
Definition split_balanced {A : Type} `{Cell A} (cells : list A) (r : nat) : Prop :=
  (0 < r < length cells)%nat /\
  ((r <= 1)%nat \/ occupied (take r cells) <= occupied cells / 2) /\
  occupied cells / 2 < occupied (take (S r) cells).

Lemma compacted_ce {A : Type} `{Cell A} (p p' : Page) (cells : list A) :
  pg_ce p' = pg_ce p -> compacted p cells -> compacted p' cells.
Proof. unfold compacted. congruence. Qed.

Lemma occupied_pos {A : Type} `{Cell A} (cells : list A) :
  (0 < length cells)%nat -> 0 < occupied cells.
Proof.
  destruct cells as [|a cells]; simpl; [lia|]. intros _. rewrite occupied_cons.
  pose proof (zlen_nonneg (enc a)). pose proof (occupied_nonneg cells). lia.
Qed.

(** The steps before the two kinds part. *)
Lemma split_prologue {A : Type} `{NodeKind A} (p q : Page) (cells : list A) :
  node p cells -> (2 <= length cells)%nat -> node q (@nil A) ->
  exists q1, split_into (p, q) =
      (if bool_decide (pg_type p = BTREE_LEAF) then split_leaf (zlen cells)
       else split_internal (zlen cells)) (p, q1) /\
    node q1 (@nil A) /\ pg_ce q1 = pg_ce q /\
    meta q1 = (pg_id q, pg_type q, (pg_parent p, pg_right q, pg_left q, pg_first q)).
Proof.
  intros Hp H2 Hq. pose proof (holds_length p cells (node_holds _ _ Hp)) as Hl.
  pose proof (holds_length q _ (node_holds _ _ Hq)) as Hlq.
  destruct (set_parent_id_ok q (@nil A) (pg_parent p) Hq) as (q1 & E1 & N1 & C1 & M1);
    [apply is_page_id_field|].
  exists q1. split; [|done]. unfold split_into. pstep (num_keys_ok p Hl).
  rewrite (holds_num p cells (node_holds _ _ Hp)).
  rewrite bind_assert by (apply Z.leb_le; unfold zlen; lia).
  pstep (num_keys_ok q Hlq). rewrite (holds_num q _ (node_holds _ _ Hq)).
  rewrite bind_assert by done. pstep (parent_id_ok p Hl). pstep E1. pstep (is_leaf_ok p Hl). done.
Qed.

Lemma split_leaf_ok (p q : Page) (cells : list (bytes * bytes)) :
  node p cells -> compacted p cells -> (2 <= length cells)%nat ->
  node q (@nil (bytes * bytes)) -> compacted q (@nil (bytes * bytes)) ->
  exists r c p' q', split_into (p, q) = (Ok c.1, (p', q')) /\
    split_balanced cells r /\ cells !! r = Some c /\
    node p' (take r cells) /\ pg_ce p' = pg_ce p /\
    node q' (drop r cells) /\ compacted q' (drop r cells) /\
    meta p' = (pg_id p, pg_type p, (pg_parent p, pg_id q, pg_left p, pg_first p)) /\
    meta q' = (pg_id q, pg_type q, (pg_parent p, pg_right p, pg_id p, pg_first q)).
Proof.
  intros Hp Hc H2 Hq Hcq. pose proof (node_holds _ _ Hp) as Hh.
  destruct (split_prologue p q cells Hp H2 Hq) as (q1 & E1 & N1 & C1 & M1).
  rewrite E1, bool_decide_eq_true_2 by apply (node_type _ _ Hp). clear E1. unfold split_leaf.
  pose proof (pg_num_range p) as Hnum. rewrite (holds_num p cells Hh) in Hnum.
  destruct (split_point_interior leaf_cost p cells (occupied cells / 2)) as (r & Er & Hr & Hr1 & Hr2);
    [by intros i a Ha; apply (leaf_cost_ok p cells)|lia|done|done|apply occupied_pos; lia|].
  pstep (half_used_ok p cells Hp Hc). unfold zlen at 1. rewrite Nat2Z.id. pstep Er.
  destruct (lookup_lt_is_Some_2 cells r) as [c Hcr]; [lia|].
  pstep (key_at_holds p cells Hh r c Hcr). cell_simpl.
  destruct (copy_leaf_cells_ok p q1 cells r Hp) as (q2 & E2 & M2 & N2 & C2);
    [lia|done|by eapply compacted_ce|].
  replace (Z.to_nat (zlen cells - Z.of_nat r)) with (length cells - r)%nat by (unfold zlen; lia).
  mstep E2.
  destruct (remove_tail_ok p cells r Hp) as (p1 & E3 & N3 & C3 & M3); [lia|]. pstep E3.
  pose proof (holds_length p1 _ (node_holds _ _ N3)) as Lp1. pstep (right_sibling_ok p1 Lp1).
  destruct (set_right_sibling_ok q2 _ (pg_right p1) N2) as (q3 & E4 & N4 & C4 & M4);
    [apply is_page_id_field|]. pstep E4. pstep (page_id_ok p1 Lp1).
  destruct (set_left_sibling_ok q3 _ (pg_id p1) N4) as (q4 & E5 & N5 & C5 & M5);
    [apply is_page_id_pg_id|]. pstep E5.
  pose proof (holds_length q4 _ (node_holds _ _ N5)) as Lq4. pstep (page_id_ok q4 Lq4).
  destruct (set_right_sibling_ok p1 _ (pg_id q4) N3) as (p2 & E6 & N6 & C6 & M6);
    [apply is_page_id_pg_id|]. pstep E6.
  exists r, c, p2, q4. split; [done|]. split; [done|]. split; [done|].
  split; [done|]. split; [congruence|]. split; [done|].
  split; [eapply compacted_ce; [|exact C2]; congruence|].
  unfold meta in *. simplify_eq. split; congruence.
Qed.

(** The promoted index: the split point, clamped to [1, n - 1]. *)
Definition promoted (cells : list (bytes * Z)) (mid : nat) : Prop :=
  (0 < mid < length cells)%nat /\ ((mid <= 1)%nat \/ occupied (take mid cells) <= occupied cells / 2) /\
  occupied cells / 2 < occupied (take (S mid) cells).

Lemma split_internal_ok (p q : Page) (cells : list (bytes * Z)) :
  node p cells -> compacted p cells -> (2 <= length cells)%nat ->
  node q (@nil (bytes * Z)) -> compacted q (@nil (bytes * Z)) ->
  exists mid k c p' q', split_into (p, q) = (Ok k, (p', q')) /\
    promoted cells mid /\ cells !! mid = Some (k, c) /\
    node p' (take mid cells) /\ pg_ce p' = pg_ce p /\
    node q' (drop (S mid) cells) /\ compacted q' (drop (S mid) cells) /\
    meta p' = meta p /\
    meta q' = (pg_id q, pg_type q, (pg_parent p, pg_right q, pg_left q, c)).
Proof.
  intros Hp Hc H2 Hq Hcq. pose proof (node_holds _ _ Hp) as Hh.
  destruct (split_prologue p q cells Hp H2 Hq) as (q1 & E1 & N1 & C1 & M1).
  rewrite E1, bool_decide_eq_false_2 by (rewrite (node_type _ _ Hp); done). clear E1.
  unfold split_internal.
  pose proof (pg_num_range p) as Hnum. rewrite (holds_num p cells Hh) in Hnum.
  destruct (split_point_interior internal_cost p cells (occupied cells / 2)) as (mid & Er & Hr & Hr1 & Hr2);
    [by intros i a Ha; apply (internal_cost_ok p cells)|lia|done|done|apply occupied_pos; lia|].
  pstep (half_used_ok p cells Hp Hc). unfold zlen at 1. rewrite Nat2Z.id. pstep Er.
  assert (Hmid : (if zlen cells - 1 <=? (if Z.of_nat mid =? 0 then 1 else Z.of_nat mid)
                  then wrap 16 (zlen cells - 1)
                  else if Z.of_nat mid =? 0 then 1 else Z.of_nat mid) = Z.of_nat mid).
  { unfold zlen in *. destruct (Z.eqb_spec (Z.of_nat mid) 0); [lia|].
    destruct (Z.leb_spec (Z.of_nat (length cells) - 1) (Z.of_nat mid)); [|done].
    unfold wrap. rewrite Z.mod_small; lia. }
  rewrite Hmid. clear Hmid.
  destruct (lookup_lt_is_Some_2 cells mid) as [[k c] Hcr]; [lia|].
  pstep (key_at_holds p cells Hh mid _ Hcr). cell_simpl.
  pose proof (node_ok _ _ Hp) as Hok. rewrite Forall_lookup in Hok.
  assert (Hid : is_page_id c) by apply (Hok _ _ Hcr).
  pstep (child_at_holds p cells mid k c Hh (node_type _ _ Hp) Hcr Hid).
  destruct (set_first_child_ok q1 (@nil (bytes * Z)) c N1 Hid) as (q2 & E2 & N2 & C2 & M2). pstep E2.
  replace (Z.to_nat (zlen cells - (Z.of_nat mid + 1))) with (length cells - S mid)%nat
    by (unfold zlen; lia).
  replace (Z.of_nat mid + 1) with (Z.of_nat (S mid)) by lia.
  destruct (copy_internal_cells_ok p q2 cells (S mid) Hp) as (q3 & E3 & M3 & N3 & C3);
    [lia|done|eapply compacted_ce; [|exact Hcq]; congruence|].
  mstep E3.
  destruct (remove_tail_ok p cells mid Hp) as (p1 & E4 & N4 & C4 & M4); [lia|]. pstep E4.
  exists mid, k, c, p1, q3. split; [done|]. split; [by split; [|split]|].
  split; [done|]. split; [done|]. split; [done|]. split; [done|]. split; [done|]. split; [done|].
  unfold meta in *. simplify_eq. congruence.
Qed.

(** ** Room in the halves *)

Section halves.
Context {A : Type} `{Cell A} (cells : list A) (r : nat) (M : Z).
Hypothesis Hocc : occupied cells <= NODE_USABLE_SIZE.
Hypothesis Hsmall : Forall (fun a => zlen (enc a) + 2 <= M) cells.
Hypothesis Hr : (0 < r < length cells)%nat.

Lemma occupied_take_1 : occupied (take 1 cells) <= M.
Proof.
  destruct cells as [|a l]; [simpl in Hr; lia|]. apply Forall_inv in Hsmall. cbn [take].
  rewrite occupied_cons, occupied_nil. lia.
Qed.

Lemma half_left_small :
  (r <= 1)%nat \/ occupied (take r cells) <= occupied cells / 2 -> M <= 2020 ->
  occupied (take r cells) + M <= NODE_USABLE_SIZE.
Proof.
  intros [H1|H2] HM.
  - replace r with 1%nat by lia. pose proof occupied_take_1. klia.
  - pose proof (Z.div_le_mono (occupied cells) NODE_USABLE_SIZE 2 ltac:(lia) Hocc) as Hd.
    change (NODE_USABLE_SIZE / 2) with 2020 in Hd. klia.
Qed.

Lemma half_right_small (x : A) :
  cells !! r = Some x -> occupied cells / 2 < occupied (take (S r) cells) ->
  occupied (drop (S r) cells) <= 2020 /\ occupied (drop r cells) <= 2020 + M.
Proof.
  intros Hx Hgt. assert (Hsum : occupied cells = occupied (take (S r) cells) + occupied (drop (S r) cells))
    by by rewrite <- occupied_app, take_drop.
  rewrite Forall_lookup in Hsmall. specialize (Hsmall _ _ Hx).
  rewrite (drop_S _ _ _ Hx), occupied_cons.
  assert (occupied cells = 2 * (occupied cells / 2) + occupied cells mod 2) by (apply Z.div_mod; lia).
  assert (0 <= occupied cells mod 2 < 2) by (apply Z.mod_pos_bound; lia). klia.
Qed.
End halves.

(** A cell of at most 1010 bytes, slot included, fits in either half of a leaf
    whose cells are of that size. *)
Lemma split_leaf_room {A : Type} `{Cell A} (cells : list A) (r : nat) (M : Z) :
  occupied cells <= NODE_USABLE_SIZE -> Forall (fun a => zlen (enc a) + 2 <= M) cells -> M <= 1010 ->
  split_balanced cells r ->
  occupied (take r cells) + M <= NODE_USABLE_SIZE /\ occupied (drop r cells) + M <= NODE_USABLE_SIZE.
Proof.
  intros Ho Hs HM (Hr & Hl & Hgt). split; [by apply half_left_small; [..|lia]|].
  destruct (lookup_lt_is_Some_2 cells r) as [x Hx]; [lia|].
  destruct (half_right_small cells r M Ho Hs Hr x Hx Hgt). klia.
Qed.
