(* ===== verification/NodeMerge.v ===== *)
(** * Merging nodes and moving cells between siblings

    What [merge_leaf], [merge_internal] and the [steal_*] operations do to the
    cells of the two nodes. *)

From S2P Require Import Prelude.
From S2P Require Import Buffers.
From S2P Require Import Page.
From S2P Require Import Node.
From S2P Require Import NodeSlots.
From S2P Require Import KeyOrder.
From S2P Require Import NodeCells.
From S2P Require Import NodeKinds.
From S2P Require Import NodeOps.
From S2P Require Import NodeInsert.
From S2P Require Import NodeSplit.

(** ** Appending one cell *)

Lemma sorted_snoc_notin {A : Type} (key : A -> bytes) (l : list A) (a : A) :
  sorted_cells key (l ++ [a]) -> key a ∉ key <$> l.
Proof.
  intros Hs. apply sorted_keys_NoDup in Hs. rewrite fmap_app in Hs.
  apply NoDup_app in Hs as (_ & Hd & _). intros Hin. apply (Hd _ Hin). by left.
Qed.

Lemma sorted_app_l {A : Type} (key : A -> bytes) (l l' : list A) :
  sorted_cells key (l ++ l') -> sorted_cells key l.
Proof. intros Hs. by apply sorted_app in Hs as (? & _). Qed.

Lemma sorted_app_r {A : Type} (key : A -> bytes) (l l' : list A) :
  sorted_cells key (l ++ l') -> sorted_cells key l'.
Proof. intros Hs. by apply sorted_app in Hs as (_ & ? & _). Qed.

Lemma append_leaf_ok (p : Page) (cells : list (bytes * bytes)) (k v : bytes) :
  node p cells -> sorted_cells fst (cells ++ [(k, v)]) ->
  occupied (cells ++ [(k, v)]) <= NODE_USABLE_SIZE ->
  exists p', insert_leaf_cell k v p = (Ok true, p') /\ node p' (cells ++ [(k, v)]) /\
    meta p' = meta p.
Proof.
  intros Hn Hs Ho. pose proof (upsert_end k v cells Hs) as Hup.
  assert (Hfit : leaf_fits k v cells = true) by (apply bool_decide_eq_true_2; by rewrite Hup).
  destruct (insert_leaf_cell_ok p cells k v Hn) as (p' & E & Mt & N & _).
  rewrite Hfit, Hup in *. by exists p'.
Qed.

Lemma append_internal_ok (p : Page) (cells : list (bytes * Z)) (k : bytes) (c : Z) :
  node p cells -> sorted_cells fst (cells ++ [(k, c)]) -> is_page_id c ->
  occupied (cells ++ [(k, c)]) <= NODE_USABLE_SIZE ->
  exists p', insert_separator k c p = (Ok true, p') /\ node p' (cells ++ [(k, c)]) /\
    meta p' = meta p.
Proof.
  intros Hn Hs Hc Ho. pose proof (upsert_end k c cells Hs) as Hup.
  rewrite occupied_app, occupied_cons, occupied_nil in Ho.
  assert (Hfit : separator_fits k c cells = true).
  { apply bool_decide_eq_true_2. rewrite occupied_cons. lia. }
  destruct (insert_separator_ok p cells k c Hn) as (p' & E & Mt & N & _);
    [exact (sorted_snoc_notin fst cells (k, c) Hs)|done|].
  rewrite Hfit, Hup in *. by exists p'.
Qed.

(** ** The copy loop of both merges *)

Section merge_loop.
Context {A : Type} `{NodeKindLaws A}.
Variable body : Z -> M (Page * Page) unit.
Hypothesis body_ok : forall (p q : Page) (l cr : list A) (i : nat) (a : A),
  node p l -> node q cr -> cr !! i = Some a -> sorted_cells cell_key (l ++ [a]) ->
  occupied (l ++ [a]) <= NODE_USABLE_SIZE ->
  exists p', body (Z.of_nat i) (p, q) = (Ok tt, (p', q)) /\ node p' (l ++ [a]) /\
    meta p' = meta p.

Lemma merge_loop_ok (q : Page) (cr : list A) (n i : nat) (p : Page) (cl : list A) :
  node q cr -> (i + n = length cr)%nat -> node p (cl ++ take i cr) ->
  sorted_cells cell_key (cl ++ cr) -> occupied (cl ++ cr) <= NODE_USABLE_SIZE ->
  exists p', for_up n (Z.of_nat i) body (p, q) = (Ok tt, (p', q)) /\ node p' (cl ++ cr) /\
    meta p' = meta p.
Proof.
  intros Hq. revert i p. induction n as [|n IH]; intros i p Hi Hp Hs Ho.
  - exists p. rewrite take_ge in Hp by lia. done.
  - destruct (lookup_lt_is_Some_2 cr i) as [a Ha]; [lia|].
    assert (Hsplit : cl ++ cr = ((cl ++ take i cr) ++ [a]) ++ drop (S i) cr).
    { rewrite <- !app_assoc. cbn [app]. by rewrite <- (drop_S _ _ _ Ha), take_drop. }
    assert (Hs' := Hs). assert (Ho' := Ho). rewrite Hsplit in Hs', Ho'.
    apply sorted_app_l in Hs'. rewrite occupied_app in Ho'.
    pose proof (occupied_nonneg (drop (S i) cr)).
    destruct (body_ok p q (cl ++ take i cr) cr i a Hp Hq Ha Hs') as (p1 & E1 & N1 & M1); [lia|].
    cbn [for_up]. mstep E1. replace (Z.of_nat i + 1) with (Z.of_nat (S i)) by lia.
    rewrite <- app_assoc, <- (take_S_r _ _ _ Ha) in N1.
    destruct (IH (S i) p1) as (p' & E & N & Mt); [lia|done|done|done|].
    exists p'. split; [exact E|]. split; [done|congruence].
Qed.
End merge_loop.

(** ** Merging *)

Lemma merge_leaf_ok (p q : Page) (cl cr : list (bytes * bytes)) :
  node p cl -> node q cr -> sorted_cells fst (cl ++ cr) ->
  occupied cl + occupied cr <= NODE_USABLE_SIZE ->
  exists p', merge_leaf (p, q) = (Ok tt, (p', q)) /\ node p' (cl ++ cr) /\
    meta p' = (pg_id p, pg_type p, (pg_parent p, pg_right q, pg_left p, pg_first p)).
Proof.
  intros Hp Hq Hs Ho. pose proof (holds_length q cr (node_holds _ _ Hq)) as Lq.
  unfold merge_leaf. pstep (num_keys_ok q Lq). rewrite (holds_num q cr (node_holds _ _ Hq)).
  unfold zlen. rewrite Nat2Z.id. rewrite <- occupied_app in Ho.
  edestruct (merge_loop_ok (A := bytes * bytes) (fun i =>
      let* k := on_right (query (key_at i)) in
      let* v := on_right (query (value_at i)) in
      let* ok := on_this (insert_leaf_cell k v) in
      assert_ ok)) with (q := q) (cr := cr) (n := length cr) (i := O) (p := p) (cl := cl)
    as (p1 & E1 & N1 & M1); [|done|done|by rewrite take_0, app_nil_r|done|done|].
  - intros p0 q0 l cr0 i [k v] Hl [Hh Ht _ _] Ha Hs0 Ho0. pstep (key_at_holds q0 cr0 Hh i _ Ha).
    pstep (value_at_holds q0 cr0 i k v Hh Ht Ha). cell_simpl.
    destruct (append_leaf_ok p0 l k v Hl Hs0 Ho0) as (p' & E & N & Mt). pstep E. by exists p'.
  - mstep E1. pstep (right_sibling_ok q Lq).
    destruct (set_right_sibling_ok p1 (cl ++ cr) (pg_right q) N1) as (p' & E & N & C & Mt);
      [apply is_page_id_field|].
    exists p'. unfold on_this, zoom. simpl. rewrite E. split; [done|]. split; [done|].
    unfold meta in *. simplify_eq. congruence.
Qed.

Lemma merge_internal_ok (p q : Page) (cl cr : list (bytes * Z)) (sep : bytes) :
  node p cl -> node q cr -> sorted_cells fst (cl ++ (sep, pg_first q) :: cr) ->
  occupied (cl ++ (sep, pg_first q) :: cr) <= NODE_USABLE_SIZE ->
  exists p', merge_internal sep (p, q) = (Ok tt, (p', q)) /\
    node p' (cl ++ (sep, pg_first q) :: cr) /\ meta p' = meta p.
Proof.
  intros Hp Hq Hs Ho. pose proof (holds_length q cr (node_holds _ _ Hq)) as Lq.
  unfold merge_internal. pstep (first_child_ok q Lq).
  assert (Hsplit : cl ++ (sep, pg_first q) :: cr = (cl ++ [(sep, pg_first q)]) ++ cr)
    by by rewrite <- app_assoc.
  rewrite Hsplit in Hs, Ho |- *. assert (Ho' := Ho). rewrite occupied_app in Ho'.
  pose proof (occupied_nonneg cr).
  destruct (append_internal_ok p cl sep (pg_first q) Hp) as (p1 & E1 & N1 & M1);
    [by apply sorted_app_l in Hs|apply is_page_id_field|lia|].
  pstep E1. rewrite bind_assert by done. pstep (num_keys_ok q Lq).
  rewrite (holds_num q cr (node_holds _ _ Hq)). unfold zlen. rewrite Nat2Z.id.
  edestruct (merge_loop_ok (A := bytes * Z) (fun i =>
      let* k := on_right (query (key_at i)) in
      let* c := on_right (query (child_at i)) in
      let* ok := on_this (insert_separator k c) in
      assert_ ok)) with (q := q) (cr := cr) (n := length cr) (i := O) (p := p1)
      (cl := cl ++ [(sep, pg_first q)])
    as (p2 & E2 & N2 & M2); [|done|done|by rewrite take_0, app_nil_r|done|done|].
  - intros p0 q0 l cr0 i [k c] Hl [Hh Ht _ Hok] Ha Hs0 Ho0. pstep (key_at_holds q0 cr0 Hh i _ Ha).
    rewrite Forall_lookup in Hok. assert (Hc : is_page_id c) by apply (Hok _ _ Ha).
    pstep (child_at_holds q0 cr0 i k c Hh Ht Ha Hc). cell_simpl.
    destruct (append_internal_ok p0 l k c Hl Hs0 Hc Ho0) as (p' & E & N & Mt). pstep E. by exists p'.
  - exists p2. split; [exact E2|]. split; [done|congruence].
Qed.

(** ** Moving one cell *)

Lemma upsert_front {V : Type} (k : bytes) (v : V) (l : list (bytes * V)) :
  sorted_cells fst ((k, v) :: l) -> upsert k v l = (k, v) :: l.
Proof.
  intros Hs. destruct l as [|[k' v'] l]; [done|]. inversion Hs as [|? ? _ Hall]; subst.
  inversion Hall as [|? ? Hlt _]; subst. cbn [fst] in Hlt. unfold upsert. cbn [fst].
  destruct (key_ltb k' k) eqn:E; [exfalso; by eapply key_lt_asym|].
  rewrite bool_decide_eq_false_2; [done|]. intros ->. by apply key_lt_irrefl in Hlt.
Qed.

Lemma sorted_front_notin {A : Type} (key : A -> bytes) (l : list A) (a : A) :
  sorted_cells key (a :: l) -> key a ∉ key <$> l.
Proof. intros Hs. apply sorted_keys_NoDup in Hs. by inversion Hs. Qed.

Lemma prepend_leaf_ok (p : Page) (cells : list (bytes * bytes)) (k v : bytes) :
  node p cells -> sorted_cells fst ((k, v) :: cells) ->
  occupied ((k, v) :: cells) <= NODE_USABLE_SIZE ->
  exists p', insert_leaf_cell k v p = (Ok true, p') /\ node p' ((k, v) :: cells) /\
    meta p' = meta p.
Proof.
  intros Hn Hs Ho. pose proof (upsert_front k v cells Hs) as Hup.
  assert (Hfit : leaf_fits k v cells = true) by (apply bool_decide_eq_true_2; by rewrite Hup).
  destruct (insert_leaf_cell_ok p cells k v Hn) as (p' & E & Mt & N & _).
  rewrite Hfit, Hup in *. by exists p'.
Qed.

(** The key at slot [i] of a node, then its removal. *)
Lemma wrap16_small (z : Z) : 0 <= z < 65536 -> wrap 16 z = z.
Proof. intros. unfold wrap. by apply Z.mod_small. Qed.

Lemma delete_last {A : Type} (l : list A) (a : A) : delete (length l) (l ++ [a]) = l.
Proof. rewrite delete_take_drop, take_app_length, drop_ge; [apply app_nil_r|]. rewrite length_app. simpl. lia. Qed.

Lemma last_index {A : Type} `{NodeKind A} (q : Page) (cells : list A) (a : A) :
  node q (cells ++ [a]) -> wrap 16 (pg_num q - 1) = Z.of_nat (length cells).
Proof.
  intros Hq. pose proof (pg_num_range q) as Hr. rewrite (holds_num q _ (node_holds _ _ Hq)) in *.
  rewrite zlen_app, zlen_cons, zlen_nil in *. unfold zlen in *. rewrite wrap16_small; lia.
Qed.

Lemma steal_left_leaf_ok (p q : Page) (cl cr : list (bytes * bytes)) (k v : bytes) :
  node q (cl ++ [(k, v)]) -> node p cr -> sorted_cells fst ((k, v) :: cr) ->
  occupied ((k, v) :: cr) <= NODE_USABLE_SIZE ->
  exists p' q', steal_left_leaf (p, q) = (Ok k, (p', q')) /\
    node p' ((k, v) :: cr) /\ node q' cl /\ meta p' = meta p /\ meta q' = meta q.
Proof.
  intros Hq Hp Hs Ho. pose proof Hq as [Hh Ht _ _]. pose proof (holds_length q _ Hh) as Lq.
  assert (Ha : (cl ++ [(k, v)]) !! length cl = Some (k, v)) by by rewrite list_lookup_middle.
  unfold steal_left_leaf. pstep (num_keys_ok q Lq). rewrite (last_index q cl (k, v) Hq).
  pstep (key_at_holds q _ Hh _ _ Ha). pstep (value_at_holds q _ _ k v Hh Ht Ha). cell_simpl.
  destruct (node_remove q _ (length cl) Hq) as (q' & E & N & C & Mt).
  { rewrite length_app. simpl. lia. }
  rewrite delete_last in N. pstep E.
  destruct (prepend_leaf_ok p cr k v Hp Hs Ho) as (p' & E' & N' & Mt'). pstep E'.
  rewrite bind_assert by done. by exists p', q'.
Qed.

Lemma steal_right_leaf_ok (p q : Page) (cl cr : list (bytes * bytes)) (k v : bytes) (c : bytes * bytes) :
  node q ((k, v) :: c :: cr) -> node p cl -> sorted_cells fst (cl ++ [(k, v)]) ->
  occupied (cl ++ [(k, v)]) <= NODE_USABLE_SIZE ->
  exists p' q', steal_right_leaf (p, q) = (Ok c.1, (p', q')) /\
    node p' (cl ++ [(k, v)]) /\ node q' (c :: cr) /\ meta p' = meta p /\ meta q' = meta q.
Proof.
  intros Hq Hp Hs Ho. pose proof Hq as [Hh Ht _ _].
  unfold steal_right_leaf. pstep (key_at_holds q _ Hh 0%nat (k, v) eq_refl).
  pstep (value_at_holds q _ 0%nat k v Hh Ht eq_refl). cell_simpl.
  destruct (node_remove q _ 0%nat Hq) as (q' & E & N & C & Mt); [simpl; lia|].
  cbn [delete list_delete] in N. pstep E.
  destruct (append_leaf_ok p cl k v Hp Hs Ho) as (p' & E' & N' & Mt'). pstep E'.
  rewrite bind_assert by done. exists p', q'. split; [|done].
  assert (Ek : key_at 0 q' = Ok c.1) by exact (key_at_holds q' _ (node_holds _ _ N) 0%nat c eq_refl).
  unfold on_right, zoom, query. simpl. by rewrite Ek.
Qed.

(** Stealing the only cell of the right sibling fails an [assert]: the new
    separator would be the key of a cell that is no longer there. *)
Lemma steal_right_leaf_last (p q : Page) (cl : list (bytes * bytes)) (k v : bytes) :
  node q [(k, v)] -> node p cl -> sorted_cells fst (cl ++ [(k, v)]) ->
  occupied (cl ++ [(k, v)]) <= NODE_USABLE_SIZE ->
  (steal_right_leaf (p, q)).1 = Err AssertionFailure.
Proof.
  intros Hq Hp Hs Ho. pose proof Hq as [Hh Ht _ _].
  unfold steal_right_leaf. pstep (key_at_holds q _ Hh 0%nat (k, v) eq_refl).
  pstep (value_at_holds q _ 0%nat k v Hh Ht eq_refl). cell_simpl.
  destruct (node_remove q _ 0%nat Hq) as (q' & E & N & C & Mt); [simpl; lia|].
  cbn [delete list_delete] in N. pstep E.
  destruct (append_leaf_ok p cl k v Hp Hs Ho) as (p' & E' & N' & Mt'). pstep E'.
  rewrite bind_assert by done.
  assert (Ek : key_at 0 q' = Err AssertionFailure) by (apply (key_at_out q' _ (node_holds _ _ N)); done).
  unfold on_right, zoom, query. simpl. by rewrite Ek.
Qed.

(** *** Internal nodes *)

Lemma make_room_true (payload : Z) (w : M Page unit) (p p' : Page) :
  make_room payload w p = (Ok true, p') ->
  (let* full := query (is_full payload) in
   do* (if full then compact else ret tt) in w) p = (Ok tt, p').
Proof.
  unfold make_room, bind. intros E. destruct (query (is_full payload) p) as [[full|e] p1]; [|done].
  destruct ((if full then compact else ret tt) p1) as [[[]|e] p2]; [|done].
  unfold query in E. destruct (is_full payload p2) as [[]|e]; [done| |done].
  destruct (w p2) as [[[]|e] p3]; [|done]. unfold ret in E. congruence.
Qed.

Lemma push_front_ok (p : Page) (cells : list (bytes * Z)) (k : bytes) (c : Z) :
  node p cells -> is_page_id c -> sorted_cells fst ((k, c) :: cells) ->
  occupied ((k, c) :: cells) <= NODE_USABLE_SIZE ->
  exists p', push_front k c p = (Ok tt, p') /\ node p' ((k, c) :: cells) /\ meta p' = meta p.
Proof.
  intros Hn Hc Hs Ho. destruct (make_room_ok p cells 0%nat (k, c) Hn) as (p' & E & Mt & Hh & _);
    [lia|].
  rewrite bool_decide_eq_true_2 in E, Hh by done. rewrite zlen_enc_internal in E.
  apply make_room_true in E. exists p'. split; [exact E|]. split; [|done].
  split; [exact Hh|by eapply node_meta_type|done|constructor; [done|apply Hn]].
Qed.

Lemma steal_left_internal_ok (p q : Page) (cl cr : list (bytes * Z)) (k : bytes) (c : Z) :
  node q (cl ++ [(k, c)]) -> node p cr -> sorted_cells fst ((k, pg_first p) :: cr) ->
  occupied ((k, pg_first p) :: cr) <= NODE_USABLE_SIZE ->
  exists p' q', steal_left_internal (p, q) = (Ok (k, c), (p', q')) /\
    node p' ((k, pg_first p) :: cr) /\ node q' cl /\ meta q' = meta q /\
    meta p' = (pg_id p, pg_type p, (pg_parent p, pg_right p, pg_left p, c)).
Proof.
  intros Hq Hp Hs Ho. pose proof Hq as [Hh Ht _ Hok]. pose proof (holds_length q _ Hh) as Lq.
  assert (Ha : (cl ++ [(k, c)]) !! length cl = Some (k, c)) by by rewrite list_lookup_middle.
  rewrite Forall_lookup in Hok. assert (Hc : is_page_id c) by apply (Hok _ _ Ha).
  unfold steal_left_internal. pstep (num_keys_ok q Lq). rewrite (last_index q cl (k, c) Hq).
  pstep (key_at_holds q _ Hh _ _ Ha). pstep (child_at_holds q _ _ k c Hh Ht Ha Hc). cell_simpl.
  destruct (node_remove q _ (length cl) Hq) as (q' & E & N & C & Mt).
  { rewrite length_app. simpl. lia. }
  rewrite delete_last in N. pstep E.
  pose proof (holds_length p _ (node_holds _ _ Hp)) as Lp. pstep (first_child_ok p Lp).
  destruct (set_first_child_ok p cr c Hp Hc) as (p1 & E1 & N1 & C1 & M1). pstep E1.
  destruct (push_front_ok p1 cr k (pg_first p) N1) as (p2 & E2 & N2 & M2);
    [apply is_page_id_field|done|done|]. pstep E2.
  exists p2, q'. split; [done|]. split; [done|]. split; [done|]. split; [done|congruence].
Qed.

Lemma steal_right_internal_ok (p q : Page) (cl cr : list (bytes * Z)) (k : bytes) (c : Z) :
  node q ((k, c) :: cr) -> node p cl -> sorted_cells fst (cl ++ [(k, pg_first q)]) ->
  occupied (cl ++ [(k, pg_first q)]) <= NODE_USABLE_SIZE ->
  exists p' q', steal_right_internal (p, q) = (Ok (k, pg_first q), (p', q')) /\
    node p' (cl ++ [(k, pg_first q)]) /\ node q' cr /\ meta p' = meta p /\
    meta q' = (pg_id q, pg_type q, (pg_parent q, pg_right q, pg_left q, c)).
Proof.
  intros Hq Hp Hs Ho. pose proof Hq as [Hh Ht _ Hok]. pose proof (holds_length q _ Hh) as Lq.
  rewrite Forall_lookup in Hok. assert (Hc : is_page_id c) by apply (Hok 0%nat _ eq_refl).
  unfold steal_right_internal. pstep (key_at_holds q _ Hh 0%nat (k, c) eq_refl).
  pstep (first_child_ok q Lq). pstep (child_at_holds q _ 0%nat k c Hh Ht eq_refl Hc). cell_simpl.
  destruct (set_first_child_ok q _ c Hq Hc) as (q1 & E1 & N1 & C1 & M1). pstep E1.
  destruct (node_remove q1 _ 0%nat N1) as (q2 & E2 & N2 & C2 & M2); [simpl; lia|].
  cbn [delete list_delete] in N2. pstep E2.
  destruct (append_internal_ok p cl k (pg_first q) Hp Hs) as (p' & E' & N' & Mt');
    [apply is_page_id_field|done|]. pstep E'. rewrite bind_assert by done.
  exists p', q2. split; [done|]. split; [done|]. split; [done|]. split; [done|congruence].
Qed.

(** ** Underflow *)

(** [underflow] counts the bytes below [cell_end], live or dead. *)
Lemma underflow_holds {A : Type} `{NodeKind A} (p : Page) (cells : list A) :
  node p cells ->
  underflow p = Ok (NODE_USABLE_SIZE - (pg_ce p - pg_fe p) <? NODE_USABLE_SIZE / 2).
Proof.
  intros [Hh _ _ _]. unfold underflow. rewrite (result_bind_ok _ _ _ (free_space_holds p cells Hh)).
  pose proof (holds_bounds p cells Hh). pose proof (holds_fe p cells Hh).
  pose proof (zlen_nonneg cells). unfold wrap. rewrite Z.mod_small; [done|].
  change (2 ^ 64) with 18446744073709551616. klia.
Qed.

(** A node that underflows holds less than half a page of cells. *)
Lemma underflow_small {A : Type} `{NodeKind A} (p : Page) (cells : list A) :
  node p cells -> underflow p = Ok true -> occupied cells < NODE_USABLE_SIZE / 2.
Proof.
  intros Hn E. rewrite (underflow_holds p cells Hn) in E.
  assert (Hb : NODE_USABLE_SIZE - (pg_ce p - pg_fe p) < NODE_USABLE_SIZE / 2).
  { apply Z.ltb_lt. congruence. }
  pose proof (holds_occupied p cells (node_holds _ _ Hn)). lia.
Qed.
