(* ===== verification/DiskManager.v ===== *)
(** * Page I/O ([src/src/storage/disk_manager.h], [disk_manager.cpp])

    The database file is reached through POSIX calls, which are parameters:
    [PosixFile] lists them, with what they return, and [ReliableFile] states
    what they do on a medium that neither fails nor runs out of space.
    [MemFile] is such a file.  The error branches are proved without it. *)

From S2P Require Import Prelude.
From S2P Require Import Buffers.
From S2P Require Import Page.

(** The calls on an open descriptor: [lseek(fd, 0, SEEK_END)],
    [pread(fd, buf, count, offset)] ([None] is -1, otherwise the bytes read),
    [pwrite(fd, buf, count, offset)] and [fsync(fd)] (negative on failure). *)
Class PosixFile (F : Type) : Type := {
  lseek_end : F -> Z;
  pread : Z -> Z -> F -> option bytes;
  pwrite : bytes -> Z -> F -> Z * F;
  fsync : F -> Z * F;
}.

Class ReliableFile (F : Type) `{PosixFile F} : Type := {
  content : F -> bytes;
  lseek_end_reliable : forall f : F, lseek_end f = zlen (content f);
  pread_reliable : forall (f : F) (n off : Z),
    0 <= off -> 0 <= n -> off + n <= zlen (content f) ->
    pread n off f = Some (rd off n (content f));
  pwrite_reliable : forall (f : F) (bs : bytes) (off : Z),
    0 <= off <= zlen (content f) ->
    exists f', pwrite bs off f = (zlen bs, f') /\ content f' = wr off bs (content f);
  fsync_reliable : forall f : F, exists f', fsync f = (0, f') /\ content f' = content f;
}.

(** A file in memory; a write past the end fills the gap with zeros. *)
Definition MemFile : Type := bytes.

#[export] Instance mem_posix : PosixFile MemFile := {|
  lseek_end f := zlen f;
  pread n off f := Some (rd off n f);
  pwrite bs off f :=
    (zlen bs, wr off bs (f ++ replicate (Z.to_nat (off - zlen f)) Byte.x00));
  fsync f := (0, f);
|}.

#[export, refine] Instance mem_reliable : ReliableFile MemFile := {| content f := f |}.
Proof.
  - done.
  - done.
  - intros f bs off Hoff. exists (wr off bs f). split; [|done]. simpl.
    replace (Z.to_nat (off - zlen f)) with O by lia. by rewrite app_nil_r.
  - intros f. by exists f.
Defined.

Record DiskManager (F : Type) : Type := mkDM { fd : F; num_pages : Z }.
Arguments mkDM {F} fd num_pages.
Arguments fd {F} d.
Arguments num_pages {F} d.

Section ops.
Context {F : Type} `{PosixFile F}.

Definition set_fd (f : F) (d : DiskManager F) : DiskManager F := mkDM f (num_pages d).

(** The constructor, given what [open] returned. *)
Definition DiskManager_ctor (opened : option F) : result (DiskManager F) :=
  match opened with
  | None => Err StdSystemError
  | Some f =>
      let file_size := lseek_end f in
      if file_size <? 0 then Err StdSystemError
      else Ok (mkDM f (swrap 32 (file_size / PAGE_SIZE)))
  end.

(** [page] is the second component of the state: [pread] writes into it
    whether or not the read is complete. *)
Definition read_page (page_id : Z) : M (DiskManager F * Page) unit :=
  fun dp =>
    let '(d, page) := dp in
    if (page_id <? 0) || (num_pages d <=? page_id) then (Err StdOutOfRange, dp)
    else
      match pread PAGE_SIZE (page_id * PAGE_SIZE) (fd d) with
      | None => (Err StdSystemError, dp)
      | Some bs =>
          let page' := bs ++ drop (length bs) page in
          if zlen bs =? PAGE_SIZE then (Ok tt, (d, page'))
          else (Err StdRuntimeError, (d, page'))
      end.

Definition write_page (page_id : Z) (page : Page) : M (DiskManager F) unit :=
  fun d =>
    if page_id <? 0 then (Err StdInvalidArgument, d)
    else
      let '(n, f) := pwrite page (page_id * PAGE_SIZE) (fd d) in
      let d' := set_fd f d in
      if n <? 0 then (Err StdSystemError, d')
      else if n =? PAGE_SIZE then (Ok tt, d') else (Err StdRuntimeError, d').

Definition flush : M (DiskManager F) unit :=
  fun d =>
    let '(r, f) := fsync (fd d) in
    (if r <? 0 then Err StdSystemError else Ok tt, set_fd f d).

Definition allocate_page : M (DiskManager F) Z :=
  fun d =>
    let new_id := num_pages d in
    let '(n, f) := pwrite zero_page (new_id * PAGE_SIZE) (fd d) in
    if n <? 0 then (Err StdSystemError, set_fd f d)
    else (Ok new_id, mkDM f (swrap 32 (num_pages d + 1))).
End ops.

(** ** What the operations do on a reliable file *)

Section spec.
Context {F : Type} `{ReliableFile F}.
Implicit Types (d : DiskManager F) (p : Page) (pid : Z).

(** The page stored at [pid]. *)
Definition disk_page d pid : Page := rd (pid * PAGE_SIZE) PAGE_SIZE (content (fd d)).

(** All pages below [num_pages] are in the file. *)
Record dm_ok d : Prop := {
  dm_num : 0 <= num_pages d < 2 ^ 31;
  dm_size : num_pages d * PAGE_SIZE <= zlen (content (fd d));
}.

Lemma disk_page_length d pid :
  dm_ok d -> 0 <= pid < num_pages d -> zlen (disk_page d pid) = PAGE_SIZE.
Proof.
  intros [Hn Hs] Hp. unfold disk_page, PAGE_SIZE in *. apply zlen_rd; lia.
Qed.

Lemma read_page_ok d p pid :
  dm_ok d -> 0 <= pid < num_pages d -> zlen p = PAGE_SIZE ->
  read_page pid (d, p) = (Ok tt, (d, disk_page d pid)).
Proof.
  intros Hd Hp Hl. pose proof (disk_page_length d pid Hd Hp) as Hlen. destruct Hd as [Hn Hs].
  unfold read_page. rewrite (proj2 (Z.ltb_ge _ _)), (proj2 (Z.leb_gt _ _)) by lia. cbn [orb].
  rewrite pread_reliable by (unfold PAGE_SIZE in *; lia). fold (disk_page d pid).
  rewrite Hlen, Z.eqb_refl. do 3 f_equal. rewrite drop_ge; [apply app_nil_r|].
  unfold zlen in *. lia.
Qed.

Lemma rd_wr_page (pid j : Z) (p l : bytes) :
  0 <= pid -> 0 <= j -> zlen p = PAGE_SIZE -> pid * PAGE_SIZE <= zlen l ->
  (j + 1) * PAGE_SIZE <= zlen l \/ j = pid ->
  rd (j * PAGE_SIZE) PAGE_SIZE (wr (pid * PAGE_SIZE) p l) =
  if decide (j = pid) then p else rd (j * PAGE_SIZE) PAGE_SIZE l.
Proof.
  unfold PAGE_SIZE, zlen in *. intros H1 H2 H3 H4 H5. apply list_eq. intros i.
  destruct (decide (i < 4096)%nat) as [Hi|Hi].
  - rewrite lookup_rd by lia. unfold wr. case_decide as Hj; [subst j|].
    + rewrite lookup_app_r; rewrite length_take; [|lia].
      rewrite lookup_app_l by lia. f_equal. lia.
    + rewrite lookup_rd by lia. destruct (decide (j < pid)).
      * rewrite lookup_app_l by (rewrite length_take; lia). by rewrite lookup_take_lt by lia.
      * rewrite lookup_app_r; rewrite length_take; [|lia].
        rewrite lookup_app_r by lia. rewrite lookup_drop. f_equal. lia.
  - rewrite lookup_ge_None_2 by (unfold rd; rewrite length_take; lia).
    symmetry. apply lookup_ge_None_2. case_decide; [lia|]. unfold rd. rewrite length_take. lia.
Qed.

(** The disk after page [pid] is written with [p]: [d'] against [d]. *)
Definition stored d pid p d' : Prop :=
  dm_ok d' /\ forall j, 0 <= j < num_pages d' ->
    disk_page d' j = if decide (j = pid) then p else disk_page d j.

Lemma pwrite_stored d p pid :
  dm_ok d -> 0 <= pid <= num_pages d -> zlen p = PAGE_SIZE ->
  exists f, pwrite p (pid * PAGE_SIZE) (fd d) = (PAGE_SIZE, f) /\
    zlen (content (fd d)) <= zlen (content f) /\ (pid + 1) * PAGE_SIZE <= zlen (content f) /\
    forall n j, 0 <= j < num_pages d \/ j = pid ->
      disk_page (mkDM f n) j = if decide (j = pid) then p else disk_page d j.
Proof.
  intros [Hn Hs] Hp Hl.
  destruct (pwrite_reliable (fd d) p (pid * PAGE_SIZE)) as (f & E & C);
    [unfold PAGE_SIZE in *; lia|].
  rewrite Hl in E. exists f. split; [exact E|]. rewrite C.
  split_and!; [| |intros n j Hj; unfold disk_page; simpl; rewrite C;
                  apply rd_wr_page; unfold PAGE_SIZE in *; lia];
    unfold wr, zlen, PAGE_SIZE in *; rewrite !length_app, length_take, length_drop; lia.
Qed.

Lemma write_page_ok d p pid :
  dm_ok d -> 0 <= pid < num_pages d -> zlen p = PAGE_SIZE ->
  exists d', write_page pid p d = (Ok tt, d') /\ num_pages d' = num_pages d /\ stored d pid p d'.
Proof.
  intros Hd Hp Hl. destruct (pwrite_stored d p pid Hd) as (f & E & C1 & C2 & C3); [lia|done|].
  destruct Hd as [Hn Hs]. unfold write_page. rewrite (proj2 (Z.ltb_ge _ _)), E by lia.
  eexists. split; [done|]. split; [done|]. split; [split; simpl; lia|].
  intros j Hj. apply C3. left. exact Hj.
Qed.

Lemma flush_ok d : dm_ok d ->
  exists d', flush d = (Ok tt, d') /\ num_pages d' = num_pages d /\ dm_ok d' /\
    forall j, disk_page d' j = disk_page d j.
Proof.
  intros [Hn Hs]. destruct (fsync_reliable (fd d)) as (f & E & C). unfold flush. rewrite E.
  eexists. split; [done|]. split; [done|]. split; [split; simpl; congruence|].
  intros j. unfold disk_page. simpl. by rewrite C.
Qed.

Lemma allocate_page_ok d :
  dm_ok d -> num_pages d + 1 < 2 ^ 31 ->
  exists d', allocate_page d = (Ok (num_pages d), d') /\ num_pages d' = num_pages d + 1 /\
    stored d (num_pages d) zero_page d'.
Proof.
  intros Hd Hlt. pose proof (dm_num d Hd). pose proof (dm_size d Hd).
  destruct (pwrite_stored d zero_page (num_pages d) Hd) as (f & E & C1 & C2 & C3);
    [lia|apply zlen_zero_page|].
  unfold allocate_page. rewrite E. rewrite swrap_small by lia. eexists. split; [done|].
  split; [done|]. split; [split; simpl; lia|]. intros j Hj. apply C3. simpl in Hj. lia.
Qed.
End spec.

(** ** Errors, on any file *)

Section errors.
Context {F : Type} `{PosixFile F}.
Implicit Types (d : DiskManager F) (p : Page) (pid : Z).

Lemma read_page_range d p pid :
  pid < 0 \/ num_pages d <= pid -> read_page pid (d, p) = (Err StdOutOfRange, (d, p)).
Proof.
  intros Hp. unfold read_page.
  destruct (Z.ltb_spec pid 0), (Z.leb_spec (num_pages d) pid); done || lia.
Qed.

Lemma write_page_negative d p pid :
  pid < 0 -> write_page pid p d = (Err StdInvalidArgument, d).
Proof. intros Hp. unfold write_page. by rewrite (proj2 (Z.ltb_lt _ _)). Qed.
End errors.
