(* ===== verification/FreeList.v ===== *)
(** * The free list and the root slot ([src/src/storage/free_list.h],
    [free_list.cpp])

    Page 0 holds the ids of the free pages and, in its last four bytes, the
    id of the root of the tree.  [free_pages_] is the [std::vector], its back
    the last element of the list. *)

From S2P Require Import Prelude.
From S2P Require Import Buffers.
From S2P Require Import Page.
From S2P Require Import DiskManager.
From S2P Require Import NodeSlots.

Definition MAX_FREE_PAGES : Z := (DATA_SIZE - 4 - 4) / 4.
Definition ROOT_ID_OFFSET : Z := DATA_SIZE - 4.

Record FreeList (F : Type) : Type := mkFL { dm : DiskManager F; free_pages_ : list Z }.
Arguments mkFL {F} dm free_pages_.
Arguments dm {F} f.
Arguments free_pages_ {F} f.

(** The array of [page_id_t] that [memcpy] moves. *)
Definition enc_ids (ids : list Z) : bytes := ids ≫= le_enc 4.

Fixpoint dec_ids (n : nat) (bs : bytes) : list Z :=
  match n with
  | O => []
  | S n' => swrap 32 (le_dec (take 4 bs)) :: dec_ids n' (drop 4 bs)
  end.

Section ops.
Context {F : Type} `{PosixFile F}.

Definition set_dm (d : DiskManager F) (fl : FreeList F) : FreeList F := mkFL d (free_pages_ fl).
Definition set_free_pages (l : list Z) (fl : FreeList F) : FreeList F := mkFL (dm fl) l.

Definition on_dm {A : Type} (m : M (DiskManager F) A) : M (FreeList F) A := zoom dm set_dm m.

(** [dm_.read_page(id, page)] with [page] the local page of a block. *)
Definition dm_read_page (id : Z) : M (FreeList F * Page) unit :=
  zoom (fun s => (dm s.1, s.2)) (fun dp s => (set_dm dp.1 s.1, dp.2)) (read_page id).
Definition dm_write_page (id : Z) : M (FreeList F * Page) unit :=
  let* page := on_local getS in on_outer (on_dm (write_page id page)).
Definition dm_flush {T : Type} : M (FreeList F * T) unit := on_outer (on_dm flush).

Definition load : M (FreeList F) unit :=
  let* fl := getS in
  if num_pages (dm fl) =? 0 then
    let* p0 := on_dm allocate_page in
    do* assert_ (p0 =? 0) in
    with_local zero_page (
      do* on_local (set_page_id 0) in
      do* on_local (set_page_type DB_HEADER) in
      do* on_local (st_i 4 (data 0) 0) in
      do* on_local (st_i 4 (data ROOT_ID_OFFSET) INVALID_PAGE_ID) in
      do* dm_write_page 0 in
      dm_flush)
  else
    with_local zero_page (
      do* dm_read_page 0 in
      let* count := on_local (query (ld_u 4 (data 0))) in
      if MAX_FREE_PAGES <? count then throw StdRuntimeError
      else
        let* bs := on_local (query (ld (data 4) (count * 4))) in
        on_outer (modifyS (set_free_pages (dec_ids (Z.to_nat count) bs)))).

Definition save : M (FreeList F) unit :=
  let* fl := getS in
  do* assert_ (0 <? num_pages (dm fl)) in
  with_local zero_page (
    do* dm_read_page 0 in
    let count := wrap 32 (zlen (free_pages_ fl)) in
    do* assert_ (count <=? MAX_FREE_PAGES) in
    do* on_local (st_i 4 (data 0) count) in
    do* on_local (st (data 4) (enc_ids (free_pages_ fl))) in
    do* dm_write_page 0 in
    dm_flush).

Definition allocate : M (FreeList F) Z :=
  let* fl := getS in
  match last (free_pages_ fl) with
  | None => ret INVALID_PAGE_ID
  | Some id =>
      do* modifyS (set_free_pages (removelast (free_pages_ fl))) in
      do* save in
      ret id
  end.

Definition free (id : Z) : M (FreeList F) unit :=
  let* fl := getS in
  do* assert_ (zlen (free_pages_ fl) <? MAX_FREE_PAGES) in
  do* modifyS (set_free_pages (free_pages_ fl ++ [id])) in
  save.

Definition root_page_id : M (FreeList F) Z :=
  let* fl := getS in
  do* assert_ (0 <? num_pages (dm fl)) in
  with_local zero_page (
    do* dm_read_page 0 in
    on_local (query (ld_s 4 (data ROOT_ID_OFFSET)))).

Definition set_root_page_id (id : Z) : M (FreeList F) unit :=
  let* fl := getS in
  do* assert_ (0 <? num_pages (dm fl)) in
  with_local zero_page (
    do* dm_read_page 0 in
    do* on_local (st_i 4 (data ROOT_ID_OFFSET) id) in
    do* dm_write_page 0 in
    dm_flush).
End ops.

(** ** The image of the list in page 0 *)

Lemma zlen_enc_ids (ids : list Z) : zlen (enc_ids ids) = 4 * zlen ids.
Proof.
  unfold enc_ids. induction ids as [|x ids IH]; [done|].
  rewrite bind_cons, zlen_app, zlen_le_enc, IH, zlen_cons. lia.
Qed.

Lemma dec_enc_ids (ids : list Z) (rest : bytes) :
  Forall is_page_id ids -> dec_ids (length ids) (enc_ids ids ++ rest) = ids.
Proof.
  unfold enc_ids. intros Hids. induction Hids as [|x ids Hx Hids IH]; [done|].
  rewrite bind_cons. cbn [length dec_ids]. rewrite <- app_assoc.
  rewrite take_app_length' by (by rewrite length_le_enc).
  rewrite drop_app_length' by (by rewrite length_le_enc). rewrite IH. f_equal.
  rewrite le_dec_enc. change (256 ^ Z.of_nat 4) with (2 ^ 32). rewrite swrap_mod.
  by apply swrap_small.
Qed.

Lemma length_dec_ids (n : nat) (bs : bytes) : length (dec_ids n bs) = n.
Proof. revert bs. induction n as [|n IH]; intros bs; simpl; [done|]. by rewrite IH. Qed.

Lemma swrap_range (w z : Z) : 0 < w -> - 2 ^ (w - 1) <= swrap w z < 2 ^ (w - 1).
Proof.
  intros Hw. unfold swrap. assert (H2 : 2 ^ w = 2 * 2 ^ (w - 1)).
  { rewrite <- Z.pow_succ_r by lia. f_equal. lia. }
  assert (0 < 2 ^ (w - 1)) by (apply Z.pow_pos_nonneg; lia).
  pose proof (Z.mod_pos_bound z (2 ^ w)). destruct (Z.ltb_spec (z mod 2 ^ w) (2 ^ (w - 1))); lia.
Qed.

Lemma dec_ids_ok (n : nat) (bs : bytes) : Forall is_page_id (dec_ids n bs).
Proof.
  revert bs. induction n as [|n IH]; intros bs; constructor; [|apply IH].
  apply (swrap_range 32). lia.
Qed.

Definition p0_count (p : Page) : Z := get_u 4 (data 0) p.
Definition p0_ids (p : Page) : list Z :=
  dec_ids (Z.to_nat (p0_count p)) (rd (data 4) (p0_count p * 4) p).
Definition p0_root (p : Page) : Z := get_s 4 (data ROOT_ID_OFFSET) p.

(** The page [save] writes. *)
Definition put_ids (ids : list Z) (p : Page) : Page :=
  wr (data 4) (enc_ids ids) (wr (data 0) (le_enc 4 (zlen ids)) p).

Definition put_root (id : Z) (p : Page) : Page := wr (data ROOT_ID_OFFSET) (le_enc 4 id) p.

#[export] Hint Unfold MAX_FREE_PAGES ROOT_ID_OFFSET : keyv_consts.

Section image.
Context (ids : list Z) (p : Page).
Hypothesis Hlen : zlen p = PAGE_SIZE.
Hypothesis Hids : Forall is_page_id ids.
Hypothesis Hmax : zlen ids <= MAX_FREE_PAGES.

Lemma ids_bytes : zlen (enc_ids ids) <= 4064.
Proof. rewrite zlen_enc_ids. change MAX_FREE_PAGES with 1016 in Hmax. lia. Qed.

Let p1 : Page := wr (data 0) (le_enc 4 (zlen ids)) p.

Lemma zlen_p1 : zlen p1 = 4096.
Proof. unfold p1. rewrite zlen_wr; rewrite ?zlen_le_enc, ?Hlen; klia. Qed.

(** The ids are written inside the data area, in front of the root slot. *)
Lemma ids_range : 0 <= data 4 /\ data 4 + zlen (enc_ids ids) <= data ROOT_ID_OFFSET /\ data ROOT_ID_OFFSET + 4 = 4096.
Proof. pose proof ids_bytes. klia. Qed.

Lemma zlen_put_ids : zlen (put_ids ids p) = PAGE_SIZE.
Proof.
  pose proof ids_range. unfold put_ids. fold p1. rewrite zlen_wr; rewrite ?zlen_p1; klia.
Qed.

Lemma p0_count_put : p0_count (put_ids ids p) = zlen ids.
Proof.
  pose proof ids_range. pose proof (zlen_nonneg ids). unfold p0_count, put_ids. fold p1.
  unfold get_u. rewrite rd_wr_disjoint by (rewrite ?zlen_p1; klia).
  fold (get_u 4 (data 0) p1). unfold p1. rewrite (get_u_wr 4) by (rewrite ?Hlen; klia).
  apply Z.mod_small. change MAX_FREE_PAGES with 1016 in Hmax. lia.
Qed.

Lemma p0_ids_put : p0_ids (put_ids ids p) = ids.
Proof.
  pose proof ids_range. unfold p0_ids. rewrite p0_count_put. unfold put_ids. fold p1.
  replace (zlen ids * 4) with (zlen (enc_ids ids)) by (rewrite zlen_enc_ids; lia).
  rewrite rd_wr_same by (rewrite ?zlen_p1; klia).
  rewrite <- (app_nil_r (enc_ids ids)). unfold zlen. rewrite Nat2Z.id. by apply dec_enc_ids.
Qed.

Lemma p0_root_put_ids : p0_root (put_ids ids p) = p0_root p.
Proof.
  pose proof ids_range. unfold p0_root, get_s, put_ids. fold p1.
  rewrite rd_wr_disjoint by (rewrite ?zlen_p1; klia). unfold p1.
  rewrite rd_wr_disjoint by (rewrite ?zlen_le_enc, ?Hlen; klia). done.
Qed.

Lemma p0_root_put_root (id : Z) : is_page_id id -> p0_root (put_root id p) = id.
Proof.
  intros Hid. unfold p0_root, put_root. apply (get_s_wr 4); rewrite ?Hlen; unfold is_page_id in *; klia.
Qed.

Lemma zlen_put_root (id : Z) : zlen (put_root id p) = PAGE_SIZE.
Proof. unfold put_root. rewrite zlen_wr; rewrite ?zlen_le_enc, ?Hlen; klia. Qed.

Lemma p0_ids_put_root (id : Z) : p0_count p <= MAX_FREE_PAGES -> p0_ids (put_root id p) = p0_ids p.
Proof.
  intros Hc. assert (Hr : 0 <= p0_count p) by (unfold p0_count; by apply get_u_range).
  assert (E : p0_count (put_root id p) = p0_count p).
  { unfold p0_count, put_root, get_u.
    rewrite rd_wr_disjoint by (rewrite ?zlen_le_enc, ?Hlen; klia). done. }
  unfold p0_ids. rewrite E. unfold put_root. change MAX_FREE_PAGES with 1016 in Hc.
  rewrite rd_wr_disjoint by (rewrite ?zlen_le_enc, ?Hlen; klia). done.
Qed.
End image.

(** ** What the operations do on a reliable file *)

Section spec.
Context {F : Type} `{ReliableFile F}.
Implicit Types (fl : FreeList F) (d : DiskManager F) (p : Page) (ids : list Z).

Definition page0 fl : Page := disk_page (dm fl) 0.

Record fl_ok fl : Prop := {
  fl_dm : dm_ok (dm fl);
  fl_pos : 0 < num_pages (dm fl);
  fl_max : zlen (free_pages_ fl) <= MAX_FREE_PAGES;
  fl_ids : Forall is_page_id (free_pages_ fl);
}.

(** The list in memory is the list in page 0. *)
Definition fl_synced fl : Prop :=
  fl_ok fl /\ p0_count (page0 fl) <= MAX_FREE_PAGES /\ p0_ids (page0 fl) = free_pages_ fl.

Lemma page0_length fl : fl_ok fl -> zlen (page0 fl) = PAGE_SIZE.
Proof. intros [Hd Hp _ _]. apply disk_page_length; [done|lia]. Qed.

Lemma dm_read_page_ok {B} fl p pid (k : unit -> M (FreeList F * Page) B) :
  dm_ok (dm fl) -> 0 <= pid < num_pages (dm fl) -> zlen p = PAGE_SIZE ->
  bind (dm_read_page pid) k (fl, p) = k tt (fl, disk_page (dm fl) pid).
Proof.
  intros Hd Hp Hl. unfold dm_read_page, bind, zoom. cbn [fst snd].
  rewrite (read_page_ok (dm fl) p pid Hd Hp Hl). by destruct fl.
Qed.

Lemma on_dm_eq {B} (m : M (DiskManager F) B) fl r d' :
  m (dm fl) = (r, d') -> on_dm m fl = (r, mkFL d' (free_pages_ fl)).
Proof. intros E. unfold on_dm, zoom. by rewrite E. Qed.

(** The write of page 0 and the flush that follows it. *)
Lemma write_flush_ok fl p :
  fl_ok fl -> zlen p = PAGE_SIZE ->
  exists d', (do* dm_write_page 0 in dm_flush) (fl, p) = (Ok tt, (mkFL d' (free_pages_ fl), p)) /\
    num_pages d' = num_pages (dm fl) /\ stored (dm fl) 0 p d'.
Proof.
  intros Hok Hl. pose proof (fl_dm fl Hok). pose proof (fl_pos fl Hok).
  destruct (write_page_ok (dm fl) p 0) as (d1 & E1 & N1 & [D1 S1]); [done|lia|done|].
  destruct (flush_ok d1 D1) as (d2 & E2 & N2 & D2 & S2).
  exists d2. split; [|split; [congruence|split; [done|]]].
  - unfold dm_write_page. rewrite bind_assoc. lstep (eq_refl : getS p = (Ok p, p)).
    rewrite (bind_on_outer _ _ fl (mkFL d1 (free_pages_ fl)) p tt) by (by apply on_dm_eq).
    unfold dm_flush. apply on_outer_eq. by apply (on_dm_eq _ (mkFL d1 (free_pages_ fl))).
  - intros j Hj. rewrite S2. apply S1. congruence.
Qed.

Lemma disk_page_0 fl d' p :
  num_pages d' = num_pages (dm fl) -> 0 < num_pages (dm fl) -> stored (dm fl) 0 p d' ->
  disk_page d' 0 = p.
Proof. intros Hn Hp [_ Hs]. rewrite Hs by lia. by rewrite decide_True. Qed.

Lemma save_ok fl :
  fl_ok fl ->
  exists d', save fl = (Ok tt, mkFL d' (free_pages_ fl)) /\
    num_pages d' = num_pages (dm fl) /\
    stored (dm fl) 0 (put_ids (free_pages_ fl) (page0 fl)) d'.
Proof.
  intros Hok. pose proof (page0_length fl Hok) as L0. pose proof Hok as [Hd Hp Hm Hi].
  set (ids := free_pages_ fl) in *.
  pose proof (zlen_put_ids ids (page0 fl) L0 Hm) as Lp.
  pose proof (ids_range ids Hm) as Hr.
  destruct (write_flush_ok fl (put_ids ids (page0 fl)) Hok Lp) as (d' & E & N & S).
  exists d'. split; [|done]. unfold save. mstep (eq_refl : getS fl = (Ok fl, fl)).
  rewrite bind_assert by (by apply Z.ltb_lt). eapply with_local_eq.
  rewrite dm_read_page_ok by (done || lia || apply zlen_zero_page). fold (page0 fl) ids.
  assert (Hw : wrap 32 (zlen ids) = zlen ids).
  { apply Z.mod_small. pose proof (zlen_nonneg ids). change MAX_FREE_PAGES with 1016 in Hm. lia. }
  rewrite Hw, bind_assert by (by apply Z.leb_le).
  assert (E1 : st_i 4 (data 0) (zlen ids) (page0 fl)
               = (Ok tt, wr (data 0) (le_enc 4 (zlen ids)) (page0 fl)))
    by (apply st_i_ok; rewrite ?L0; klia).
  lstep E1. pose proof (zlen_p1 ids (page0 fl) L0) as L1.
  assert (E2 : st (data 4) (enc_ids ids) (wr (data 0) (le_enc 4 (zlen ids)) (page0 fl))
               = (Ok tt, put_ids ids (page0 fl))) by (apply st_ok; rewrite ?L1; lia).
  lstep E2. exact E.
Qed.

(** After [save] the list in page 0 is the one in memory; the root slot and
    every other page are as they were. *)
Definition saved fl fl' : Prop :=
  fl_synced fl' /\ num_pages (dm fl') = num_pages (dm fl) /\
  p0_root (page0 fl') = p0_root (page0 fl) /\
  forall j, 0 < j < num_pages (dm fl) -> disk_page (dm fl') j = disk_page (dm fl) j.

Lemma save_saved fl :
  fl_ok fl -> exists fl', save fl = (Ok tt, fl') /\ free_pages_ fl' = free_pages_ fl /\ saved fl fl'.
Proof.
  intros Hok. destruct (save_ok fl Hok) as (d' & E & N & S).
  pose proof (page0_length fl Hok) as L0. pose proof Hok as [Hd Hp Hm Hi].
  pose proof (disk_page_0 fl d' _ N Hp S) as P0.
  exists (mkFL d' (free_pages_ fl)). split; [exact E|]. split; [done|].
  unfold saved, fl_synced, page0. simpl. rewrite P0.
  rewrite p0_count_put, p0_ids_put, p0_root_put_ids by done.
  split; [|split; [done|split; [done|]]].
  - split; [|done]. split; simpl; [apply S|lia|done|done].
  - intros j Hj. rewrite (proj2 S) by lia. by rewrite decide_False by lia.
Qed.

Lemma removelast_app_last (ids : list Z) (id : Z) :
  last ids = Some id -> ids = removelast ids ++ [id].
Proof.
  intros E. apply last_Some in E as [l ->]. by rewrite removelast_last.
Qed.

(** [free] pushes, [allocate] pops: the ids come back last in, first out. *)
Lemma allocate_some fl id :
  fl_ok fl -> last (free_pages_ fl) = Some id ->
  exists fl', allocate fl = (Ok id, fl') /\ free_pages_ fl = free_pages_ fl' ++ [id] /\ saved fl fl'.
Proof.
  intros Hok Hlast. pose proof (removelast_app_last _ _ Hlast) as Happ.
  pose proof Hok as [Hd Hp Hm Hi].
  assert (Hok' : fl_ok (set_free_pages (removelast (free_pages_ fl)) fl)).
  { rewrite Happ in Hm, Hi. apply Forall_app in Hi as [Hi _]. rewrite zlen_app in Hm.
    pose proof (zlen_nonneg [id]). split; simpl; try done. lia. }
  destruct (save_saved _ Hok') as (fl' & E & Hf & S). exists fl'. split; [|split; [by rewrite Hf|exact S]].
  unfold allocate. mstep (eq_refl : getS fl = (Ok fl, fl)). rewrite Hlast.
  rewrite (bind_ok _ _ _ (set_free_pages (removelast (free_pages_ fl)) fl) tt) by done.
  by mstep E.
Qed.

Lemma allocate_none fl : last (free_pages_ fl) = None -> allocate fl = (Ok INVALID_PAGE_ID, fl).
Proof. intros E. unfold allocate. mstep (eq_refl : getS fl = (Ok fl, fl)). by rewrite E. Qed.

Lemma free_ok fl id :
  fl_ok fl -> is_page_id id -> zlen (free_pages_ fl) < MAX_FREE_PAGES ->
  exists fl', free id fl = (Ok tt, fl') /\ free_pages_ fl' = free_pages_ fl ++ [id] /\ saved fl fl'.
Proof.
  intros Hok Hid Hlt. pose proof Hok as [Hd Hp Hm Hi].
  assert (Hok' : fl_ok (set_free_pages (free_pages_ fl ++ [id]) fl)).
  { split; simpl; try done.
    - rewrite zlen_app, zlen_cons, zlen_nil. lia.
    - apply Forall_app. split; [done|by constructor]. }
  destruct (save_saved _ Hok') as (fl' & E & Hf & S). exists fl'. split; [|split; [done|exact S]].
  unfold free. mstep (eq_refl : getS fl = (Ok fl, fl)). rewrite bind_assert by (by apply Z.ltb_lt).
  by rewrite (bind_ok _ _ _ (set_free_pages (free_pages_ fl ++ [id]) fl) tt) by done.
Qed.

(** A full list makes [free] fail before anything changes. *)
Lemma free_full fl id :
  MAX_FREE_PAGES <= zlen (free_pages_ fl) -> free id fl = (Err AssertionFailure, fl).
Proof.
  intros Hge. unfold free. mstep (eq_refl : getS fl = (Ok fl, fl)).
  by rewrite bind_assert_false by (by apply Z.ltb_ge).
Qed.

(** [load] of an existing file reads the list back. *)
Lemma load_ok fl :
  dm_ok (dm fl) -> 0 < num_pages (dm fl) -> p0_count (page0 fl) <= MAX_FREE_PAGES ->
  load fl = (Ok tt, mkFL (dm fl) (p0_ids (page0 fl))).
Proof.
  intros Hd Hp Hc. assert (L0 : zlen (page0 fl) = PAGE_SIZE) by (apply disk_page_length; [done|lia]).
  assert (Hr : 0 <= p0_count (page0 fl)) by (unfold p0_count; by apply get_u_range).
  unfold load. mstep (eq_refl : getS fl = (Ok fl, fl)). rewrite (proj2 (Z.eqb_neq _ _)) by lia.
  eapply (with_local_eq _ _ _ _ _ (page0 fl)).
  rewrite dm_read_page_ok by (done || lia || apply zlen_zero_page). fold (page0 fl).
  assert (E1 : ld_u 4 (data 0) (page0 fl) = Ok (p0_count (page0 fl)))
    by (apply ld_u_ok; rewrite ?L0; klia).
  lstep E1. rewrite (proj2 (Z.ltb_ge _ _)) by lia.
  assert (E2 : ld (data 4) (p0_count (page0 fl) * 4) (page0 fl)
               = Ok (rd (data 4) (p0_count (page0 fl) * 4) (page0 fl))).
  { change MAX_FREE_PAGES with 1016 in Hc. apply ld_ok; rewrite ?L0; klia. }
  by lstep E2.
Qed.

(** A corrupt count stops [load]. *)
Lemma load_corrupt fl :
  dm_ok (dm fl) -> 0 < num_pages (dm fl) -> MAX_FREE_PAGES < p0_count (page0 fl) ->
  load fl = (Err StdRuntimeError, fl).
Proof.
  intros Hd Hp Hc. assert (L0 : zlen (page0 fl) = PAGE_SIZE) by (apply disk_page_length; [done|lia]).
  unfold load. mstep (eq_refl : getS fl = (Ok fl, fl)). rewrite (proj2 (Z.eqb_neq _ _)) by lia.
  eapply (with_local_eq _ _ _ _ _ (page0 fl)).
  rewrite dm_read_page_ok by (done || lia || apply zlen_zero_page). fold (page0 fl).
  assert (E1 : ld_u 4 (data 0) (page0 fl) = Ok (p0_count (page0 fl)))
    by (apply ld_u_ok; rewrite ?L0; klia).
  lstep E1. by rewrite (proj2 (Z.ltb_lt _ _)) by lia.
Qed.

Lemma root_page_id_ok fl : fl_ok fl -> root_page_id fl = (Ok (p0_root (page0 fl)), fl).
Proof.
  intros Hok. pose proof (page0_length fl Hok) as L0. pose proof Hok as [Hd Hp Hm Hi].
  unfold root_page_id. mstep (eq_refl : getS fl = (Ok fl, fl)).
  rewrite bind_assert by (by apply Z.ltb_lt). eapply (with_local_eq _ _ _ _ _ (page0 fl)).
  rewrite dm_read_page_ok by (done || lia || apply zlen_zero_page). fold (page0 fl).
  assert (E1 : ld_s 4 (data ROOT_ID_OFFSET) (page0 fl) = Ok (p0_root (page0 fl)))
    by (apply ld_s_ok; rewrite ?L0; klia).
  unfold on_local, zoom, query. cbn [fst snd]. by rewrite E1.
Qed.

Lemma set_root_page_id_ok fl id :
  fl_ok fl -> is_page_id id ->
  exists d', set_root_page_id id fl = (Ok tt, mkFL d' (free_pages_ fl)) /\
    num_pages d' = num_pages (dm fl) /\ stored (dm fl) 0 (put_root id (page0 fl)) d'.
Proof.
  intros Hok Hid. pose proof (page0_length fl Hok) as L0. pose proof Hok as [Hd Hp Hm Hi].
  pose proof (zlen_put_root (page0 fl) L0 id) as Lp.
  destruct (write_flush_ok fl (put_root id (page0 fl)) Hok Lp) as (d' & E & N & S).
  exists d'. split; [|done]. unfold set_root_page_id. mstep (eq_refl : getS fl = (Ok fl, fl)).
  rewrite bind_assert by (by apply Z.ltb_lt). eapply with_local_eq.
  rewrite dm_read_page_ok by (done || lia || apply zlen_zero_page). fold (page0 fl).
  assert (E1 : st_i 4 (data ROOT_ID_OFFSET) id (page0 fl) = (Ok tt, put_root id (page0 fl)))
    by (apply st_i_ok; rewrite ?L0; klia).
  lstep E1. exact E.
Qed.

(** Setting the root keeps the list in step with page 0. *)
Lemma set_root_synced fl id :
  fl_synced fl -> is_page_id id ->
  exists fl', set_root_page_id id fl = (Ok tt, fl') /\ fl_synced fl' /\
    free_pages_ fl' = free_pages_ fl /\ p0_root (page0 fl') = id /\
    num_pages (dm fl') = num_pages (dm fl) /\
    forall j, 0 < j < num_pages (dm fl) -> disk_page (dm fl') j = disk_page (dm fl) j.
Proof.
  intros (Hok & Hc & Hids) Hid. destruct (set_root_page_id_ok fl id Hok Hid) as (d' & E & N & S).
  pose proof (page0_length fl Hok) as L0. pose proof Hok as [Hd Hp Hm Hi].
  pose proof (disk_page_0 fl d' _ N Hp S) as P0.
  exists (mkFL d' (free_pages_ fl)). split; [exact E|]. unfold fl_synced, page0. simpl.
  rewrite P0, p0_root_put_root, p0_ids_put_root by done.
  split; [|split; [done|split; [done|split; [done|]]]].
  - split; [split; simpl; [apply S|lia|done|done]|]. split; [|done].
    unfold p0_count, put_root, get_u. rewrite rd_wr_disjoint by (rewrite ?zlen_le_enc, ?L0; klia).
    exact Hc.
  - intros j Hj. rewrite (proj2 S) by lia. by rewrite decide_False by lia.
Qed.

(** [load] of an empty file creates page 0: no free page, no root. *)
Lemma load_empty fl :
  dm_ok (dm fl) -> num_pages (dm fl) = 0 -> free_pages_ fl = [] ->
  exists fl', load fl = (Ok tt, fl') /\ fl_synced fl' /\ free_pages_ fl' = [] /\
    num_pages (dm fl') = 1 /\ p0_root (page0 fl') = INVALID_PAGE_ID.
Proof.
  intros Hd H0' Hnil. destruct (allocate_page_ok (dm fl) Hd) as (d1 & E1 & N1 & [D1 S1]); [lia|].
  rewrite H0' in *. set (fl1 := mkFL d1 (free_pages_ fl)).
  assert (Hok1 : fl_ok fl1).
  { subst fl1. rewrite Hnil. split; simpl; [done|lia|rewrite (@zlen_nil Z); done|done]. }
  destruct (set_page_id_ok zero_page 0 zlen_zero_page) as (pa & Ea & Fa & _); [by split|].
  assert (La : zlen pa = PAGE_SIZE)
    by (rewrite (same_outside_length _ _ _ _ Fa); apply zlen_zero_page).
  destruct (set_page_type_ok pa DB_HEADER La) as (pb & Eb & Fb & _); [tauto|].
  assert (Lb : zlen pb = PAGE_SIZE) by (rewrite (same_outside_length _ _ _ _ Fb); exact La).
  set (pc := wr (data 0) (le_enc 4 0) pb).
  assert (Ec : st_i 4 (data 0) 0 pb = (Ok tt, pc)) by (apply st_i_ok; rewrite ?Lb; klia).
  assert (Lc : zlen pc = PAGE_SIZE)
    by (unfold pc; rewrite zlen_wr; rewrite ?zlen_le_enc, ?Lb; klia).
  assert (Ed : st_i 4 (data ROOT_ID_OFFSET) INVALID_PAGE_ID pc = (Ok tt, put_root INVALID_PAGE_ID pc))
    by (apply st_i_ok; rewrite ?Lc; klia).
  assert (Hc0 : p0_count (put_root INVALID_PAGE_ID pc) = 0).
  { unfold p0_count, put_root, get_u. rewrite rd_wr_disjoint by (rewrite ?zlen_le_enc, ?Lc; klia).
    fold (get_u 4 (data 0) pc). unfold pc. by rewrite (get_u_wr 4) by (rewrite ?Lb; klia). }
  pose proof (zlen_put_root pc Lc INVALID_PAGE_ID) as Ld.
  destruct (write_flush_ok fl1 _ Hok1 Ld) as (d' & E & N & S).
  pose proof (disk_page_0 fl1 d' _ N (fl_pos fl1 Hok1) S) as P0.
  exists (mkFL d' (free_pages_ fl)). split.
  - unfold load. mstep (eq_refl : getS fl = (Ok fl, fl)). rewrite (proj2 (Z.eqb_eq _ _)) by done.
    rewrite (bind_ok _ _ _ fl1 0) by (by apply on_dm_eq). rewrite bind_assert by done.
    eapply with_local_eq. lstep Ea. lstep Eb. lstep Ec. lstep Ed. exact E.
  - unfold fl_synced, page0. simpl. rewrite P0, Hc0, Hnil.
    rewrite p0_root_put_root by (done || by split). unfold p0_ids. rewrite Hc0.
    split; [|split; [done|split; [simpl in N; lia|done]]].
    split; [|by split]. split; simpl; [apply S|simpl in N; lia|by rewrite (@zlen_nil Z)|done].
Qed.
End spec.
