(* ===== verification/BufferPool.v ===== *)
(** * The buffer pool ([src/src/storage/buffer_pool.h], [buffer_pool.cpp])

    The pool keeps references to the disk manager and the free list; both are
    the ones of [pool_fl].  A [Page*] it hands out is the index of the frame
    that holds the page, [nullptr] is [None].  [lru_map_] holds the position of
    a frame in [lru_list_] and is not kept apart: a frame is in the map exactly
    when it is in the list. *)

From S2P Require Import Prelude.
From S2P Require Import Buffers.
From S2P Require Import Page.
From S2P Require Import DiskManager.
From S2P Require Import FreeList.

Record Frame : Type := mkFrame {
  page : Page;
  pin_count : Z;
  is_dirty : bool;
  in_use : bool;
}.

Definition default_frame : Frame := mkFrame zero_page 0 false false.

Record BufferPool (F : Type) : Type := mkBP {
  pool_fl : FreeList F;
  frames_ : list Frame;
  page_table_ : gmap Z Z;
  free_frames_ : list Z;
  lru_list_ : list Z;
}.
Arguments mkBP {F} pool_fl frames_ page_table_ free_frames_ lru_list_.
Arguments pool_fl {F} b.
Arguments frames_ {F} b.
Arguments page_table_ {F} b.
Arguments free_frames_ {F} b.
Arguments lru_list_ {F} b.

Definition POOL_SIZE : Z := BUFFER_POOL_SIZE.
Definition INVALID_FRAME_ID : Z := INVALID_PAGE_ID.

(** Assignments of the fields of a frame. *)
Definition set_page (p : Page) (f : Frame) : Frame :=
  mkFrame p (pin_count f) (is_dirty f) (in_use f).
Definition set_pin_count (n : Z) (f : Frame) : Frame := mkFrame (page f) n (is_dirty f) (in_use f).
Definition set_dirty (b : bool) (f : Frame) : Frame := mkFrame (page f) (pin_count f) b (in_use f).
Definition set_in_use (b : bool) (f : Frame) : Frame := mkFrame (page f) (pin_count f) (is_dirty f) b.

(** [std::list::erase] of the position of [x]. *)
Fixpoint erase_first (x : Z) (l : list Z) : list Z :=
  match l with
  | [] => []
  | y :: l' => if y =? x then l' else y :: erase_first x l'
  end.

Section ops.
Context {F : Type} `{PosixFile F}.

Definition set_fl (f : FreeList F) (b : BufferPool F) : BufferPool F :=
  mkBP f (frames_ b) (page_table_ b) (free_frames_ b) (lru_list_ b).
Definition set_frames (fs : list Frame) (b : BufferPool F) : BufferPool F :=
  mkBP (pool_fl b) fs (page_table_ b) (free_frames_ b) (lru_list_ b).
Definition set_page_table (t : gmap Z Z) (b : BufferPool F) : BufferPool F :=
  mkBP (pool_fl b) (frames_ b) t (free_frames_ b) (lru_list_ b).
Definition set_free_frames (l : list Z) (b : BufferPool F) : BufferPool F :=
  mkBP (pool_fl b) (frames_ b) (page_table_ b) l (lru_list_ b).
Definition set_lru (l : list Z) (b : BufferPool F) : BufferPool F :=
  mkBP (pool_fl b) (frames_ b) (page_table_ b) (free_frames_ b) l.

Definition on_fl {A : Type} (m : M (FreeList F) A) : M (BufferPool F) A := zoom pool_fl set_fl m.

(** [frames_[id]] *)
Definition frame_at (id : Z) (b : BufferPool F) : option Frame :=
  if 0 <=? id then frames_ b !! Z.to_nat id else None.

(** Run [m] on [frames_[id]]. *)
Definition at_frame {A : Type} (id : Z) (m : M Frame A) : M (BufferPool F) A :=
  fun b =>
    match frame_at id b with
    | None => (Err OutOfBounds, b)
    | Some f => let '(r, f') := m f in (r, set_frames (<[Z.to_nat id := f']> (frames_ b)) b)
    end.

(** Run [m] on the page behind the pointer [id]. *)
Definition on_page {A : Type} (id : Z) (m : M Page A) : M (BufferPool F) A :=
  at_frame id (zoom page set_page m).

(** [dm_.read_page(page_id, frames_[id].page)] *)
Definition read_into (id page_id : Z) : M (BufferPool F) unit :=
  fun b =>
    match frame_at id b with
    | None => (Err OutOfBounds, b)
    | Some f =>
        let '(r, (d, p)) := read_page page_id (dm (pool_fl b), page f) in
        (r, set_frames (<[Z.to_nat id := set_page p f]> (frames_ b)) (set_fl (set_dm d (pool_fl b)) b))
    end.

Definition BufferPool_ctor (f : FreeList F) : BufferPool F :=
  mkBP f (replicate (Z.to_nat POOL_SIZE) default_frame) ∅
    (Z.of_nat <$> seq 0 (Z.to_nat POOL_SIZE)) [].

Definition touch (frame_id : Z) : M (BufferPool F) unit :=
  modifyS (fun b => set_lru (frame_id :: erase_first frame_id (lru_list_ b)) b).

Definition evict_frame (frame_id : Z) : M (BufferPool F) unit :=
  let* f := at_frame frame_id getS in
  do* assert_ (in_use f) in
  do* assert_ (pin_count f =? 0) in
  do* (if is_dirty f then
         let* pid := at_frame frame_id (zoom page set_page (query page_id)) in
         do* on_fl (on_dm (write_page pid (page f))) in
         at_frame frame_id (modifyS (set_dirty false))
       else ret tt) in
  let* pid := at_frame frame_id (zoom page set_page (query page_id)) in
  do* modifyS (fun b => set_page_table (delete pid (page_table_ b)) b) in
  do* modifyS (fun b => set_lru (erase_first frame_id (lru_list_ b)) b) in
  do* on_page frame_id clear in
  do* at_frame frame_id (modifyS (set_pin_count 0)) in
  do* at_frame frame_id (modifyS (set_dirty false)) in
  at_frame frame_id (modifyS (set_in_use false)).

(** The victim: the first unpinned frame from the back of the LRU list. *)
Fixpoint find_victim (l : list Z) (b : BufferPool F) : result Z :=
  match l with
  | [] => Ok INVALID_FRAME_ID
  | id :: l' =>
      match frame_at id b with
      | None => Err OutOfBounds
      | Some f => if pin_count f =? 0 then Ok id else find_victim l' b
      end
  end.

Definition find_free_frame : M (BufferPool F) Z :=
  let* b := getS in
  match last (free_frames_ b) with
  | Some id =>
      do* modifyS (set_free_frames (removelast (free_frames_ b))) in
      ret id
  | None =>
      let* victim := query (find_victim (reverse (lru_list_ b))) in
      if victim =? INVALID_FRAME_ID then ret INVALID_FRAME_ID
      else do* evict_frame victim in ret victim
  end.

Definition fetch_page (page_id : Z) : M (BufferPool F) (option Z) :=
  let* b := getS in
  match page_table_ b !! page_id with
  | Some id =>
      do* at_frame id (modifyS (fun f => set_pin_count (pin_count f + 1) f)) in
      do* touch id in
      ret (Some id)
  | None =>
      let* id := find_free_frame in
      if id =? INVALID_FRAME_ID then ret None
      else
        do* read_into id page_id in
        do* at_frame id (modifyS (set_in_use true)) in
        do* at_frame id (modifyS (set_pin_count 1)) in
        do* at_frame id (modifyS (set_dirty false)) in
        do* modifyS (fun b => set_page_table (<[page_id := id]> (page_table_ b)) b) in
        do* touch id in
        ret (Some id)
  end.

Definition unpin_page (page_id : Z) (dirty : bool) : M (BufferPool F) unit :=
  let* b := getS in
  match page_table_ b !! page_id with
  | None => ret tt
  | Some id =>
      do* at_frame id (modifyS (fun f =>
            if 0 <? pin_count f then set_pin_count (pin_count f - 1) f else f)) in
      if dirty then at_frame id (modifyS (set_dirty true)) else ret tt
  end.

(** The body shared by [flush_page] and the loop of [flush_all]. *)
Definition flush_frame (page_id id : Z) : M (BufferPool F) unit :=
  let* f := at_frame id getS in
  if is_dirty f then
    do* on_fl (on_dm (write_page page_id (page f))) in
    at_frame id (modifyS (set_dirty false))
  else ret tt.

Definition flush_page (page_id : Z) : M (BufferPool F) bool :=
  let* b := getS in
  match page_table_ b !! page_id with
  | None => ret false
  | Some id => do* flush_frame page_id id in ret true
  end.

(** The order of an [unordered_map] is not specified: [order] is the one the
    iteration takes. *)
Definition flush_all_in (order : list (Z * Z)) : M (BufferPool F) unit :=
  for_each order (fun e => flush_frame e.1 e.2).

Definition flush_all : M (BufferPool F) unit :=
  let* b := getS in flush_all_in (map_to_list (page_table_ b)).

(** The page id it writes to [out_page_id], with the frame. *)
Definition new_page : M (BufferPool F) (option (Z * Z)) :=
  let* id0 := on_fl allocate in
  let* page_id := (if id0 =? INVALID_PAGE_ID then on_fl (on_dm allocate_page) else ret id0) in
  let* id := find_free_frame in
  if id =? INVALID_FRAME_ID then do* assert_ false in ret None
  else
    do* on_page id clear in
    do* on_page id (set_page_id page_id) in
    do* at_frame id (modifyS (set_in_use true)) in
    do* at_frame id (modifyS (set_pin_count 1)) in
    do* at_frame id (modifyS (set_dirty true)) in
    do* modifyS (fun b => set_page_table (<[page_id := id]> (page_table_ b)) b) in
    do* touch id in
    ret (Some (id, page_id)).

Definition delete_page (page_id : Z) : M (BufferPool F) unit :=
  let* b := getS in
  do* (match page_table_ b !! page_id with
       | None => ret tt
       | Some id =>
           let* f := at_frame id getS in
           do* assert_ (pin_count f =? 0) in
           do* at_frame id (modifyS (set_dirty false)) in
           evict_frame id
       end) in
  on_fl (free page_id).

Definition pool_size (b : BufferPool F) : nat := size (page_table_ b).
End ops.
