(* ===== verification/PoolSpec.v ===== *)
(** * What the buffer pool promises

    The logical content of a page is the cached copy when there is one and the
    copy on disk otherwise.  [bp_inv D] is the invariant of the pool, where [D]
    are the pages a client has changed through a pointer and not yet marked
    dirty; the operations keep it and change no page but the one they name. *)

From Stdlib Require Import Sorting.Permutation.
From S2P Require Import Prelude.
From S2P Require Import Buffers.
From S2P Require Import Page.
From S2P Require Import DiskManager.
From S2P Require Import FreeList.
From S2P Require Import BufferPool.

(** ** Frames *)

Section frames.
Context {F : Type}.
Implicit Types (b : BufferPool F) (f : Frame) (id : Z).

Definition put_frame id f b : BufferPool F :=
  set_frames (<[Z.to_nat id := f]> (frames_ b)) b.

Lemma frame_at_Some b id f :
  frame_at id b = Some f <-> 0 <= id /\ frames_ b !! Z.to_nat id = Some f.
Proof. unfold frame_at. destruct (Z.leb_spec 0 id); split; [done|by intros [_ ?]|done|intros [? _]; lia]. Qed.

Lemma frame_at_put b id f f' j :
  frame_at id b = Some f ->
  frame_at j (put_frame id f' b) = if decide (j = id) then Some f' else frame_at j b.
Proof.
  intros [Hid Hf]%frame_at_Some. pose proof (lookup_lt_Some _ _ _ Hf).
  unfold frame_at, put_frame. cbn [frames_ set_frames]. case_decide as Hj.
  - subst j. rewrite (proj2 (Z.leb_le _ _)) by done. by apply list_lookup_insert_eq.
  - destruct (Z.leb_spec 0 j); [|done]. apply list_lookup_insert_ne. lia.
Qed.

Lemma frame_at_put_eq b id f f' :
  frame_at id b = Some f -> frame_at id (put_frame id f' b) = Some f'.
Proof. intros Hf. rewrite (frame_at_put b id f f' id Hf). by rewrite decide_True. Qed.

Lemma put_put b id f f' : put_frame id f' (put_frame id f b) = put_frame id f' b.
Proof. unfold put_frame, set_frames. cbn. by rewrite list_insert_insert_eq. Qed.

Lemma put_same b id f : frame_at id b = Some f -> put_frame id f b = b.
Proof.
  intros [Hid Hf]%frame_at_Some. unfold put_frame, set_frames. rewrite list_insert_id by done.
  by destruct b.
Qed.

Lemma at_frame_ok {A} b id f f' (m : M Frame A) r :
  frame_at id b = Some f -> m f = (r, f') -> at_frame id m b = (r, put_frame id f' b).
Proof. intros Hf E. unfold at_frame. by rewrite Hf, E. Qed.

Lemma on_page_ok {A} b id f p' (m : M Page A) r :
  frame_at id b = Some f -> m (page f) = (r, p') ->
  on_page id m b = (r, put_frame id (set_page p' f) b).
Proof. intros Hf E. apply (at_frame_ok b id f); [done|]. unfold zoom. by rewrite E. Qed.

Lemma on_page_query {A} b id f (q : Page -> result A) r :
  frame_at id b = Some f -> q (page f) = r -> on_page id (query q) b = (r, b).
Proof.
  intros Hf E. rewrite (on_page_ok b id f (page f) (query q) r Hf) by (unfold query; by rewrite E).
  by rewrite put_same by by destruct f.
Qed.

Lemma at_frame_get b id f : frame_at id b = Some f -> at_frame id getS b = (Ok f, b).
Proof. intros Hf. rewrite (at_frame_ok b id f f getS (Ok f)) by done. by rewrite put_same. Qed.
End frames.

(** [erase_first] on lists without duplicates. *)
Lemma erase_first_elem (x y : Z) (l : list Z) :
  NoDup l -> y ∈ erase_first x l <-> y ∈ l /\ y <> x.
Proof.
  induction l as [|z l IH]; intros Hnd; cbn [erase_first].
  - split; [by intros ?%not_elem_of_nil|by intros [?%not_elem_of_nil _]].
  - apply NoDup_cons in Hnd as [Hz Hnd].
    destruct (Z.eqb_spec z x) as [->|Hzx]; rewrite !elem_of_cons.
    + split; [intros Hy; split; [by right|by intros ->]|by intros [[->|?] ?]].
    + rewrite IH by done. split; [intros [->|[? ?]]; auto|tauto].
Qed.

Lemma erase_first_NoDup (x : Z) (l : list Z) : NoDup l -> NoDup (erase_first x l).
Proof.
  induction l as [|z l IH]; intros Hnd; simpl; [done|].
  pose proof Hnd as [Hz Hnd']%NoDup_cons. destruct (z =? x); [done|].
  apply NoDup_cons. split; [|by apply IH]. rewrite erase_first_elem by done. tauto.
Qed.

Lemma erase_first_length (x : Z) (l : list Z) :
  x ∈ l -> S (length (erase_first x l)) = length l.
Proof.
  induction l as [|z l IH]; intros Hx; simpl; [by apply not_elem_of_nil in Hx|].
  destruct (Z.eqb_spec z x) as [->|Hzx]; [done|]. simpl. f_equal. apply IH. by apply elem_of_cons in Hx as [->|?].
Qed.

Lemma erase_first_absent (x : Z) (l : list Z) : x ∉ l -> erase_first x l = l.
Proof.
  induction l as [|z l IH]; intros Hx; simpl; [done|].
  destruct (Z.eqb_spec z x) as [->|Hzx]; [by destruct Hx; left|].
  f_equal. apply IH. intros Hin. apply Hx. by right.
Qed.

(** ** The invariant *)

Section spec.
Context {F : Type} `{ReliableFile F}.
Implicit Types (b : BufferPool F) (f : Frame) (id pid : Z) (p : Page) (D : gset Z).

Definition bp_num b : Z := num_pages (dm (pool_fl b)).
Definition bp_disk b pid : Page := disk_page (dm (pool_fl b)) pid.

Definition bp_page b pid : Page :=
  match page_table_ b !! pid with
  | Some id => match frame_at id b with Some f => page f | None => [] end
  | None => bp_disk b pid
  end.

Definition bp_pin b pid : Z :=
  match page_table_ b !! pid with
  | Some id => match frame_at id b with Some f => pin_count f | None => 0 end
  | None => 0
  end.

(** Frame [id] caches page [pid]. *)
Record cached D b pid id f : Prop := {
  c_frame : frame_at id b = Some f;
  c_use : in_use f = true;
  c_id : pg_id (page f) = pid;
  c_clean : is_dirty f = false -> pid ∉ D -> page f = bp_disk b pid;
}.

Record bp_inv D b : Prop := {
  inv_fl : fl_synced (pool_fl b);
  inv_frames : length (frames_ b) = Z.to_nat POOL_SIZE;
  inv_pages : forall id f, frame_at id b = Some f -> zlen (page f) = PAGE_SIZE /\ 0 <= pin_count f;
  inv_cached : forall pid id, page_table_ b !! pid = Some id ->
    0 < pid < bp_num b /\ id ∈ lru_list_ b /\ exists f, cached D b pid id f;
  inv_lru : forall id, id ∈ lru_list_ b -> exists pid, page_table_ b !! pid = Some id;
  inv_lru_nodup : NoDup (lru_list_ b);
  inv_free : forall id, id ∈ free_frames_ b -> 0 <= id < POOL_SIZE /\ id ∉ lru_list_ b;
  inv_free_nodup : NoDup (free_frames_ b);
  inv_pinned : forall pid, pid ∈ D -> 0 < bp_pin b pid;
}.

(** What the rest of the pool sees of a step that concerns no page. *)
Record same_view b b' : Prop := {
  sv_num : bp_num b' = bp_num b;
  sv_page : forall j, 0 < j < bp_num b -> bp_page b' j = bp_page b j;
  sv_pin : forall j, bp_pin b' j = bp_pin b j;
  sv_list : free_pages_ (pool_fl b') = free_pages_ (pool_fl b);
  sv_root : p0_root (page0 (pool_fl b')) = p0_root (page0 (pool_fl b));
}.

Lemma same_view_refl b : same_view b b.
Proof. by split. Qed.

Lemma same_view_trans b1 b2 b3 : same_view b1 b2 -> same_view b2 b3 -> same_view b1 b3.
Proof.
  intros [A1 A2 A3 A4 A5] [B1 B2 B3 B4 B5]. split; try congruence.
  intros j Hj. rewrite B2 by congruence. by apply A2.
Qed.

Lemma page_table_inj D b (p1 p2 id : Z) :
  bp_inv D b -> page_table_ b !! p1 = Some id -> page_table_ b !! p2 = Some id -> p1 = p2.
Proof.
  intros Hi H1 H2. destruct (inv_cached D b Hi p1 id H1) as (_ & _ & f1 & C1).
  destruct (inv_cached D b Hi p2 id H2) as (_ & _ & f2 & C2).
  pose proof (c_frame _ _ _ _ _ C1) as E1. rewrite (c_frame _ _ _ _ _ C2) in E1. simplify_eq.
  by rewrite <- (c_id _ _ _ _ _ C1), <- (c_id _ _ _ _ _ C2).
Qed.

Lemma cached_lookup D b pid id :
  bp_inv D b -> page_table_ b !! pid = Some id ->
  exists f, cached D b pid id f /\ bp_page b pid = page f /\ bp_pin b pid = pin_count f /\
    0 < pid < bp_num b /\ id ∈ lru_list_ b /\ zlen (page f) = PAGE_SIZE /\ 0 <= pin_count f.
Proof.
  intros Hi Hp. destruct (inv_cached D b Hi pid id Hp) as (Hr & Hl & f & C).
  pose proof (c_frame _ _ _ _ _ C) as Ef. exists f. unfold bp_page, bp_pin. rewrite Hp, Ef.
  pose proof (inv_pages D b Hi id f Ef). tauto.
Qed.

Lemma fl_write_page (fl : FreeList F) pid p :
  fl_synced fl -> 0 < pid < num_pages (dm fl) -> zlen p = PAGE_SIZE ->
  exists d', write_page pid p (dm fl) = (Ok tt, d') /\ num_pages d' = num_pages (dm fl) /\
    stored (dm fl) pid p d' /\ fl_synced (mkFL d' (free_pages_ fl)) /\
    page0 (mkFL d' (free_pages_ fl)) = page0 fl.
Proof.
  intros ([Hd Hp Hm Hi] & Hc & Hids) Hpid Hl.
  destruct (write_page_ok (dm fl) p pid Hd) as (d' & E & N & S); [lia|done|].
  assert (P0 : page0 (mkFL d' (free_pages_ fl)) = page0 fl).
  { unfold page0. simpl. rewrite (proj2 S) by lia. by rewrite decide_False by lia. }
  exists d'. split; [done|]. split; [done|]. split; [done|]. split; [|done].
  unfold fl_synced. rewrite P0. simpl. split; [|by split].
  split; simpl; [apply S|lia|done|done].
Qed.

(** The pool without the page that frame [id] holds. *)
Definition dropped b pid id (fl' : FreeList F) : BufferPool F :=
  mkBP fl' (<[Z.to_nat id := default_frame]> (frames_ b)) (delete pid (page_table_ b))
    (free_frames_ b) (erase_first id (lru_list_ b)).

Lemma evict_frame_raw b pid id f :
  fl_synced (pool_fl b) -> frame_at id b = Some f -> in_use f = true -> pin_count f = 0 ->
  zlen (page f) = PAGE_SIZE -> pg_id (page f) = pid -> 0 < pid < bp_num b ->
  exists fl', evict_frame id b = (Ok tt, dropped b pid id fl') /\ fl_synced fl' /\
    num_pages (dm fl') = bp_num b /\ free_pages_ fl' = free_pages_ (pool_fl b) /\
    page0 fl' = page0 (pool_fl b) /\
    forall j, 0 < j < bp_num b -> disk_page (dm fl') j =
      if decide (j = pid /\ is_dirty f = true) then page f else bp_disk b j.
Proof.
  intros Hs Hf Hu Hpin Hlen Hid Hpid. unfold evict_frame. mstep (at_frame_get b id f Hf).
  rewrite bind_assert, bind_assert by (done || by apply Z.eqb_eq).
  set (fl1 := fun d : DiskManager F => mkFL d (free_pages_ (pool_fl b))).
  assert (Hw : exists d' f', (if is_dirty f then
         let* pid := at_frame id (zoom page set_page (query page_id)) in
         do* on_fl (on_dm (write_page pid (page f))) in
         at_frame id (modifyS (set_dirty false))
       else ret tt) b = (Ok tt, put_frame id f' (set_fl (fl1 d') b)) /\
       page f' = page f /\ num_pages d' = bp_num b /\ fl_synced (fl1 d') /\
       page0 (fl1 d') = page0 (pool_fl b) /\
       forall j, 0 < j < bp_num b -> disk_page d' j =
         if decide (j = pid /\ is_dirty f = true) then page f else bp_disk b j).
  { destruct (is_dirty f) eqn:Hd.
    - destruct (fl_write_page (pool_fl b) pid (page f) Hs Hpid Hlen) as (d' & E & N & [_ S] & Hs' & P0).
      exists d', (set_dirty false f). split; [|split_and!; try done].
      + assert (Eid : at_frame id (zoom page set_page (query page_id)) b = (Ok pid, b)).
        { apply (on_page_query b id f page_id (Ok pid) Hf). by rewrite page_id_ok, Hid by done. }
        mstep Eid.
        rewrite (bind_ok _ _ _ (set_fl (fl1 d') b) tt).
        2: { apply (zoom_eq pool_fl set_fl). by apply on_dm_eq. }
        apply (at_frame_ok _ id f); [done|done].
      + intros j Hj. rewrite S by (rewrite N; unfold bp_num in Hj; lia). repeat case_decide; try done; tauto.
    - assert (Hfl1 : fl1 (dm (pool_fl b)) = pool_fl b) by (unfold fl1; by destruct (pool_fl b)).
      exists (dm (pool_fl b)), f. split; [|split_and!; try done].
      + rewrite Hfl1. rewrite put_same; by destruct b.
      + rewrite Hfl1. done.
      + intros j Hj. rewrite decide_False by (intros [_ ?]; done). done. }
  destruct Hw as (d' & f' & E & Hpage & N & Hs' & P0 & S). exists (fl1 d').
  split; [|split_and!; done]. mstep E. set (b1 := put_frame id f' (set_fl (fl1 d') b)).
  assert (Hf1 : frame_at id b1 = Some f') by (by apply (frame_at_put_eq (set_fl (fl1 d') b) id f)).
  assert (Eid : at_frame id (zoom page set_page (query page_id)) b1 = (Ok pid, b1)).
  { apply (on_page_query b1 id f' page_id (Ok pid) Hf1). rewrite Hpage. by rewrite page_id_ok, Hid by done. }
  mstep Eid.
  rewrite (bind_ok _ _ b1 (set_page_table (delete pid (page_table_ b1)) b1) tt) by done.
  rewrite (bind_ok _ _ _ (set_lru (erase_first id (lru_list_ b))
    (set_page_table (delete pid (page_table_ b1)) b1)) tt) by done.
  set (b2 := set_lru _ _). assert (Hf2 : frame_at id b2 = Some f') by exact Hf1.
  rewrite (bind_ok _ _ _ _ _ (on_page_ok b2 id f' zero_page clear (Ok tt) Hf2 eq_refl)).
  rewrite (bind_ok _ _ _ _ _ (at_frame_ok _ id (set_page zero_page f') _ (modifyS (set_pin_count 0)) (Ok tt)
    (frame_at_put_eq b2 id f' _ Hf2) eq_refl)), put_put.
  rewrite (bind_ok _ _ _ _ _ (at_frame_ok _ id _ _ (modifyS (set_dirty false)) (Ok tt)
    (frame_at_put_eq b2 id f' _ Hf2) eq_refl)), put_put.
  rewrite (at_frame_ok _ id _ _ (modifyS (set_in_use false)) (Ok tt)
    (frame_at_put_eq b2 id f' _ Hf2) eq_refl), put_put.
  unfold dropped, put_frame, b2, b1, set_frames, set_lru, set_page_table, set_fl, put_frame. cbn.
  by rewrite list_insert_insert_eq.
Qed.

(** ** Dropping a page from its frame *)

Lemma frame_at_dropped b pid id fl' f j :
  frame_at id b = Some f ->
  frame_at j (dropped b pid id fl') = if decide (j = id) then Some default_frame else frame_at j b.
Proof. exact (frame_at_put b id f default_frame j). Qed.

Section drop.
Context (D : gset Z) (b : BufferPool F) (pid id : Z) (fl' : FreeList F).
Hypothesis Hi : bp_inv D b.
Hypothesis Hp : page_table_ b !! pid = Some id.
Hypothesis HD : pid ∉ D.
Hypothesis Hs : fl_synced fl'.
Hypothesis Hn : num_pages (dm fl') = bp_num b.
Hypothesis Hdisk : forall j, 0 < j < bp_num b -> j <> pid -> disk_page (dm fl') j = bp_disk b j.

Let b' := dropped b pid id fl'.

Lemma dropped_lookup j : j <> pid -> page_table_ b' !! j = page_table_ b !! j.
Proof. intros Hj. unfold b'. simpl. by apply lookup_delete_ne. Qed.

Lemma dropped_frame_ne j i f :
  j <> pid -> page_table_ b !! j = Some i -> frame_at i b = Some f ->
  i <> id /\ frame_at i b' = Some f.
Proof.
  intros Hj Hji Hf. assert (i <> id) as Hne.
  { intros ->. apply Hj. by eapply page_table_inj. }
  split; [done|]. destruct (cached_lookup D b pid id Hi Hp) as (f0 & C & _).
  unfold b'. rewrite (frame_at_dropped b pid id fl' f0 i (c_frame _ _ _ _ _ C)).
  by rewrite decide_False.
Qed.

Lemma dropped_page j : 0 < j < bp_num b -> j <> pid -> bp_page b' j = bp_page b j.
Proof.
  intros Hj Hne. unfold bp_page. rewrite dropped_lookup by done.
  destruct (page_table_ b !! j) as [i|] eqn:E; [|by apply Hdisk].
  destruct (cached_lookup D b j i Hi E) as (f & C & _).
  destruct (dropped_frame_ne j i f Hne E (c_frame _ _ _ _ _ C)) as [_ ->].
  by rewrite (c_frame _ _ _ _ _ C).
Qed.

Lemma dropped_page_eq : bp_page b' pid = disk_page (dm fl') pid.
Proof. unfold bp_page, b'. simpl. by rewrite lookup_delete_eq. Qed.

Lemma dropped_pin j : j <> pid -> bp_pin b' j = bp_pin b j.
Proof.
  intros Hne. unfold bp_pin. rewrite dropped_lookup by done.
  destruct (page_table_ b !! j) as [i|] eqn:E; [|done].
  destruct (cached_lookup D b j i Hi E) as (f & C & _).
  destruct (dropped_frame_ne j i f Hne E (c_frame _ _ _ _ _ C)) as [_ ->].
  by rewrite (c_frame _ _ _ _ _ C).
Qed.

Lemma dropped_pin_eq : bp_pin b' pid = 0.
Proof. unfold bp_pin, b'. simpl. by rewrite lookup_delete_eq. Qed.

Lemma dropped_inv : bp_inv D b'.
Proof.
  destruct (cached_lookup D b pid id Hi Hp) as (f0 & C0 & _ & _ & _ & Hlru0 & _).
  pose proof (inv_lru_nodup D b Hi) as Hnd. split.
  - done.
  - unfold b'. simpl. rewrite length_insert. apply (inv_frames D b Hi).
  - intros i f. unfold b'. rewrite (frame_at_dropped b pid id fl' f0 i (c_frame _ _ _ _ _ C0)).
    case_decide; [intros [= <-]|apply (inv_pages D b Hi)].
    split; [apply zlen_zero_page|done].
  - intros j i. destruct (decide (j = pid)) as [->|Hj].
    { unfold b'. simpl. by rewrite lookup_delete_eq. }
    rewrite dropped_lookup by done. intros E.
    destruct (cached_lookup D b j i Hi E) as (f & C & _ & _ & Hr & Hl & _).
    destruct (dropped_frame_ne j i f Hj E (c_frame _ _ _ _ _ C)) as [Hne Ef].
    split; [unfold bp_num, b' in *; simpl; lia|]. split; [by apply erase_first_elem|].
    exists f. destruct C as [_ U I Cl]. split; try done.
    intros Hd HDj. rewrite Cl by done. unfold bp_disk, b'. simpl. symmetry. by apply Hdisk.
  - intros i. unfold b'. simpl. rewrite erase_first_elem by done. intros [Hl Hne].
    destruct (inv_lru D b Hi i Hl) as [j Hj]. exists j. rewrite lookup_delete_ne; [done|].
    intros <-. simplify_eq.
  - by apply erase_first_NoDup.
  - intros i Hin. destruct (inv_free D b Hi i Hin) as [Hr Hl]. split; [done|].
    unfold b'. simpl. rewrite erase_first_elem by done. by intros [? _].
  - apply (inv_free_nodup D b Hi).
  - intros j Hj. rewrite dropped_pin; [by apply (inv_pinned D b Hi)|]. by intros ->.
Qed.
End drop.

(** ** Finding a frame *)

(** The frames that are free or hold a page. *)
Definition cap b : nat := (length (free_frames_ b) + length (lru_list_ b))%nat.

(** A frame that is taken and does not hold a page yet. *)
Record limbo D b id : Prop := {
  lb_inv : bp_inv D b;
  lb_range : 0 <= id < POOL_SIZE;
  lb_lru : id ∉ lru_list_ b;
  lb_free : id ∉ free_frames_ b;
}.

(** The pointers to pinned pages stay valid, and no page is brought in. *)
Record ptr_stable b b' : Prop := {
  ps_pinned : forall j i, page_table_ b !! j = Some i -> 0 < bp_pin b j -> page_table_ b' !! j = Some i;
  ps_none : forall j, page_table_ b !! j = None -> page_table_ b' !! j = None;
}.

Lemma find_victim_ok b (l : list Z) :
  (forall id, id ∈ l -> 0 <= id /\ exists f, frame_at id b = Some f) ->
  (exists id f, find_victim l b = Ok id /\ id ∈ l /\ frame_at id b = Some f /\ pin_count f = 0) \/
  (find_victim l b = Ok INVALID_FRAME_ID /\
   forall id f, id ∈ l -> frame_at id b = Some f -> pin_count f <> 0).
Proof.
  induction l as [|x l IH]; intros Hl.
  - right. split; [done|]. by intros id f ?%not_elem_of_nil.
  - destruct (Hl x) as (_ & f & Hf); [by left|]. cbn [find_victim]. rewrite Hf.
    destruct (Z.eqb_spec (pin_count f) 0) as [E|E].
    + left. exists x, f. split_and!; [done|by left|done|done].
    + destruct IH as [(id & g & H1 & H2 & H3)|[H1 H2]].
      * intros id Hid. apply Hl. by right.
      * left. exists id, g. split_and!; try tauto. by right.
      * right. split; [done|]. intros id g [->|Hin]%elem_of_cons Hg; [congruence|by eapply H2].
Qed.

Lemma frame_range D b id f : bp_inv D b -> frame_at id b = Some f -> 0 <= id < POOL_SIZE.
Proof.
  intros Hi [Hid Hf]%frame_at_Some. apply lookup_lt_Some in Hf.
  rewrite (inv_frames D b Hi) in Hf. lia.
Qed.

Lemma frame_exists D b id : bp_inv D b -> 0 <= id < POOL_SIZE -> exists f, frame_at id b = Some f.
Proof.
  intros Hi Hid. destruct (lookup_lt_is_Some_2 (frames_ b) (Z.to_nat id)) as [f Hf].
  - rewrite (inv_frames D b Hi). lia.
  - exists f. apply frame_at_Some. split; [lia|done].
Qed.

Lemma lru_cached D b id :
  bp_inv D b -> id ∈ lru_list_ b -> exists pid f, page_table_ b !! pid = Some id /\ cached D b pid id f.
Proof.
  intros Hi Hl. destruct (inv_lru D b Hi id Hl) as [pid Hp].
  destruct (inv_cached D b Hi pid id Hp) as (_ & _ & f & C). by exists pid, f.
Qed.

(** Eviction of an unpinned page loses nothing. *)
Lemma evict_frame_ok D b pid id :
  bp_inv D b -> page_table_ b !! pid = Some id -> bp_pin b pid = 0 ->
  exists b', evict_frame id b = (Ok tt, b') /\ limbo D b' id /\ same_view b b' /\
    S (cap b') = cap b /\ ptr_stable b b'.
Proof.
  intros Hi Hp Hpin. destruct (cached_lookup D b pid id Hi Hp) as (f & C & Hpg & Hpc & Hr & Hl & Hz & _).
  assert (HD : pid ∉ D) by (intros Hin; pose proof (inv_pinned D b Hi pid Hin); lia).
  pose proof C as [Hf Hu Hid Hcl].
  destruct (evict_frame_raw b pid id f (inv_fl D b Hi) Hf Hu) as (fl' & E & Hs & Hn & Hfp & P0 & Hd);
    [congruence|done|done|done|].
  assert (Hdisk : forall j, 0 < j < bp_num b -> j <> pid -> disk_page (dm fl') j = bp_disk b j).
  { intros j Hj Hne. rewrite Hd by done. rewrite decide_False; [done|]. by intros [? _]. }
  exists (dropped b pid id fl'). split; [exact E|].
  pose proof (dropped_inv D b pid id fl' Hi Hp HD Hs Hn Hdisk) as Hi'.
  split; [|split; [|split]].
  - split; [done|exact (frame_range D b id f Hi Hf)| |].
    + simpl. rewrite erase_first_elem by apply (inv_lru_nodup D b Hi). by intros [_ ?].
    + simpl. intros Hin. destruct (inv_free D b Hi id Hin) as [_ Hx]. by apply Hx.
  - split.
    + exact Hn.
    + intros j Hj. destruct (decide (j = pid)) as [->|Hne].
      * rewrite dropped_page_eq, Hpg, Hd by done. destruct (is_dirty f) eqn:Hdirty.
        -- by rewrite decide_True.
        -- rewrite decide_False by (by intros [_ ?]). symmetry. by apply Hcl.
      * by eapply dropped_page.
    + intros j. destruct (decide (j = pid)) as [->|Hne].
      * rewrite Hpin. apply dropped_pin_eq.
      * by eapply dropped_pin.
    + exact Hfp.
    + simpl. by rewrite P0.
  - unfold cap. simpl. rewrite <- (erase_first_length id (lru_list_ b) Hl). lia.
  - split.
    + intros j i Hj Hpos. rewrite (dropped_lookup b pid id fl'); [done|]. intros ->. lia.
    + intros j Hj. simpl. rewrite lookup_delete_ne; [done|]. intros ->. congruence.
Qed.

Lemma find_free_frame_ok D b :
  bp_inv D b ->
  (exists id b', find_free_frame b = (Ok id, b') /\ id <> INVALID_FRAME_ID /\ limbo D b' id /\
     same_view b b' /\ S (cap b') = cap b /\ ptr_stable b b') \/
  (find_free_frame b = (Ok INVALID_FRAME_ID, b) /\ free_frames_ b = [] /\
   forall id pid, id ∈ lru_list_ b -> page_table_ b !! pid = Some id -> bp_pin b pid <> 0).
Proof.
  intros Hi. unfold find_free_frame. mstep (eq_refl : getS b = (Ok b, b)).
  destruct (last (free_frames_ b)) as [id|] eqn:Hlast.
  - left. apply removelast_app_last in Hlast.
    set (b' := set_free_frames (removelast (free_frames_ b)) b).
    pose proof (inv_free_nodup D b Hi) as Hnd. rewrite Hlast in Hnd.
    apply NoDup_app in Hnd as (Hnd & Hnotin & _).
    assert (Hin : forall i, i ∈ removelast (free_frames_ b) -> i ∈ free_frames_ b).
    { intros i Hx. rewrite Hlast. apply elem_of_app. by left. }
    assert (Hid : id ∈ free_frames_ b) by (rewrite Hlast; apply elem_of_app; right; by left).
    destruct (inv_free D b Hi id Hid) as [Hr Hl].
    exists id, b'. split; [by rewrite (bind_ok _ _ b b' tt) by done|].
    split; [intros ->; by destruct Hr|]. split; [|split; [by split|split]].
    + split; try done; [|intros Hx; apply (Hnotin id Hx); by left].
      destruct Hi as [H1 H2 H3 H4 H5 H6 H7 H8 H9].
      split; [exact H1|exact H2|exact H3| |exact H5|exact H6| |exact Hnd|exact H9].
      * intros pid i Hp. destruct (H4 pid i Hp) as (Hr' & Hl' & f & []).
        split; [done|]. split; [done|]. exists f. by split.
      * intros i Hx. by apply H7, Hin.
    + unfold cap. simpl. rewrite Hlast at 2. rewrite length_app. simpl. lia.
    + by split.
  - destruct (find_victim_ok b (reverse (lru_list_ b))) as [(id & f & Ev & Hin & Hf & Hpc)|[Ev Hall]].
    { intros id Hin. rewrite elem_of_reverse in Hin. destruct (lru_cached D b id Hi Hin) as (pid & f & _ & C).
      pose proof (frame_range D b id f Hi (c_frame _ _ _ _ _ C)). split; [lia|].
      exists f. apply C. }
    + left. mstep Ev. rewrite elem_of_reverse in Hin.
      destruct (lru_cached D b id Hi Hin) as (pid & f' & Hp & C).
      assert (Hpin : bp_pin b pid = 0) by (unfold bp_pin; by rewrite Hp, Hf).
      destruct (evict_frame_ok D b pid id Hi Hp Hpin) as (b' & E & Hl & Hv & Hc & Hps).
      pose proof (frame_range D b id f Hi Hf) as Hr. exists id, b'.
      rewrite (proj2 (Z.eqb_neq _ _)) by (unfold INVALID_FRAME_ID, INVALID_PAGE_ID; lia).
      split; [by mstep E|]. split; [unfold INVALID_FRAME_ID, INVALID_PAGE_ID; lia|done].
    + right. mstep Ev. split; [done|]. split.
      * destruct (free_frames_ b) as [|x l] eqn:E; [done|]. apply last_None in Hlast. done.
      * intros id pid Hin Hp. destruct (cached_lookup D b pid id Hi Hp) as (f & C & _ & -> & _).
        eapply Hall; [by rewrite elem_of_reverse|apply C].
Qed.

(** ** Changing the frame of a cached page *)

Section put.
Context (D D' : gset Z) (b : BufferPool F) (pid id : Z) (f f' : Frame).
Hypothesis Hi : bp_inv D b.
Hypothesis Hp : page_table_ b !! pid = Some id.
Hypothesis Hf : frame_at id b = Some f.
Hypothesis Huse : in_use f' = true.
Hypothesis Hid : pg_id (page f') = pid.
Hypothesis Hlen : zlen (page f') = PAGE_SIZE.
Hypothesis Hpin : 0 <= pin_count f'.
Hypothesis Hclean : is_dirty f' = false -> pid ∉ D' -> page f' = bp_disk b pid.
Hypothesis HD : forall j, j <> pid -> j ∈ D <-> j ∈ D'.
Hypothesis HDp : pid ∈ D' -> 0 < pin_count f'.

Let b' := put_frame id f' b.

Lemma put_frame_ne j i : j <> pid -> page_table_ b !! j = Some i -> frame_at i b' = frame_at i b.
Proof.
  intros Hj Hji. unfold b'. rewrite (frame_at_put b id f f' i Hf). rewrite decide_False; [done|].
  intros ->. apply Hj. by eapply page_table_inj.
Qed.

Lemma put_page_eq : bp_page b' pid = page f'.
Proof. unfold bp_page. simpl. rewrite Hp. unfold b'. by rewrite (frame_at_put_eq b id f). Qed.
Lemma put_pin_eq : bp_pin b' pid = pin_count f'.
Proof. unfold bp_pin. simpl. rewrite Hp. unfold b'. by rewrite (frame_at_put_eq b id f). Qed.

Lemma put_page_ne j : j <> pid -> bp_page b' j = bp_page b j.
Proof.
  intros Hj. unfold bp_page. simpl. destruct (page_table_ b !! j) as [i|] eqn:E; [|done].
  by rewrite (put_frame_ne j i Hj E).
Qed.
Lemma put_pin_ne j : j <> pid -> bp_pin b' j = bp_pin b j.
Proof.
  intros Hj. unfold bp_pin. simpl. destruct (page_table_ b !! j) as [i|] eqn:E; [|done].
  by rewrite (put_frame_ne j i Hj E).
Qed.

Lemma put_inv : bp_inv D' b'.
Proof.
  destruct Hi as [H1 H2 H3 H4 H5 H6 H7 H8 H9].
  split; [exact H1| | | |exact H5|exact H6|exact H7|exact H8|].
  - unfold b'. simpl. by rewrite length_insert.
  - intros i g. unfold b'. rewrite (frame_at_put b id f f' i Hf). case_decide; [|apply H3].
    by intros [= <-].
  - intros j i Hj. change (page_table_ b !! j = Some i) in Hj.
    destruct (H4 j i Hj) as (Hr & Hl & g & [G1 G2 G3 G4]).
    split; [done|]. split; [done|]. destruct (decide (j = pid)) as [->|Hne].
    + assert (i = id) as -> by congruence. exists f'. split; try done.
      unfold b'. by apply (frame_at_put_eq b id f).
    + exists g. split; [by rewrite (put_frame_ne j i Hne Hj)|done|done|].
      intros Hd HDj. apply G4; [done|]. by rewrite HD.
  - intros j Hj. destruct (decide (j = pid)) as [->|Hne].
    + rewrite put_pin_eq. by apply HDp.
    + rewrite put_pin_ne by done. apply H9. by apply HD.
Qed.
End put.

Lemma touch_inv D b id :
  bp_inv D b -> id ∈ lru_list_ b -> bp_inv D (set_lru (id :: erase_first id (lru_list_ b)) b).
Proof.
  intros [H1 H2 H3 H4 H5 H6 H7 H8 H9] Hl.
  assert (Hin : forall i, i ∈ id :: erase_first id (lru_list_ b) <-> i ∈ lru_list_ b).
  { intros i. rewrite elem_of_cons, erase_first_elem by done.
    destruct (decide (i = id)) as [->|]; tauto. }
  split; [exact H1|exact H2|exact H3| | | | |exact H8|exact H9].
  - intros pid i Hp. destruct (H4 pid i Hp) as (Hr & Hl' & f & []). split; [done|].
    split; [by apply Hin|]. exists f. by split.
  - intros i Hx. apply Hin in Hx. by apply H5.
  - simpl. apply NoDup_cons. split; [|by apply erase_first_NoDup].
    rewrite erase_first_elem by done. by intros [_ ?].
  - intros i Hx. destruct (H7 i Hx) as [Hr Hn]. split; [done|]. simpl. by rewrite Hin.
Qed.

Lemma touch_cap b id :
  id ∈ lru_list_ b -> cap (set_lru (id :: erase_first id (lru_list_ b)) b) = cap b.
Proof.
  intros Hl. unfold cap. simpl. rewrite <- (erase_first_length id (lru_list_ b) Hl). lia.
Qed.

(** ** Bringing a page into a frame in limbo *)

Definition installed b pid id f : BufferPool F :=
  mkBP (pool_fl b) (<[Z.to_nat id := f]> (frames_ b)) (<[pid := id]> (page_table_ b))
    (free_frames_ b) (id :: lru_list_ b).

Section install.
Context (D : gset Z) (b : BufferPool F) (pid id : Z) (f : Frame).
Hypothesis Hl : limbo D b id.
Hypothesis Hnone : page_table_ b !! pid = None.
Hypothesis Hpid : 0 < pid < bp_num b.
Hypothesis Huse : in_use f = true.
Hypothesis Hid : pg_id (page f) = pid.
Hypothesis Hlen : zlen (page f) = PAGE_SIZE.
Hypothesis Hpin : 0 <= pin_count f.
Hypothesis Hclean : is_dirty f = false -> page f = bp_disk b pid.

Let b' := installed b pid id f.

Lemma installed_frame i : frame_at i b' = if decide (i = id) then Some f else frame_at i b.
Proof.
  destruct (frame_exists D b id (lb_inv _ _ _ Hl) (lb_range _ _ _ Hl)) as [f0 Hf0].
  exact (frame_at_put b id f0 f i Hf0).
Qed.

Lemma installed_ne j i : page_table_ b !! j = Some i -> frame_at i b' = frame_at i b.
Proof.
  intros Hj. rewrite installed_frame. rewrite decide_False; [done|]. intros ->.
  destruct (inv_cached D b (lb_inv _ _ _ Hl) j id Hj) as (_ & Hin & _).
  by apply (lb_lru _ _ _ Hl).
Qed.

Lemma installed_page_eq : bp_page b' pid = page f.
Proof.
  unfold bp_page, b' at 1. simpl. rewrite lookup_insert_eq, installed_frame.
  by rewrite decide_True.
Qed.
Lemma installed_pin_eq : bp_pin b' pid = pin_count f.
Proof.
  unfold bp_pin, b' at 1. simpl. rewrite lookup_insert_eq, installed_frame.
  by rewrite decide_True.
Qed.
Lemma installed_page_ne j : j <> pid -> bp_page b' j = bp_page b j.
Proof.
  intros Hj. unfold bp_page, b' at 1. simpl. rewrite lookup_insert_ne by done.
  destruct (page_table_ b !! j) as [i|] eqn:E; [|done]. by rewrite (installed_ne j i E).
Qed.
Lemma installed_pin_ne j : j <> pid -> bp_pin b' j = bp_pin b j.
Proof.
  intros Hj. unfold bp_pin, b' at 1. simpl. rewrite lookup_insert_ne by done.
  destruct (page_table_ b !! j) as [i|] eqn:E; [|done]. by rewrite (installed_ne j i E).
Qed.

Lemma installed_inv : bp_inv D b'.
Proof.
  destruct Hl as [[H1 H2 H3 H4 H5 H6 H7 H8 H9] L1 L2 L3].
  split; [exact H1| | | | | | |exact H8|].
  - unfold b'. simpl. by rewrite length_insert.
  - intros i g. rewrite installed_frame. case_decide; [by intros [= <-]|apply H3].
  - intros j i. unfold b'. simpl. destruct (decide (j = pid)) as [->|Hne].
    + rewrite lookup_insert_eq. intros [= <-]. split; [done|]. split; [by left|].
      exists f. split; try done; [|by auto]. rewrite installed_frame. by rewrite decide_True.
    + rewrite lookup_insert_ne by done. intros Hj.
      destruct (H4 j i Hj) as (Hr & Hin & g & [G1 G2 G3 G4]). split; [done|].
      split; [by right|]. exists g. split; try done. rewrite <- G1. by apply (installed_ne j i Hj).
  - intros i. unfold b'. simpl. intros [->|Hin]%elem_of_cons.
    + exists pid. apply lookup_insert_eq.
    + destruct (H5 i Hin) as [j Hj]. exists j. rewrite lookup_insert_ne; [done|].
      intros <-. congruence.
  - unfold b'. simpl. by apply NoDup_cons.
  - intros i Hin. destruct (H7 i Hin) as [Hr Hn]. split; [done|]. unfold b'. simpl.
    intros [->|?]%elem_of_cons; done.
  - intros j Hj. rewrite installed_pin_ne; [by apply H9|]. intros ->.
    specialize (H9 pid Hj). unfold bp_pin in H9. rewrite Hnone in H9. lia.
Qed.
End install.
End spec.
