(* ===== verification/PoolOps.v ===== *)
(** * The buffer pool against an abstract store of pages

    [APool] is what a client of the pool relies on: the content of the pages,
    their number, the free ids, the root slot and the number of usable frames.
    [pool_rep D L b a] relates the pool to it: [L] lists the pinned pages with
    the pointer the client holds, [D] the ones changed and not yet marked
    dirty.  Each operation is then a step of the abstract store; eviction,
    write-back and the LRU order disappear. *)

From stdpp Require Import functions.
From S2P Require Import Prelude.
From S2P Require Import Buffers.
From S2P Require Import Page.
From S2P Require Import DiskManager.
From S2P Require Import FreeList.
From S2P Require Import BufferPool.
From S2P Require Import PoolSpec.

#[local] Opaque rd wr zero_page le_enc disk_page.

Record APool : Type := mkAPool {
  a_page : Z -> Page;
  a_num : Z;
  a_free : list Z;
  a_root : Z;
  a_cap : nat;
}.

Definition a_set_page (pid : Z) (p : Page) (a : APool) : APool :=
  mkAPool (<[pid := p]> (a_page a)) (a_num a) (a_free a) (a_root a) (a_cap a).

(** The id [new_page] takes and the store without it. *)
Definition a_new_id (a : APool) : Z :=
  match last (a_free a) with Some id => id | None => a_num a end.
Definition a_new (p : Page) (a : APool) : APool :=
  match last (a_free a) with
  | Some id => mkAPool (<[id := p]> (a_page a)) (a_num a) (removelast (a_free a)) (a_root a) (a_cap a)
  | None => mkAPool (<[a_num a := p]> (a_page a)) (a_num a + 1) (a_free a) (a_root a) (a_cap a)
  end.

Definition a_set_root (id : Z) (a : APool) : APool :=
  mkAPool (a_page a) (a_num a) (a_free a) id (a_cap a).

Section rep.
Context {F : Type} `{ReliableFile F}.
Implicit Types (b : BufferPool F) (a : APool) (D : gset Z) (L : list (Z * Z)).

Definition pins L (j : Z) : Z := Z.of_nat (count_occ Z.eq_dec (L.*1) j).

Record pool_rep D L b a : Prop := {
  pr_inv : bp_inv D b;
  pr_page : forall j, 0 < j < a_num a -> bp_page b j = a_page a j;
  pr_pin : forall j, bp_pin b j = pins L j;
  pr_ptr : forall j i, (j, i) ∈ L -> page_table_ b !! j = Some i;
  pr_num : bp_num b = a_num a;
  pr_list : free_pages_ (pool_fl b) = a_free a;
  pr_free : forall id, id ∈ a_free a -> 0 < id < a_num a /\ page_table_ b !! id = None;
  pr_nodup : NoDup (a_free a);
  pr_root : p0_root (page0 (pool_fl b)) = a_root a;
  pr_cap : cap b = a_cap a;
}.

Lemma pins_cons L j i k : pins ((j, i) :: L) k = (if decide (k = j) then 1 else 0) + pins L k.
Proof.
  unfold pins. cbn [fmap list_fmap fst count_occ]. destruct (Z.eq_dec j k); case_decide; lia.
Qed.

Lemma pins_pos L j i : (j, i) ∈ L -> 0 < pins L j.
Proof.
  intros Hin. unfold pins. assert (j ∈ L.*1) as Hj.
  { apply list_elem_of_fmap. by exists (j, i). }
  apply list_elem_of_In, (count_occ_In Z.eq_dec) in Hj. lia.
Qed.

Lemma pins_nonneg L j : 0 <= pins L j.
Proof. unfold pins. lia. Qed.

Lemma pins_zero L j : j ∉ L.*1 -> pins L j = 0.
Proof.
  intros Hj. unfold pins. assert (~ In j L.*1) as Hn by by rewrite <- list_elem_of_In.
  apply (count_occ_not_In Z.eq_dec) in Hn. lia.
Qed.

Lemma pins_perm L L' j : L ≡ₚ L' -> pins L j = pins L' j.
Proof.
  intros Hp. unfold pins. f_equal. apply (Permutation_count_occ Z.eq_dec).
  by rewrite Hp.
Qed.

(** The order of the pins does not matter. *)
Lemma pool_rep_perm D L L' b a : L ≡ₚ L' -> pool_rep D L b a -> pool_rep D L' b a.
Proof.
  intros Hp []. split; try done.
  - intros j. by rewrite <- (pins_perm L L' j Hp).
  - intros j i Hin. apply pr_ptr0. by rewrite Hp.
Qed.

Lemma rep_pinned D L b a j i :
  pool_rep D L b a -> (j, i) ∈ L ->
  exists f, cached D b j i f /\ page f = a_page a j /\ 0 < j < a_num a /\
    pin_count f = pins L j /\ zlen (page f) = PAGE_SIZE /\ i ∈ lru_list_ b.
Proof.
  intros Hr Hin. pose proof (pr_ptr _ _ _ _ Hr j i Hin) as Hp.
  destruct (cached_lookup D b j i (pr_inv _ _ _ _ Hr) Hp) as (f & C & Hpg & Hpc & Hrange & Hl & Hz & _).
  rewrite (pr_num _ _ _ _ Hr) in Hrange. exists f. split; [done|].
  rewrite <- Hpg, <- Hpc. split; [by apply (pr_page _ _ _ _ Hr)|].
  split; [done|]. split; [apply (pr_pin _ _ _ _ Hr)|]. split; [by rewrite Hpg|done].
Qed.

(** ** Access through a pointer *)

Lemma on_page_read {A} D L b a j i (q : Page -> result A) :
  pool_rep D L b a -> (j, i) ∈ L -> on_page i (query q) b = (q (a_page a j), b).
Proof.
  intros Hr Hin. destruct (rep_pinned D L b a j i Hr Hin) as (f & C & <- & _).
  exact (on_page_query b i f q _ (c_frame _ _ _ _ _ C) eq_refl).
Qed.

Lemma on_page_write {A} D L b a j i (m : M Page A) r p' :
  pool_rep D L b a -> (j, i) ∈ L -> m (a_page a j) = (r, p') ->
  pg_id p' = j -> zlen p' = PAGE_SIZE ->
  exists b', on_page i m b = (r, b') /\ pool_rep (D ∪ {[j]}) L b' (a_set_page j p' a).
Proof.
  intros Hr Hin E Hid Hlen. destruct (rep_pinned D L b a j i Hr Hin) as (f & C & Hpg & Hj & Hpc & _).
  pose proof (pr_ptr _ _ _ _ Hr j i Hin) as Hp. pose proof C as [Hf Hu _ _].
  rewrite <- Hpg in E. pose proof (pins_pos L j i Hin) as Hpos.
  pose proof (pr_inv _ _ _ _ Hr) as Hi.
  exists (put_frame i (set_page p' f) b). split; [by apply on_page_ok|].
  assert (Hi' : bp_inv (D ∪ {[j]}) (put_frame i (set_page p' f) b)).
  { apply (put_inv D (D ∪ {[j]}) b j i f); try done; simpl; try lia.
    - intros _ Hn. exfalso. apply Hn, elem_of_union. right. by apply elem_of_singleton.
    - intros k Hk. rewrite elem_of_union, elem_of_singleton. tauto. }
  destruct Hr. split; try done.
  - intros k Hk. simpl. destruct (decide (k = j)) as [->|Hne].
    + rewrite fn_lookup_insert. by apply (put_page_eq b j i f).
    + rewrite fn_lookup_insert_ne by done. rewrite (put_page_ne D b j i f); [by apply pr_page0|done..].
  - intros k. rewrite <- pr_pin0. destruct (decide (k = j)) as [->|Hne].
    + rewrite (put_pin_eq b j i f) by done. unfold bp_pin. by rewrite Hp, Hf.
    + by apply (put_pin_ne D b j i f).
Qed.

(** ** Unpinning *)

Lemma unpin_ok D L L' b a j i (dirty : bool) :
  pool_rep D L b a -> L ≡ₚ (j, i) :: L' -> (dirty = false -> j ∉ D) ->
  exists b', unpin_page j dirty b = (Ok tt, b') /\
    pool_rep (if dirty then D ∖ {[j]} else D) L' b' a /\ page_table_ b' = page_table_ b.
Proof.
  intros Hr HL Hd. assert (Hin : (j, i) ∈ L) by (rewrite HL; by left).
  destruct (rep_pinned D L b a j i Hr Hin) as (f & C & Hpg & Hj & Hpc & Hz & Hlru).
  pose proof (pr_ptr _ _ _ _ Hr j i Hin) as Hp. pose proof C as [Hf Hu Hid Hcl].
  pose proof (pins_pos L j i Hin) as Hpos. pose proof (pr_inv _ _ _ _ Hr) as Hi.
  set (f' := mkFrame (page f) (pin_count f - 1) (dirty || is_dirty f) (in_use f)).
  set (D' := if dirty then D ∖ {[j]} else D). exists (put_frame i f' b). split; [|split; [|done]].
  - unfold unpin_page. mstep (eq_refl : getS b = (Ok b, b)). rewrite Hp.
    set (f1 := set_pin_count (pin_count f - 1) f).
    assert (E1 : at_frame i (modifyS (fun g => if 0 <? pin_count g
        then set_pin_count (pin_count g - 1) g else g)) b = (Ok tt, put_frame i f1 b)).
    { apply (at_frame_ok b i f); [done|]. unfold modifyS. by rewrite (proj2 (Z.ltb_lt _ _)) by lia. }
    mstep E1. destruct dirty.
    + rewrite (at_frame_ok _ i f1 (set_dirty true f1) _ (Ok tt)); [|by apply (frame_at_put_eq b i f)|done].
      by rewrite put_put.
    + done.
  - assert (HDj : j ∈ D' -> j ∈ D /\ dirty = false).
    { unfold D'. destruct dirty; [|done]. intros [? Hn]%elem_of_difference.
      exfalso. by apply Hn, elem_of_singleton. }
    assert (Hi' : bp_inv D' (put_frame i f' b)).
    { apply (put_inv D D' b j i f); try done; simpl; try lia.
      - intros [-> Hcl']%orb_false_iff _. apply Hcl; [done|by apply Hd].
      - intros k Hk. unfold D'. destruct dirty; [|done].
        rewrite elem_of_difference, elem_of_singleton. tauto.
      - intros [HjD Hf0]%HDj. exfalso. by apply Hd. }
    assert (Hpins : forall k, pins L k = (if decide (k = j) then 1 else 0) + pins L' k).
    { intros k. by rewrite (pins_perm _ _ k HL), (pins_cons L' j i). }
    destruct Hr. split; try done.
    + intros k Hk. destruct (decide (k = j)) as [->|Hne].
      * rewrite (put_page_eq b j i f) by done. exact Hpg.
      * rewrite (put_page_ne D b j i f); [by apply pr_page0|done..].
    + intros k. specialize (Hpins k). rewrite <- pr_pin0 in Hpins.
      destruct (decide (k = j)) as [->|Hne].
      * rewrite (put_pin_eq b j i f) by done. simpl. rewrite Hpc, <- pr_pin0. lia.
      * rewrite (put_pin_ne D b j i f) by done. lia.
    + intros k l Hkl. apply pr_ptr0. rewrite HL. by right.
Qed.

(** ** Fetching *)

Lemma lru_pinned_length D L b a :
  pool_rep D L b a -> free_frames_ b = [] ->
  (forall id pid, id ∈ lru_list_ b -> page_table_ b !! pid = Some id -> bp_pin b pid <> 0) ->
  (cap b <= length L)%nat.
Proof.
  intros Hr Hfree Hall. pose proof (pr_inv _ _ _ _ Hr) as Hi. unfold cap. rewrite Hfree. simpl.
  rewrite <- (length_fmap snd L). apply submseteq_length, NoDup_submseteq.
  - apply (inv_lru_nodup D b Hi).
  - intros id Hin. destruct (inv_lru D b Hi id Hin) as [pid Hp].
    specialize (Hall id pid Hin Hp). rewrite (pr_pin _ _ _ _ Hr) in Hall.
    assert (pid ∈ L.*1) as ([? i] & -> & Hpi)%list_elem_of_fmap.
    { destruct (decide (pid ∈ L.*1)) as [|Hn]; [done|]. by rewrite pins_zero in Hall. }
    apply list_elem_of_fmap. exists (z, i). split; [|done]. simpl in *.
    pose proof (pr_ptr _ _ _ _ Hr _ _ Hpi). congruence.
Qed.

(** After a frame was found: same store, one frame in limbo. *)
Lemma limbo_rep D L b b' a id :
  pool_rep D L b a -> limbo D b' id -> same_view b b' -> ptr_stable b b' -> S (cap b') = cap b ->
  pool_rep D L b' (mkAPool (a_page a) (a_num a) (a_free a) (a_root a) (pred (a_cap a))).
Proof.
  intros Hr Hl [V1 V2 V3 V4 V5] [S1 S2] Hc. destruct Hr. split; simpl; try congruence.
  - apply Hl.
  - intros j Hj. rewrite V2 by (by rewrite pr_num0). by apply pr_page0.
  - intros j i Hin. apply S1; [by apply pr_ptr0|]. rewrite pr_pin0. by eapply pins_pos.
  - intros j Hj. destruct (pr_free0 j Hj) as [Hr Hn]. split; [done|by apply S2].
  - rewrite <- pr_cap0, <- Hc. done.
Qed.

Lemma installed_rep D L b a pid id f :
  limbo D b id -> pool_rep D L b (mkAPool (a_page a) (a_num a) (a_free a) (a_root a) (pred (a_cap a))) ->
  page_table_ b !! pid = None -> 0 < pid < a_num a -> pid ∉ a_free a -> (0 < a_cap a)%nat ->
  in_use f = true -> pg_id (page f) = pid -> zlen (page f) = PAGE_SIZE -> pin_count f = 1 ->
  (is_dirty f = false -> page f = bp_disk b pid) ->
  pool_rep D ((pid, id) :: L) (installed b pid id f) (a_set_page pid (page f) a).
Proof.
  intros Hl Hr Hnone Hpid Hfree Hcap Hu Hid Hz Hpc Hcl.
  assert (Hpid' : 0 < pid < bp_num b) by (by rewrite (pr_num _ _ _ _ Hr)).
  assert (Hpos : 0 <= pin_count f) by lia.
  pose proof (installed_inv D b pid id f Hl Hnone Hpid' Hu Hid Hz Hpos Hcl) as Hi'.
  destruct Hr. simpl in *. split; simpl; try done.
  - intros j Hj. destruct (decide (j = pid)) as [->|Hne].
    + rewrite fn_lookup_insert. by eapply installed_page_eq.
    + rewrite fn_lookup_insert_ne by done. rewrite (installed_page_ne D) by done.
      by apply pr_page0.
  - intros j. rewrite pins_cons. destruct (decide (j = pid)) as [->|Hne].
    + rewrite (installed_pin_eq D) by done. rewrite Hpc. specialize (pr_pin0 pid).
      unfold bp_pin in pr_pin0. rewrite Hnone in pr_pin0. lia.
    + rewrite (installed_pin_ne D) by done. rewrite pr_pin0. lia.
  - intros j i [[= -> ->]|Hin]%elem_of_cons; [apply lookup_insert_eq|].
    pose proof (pr_ptr0 j i Hin). rewrite lookup_insert_ne; [done|]. congruence.
  - intros j Hj. destruct (pr_free0 j Hj) as [Hr Hn]. split; [done|].
    rewrite lookup_insert_ne; [done|]. congruence.
  - unfold cap in *. simpl. lia.
Qed.

(** The same store, seen through a page function that agrees on the pages. *)
Lemma pool_rep_ext D L b a a' :
  pool_rep D L b a -> (forall j, 0 < j < a_num a -> a_page a' j = a_page a j) ->
  a_num a' = a_num a -> a_free a' = a_free a -> a_root a' = a_root a -> a_cap a' = a_cap a ->
  pool_rep D L b a'.
Proof.
  intros [] Hpg E1 E2 E3 E4. split; rewrite ?E1, ?E2, ?E3, ?E4; try done.
  intros j Hj. rewrite Hpg by done. by apply pr_page0.
Qed.

(** A page that is already in the pool. *)
Lemma fetch_hit D L b a pid i :
  pool_rep D L b a -> page_table_ b !! pid = Some i ->
  exists b', fetch_page pid b = (Ok (Some i), b') /\ pool_rep D ((pid, i) :: L) b' a.
Proof.
  intros Hr Hp. pose proof (pr_inv _ _ _ _ Hr) as Hi.
  destruct (cached_lookup D b pid i Hi Hp) as (f & C & Hpg & Hpc & Hrange & Hlru & Hz & Hpos).
  pose proof C as [Hf Hu Hid Hcl]. set (f' := set_pin_count (pin_count f + 1) f).
  set (b1 := put_frame i f' b).
  set (b' := set_lru (i :: erase_first i (lru_list_ b1)) b1). exists b'. split.
  - unfold fetch_page. mstep (eq_refl : getS b = (Ok b, b)). rewrite Hp.
    rewrite (bind_ok _ _ b b1 tt); [done|]. by apply (at_frame_ok b i f).
  - assert (Hi1 : bp_inv D b1).
    { apply (put_inv D D b pid i f); try done; simpl; lia || done. }
    assert (Hi' : bp_inv D b') by (by apply touch_inv).
    pose proof (touch_cap b1 i Hlru : cap b' = cap b) as Hcap.
    destruct Hr. split; try done; [| | |congruence].
    + intros j Hj. change (bp_page b' j) with (bp_page b1 j).
      destruct (decide (j = pid)) as [->|Hne].
      * unfold b1. rewrite (put_page_eq b pid i f) by done. simpl. rewrite <- Hpg. by apply pr_page0.
      * unfold b1. rewrite (put_page_ne D b pid i f) by done. by apply pr_page0.
    + intros j. change (bp_pin b' j) with (bp_pin b1 j). rewrite pins_cons, <- pr_pin0.
      destruct (decide (j = pid)) as [->|Hne].
      * unfold b1. rewrite (put_pin_eq b pid i f) by done. simpl. lia.
      * unfold b1. rewrite (put_pin_ne D b pid i f) by done. lia.
    + intros j k [[= -> ->]|Hin]%elem_of_cons; [done|by apply pr_ptr0].
Qed.

(** A page of the store is fetched as long as fewer frames are pinned than
    are usable. *)
Lemma fetch_ok D L b a pid :
  pool_rep D L b a -> (length L < a_cap a)%nat -> 0 < pid < a_num a -> pid ∉ a_free a ->
  pg_id (a_page a pid) = pid ->
  exists i b', fetch_page pid b = (Ok (Some i), b') /\ pool_rep D ((pid, i) :: L) b' a.
Proof.
  intros Hr Hcap Hpid Hfree Hid. pose proof (pr_inv _ _ _ _ Hr) as Hi.
  destruct (page_table_ b !! pid) as [i|] eqn:Hp.
  { destruct (fetch_hit D L b a pid i Hr Hp) as (b' & E & Hr'). by exists i, b'. }
  destruct (find_free_frame_ok D b Hi) as [(id & b1 & E1 & Hne & Hl & Hv & Hc & Hps)|(_ & Hff & Hall)].
  2: { pose proof (lru_pinned_length D L b a Hr Hff Hall). rewrite (pr_cap _ _ _ _ Hr) in *. lia. }
  pose proof (limbo_rep D L b b1 a id Hr Hl Hv Hps Hc) as Hr1.
  destruct (frame_exists D b1 id (lb_inv _ _ _ Hl) (lb_range _ _ _ Hl)) as [f Hf].
  destruct (inv_pages D b1 (lb_inv _ _ _ Hl) id f Hf) as [Hz Hpos].
  pose proof (ps_none _ _ Hps pid Hp) as Hp1.
  assert (Hpg : bp_disk b1 pid = a_page a pid).
  { pose proof (pr_page _ _ _ _ Hr1 pid Hpid) as Hb. unfold bp_page in Hb. by rewrite Hp1 in Hb. }
  destruct (inv_fl D b1 (lb_inv _ _ _ Hl)) as [[Hd _ _ _] _].
  assert (Hrange : 0 <= pid < num_pages (dm (pool_fl b1))).
  { pose proof (pr_num _ _ _ _ Hr1) as Hn. unfold bp_num in Hn. simpl in Hn. lia. }
  set (f' := mkFrame (a_page a pid) 1 false true).
  exists id, (installed b1 pid id f'). split.
  - unfold fetch_page. mstep (eq_refl : getS b = (Ok b, b)). rewrite Hp. mstep E1.
    rewrite (proj2 (Z.eqb_neq _ _)) by done.
    assert (Er : read_into id pid b1 = (Ok tt, put_frame id (set_page (a_page a pid) f) b1)).
    { unfold read_into. rewrite Hf, (read_page_ok (dm (pool_fl b1)) (page f) pid Hd Hrange Hz).
      fold (bp_disk b1 pid). rewrite Hpg. f_equal. unfold put_frame, set_fl, set_dm.
      destruct b1 as [[? ?] ? ? ? ?]. done. }
    mstep Er. set (f1 := set_page (a_page a pid) f).
    rewrite (bind_ok _ _ _ _ _ (at_frame_ok _ id f1 _ (modifyS (set_in_use true)) (Ok tt)
      (frame_at_put_eq b1 id f _ Hf) eq_refl)), put_put.
    rewrite (bind_ok _ _ _ _ _ (at_frame_ok _ id _ _ (modifyS (set_pin_count 1)) (Ok tt)
      (frame_at_put_eq b1 id f _ Hf) eq_refl)), put_put.
    rewrite (bind_ok _ _ _ _ _ (at_frame_ok _ id _ _ (modifyS (set_dirty false)) (Ok tt)
      (frame_at_put_eq b1 id f _ Hf) eq_refl)), put_put.
    unfold touch, modifyS, bind, ret, installed, put_frame, set_frames, set_lru, set_page_table. cbn.
    rewrite erase_first_absent by apply (lb_lru _ _ _ Hl). done.
  - assert (Hlen : zlen (a_page a pid) = PAGE_SIZE).
    { rewrite <- Hpg. by apply disk_page_length. }
    eapply pool_rep_ext;
      [eapply (installed_rep D L b1 a pid id f'); try done; try lia|..]; try done.
    intros j Hj. simpl. destruct (decide (j = pid)) as [->|Hjp].
    + by rewrite fn_lookup_insert.
    + by rewrite fn_lookup_insert_ne.
Qed.

(** ** Steps of the free list and of the disk *)

Definition dirty_cached b (j : Z) : Prop :=
  exists i f, page_table_ b !! j = Some i /\ frame_at i b = Some f /\ is_dirty f = true.

Lemma rep_set_fl D L b a (fl' : FreeList F) (page' : Z -> Page) :
  pool_rep D L b a -> fl_synced fl' -> a_num a <= num_pages (dm fl') ->
  (forall j, 0 < j < a_num a ->
     (disk_page (dm fl') j = bp_disk b j \/ dirty_cached b j) /\ page' j = a_page a j) ->
  (forall j, a_num a <= j < num_pages (dm fl') -> page' j = disk_page (dm fl') j) ->
  NoDup (free_pages_ fl') ->
  (forall id, id ∈ free_pages_ fl' -> 0 < id < num_pages (dm fl') /\ page_table_ b !! id = None) ->
  pool_rep D L (set_fl fl' b)
    (mkAPool page' (num_pages (dm fl')) (free_pages_ fl') (p0_root (page0 fl')) (a_cap a)).
Proof.
  intros [] Hs Hn Hdisk Hnew Hnd Hfree.
  assert (Hpt : forall j i, page_table_ b !! j = Some i -> 0 < j < a_num a).
  { intros j i Hj. destruct (inv_cached D b pr_inv0 j i Hj) as [Hr _]. by rewrite <- pr_num0. }
  split; simpl; try done.
  - destruct pr_inv0 as [H1 H2 H3 H4 H5 H6 H7 H8 H9].
    split; [done|exact H2|exact H3| |exact H5|exact H6|exact H7|exact H8|exact H9].
    intros j i Hj. change (page_table_ b !! j = Some i) in Hj.
    destruct (H4 j i Hj) as (Hr & Hl & f & [G1 G2 G3 G4]).
    specialize (Hpt j i Hj). split; [unfold bp_num; simpl; lia|]. split; [done|].
    exists f. split; try done. intros Hd HDj. rewrite G4 by done.
    destruct (Hdisk j Hpt) as [[E|(i' & g & E1 & E2 & E3)] _]; [by symmetry|congruence].
  - intros j Hj. unfold bp_page. simpl. destruct (page_table_ b !! j) as [i|] eqn:E.
    + specialize (Hpt j i E). destruct (Hdisk j Hpt) as [_ ->].
      rewrite <- pr_page0 by done. unfold bp_page. by rewrite E.
    + destruct (decide (j < a_num a)) as [Hlt|Hge]; [|symmetry; apply Hnew; lia].
      destruct (Hdisk j) as [[Hd|(i & g & E1 & _)] ->]; [lia| |congruence].
      rewrite <- pr_page0 by lia. unfold bp_page. by rewrite E.
Qed.

Lemma on_fl_eq {B} b fl' (m : M (FreeList F) B) r :
  m (pool_fl b) = (r, fl') -> on_fl m b = (r, set_fl fl' b).
Proof. intros E. unfold on_fl, zoom. by rewrite E. Qed.

(** The first half of [new_page]: an id. *)
Lemma new_id_ok D L b a :
  pool_rep D L b a -> a_num a + 1 < 2 ^ 31 ->
  exists b1, (let* id0 := on_fl allocate in
              if id0 =? INVALID_PAGE_ID then on_fl (on_dm allocate_page) else ret id0) b
             = (Ok (a_new_id a), b1) /\
    page_table_ b1 = page_table_ b /\ 0 < a_new_id a /\
    exists p, pool_rep D L b1 (a_new p a).
Proof.
  intros Hr Hlt. pose proof (pr_inv _ _ _ _ Hr) as Hi. pose proof (inv_fl D b Hi) as Hs.
  pose proof Hs as ([Hd Hpos Hmax Hids] & _ & _). unfold a_new_id, a_new.
  pose proof (pr_list _ _ _ _ Hr) as Hlist. pose proof (pr_num _ _ _ _ Hr) as Hnum.
  unfold bp_num in Hnum. rewrite <- Hlist.
  destruct (last (free_pages_ (pool_fl b))) as [id|] eqn:Hlast.
  - destruct (allocate_some (pool_fl b) id (proj1 Hs) Hlast) as (fl' & E & Happ & Hs' & N & R & S).
    assert (Hin : id ∈ a_free a) by (rewrite <- Hlist, Happ; apply elem_of_app; right; by left).
    destruct (pr_free _ _ _ _ Hr id Hin) as [Hrange Hnone].
    exists (set_fl fl' b). rewrite (bind_ok _ _ _ _ _ (on_fl_eq b fl' allocate _ E)).
    rewrite (proj2 (Z.eqb_neq _ _)) by (unfold INVALID_PAGE_ID; lia).
    split; [done|]. split; [done|]. split; [lia|]. exists (a_page a id).
    eapply pool_rep_ext.
    + apply (rep_set_fl D L b a fl' (a_page a)); [exact Hr|exact Hs'|lia| |intros; lia| |].
      * intros j Hj. split; [|done]. left. apply S. lia.
      * pose proof (pr_nodup _ _ _ _ Hr) as Hnd. rewrite <- Hlist, Happ in Hnd.
        by apply NoDup_app in Hnd as [? _].
      * intros j Hj. rewrite N, Hnum. apply (pr_free _ _ _ _ Hr). rewrite <- Hlist, Happ.
        apply elem_of_app. by left.
    + intros j Hj. simpl. destruct (decide (j = id)) as [->|Hne].
      * by rewrite fn_lookup_insert.
      * by rewrite fn_lookup_insert_ne.
    + simpl. congruence.
    + simpl. rewrite Happ. apply removelast_last.
    + simpl. rewrite R. symmetry. apply (pr_root _ _ _ _ Hr).
    + done.
  - rewrite (bind_ok _ _ _ _ _ (on_fl_eq b _ allocate _ (allocate_none _ Hlast))).
    rewrite (proj2 (Z.eqb_eq _ _)) by done.
    destruct (allocate_page_ok (dm (pool_fl b)) Hd) as (d' & E & N & S); [lia|].
    set (fl' := mkFL d' (free_pages_ (pool_fl b))).
    replace (set_fl (pool_fl b) b) with b by by destruct b.
    exists (set_fl fl' b).
    assert (P0 : page0 fl' = page0 (pool_fl b)).
    { unfold page0. simpl. rewrite (proj2 S) by lia. by rewrite decide_False by lia. }
    assert (Hs' : fl_synced fl').
    { destruct Hs as (_ & Hc & Hids'). unfold fl_synced. rewrite P0. simpl.
      split; [|by split]. split; simpl; [apply S|lia|done|done]. }
    split; [|split; [done|split; [lia|]]].
    + rewrite (on_fl_eq b fl' (on_dm allocate_page) (Ok (num_pages (dm (pool_fl b))))).
      * by rewrite Hnum.
      * by apply on_dm_eq.
    + exists zero_page. eapply pool_rep_ext.
      * apply (rep_set_fl D L b a fl' (<[a_num a := zero_page]> (a_page a)));
          [exact Hr|exact Hs'|simpl; lia| | | |].
        -- intros j Hj. simpl. rewrite (proj2 S) by lia. rewrite decide_False by lia.
           split; [by left|]. rewrite fn_lookup_insert_ne by lia. done.
        -- intros j Hj. simpl in *. assert (j = a_num a) as -> by lia.
           rewrite fn_lookup_insert, (proj2 S) by lia. by rewrite decide_True by lia.
        -- simpl. rewrite Hlist. apply (pr_nodup _ _ _ _ Hr).
        -- intros id Hin. simpl in *. rewrite Hlist in Hin.
           destruct (pr_free _ _ _ _ Hr id Hin). split; [lia|done].
      * done.
      * simpl. congruence.
      * simpl. congruence.
      * simpl. rewrite P0. symmetry. apply (pr_root _ _ _ _ Hr).
      * done.
Qed.

(** ** A new page *)

Lemma a_new_num p a : a_num a <= a_num (a_new p a) <= a_num a + 1.
Proof. unfold a_new. destruct (last (a_free a)); simpl; lia. Qed.

Lemma a_new_cap p a : a_cap (a_new p a) = a_cap a.
Proof. unfold a_new. by destruct (last (a_free a)). Qed.

Lemma a_new_page p a j : a_page (a_new p a) j = if decide (j = a_new_id a) then p else a_page a j.
Proof.
  unfold a_new, a_new_id. destruct (last (a_free a)); simpl;
    by (case_decide as Hj; [subst; rewrite fn_lookup_insert|rewrite fn_lookup_insert_ne]).
Qed.

Lemma a_new_id_facts D L b a p :
  pool_rep D L b (a_new p a) -> (forall id, id ∈ a_free a -> 0 < id < a_num a) -> NoDup (a_free a) ->
  0 < a_num a -> 0 < a_new_id a < a_num (a_new p a) /\ a_new_id a ∉ a_free (a_new p a).
Proof.
  intros Hr Hf Hnd Hpos. unfold a_new_id, a_new in *.
  destruct (last (a_free a)) as [id|] eqn:Hlast; simpl.
  - apply removelast_app_last in Hlast. rewrite Hlast in Hnd.
    split; [apply Hf; rewrite Hlast; apply elem_of_app; right; by left|].
    apply NoDup_app in Hnd as (_ & Hn & _). intros Hin. apply (Hn _ Hin). by left.
  - split; [lia|]. intros Hin%Hf. lia.
Qed.

(** The id is one that no live page has: a freed one or the next one. *)
Lemma new_page_ok D L b a :
  pool_rep D L b a -> (length L < a_cap a)%nat -> a_num a + 1 < 2 ^ 31 ->
  exists i p b', new_page b = (Ok (Some (i, a_new_id a)), b') /\
    pg_id p = a_new_id a /\ zlen p = PAGE_SIZE /\
    pool_rep D ((a_new_id a, i) :: L) b' (a_new p a).
Proof.
  intros Hr Hcap Hlt. pose proof (pr_inv _ _ _ _ Hr) as Hi0.
  assert (Hpos : 0 < a_num a).
  { destruct (inv_fl D b Hi0) as [[_ Hp _ _] _]. pose proof (pr_num _ _ _ _ Hr).
    unfold bp_num in *. lia. }
  destruct (new_id_ok D L b a Hr Hlt) as (b1 & E1 & Hpt & Hidpos & p0 & Hr1).
  destruct (a_new_id_facts D L b1 a p0 Hr1) as [Hrange Hnf];
    [intros id Hin; apply (pr_free _ _ _ _ Hr id Hin)|apply (pr_nodup _ _ _ _ Hr)|done|].
  set (pid := a_new_id a) in *. pose proof (pr_inv _ _ _ _ Hr1) as Hi.
  pose proof (a_new_num p0 a) as Hnn.
  assert (Hnone : page_table_ b1 !! pid = None).
  { rewrite Hpt. unfold pid, a_new_id. destruct (last (a_free a)) as [id|] eqn:Hlast.
    - apply (pr_free _ _ _ _ Hr). apply removelast_app_last in Hlast. rewrite Hlast.
      apply elem_of_app. right. by left.
    - destruct (page_table_ b !! a_num a) as [i|] eqn:E; [|done].
      destruct (inv_cached D b Hi0 _ _ E) as [Hx _]. rewrite (pr_num _ _ _ _ Hr) in Hx. lia. }
  destruct (find_free_frame_ok D b1 Hi) as [(id & b2 & E2 & Hne & Hl & Hv & Hc & Hps)|(_ & Hff & Hall)].
  2: { pose proof (lru_pinned_length D L b1 _ Hr1 Hff Hall) as Hle.
       rewrite (pr_cap _ _ _ _ Hr1), a_new_cap in Hle. lia. }
  pose proof (limbo_rep D L b1 b2 _ id Hr1 Hl Hv Hps Hc) as Hr2.
  destruct (frame_exists D b2 id (lb_inv _ _ _ Hl) (lb_range _ _ _ Hl)) as [f Hf].
  pose proof (ps_none _ _ Hps pid Hnone) as Hp2.
  destruct (set_page_id_ok zero_page pid zlen_zero_page) as (p & Ep & Fp & Hpid);
    [unfold is_page_id; lia|].
  assert (Hzp : zlen p = PAGE_SIZE)
    by (rewrite (same_outside_length _ _ _ _ Fp); apply zlen_zero_page).
  set (f' := mkFrame p 1 true true). exists id, p, (installed b2 pid id f'). split.
  - unfold new_page.
    assert (Hsplit : forall (k : Z -> M (BufferPool F) (option (Z * Z))),
      (let* id0 := on_fl allocate in
       let* pid' := (if id0 =? INVALID_PAGE_ID then on_fl (on_dm allocate_page) else ret id0) in
       k pid') b = k pid b1).
    { intros k. rewrite <- bind_assoc. by apply bind_ok. }
    rewrite Hsplit. mstep E2. rewrite (proj2 (Z.eqb_neq _ _)) by done.
    rewrite (bind_ok _ _ _ _ _ (on_page_ok b2 id f zero_page clear (Ok tt) Hf eq_refl)).
    rewrite (bind_ok _ _ _ _ _ (on_page_ok _ id (set_page zero_page f) p (set_page_id pid) (Ok tt)
      (frame_at_put_eq b2 id f _ Hf) Ep)), put_put.
    rewrite (bind_ok _ _ _ _ _ (at_frame_ok _ id _ _ (modifyS (set_in_use true)) (Ok tt)
      (frame_at_put_eq b2 id f _ Hf) eq_refl)), put_put.
    rewrite (bind_ok _ _ _ _ _ (at_frame_ok _ id _ _ (modifyS (set_pin_count 1)) (Ok tt)
      (frame_at_put_eq b2 id f _ Hf) eq_refl)), put_put.
    rewrite (bind_ok _ _ _ _ _ (at_frame_ok _ id _ _ (modifyS (set_dirty true)) (Ok tt)
      (frame_at_put_eq b2 id f _ Hf) eq_refl)), put_put.
    unfold touch, modifyS, bind, ret, installed, put_frame, set_frames, set_lru, set_page_table.
    cbn -[zero_page]. rewrite erase_first_absent by apply (lb_lru _ _ _ Hl). done.
  - split; [done|]. split; [done|]. eapply pool_rep_ext.
    + apply (installed_rep D L b2 (a_new p0 a) pid id f' Hl Hr2 Hp2); try done.
      rewrite a_new_cap. lia.
    + intros j Hj. rewrite a_new_page. fold pid. simpl. case_decide as Hjp.
      * subst j. by rewrite fn_lookup_insert.
      * rewrite fn_lookup_insert_ne, a_new_page by done. by rewrite decide_False.
    + unfold a_new. by destruct (last (a_free a)).
    + unfold a_new. by destruct (last (a_free a)).
    + unfold a_new. by destruct (last (a_free a)).
    + unfold a_new. by destruct (last (a_free a)).
Qed.

(** ** Deleting a page *)

(** The frame of a deleted page goes neither to the free frames nor to the
    LRU list: one usable frame less. *)
Lemma delete_evict_ok D L b a pid id :
  pool_rep D L b a -> page_table_ b !! pid = Some id -> pid ∉ L.*1 ->
  exists b', (let* f := at_frame id getS in
              do* assert_ (pin_count f =? 0) in
              do* at_frame id (modifyS (set_dirty false)) in
              evict_frame id) b = (Ok tt, b') /\
    page_table_ b' = delete pid (page_table_ b) /\ S (cap b') = cap b /\
    pool_rep D L b' (mkAPool (<[pid := bp_disk b pid]> (a_page a)) (a_num a) (a_free a) (a_root a)
                       (pred (a_cap a))).
Proof.
  intros Hr Hp HL. pose proof (pr_inv _ _ _ _ Hr) as Hi.
  destruct (cached_lookup D b pid id Hi Hp) as (f & C & Hpg & Hpc & Hrange & Hlru & Hz & _).
  pose proof C as [Hf Hu Hid Hcl]. pose proof (pr_pin _ _ _ _ Hr pid) as Hpin.
  rewrite (pins_zero L pid HL) in Hpin.
  assert (HD : pid ∉ D) by (intros Hin; pose proof (inv_pinned D b Hi pid Hin); lia).
  set (f1 := set_dirty false f). set (b1 := put_frame id f1 b).
  assert (Hf1 : frame_at id b1 = Some f1) by (by apply (frame_at_put_eq b id f)).
  destruct (evict_frame_raw b1 pid id f1 (inv_fl D b Hi) Hf1) as (fl' & E & Hs & Hn & Hfp & P0 & Hd);
    [done|simpl; congruence|done|done|done|].
  assert (Hdisk : forall j, 0 < j < bp_num b -> disk_page (dm fl') j = bp_disk b j).
  { intros j Hj. rewrite Hd by done. rewrite decide_False; [done|]. by intros [_ ?]. }
  assert (Hdrop : dropped b1 pid id fl' = dropped b pid id fl').
  { unfold dropped, b1, put_frame, set_frames. cbn -[default_frame]. by rewrite list_insert_insert_eq. }
  rewrite Hdrop in E. exists (dropped b pid id fl').
  assert (Hdisk' : forall j, 0 < j < bp_num b -> j <> pid -> disk_page (dm fl') j = bp_disk b j) by auto.
  pose proof (dropped_inv D b pid id fl' Hi Hp HD Hs Hn Hdisk') as Hi'.
  split; [|split; [done|split]].
  - mstep (at_frame_get b id f Hf). rewrite bind_assert by (apply Z.eqb_eq; congruence).
    rewrite (bind_ok _ _ b b1 tt) by (by apply (at_frame_ok b id f)). exact E.
  - unfold cap. simpl. rewrite <- (erase_first_length id (lru_list_ b) Hlru). lia.
  - change (bp_num b1) with (bp_num b) in *. change (pool_fl b1) with (pool_fl b) in *.
    assert (Hn' : bp_num (dropped b pid id fl') = bp_num b) by exact Hn.
    destruct Hr. split; simpl; try congruence.
    + intros j Hj. destruct (decide (j = pid)) as [->|Hne].
      * rewrite fn_lookup_insert, dropped_page_eq. by apply Hdisk.
      * rewrite fn_lookup_insert_ne by done.
        rewrite (dropped_page D b pid id fl' Hi Hp Hdisk') by (done || by rewrite pr_num0).
        by apply pr_page0.
    + intros j. destruct (decide (j = pid)) as [->|Hne].
      * rewrite dropped_pin_eq. by rewrite pins_zero.
      * rewrite (dropped_pin D b pid id fl' Hi Hp) by done. apply pr_pin0.
    + intros j i Hin. rewrite lookup_delete_ne; [by apply pr_ptr0|]. intros <-. apply HL.
      apply list_elem_of_fmap. by exists (pid, i).
    + intros j Hj. destruct (pr_free0 j Hj) as [Hr Hnone]. split; [done|].
      rewrite lookup_delete_ne; [done|]. congruence.
    + unfold cap in *. simpl. rewrite <- pr_cap0.
      rewrite <- (erase_first_length id (lru_list_ b) Hlru). lia.
Qed.

Lemma free_rep D L b a pid :
  pool_rep D L b a -> page_table_ b !! pid = None -> 0 < pid < a_num a -> pid ∉ a_free a ->
  zlen (a_free a) < MAX_FREE_PAGES ->
  exists b', on_fl (free pid) b = (Ok tt, b') /\
    pool_rep D L b' (mkAPool (a_page a) (a_num a) (a_free a ++ [pid]) (a_root a) (a_cap a)).
Proof.
  intros Hr Hp Hrange Hnf Hlt. pose proof (inv_fl D b (pr_inv _ _ _ _ Hr)) as Hs.
  pose proof (pr_list _ _ _ _ Hr) as Hlist. pose proof (pr_num _ _ _ _ Hr) as Hnum.
  unfold bp_num in Hnum. pose proof Hs as ([Hd Hpos Hmax Hids] & _). pose proof (dm_num _ Hd).
  destruct (free_ok (pool_fl b) pid (proj1 Hs)) as (fl' & E & Happ & Hs' & N & R & S);
    [unfold is_page_id; lia|by rewrite Hlist|].
  exists (set_fl fl' b). split; [by apply on_fl_eq|]. rewrite Hlist in Happ.
  eapply pool_rep_ext.
  - apply (rep_set_fl D L b a fl' (a_page a)); [exact Hr|exact Hs'|lia| |intros; lia| |].
    + intros j Hj. split; [|done]. left. apply S. lia.
    + rewrite Happ. apply NoDup_app. split; [apply (pr_nodup _ _ _ _ Hr)|].
      split; [|apply NoDup_singleton]. by intros x Hx ->%list_elem_of_singleton.
    + intros j. rewrite Happ. intros [Hj|Hj]%elem_of_app.
      * rewrite N, Hnum. by apply (pr_free _ _ _ _ Hr).
      * apply list_elem_of_singleton in Hj as ->. split; [lia|done].
  - done.
  - simpl. congruence.
  - simpl. congruence.
  - simpl. rewrite R. symmetry. apply (pr_root _ _ _ _ Hr).
  - done.
Qed.

Lemma delete_page_ok D L b a pid :
  pool_rep D L b a -> pid ∉ L.*1 -> 0 < pid < a_num a -> pid ∉ a_free a ->
  zlen (a_free a) < MAX_FREE_PAGES ->
  exists p b', delete_page pid b = (Ok tt, b') /\
    pool_rep D L b' (mkAPool (<[pid := p]> (a_page a)) (a_num a) (a_free a ++ [pid]) (a_root a)
      (match page_table_ b !! pid with Some _ => pred (a_cap a) | None => a_cap a end)).
Proof.
  intros Hr HL Hrange Hnf Hlt. unfold delete_page.
  destruct (page_table_ b !! pid) as [id|] eqn:Hp.
  - destruct (delete_evict_ok D L b a pid id Hr Hp HL) as (b1 & E & Hpt & _ & Hr1).
    destruct (free_rep D L b1 _ pid Hr1) as (b' & E' & Hr');
      [rewrite Hpt; apply lookup_delete_eq|done|done|done|].
    exists (bp_disk b pid), b'. split; [|exact Hr'].
    mstep (eq_refl : getS b = (Ok b, b)). rewrite Hp. by mstep E.
  - destruct (free_rep D L b a pid Hr Hp) as (b' & E' & Hr'); [done..|].
    exists (a_page a pid), b'. split.
    + mstep (eq_refl : getS b = (Ok b, b)). by rewrite Hp.
    + eapply pool_rep_ext; [exact Hr'| |done..]. intros j Hj. simpl.
      destruct (decide (j = pid)) as [->|Hne].
      * by rewrite fn_lookup_insert.
      * by rewrite fn_lookup_insert_ne.
Qed.

(** ** The root slot *)

Lemma set_root_ok D L b a id :
  pool_rep D L b a -> is_page_id id ->
  exists b', on_fl (set_root_page_id id) b = (Ok tt, b') /\ pool_rep D L b' (a_set_root id a).
Proof.
  intros Hr Hid. pose proof (inv_fl D b (pr_inv _ _ _ _ Hr)) as Hs.
  pose proof (pr_list _ _ _ _ Hr) as Hlist. pose proof (pr_num _ _ _ _ Hr) as Hnum.
  unfold bp_num in Hnum.
  destruct (set_root_synced (pool_fl b) id Hs Hid) as (fl' & E & Hs' & Hf & R & N & S).
  exists (set_fl fl' b). split; [by apply on_fl_eq|]. eapply pool_rep_ext.
  - apply (rep_set_fl D L b a fl' (a_page a)); [exact Hr|exact Hs'|lia| |intros; lia| |].
    + intros j Hj. split; [|done]. left. apply S. lia.
    + rewrite Hf, Hlist. apply (pr_nodup _ _ _ _ Hr).
    + intros j. rewrite Hf, Hlist, N, Hnum. by apply (pr_free _ _ _ _ Hr).
  - done.
  - simpl. congruence.
  - simpl. congruence.
  - simpl. congruence.
  - done.
Qed.

Lemma root_page_id_rep D L b a :
  pool_rep D L b a -> on_fl root_page_id b = (Ok (a_root a), b).
Proof.
  intros Hr. pose proof (inv_fl D b (pr_inv _ _ _ _ Hr)) as [Hok _].
  rewrite (on_fl_eq b (pool_fl b) root_page_id _ (root_page_id_ok _ Hok)).
  rewrite (pr_root _ _ _ _ Hr). by destruct b.
Qed.

(** ** Writing back *)

Lemma flush_frame_ok D L b a pid id :
  pool_rep D L b a -> page_table_ b !! pid = Some id ->
  exists b', flush_frame pid id b = (Ok tt, b') /\ pool_rep D L b' a /\
    page_table_ b' = page_table_ b /\ (pid ∉ D -> bp_disk b' pid = a_page a pid) /\
    forall j, 0 < j < a_num a -> j <> pid -> bp_disk b' j = bp_disk b j.
Proof.
  intros Hr Hp. pose proof (pr_inv _ _ _ _ Hr) as Hi.
  destruct (cached_lookup D b pid id Hi Hp) as (f & C & Hpg & Hpc & Hrange & Hlru & Hz & Hpos).
  pose proof C as [Hf Hu Hid Hcl]. pose proof (pr_num _ _ _ _ Hr) as Hnum.
  assert (Hpa : page f = a_page a pid).
  { rewrite <- Hpg. apply (pr_page _ _ _ _ Hr). by rewrite <- Hnum. }
  unfold flush_frame. rewrite (bind_ok _ _ _ _ _ (at_frame_get b id f Hf)).
  destruct (is_dirty f) eqn:Hdirty.
  2: { exists b. split; [done|]. split; [done|]. split; [done|]. split; [|done].
       intros HD. by rewrite <- Hcl. }
  pose proof (inv_fl D b Hi) as Hs.
  destruct (fl_write_page (pool_fl b) pid (page f) Hs Hrange Hz) as (d' & E & N & S & Hs' & P0).
  set (fl' := mkFL d' (free_pages_ (pool_fl b))). set (b1 := set_fl fl' b).
  pose proof (pr_list _ _ _ _ Hr) as Hlist. unfold bp_num in Hnum.
  assert (Hdisk : forall j, 0 < j < a_num a -> disk_page d' j = if decide (j = pid) then page f else bp_disk b j).
  { intros j Hj. apply (proj2 S). lia. }
  assert (Hr1 : pool_rep D L b1 a).
  { eapply pool_rep_ext; [apply (rep_set_fl D L b a fl' (a_page a)); [exact Hr|exact Hs'|simpl; lia| | | |]|..].
    - intros j Hj. split; [|done]. simpl. rewrite Hdisk by done. destruct (decide (j = pid)) as [->|]; [|by left].
      right. by exists id, f.
    - simpl. intros. lia.
    - simpl. rewrite Hlist. apply (pr_nodup _ _ _ _ Hr).
    - intros j. simpl. rewrite Hlist, N, Hnum. apply (pr_free _ _ _ _ Hr).
    - done.
    - simpl. congruence.
    - simpl. congruence.
    - rewrite <- (pr_root _ _ _ _ Hr), <- P0. done.
    - done. }
  set (f' := set_dirty false f). set (b2 := put_frame id f' b1). exists b2.
  assert (Hdp : bp_disk b1 pid = page f).
  { unfold bp_disk. simpl. rewrite Hdisk by (unfold bp_num in Hrange; lia). by rewrite decide_True. }
  split; [|split; [|split; [done|split]]].
  - rewrite (bind_ok _ _ b b1 tt) by (by apply on_fl_eq, on_dm_eq).
    by apply (at_frame_ok b1 id f).
  - assert (Hi2 : bp_inv D b2).
    { apply (put_inv D D b1 pid id f); try done.
      - apply (pr_inv _ _ _ _ Hr1).
      - intros HD. simpl. rewrite <- Hpc. by apply (inv_pinned D b Hi). }
    destruct Hr1. split; try done.
    + intros j Hj. destruct (decide (j = pid)) as [->|Hne].
      * unfold b2. by rewrite (put_page_eq b1 pid id f).
      * unfold b2. rewrite (put_page_ne D b1 pid id f); [by apply pr_page0|done..].
    + intros j. destruct (decide (j = pid)) as [->|Hne].
      * unfold b2. rewrite (put_pin_eq b1 pid id f) by done. simpl. rewrite <- Hpc.
        apply (pr_pin _ _ _ _ Hr).
      * unfold b2. rewrite (put_pin_ne D b1 pid id f); [by apply pr_pin0|done..].
  - intros _. by rewrite <- Hpa.
  - intros j Hj Hne. unfold bp_disk. simpl. rewrite Hdisk by done. by rewrite decide_False.
Qed.

(** After [flush_all], in whatever order it visits the pages, every cached
    page is on disk. *)
Lemma flush_all_in_ok L (order : list (Z * Z)) b a :
  pool_rep ∅ L b a -> (forall j i, (j, i) ∈ order -> page_table_ b !! j = Some i) ->
  exists b', flush_all_in order b = (Ok tt, b') /\ pool_rep ∅ L b' a /\
    page_table_ b' = page_table_ b /\
    forall j, 0 < j < a_num a -> j ∈ order.*1 \/ bp_disk b j = a_page a j -> bp_disk b' j = a_page a j.
Proof.
  revert b. induction order as [|[j i] order IH]; intros b Hr Hord.
  - exists b. split; [done|]. split; [done|]. split; [done|].
    by intros j Hj [?%not_elem_of_nil|?].
  - destruct (flush_frame_ok ∅ L b a j i Hr) as (b1 & E1 & Hr1 & Hpt1 & Hd1 & Ho1);
      [apply Hord; by left|].
    destruct (IH b1 Hr1) as (b' & E & Hr' & Hpt & Hd).
    { intros k l Hkl. rewrite Hpt1. apply Hord. by right. }
    exists b'. split; [unfold flush_all_in in *; cbn [for_each fst snd]; by mstep E1|].
    split; [done|]. split; [congruence|]. intros k Hk Hin. apply Hd; [done|].
    destruct (decide (k = j)) as [->|Hne]; [right; by apply Hd1|].
    destruct Hin as [[->|Hin]%elem_of_cons|Hin]; [done|by left|].
    right. by rewrite Ho1.
Qed.

Lemma flush_all_ok L b a :
  pool_rep ∅ L b a ->
  exists b', flush_all b = (Ok tt, b') /\ pool_rep ∅ L b' a /\
    forall j, 0 < j < a_num a -> bp_disk b' j = a_page a j.
Proof.
  intros Hr. destruct (flush_all_in_ok L (map_to_list (page_table_ b)) b a Hr) as (b' & E & Hr' & _ & Hd).
  { intros j i. by rewrite elem_of_map_to_list. }
  exists b'. split; [exact E|]. split; [done|]. intros j Hj. apply Hd; [done|].
  destruct (page_table_ b !! j) as [i|] eqn:Hp.
  - left. apply list_elem_of_fmap. exists (j, i). split; [done|]. by apply elem_of_map_to_list.
  - right. rewrite <- (pr_page _ _ _ _ Hr j Hj). unfold bp_page. by rewrite Hp.
Qed.

(** ** A fresh pool *)

Definition a_init (fl : FreeList F) : APool :=
  mkAPool (disk_page (dm fl)) (num_pages (dm fl)) (free_pages_ fl) (p0_root (page0 fl))
    (Z.to_nat POOL_SIZE).

Lemma BufferPool_ctor_ok (fl : FreeList F) :
  fl_synced fl -> NoDup (free_pages_ fl) ->
  (forall id, id ∈ free_pages_ fl -> 0 < id < num_pages (dm fl)) ->
  pool_rep ∅ [] (BufferPool_ctor fl) (a_init fl).
Proof.
  intros Hs Hnd Hf.
  assert (Hfr : forall id f, frame_at id (BufferPool_ctor fl) = Some f -> f = default_frame).
  { intros id f [_ Hl]%frame_at_Some. apply lookup_replicate in Hl. tauto. }
  split.
  - split; [exact Hs|apply length_replicate| |done| |constructor| | |].
    + intros id f ->%Hfr. split; [apply zlen_zero_page|done].
    + intros id Hin. by apply not_elem_of_nil in Hin.
    + intros id Hin. cbn [BufferPool_ctor free_frames_] in Hin. apply list_elem_of_fmap in Hin as (k & -> & Hk%elem_of_seq).
      unfold POOL_SIZE, BUFFER_POOL_SIZE in *. split; [lia|apply not_elem_of_nil].
    + apply NoDup_fmap_2; [intros x y; apply Nat2Z.inj|apply NoDup_seq].
    + intros pid Hin. by apply not_elem_of_empty in Hin.
  - done.
  - done.
  - intros j i Hin. by apply not_elem_of_nil in Hin.
  - done.
  - done.
  - intros id Hin. split; [by apply Hf|done].
  - done.
  - done.
  - done.
Qed.
End rep.
