(* ===== verification/BTree.v ===== *)
(** * The B+Tree ([src/src/btree/btree.h], [btree.cpp])

    The state of a [BTree] is the pool it works through and [root_page_id_].
    A [Page*] is the index of a frame of the pool, a [Node] made from it the
    same index after the checks of its constructor.  [breadcrumbs] is the
    [std::vector] with its back in front: [push_back] is [::], [pop_back] the
    tail, so the recursions up the tree are structural. *)

From S2P Require Import Prelude.
From S2P Require Import Buffers.
From S2P Require Import Page.
From S2P Require Import Node.
From S2P Require Import DiskManager.
From S2P Require Import FreeList.
From S2P Require Import BufferPool.

Record BTree (F : Type) : Type := mkBTree { bp_ : BufferPool F; root_page_id_ : Z }.
Arguments mkBTree {F} bp_ root_page_id_.
Arguments bp_ {F} b.
Arguments root_page_id_ {F} b.

Section ops.
Context {F : Type} `{PosixFile F}.

Definition set_bp (b : BufferPool F) (t : BTree F) : BTree F := mkBTree b (root_page_id_ t).
Definition set_root (r : Z) (t : BTree F) : BTree F := mkBTree (bp_ t) r.
Definition on_bp {A : Type} (m : M (BufferPool F) A) : M (BTree F) A := zoom bp_ set_bp m.

(** ** Pages behind pointers *)

(** A method of the page or of the node behind the pointer [ptr]. *)
Definition at_page {A : Type} (ptr : Z) (m : M Page A) : M (BTree F) A := on_bp (on_page ptr m).
Definition ask {A : Type} (ptr : Z) (q : Page -> result A) : M (BTree F) A := at_page ptr (query q).

(** A method of a node that also works on a second one. *)
Definition on_pages {A : Type} (ptr1 ptr2 : Z) (m : M (Page * Page) A) : M (BufferPool F) A :=
  fun b =>
    match frame_at ptr1 b, frame_at ptr2 b with
    | Some f, Some g =>
        let '(r, (p, q)) := m (page f, page g) in
        (r, set_frames (<[Z.to_nat ptr2 := set_page q g]>
              (<[Z.to_nat ptr1 := set_page p f]> (frames_ b))) b)
    | _, _ => (Err OutOfBounds, b)
    end.
Definition at_pages {A : Type} (ptr1 ptr2 : Z) (m : M (Page * Page) A) : M (BTree F) A :=
  on_bp (on_pages ptr1 ptr2 m).

(** [Page* p = bp_.fetch_page(id); assert(p != nullptr);] *)
Definition fetch (page_id : Z) : M (BTree F) Z :=
  let* p := on_bp (fetch_page page_id) in
  match p with
  | Some ptr => ret ptr
  | None => throw AssertionFailure
  end.

Definition unpin (page_id : Z) (dirty : bool) : M (BTree F) unit := on_bp (unpin_page page_id dirty).

(** [Node node(p);] *)
Definition make_node (ptr : Z) : M (BTree F) unit := ask ptr Node_ctor.

(** Fetch a node, change a field of its header, unpin it dirty. *)
Definition update_node (page_id : Z) (m : M Page unit) : M (BTree F) unit :=
  let* ptr := fetch page_id in
  do* make_node ptr in
  do* at_page ptr m in
  unpin page_id true.

Definition reparent (child_pid parent : Z) : M (BTree F) unit :=
  if child_pid =? INVALID_PAGE_ID then ret tt else update_node child_pid (set_parent_id parent).

(** ** The part of [Node::merge_from] and [steal_from_*] that uses the pool *)

Definition merge_from (this right : Z) (separator_key : bytes) : M (BTree F) unit :=
  let* leaf := ask this is_leaf in
  if leaf then at_pages this right merge_leaf
  else
    do* at_pages this right (merge_internal separator_key) in
    let* rn := ask right num_keys in
    let update_parent := fun child_pid : Z =>
      let* pid := ask this page_id in reparent child_pid pid in
    let* fc := ask right first_child in
    do* update_parent fc in
    do* for_up (Z.to_nat rn) 0 (fun i =>
      let* c := ask right (child_at i) in update_parent c) in
    let* fc' := ask right first_child in
    update_parent fc'.

Definition steal_from_left (this left : Z) : M (BTree F) bytes :=
  let* leaf := ask this is_leaf in
  if leaf then at_pages this left steal_left_leaf
  else
    let* kc := at_pages this left steal_left_internal in
    let* pid := ask this page_id in
    do* reparent kc.2 pid in
    ret kc.1.

Definition steal_from_right (this right : Z) : M (BTree F) bytes :=
  let* leaf := ask this is_leaf in
  if leaf then at_pages this right steal_right_leaf
  else
    let* kc := at_pages this right steal_right_internal in
    let* pid := ask this page_id in
    do* reparent kc.2 pid in
    ret kc.1.

(** ** Creation *)

Definition persist_root : M (BTree F) unit :=
  let* t := getS in on_bp (on_fl (set_root_page_id (root_page_id_ t))).

(** [BTree::create]: the tree it returns is the final state. *)
Definition create : M (BTree F) unit :=
  let* r := on_bp new_page in
  match r with
  | None => throw StdRuntimeError
  | Some (root_page, root_id) =>
      do* at_page root_page (init_leaf root_id INVALID_PAGE_ID) in
      do* unpin root_id true in
      do* modifyS (set_root root_id) in
      persist_root
  end.

Definition open (b : BufferPool F) (root_page_id : Z) : BTree F := mkBTree b root_page_id.

(** ** Traversal *)

(** [while (ub < node.num_keys() && node.key_at(ub) == key) ++ub;] *)
Fixpoint upper_bound_loop (fuel : nat) (key : bytes) (ub : Z) (p : Page) : result Z :=
  let? n := num_keys p in
  if ub <? n then
    let? k := key_at ub p in
    if bool_decide (k = key) then
      match fuel with
      | O => Err OutOfFuel
      | S fuel' => upper_bound_loop fuel' key (wrap 16 (ub + 1)) p
      end
    else Ok ub
  else Ok ub.

(** The child of an internal node that [key] leads to.  The loop moves [ub]
    up to the number of keys, which has 16 bits. *)
Definition next_child (key : bytes) (p : Page) : result Z :=
  let? lb := lower_bound key p in
  let? n := num_keys p in
  let? ub := upper_bound_loop (Z.to_nat n) key lb p in
  if ub =? 0 then first_child p else child_at (wrap 16 (ub - 1)) p.

Fixpoint find_leaf_loop (fuel : nat) (key : bytes) (cur : Z) (breadcrumbs : list Z)
  : M (BTree F) (Z * list Z) :=
  match fuel with
  | O => throw OutOfFuel
  | S fuel' =>
      let* page := fetch cur in
      let* ty := ask page page_type in
      if bool_decide (ty = BTREE_LEAF) then ret (page, breadcrumbs)
      else
        do* make_node page in
        let* next := ask page (next_child key) in
        do* unpin cur false in
        find_leaf_loop fuel' key next (cur :: breadcrumbs)
  end.

(** A path down a tree visits a page once: as many rounds as there are pages
    are enough. *)
Definition find_leaf (key : bytes) : M (BTree F) (Z * list Z) :=
  let* t := getS in
  find_leaf_loop (Z.to_nat (num_pages (dm (pool_fl (bp_ t))))) key (root_page_id_ t) [].

(** ** Get *)

(** [slot < num_keys() && key_at(slot) == key] *)
Definition slot_has (slot : Z) (key : bytes) (p : Page) : result bool :=
  let? n := num_keys p in
  if slot <? n then let? k := key_at slot p in Ok (bool_decide (k = key)) else Ok false.

Definition get (key : bytes) : M (BTree F) (option bytes) :=
  let* fl := find_leaf key in
  let leaf := fl.1 in
  let* leaf_id := ask leaf page_id in
  do* make_node leaf in
  let* slot := ask leaf (lower_bound key) in
  let* found := ask leaf (slot_has slot key) in
  let* r := (if found then let* v := ask leaf (value_at slot) in ret (Some v) else ret None) in
  do* unpin leaf_id false in
  ret r.

(** ** Insert *)

Definition create_new_root (left_id : Z) (sep_key : bytes) (right_id : Z) : M (BTree F) unit :=
  let* r := on_bp new_page in
  match r with
  | None => throw AssertionFailure
  | Some (new_root, new_root_id) =>
      do* at_page new_root (init_internal new_root_id INVALID_PAGE_ID) in
      do* make_node new_root in
      do* at_page new_root (set_first_child left_id) in
      let* ok := at_page new_root (insert_separator sep_key right_id) in
      do* assert_ ok in
      do* unpin new_root_id true in
      do* update_node left_id (set_parent_id new_root_id) in
      do* update_node right_id (set_parent_id new_root_id) in
      do* modifyS (set_root new_root_id) in
      persist_root
  end.

(** The separator goes into a parent that has room. *)
Definition add_separator (parent parent_id : Z) (sep_key : bytes) (right_id : Z) : M (BTree F) unit :=
  let* ok := at_page parent (insert_separator sep_key right_id) in
  do* assert_ ok in
  do* update_node right_id (set_parent_id parent_id) in
  unpin parent_id true.

(** After the split of a parent: the half that takes the separator. *)
Definition add_to_half (half half_id : Z) (sep_key : bytes) (right_id : Z) : M (BTree F) unit :=
  let* ok := at_page half (insert_separator sep_key right_id) in
  do* assert_ ok in
  update_node right_id (set_parent_id half_id).

(** The children of the node behind [ptr] get the parent [parent]. *)
Definition reparent_children (ptr parent : Z) : M (BTree F) unit :=
  let* prn := ask ptr num_keys in
  let* fc := ask ptr first_child in
  do* reparent fc parent in
  for_up (Z.to_nat prn) 0 (fun i =>
    let* c := ask ptr (child_at i) in reparent c parent).

(** The parent is full even after [compact]: it is split and one half takes
    the separator.  The id of the new node and the key that goes up. *)
Definition split_parent (parent parent_id : Z) (sep_key : bytes) (right_id : Z) : M (BTree F) (Z * bytes) :=
  let* r := on_bp new_page in
  match r with
  | None => throw AssertionFailure
  | Some (parent_right, parent_right_id) =>
      let* pp := ask parent Node.parent_id in
      do* at_page parent_right (init_internal parent_right_id pp) in
      do* make_node parent_right in
      let* parent_sep := at_pages parent parent_right split_into in
      do* (if key_ltb sep_key parent_sep
           then add_to_half parent parent_id sep_key right_id
           else add_to_half parent_right parent_right_id sep_key right_id) in
      do* reparent_children parent_right parent_right_id in
      do* unpin parent_id true in
      do* unpin parent_right_id true in
      ret (parent_right_id, parent_sep)
  end.

Fixpoint insert_into_parent (left_id : Z) (sep_key : bytes) (right_id : Z) (breadcrumbs : list Z)
  : M (BTree F) unit :=
  match breadcrumbs with
  | [] => create_new_root left_id sep_key right_id
  | parent_id :: breadcrumbs' =>
      let* parent := fetch parent_id in
      do* make_node parent in
      let payload := internal_cell_size (zlen sep_key) in
      let* full := ask parent (is_full payload) in
      if negb full then add_separator parent parent_id sep_key right_id
      else
        do* at_page parent compact in
        let* full' := ask parent (is_full payload) in
        if negb full' then add_separator parent parent_id sep_key right_id
        else
          let* r := split_parent parent parent_id sep_key right_id in
          insert_into_parent parent_id r.2 r.1 breadcrumbs'
  end.

(** The leaf has no room: split it and retry in one of the halves. *)
Definition insert_split (leaf leaf_id : Z) (key value : bytes) (breadcrumbs : list Z)
  : M (BTree F) unit :=
  let* r := on_bp new_page in
  match r with
  | None =>
      do* unpin leaf_id false in
      throw StdRuntimeError
  | Some (right_page, right_id) =>
      let* par := ask leaf Node.parent_id in
      do* at_page right_page (init_leaf right_id par) in
      do* make_node right_page in
      let* old_right_sib := ask leaf right_sibling in
      let* sep_key := at_pages leaf right_page split_into in
      do* (if old_right_sib =? INVALID_PAGE_ID then ret tt
           else update_node old_right_sib (set_left_sibling right_id)) in
      (* the results of these two calls are not looked at *)
      let* ok := (if key_ltb key sep_key then at_page leaf (insert_leaf_cell key value)
                  else at_page right_page (insert_leaf_cell key value)) in
      do* unpin leaf_id true in
      do* unpin right_id true in
      insert_into_parent leaf_id sep_key right_id breadcrumbs
  end.

Definition insert (key value : bytes) : M (BTree F) unit :=
  let payload := leaf_cell_size (zlen key) (zlen value) in
  if NODE_USABLE_SIZE <? payload + 2 then throw StdInvalidArgument
  else
    let* fl := find_leaf key in
    let leaf := fl.1 in
    let* leaf_id := ask leaf page_id in
    do* make_node leaf in
    let* ok := at_page leaf (insert_leaf_cell key value) in
    if ok then unpin leaf_id true
    else insert_split leaf leaf_id key value fl.2.

(** ** Remove *)

(** The root is the only node left to look at. *)
Definition fix_root (page_id : Z) : M (BTree F) unit :=
  let* rp := fetch page_id in
  let* ty := ask rp page_type in
  let* empty := (if bool_decide (ty = BTREE_INTERNAL)
                 then do* make_node rp in let* n := ask rp num_keys in ret (n =? 0)
                 else ret false) in
  if empty then
    let* new_root := ask rp first_child in
    do* unpin page_id false in
    if new_root =? INVALID_PAGE_ID then ret tt
    else
      do* update_node new_root (set_parent_id INVALID_PAGE_ID) in
      do* on_bp (delete_page page_id) in
      do* modifyS (set_root new_root) in
      persist_root
  else unpin page_id false.

(** The slot of [page_id] among the children of its parent. *)
Fixpoint find_slot (n : nat) (i : Z) (page_id : Z) (p : Page) : result (option Z) :=
  match n with
  | O => Ok None
  | S n' =>
      let? c := child_at i p in
      if c =? page_id then Ok (Some i) else find_slot n' (wrap 16 (i + 1)) page_id p
  end.

(** [(sep_slot, left_sib, right_sib)], [sep_slot = -1] when not found. *)
Definition find_siblings (page_id : Z) (p : Page) : result (Z * Z * Z) :=
  let? fc := first_child p in
  if fc =? page_id then
    let? r := child_at 0 p in Ok (0, INVALID_PAGE_ID, r)
  else
    let? n := num_keys p in
    let? s := find_slot (Z.to_nat n) 0 page_id p in
    match s with
    | None => Ok (-1, INVALID_PAGE_ID, INVALID_PAGE_ID)
    | Some i =>
        let? r := (if i + 1 <? n then child_at (wrap 16 (i + 1)) p else Ok INVALID_PAGE_ID) in
        let? l := (if i =? 0 then Ok fc else child_at (wrap 16 (i - 1)) p) in
        Ok (i, l, r)
    end.

(** The separator in slot [slot] becomes [new_sep]: in place when the sizes
    agree, else removed and inserted again. *)
Definition replace_separator (parent slot : Z) (new_sep : bytes) : M (BTree F) unit :=
  let* k := ask parent (key_at slot) in
  if zlen k =? zlen new_sep then at_page parent (update_separator_key slot new_sep)
  else
    let* right_child := ask parent (child_at slot) in
    do* at_page parent (remove_cell slot) in
    let* ok := at_page parent (insert_separator new_sep right_child) in
    assert_ ok.

Definition borrow_left (parent parent_id page_id left_sib left sep_slot : Z) : M (BTree F) unit :=
  let* cur := fetch page_id in
  do* make_node cur in
  (* [old_sep] and [separator_key]: read, and not used by the steal *)
  let* old_sep := ask parent (key_at (wrap 16 (if 0 <? sep_slot then sep_slot - 1 else 0))) in
  let* fc := ask parent first_child in
  let sep_key_slot := if fc =? page_id then 0 else wrap 16 sep_slot in
  let* separator_key := ask parent (key_at sep_key_slot) in
  let* new_sep := steal_from_left cur left in
  do* replace_separator parent sep_key_slot new_sep in
  do* unpin page_id true in
  do* unpin left_sib true in
  unpin parent_id true.

Definition borrow_right (parent parent_id page_id right_sib right sep_slot : Z) : M (BTree F) unit :=
  let* cur := fetch page_id in
  do* make_node cur in
  let sep_key_slot := wrap 16 sep_slot in
  let* separator_key := ask parent (key_at sep_key_slot) in
  let* new_sep := steal_from_right cur right in
  do* replace_separator parent sep_key_slot new_sep in
  do* unpin page_id true in
  do* unpin right_sib true in
  unpin parent_id true.

(** A sibling that does not underflow lends a cell; [false]: it has none to
    spare, or does not exist. *)
Definition try_borrow (sib : Z) (borrow : Z -> M (BTree F) unit) : M (BTree F) bool :=
  if sib =? INVALID_PAGE_ID then ret false
  else
    let* ptr := fetch sib in
    do* make_node ptr in
    let* low := ask ptr underflow in
    if negb low then do* borrow ptr in ret true
    else do* unpin sib false in ret false.

(** Fetch two pages, [assert(lp && rp)]. *)
Definition fetch_two (left_id right_id : Z) : M (BTree F) (Z * Z) :=
  let* l := on_bp (fetch_page left_id) in
  let* r := on_bp (fetch_page right_id) in
  match l, r with
  | Some lp, Some rp => ret (lp, rp)
  | _, _ => throw AssertionFailure
  end.

(** [left_id] absorbs [right_id] and the separator in [sep_key_slot] goes. *)
Definition merge_pages (parent left_id right_id sep_key_slot : Z) (left right : Z) : M (BTree F) unit :=
  let* separator_key := ask parent (key_at sep_key_slot) in
  do* merge_from left right separator_key in
  let* leaf := ask left is_leaf in
  let* rs := ask left right_sibling in
  do* (if leaf && negb (rs =? INVALID_PAGE_ID) then
         let* rrs := fetch rs in
         do* make_node rrs in
         do* at_page rrs (set_left_sibling left_id) in
         let* rs' := ask left right_sibling in
         unpin rs' true
       else ret tt) in
  at_page parent (remove_cell sep_key_slot).

(** After a merge: the parent may underflow in its turn, or be an empty root
    that [kept] replaces. *)
Definition after_merge (fix_parent : M (BTree F) unit) (parent parent_id kept : Z) : M (BTree F) unit :=
  let* t := getS in
  let* low := ask parent underflow in
  let parent_underflows := low && negb (parent_id =? root_page_id_ t) in
  do* unpin parent_id true in
  if parent_underflows then fix_parent
  else
    let* n := ask parent num_keys in
    let* t' := getS in
    if (n =? 0) && (parent_id =? root_page_id_ t') then
      do* update_node kept (set_parent_id INVALID_PAGE_ID) in
      do* on_bp (delete_page parent_id) in
      do* modifyS (set_root kept) in
      persist_root
    else ret tt.

(** The slot of the separator between [left_sib] and [page_id]. *)
Definition left_sep_slot (left_sib page_id : Z) (p : Page) : result Z :=
  let? fc := first_child p in
  if fc =? left_sib then Ok 0
  else
    let? n := num_keys p in
    let? s := find_slot (Z.to_nat n) 0 page_id p in
    Ok (match s with Some i => i | None => 0 end).

(** The page absorbs its right sibling. *)
Definition merge_right (fix_parent : M (BTree F) unit) (parent parent_id page_id right_sib sep_slot : Z) :
    M (BTree F) unit :=
  let* lr := fetch_two page_id right_sib in
  do* make_node lr.1 in
  do* make_node lr.2 in
  do* merge_pages parent page_id right_sib (wrap 16 sep_slot) lr.1 lr.2 in
  do* unpin page_id true in
  do* unpin right_sib true in
  do* on_bp (delete_page right_sib) in
  after_merge fix_parent parent parent_id page_id.

(** Its left sibling absorbs the page. *)
Definition merge_left (fix_parent : M (BTree F) unit) (parent parent_id page_id left_sib : Z) :
    M (BTree F) unit :=
  let* lr := fetch_two left_sib page_id in
  do* make_node lr.1 in
  do* make_node lr.2 in
  let* slot := ask parent (left_sep_slot left_sib page_id) in
  do* merge_pages parent left_sib page_id slot lr.1 lr.2 in
  do* unpin left_sib true in
  do* unpin page_id true in
  do* on_bp (delete_page page_id) in
  after_merge fix_parent parent parent_id left_sib.

Fixpoint fix_underflow (page_id : Z) (breadcrumbs : list Z) : M (BTree F) unit :=
  match breadcrumbs with
  | [] => fix_root page_id
  | parent_id :: breadcrumbs' =>
      let* parent := fetch parent_id in
      do* make_node parent in
      let* sibs := ask parent (find_siblings page_id) in
      let sep_slot := sibs.1.1 in
      let left_sib := sibs.1.2 in
      let right_sib := sibs.2 in
      do* assert_ (0 <=? sep_slot) in
      let* done_left := try_borrow left_sib (fun left =>
        borrow_left parent parent_id page_id left_sib left sep_slot) in
      if done_left then ret tt
      else
        let* done_right := try_borrow right_sib (fun right =>
          borrow_right parent parent_id page_id right_sib right sep_slot) in
        if done_right then ret tt
        else if negb (right_sib =? INVALID_PAGE_ID) then
          merge_right (fix_underflow parent_id breadcrumbs') parent parent_id page_id right_sib sep_slot
        else if negb (left_sib =? INVALID_PAGE_ID) then
          merge_left (fix_underflow parent_id breadcrumbs') parent parent_id page_id left_sib
        else unpin parent_id false
  end.

Definition remove (key : bytes) : M (BTree F) bool :=
  let* fl := find_leaf key in
  let leaf := fl.1 in
  let* leaf_id := ask leaf page_id in
  do* make_node leaf in
  let* slot := ask leaf (lower_bound key) in
  let* found := ask leaf (slot_has slot key) in
  if negb found then
    do* unpin leaf_id false in
    ret false
  else
    do* at_page leaf (remove_cell slot) in
    let* low := ask leaf underflow in
    let* t := getS in
    let needs_fix := low && negb (leaf_id =? root_page_id_ t) in
    do* unpin leaf_id true in
    do* (if needs_fix then fix_underflow leaf_id fl.2 else ret tt) in
    ret true.
End ops.
