(* ===== verification/NodeSeparator.v ===== *)
(** * Changing a separator

    [update_separator_key] and the way around it that [fix_underflow] takes when
    the sizes differ, and [update_child_at], on the cells of an internal node. *)

From S2P Require Import Prelude.
From S2P Require Import Buffers.
From S2P Require Import Page.
From S2P Require Import Node.
From S2P Require Import NodeSlots.
From S2P Require Import KeyOrder.
From S2P Require Import NodeCells.
From S2P Require Import NodeKinds.
From S2P Require Import NodeOps.
From S2P Require Import NodeInsert.
From S2P Require Import NodeMerge.
From S2P Require Import BTree.

Implicit Types (p : Page) (cells : list (bytes * Z)) (k : bytes).

(** Length and key are overwritten where they are. *)
Lemma overwrite_key_ok p cells (i : nat) k (k' : bytes) (c : Z) :
  holds p cells -> cells !! i = Some (k, c) -> zlen k = zlen k' ->
  let off := pg_slot (Z.of_nat i) p in
  exists p', (do* st_i 2 (data off) (zlen k') in st (data off + 2) k') p = (Ok tt, p') /\
    holds p' (<[i:=(k', c)]> cells) /\ meta p' = meta p.
Proof.
  intros Hh Hi Hk off. pose proof (holds_length p cells Hh) as Hl.
  destruct (holds_cell p cells Hh i _ Hi) as (H1 & H2 & H3 & H4). fold off in H1, H2, H3, H4.
  pose proof (zlen_nonneg k'). assert (Hsz : zlen (enc (k, c)) = 2 + zlen k' + 4).
  { rewrite zlen_enc_internal. unfold internal_cell_size. lia. }
  set (bs := le_enc 2 (zlen k') ++ k').
  assert (Hbs : zlen bs = 2 + zlen k') by (unfold bs; rewrite zlen_app, zlen_le_enc; lia).
  assert (E : (do* st_i 2 (data off) (zlen k') in st (data off + 2) k') p = (Ok tt, wr (data off) bs p)).
  { unfold st_i. change (Z.to_nat 2) with 2%nat.
    mstep (st_ok (data off) (le_enc 2 (zlen k')) p ltac:(klia) ltac:(rewrite zlen_le_enc; klia)).
    replace (data off + 2) with (data off + zlen (le_enc 2 (zlen k'))) by (rewrite zlen_le_enc; lia).
    assert (Hw : zlen (wr (data off) (le_enc 2 (zlen k')) p) = zlen p) by (apply zlen_wr; rewrite ?zlen_le_enc; klia).
    rewrite st_ok by (rewrite ?Hw, zlen_le_enc; klia).
    unfold bs. by rewrite wr_wr_adjacent by (rewrite ?zlen_le_enc; klia). }
  eexists. split; [exact E|].
  assert (Hout : same_outside (data off) (data off + zlen (enc (k, c))) p (wr (data off) bs p)).
  { eapply same_outside_weaken; [apply wr_same_outside; klia|klia|klia]. }
  destruct (holds_replace p cells i (k, c) (k', c) Hh Hi) with (p' := wr (data off) bs p) as (G & _ & Mt); [|exact Hout| |done].
  - rewrite !zlen_enc_internal. by rewrite Hk.
  - fold off. pose proof (rd_wr_within (data off) (zlen (enc (k, c))) 0 bs p) as Hrd.
    rewrite Z.add_0_r in Hrd. rewrite Hrd by klia. rewrite H3. unfold enc, bs. cell_simpl. rewrite Hk.
    unfold wr. change (Z.to_nat 0) with 0%nat. rewrite take_0. cbn [app]. rewrite <- app_assoc. do 2 f_equal.
    rewrite app_assoc. apply drop_app_length'. rewrite !length_app. unfold zlen in Hk. lia.
Qed.

(** [update_separator_key]: the new key has the size of the old one and keeps
    its place among the others. *)
Lemma update_separator_key_ok p cells (i : nat) k (k' : bytes) (c : Z) :
  node p cells -> cells !! i = Some (k, c) -> zlen k = zlen k' ->
  sorted_cells fst (<[i := (k', c)]> cells) ->
  exists p', update_separator_key (Z.of_nat i) k' p = (Ok tt, p') /\
    node p' (<[i := (k', c)]> cells) /\ meta p' = meta p.
Proof.
  intros Hn Hi Hk Hs. pose proof Hn as [Hh Ht _ Hok]. pose proof (holds_length p cells Hh) as Hl.
  pose proof (lookup_lt_Some _ _ _ Hi) as Hlt.
  destruct (overwrite_key_ok p cells i k k' c Hh Hi Hk) as (p' & E & Hh' & Mt).
  exists p'. split; [|split; [|done]].
  - unfold update_separator_key. mstep (is_leaf_ok p Hl).
    rewrite bind_assert by (by rewrite bool_decide_eq_false_2 by (by rewrite Ht)).
    mstep (num_keys_ok p Hl). rewrite (holds_num p cells Hh).
    rewrite bind_assert by (apply Z.ltb_lt; unfold zlen; lia).
    mstep (key_at_holds p cells Hh i _ Hi). cell_simpl.
    rewrite bind_assert by by apply Z.eqb_eq.
    mstep (holds_slot_at p cells Hh i Hlt). exact E.
  - split; [done|by eapply node_meta_type|exact Hs|]. rewrite Forall_lookup in Hok |- *.
    intros j x [(-> & <- & _)|[_ Hj]]%list_lookup_insert_Some; [exact (Hok _ _ Hi)|exact (Hok _ _ Hj)].
Qed.

(** [update_child_at] overwrites the child of a cell. *)
Lemma update_child_at_ok p cells (i : nat) k (c c' : Z) :
  node p cells -> cells !! i = Some (k, c) -> is_page_id c' ->
  exists p', update_child_at (Z.of_nat i) c' p = (Ok tt, p') /\
    node p' (<[i := (k, c')]> cells) /\ meta p' = meta p.
Proof.
  intros Hn Hi Hc. pose proof Hn as [Hh Ht Hs Hok]. pose proof (holds_length p cells Hh) as Hl.
  pose proof (lookup_lt_Some _ _ _ Hi) as Hlt. set (off := pg_slot (Z.of_nat i) p).
  destruct (holds_cell p cells Hh i _ Hi) as (H1 & H2 & H3 & H4). fold off in H1, H2, H3, H4.
  pose proof (zlen_nonneg k). rewrite zlen_enc_internal in H2. unfold internal_cell_size in H2.
  set (p' := wr (data off + 2 + zlen k) (le_enc 4 c') p).
  assert (E : st_i 4 (data off + 2 + zlen k) c' p = (Ok tt, p')).
  { apply (st_ok _ (le_enc 4 c') p); rewrite ?zlen_le_enc; klia. }
  assert (Hout : same_outside (data off) (data off + zlen (enc (k, c))) p p').
  { rewrite zlen_enc_internal. unfold internal_cell_size.
    eapply same_outside_weaken; [apply wr_same_outside; rewrite ?zlen_le_enc; klia|klia|rewrite ?zlen_le_enc; klia]. }
  destruct (holds_replace p cells i (k, c) (k, c') Hh Hi) with (p' := p') as (G & _ & Mt); [|exact Hout| |].
  - by rewrite !zlen_enc_internal.
  - fold off. rewrite zlen_enc_internal. unfold p', internal_cell_size. rewrite <- (Z.add_assoc (data off)).
    pose proof (rd_wr_within (data off) (2 + zlen k + 4) (2 + zlen k) (le_enc 4 c') p) as Hrd.
    rewrite Hrd by (rewrite ?zlen_le_enc; klia). rewrite zlen_enc_internal in H3. unfold internal_cell_size in H3. rewrite H3.
    unfold enc. cell_simpl. unfold wr. rewrite drop_ge, app_nil_r, !app_assoc; [f_equal; apply take_app_length'|];
      rewrite !length_app, !length_le_enc; unfold zlen in *; lia.
  - exists p'. split; [|split; [|exact Mt]].
    + unfold update_child_at. mstep (is_leaf_ok p Hl).
      rewrite bind_assert by (by rewrite bool_decide_eq_false_2 by (by rewrite Ht)).
      mstep (num_keys_ok p Hl). rewrite (holds_num p cells Hh).
      rewrite bind_assert by (apply Z.ltb_lt; unfold zlen; lia).
      mstep (holds_slot_at p cells Hh i Hlt). mstep (holds_klen p cells Hh i _ Hi). exact E.
    + split; [done|by eapply node_meta_type| |].
      * by eapply sorted_replace.
      * rewrite Forall_lookup in Hok |- *.
        intros j x [(-> & <- & _)|[_ Hj]]%list_lookup_insert_Some; [exact Hc|exact (Hok _ _ Hj)].
Qed.

Lemma occupied_middle (l r : list (bytes * Z)) k c : occupied (l ++ (k, c) :: r) = occupied ((k, c) :: l ++ r).
Proof. by rewrite occupied_cons, !occupied_app, occupied_cons; lia. Qed.

(** ** The neighbours of a child *)

Definition left_child (fc : Z) (l : list (bytes * Z)) : Z := from_option snd fc (last l).
Definition right_child (r : list (bytes * Z)) : Z := from_option snd INVALID_PAGE_ID (head r).

Lemma child_at_ok p cells (i : nat) k c : node p cells -> cells !! i = Some (k, c) -> child_at (Z.of_nat i) p = Ok c.
Proof.
  intros [Hh Ht _ Hok] Hi. rewrite Forall_lookup in Hok.
  exact (child_at_holds p _ i k c Hh Ht Hi (Hok _ _ Hi)).
Qed.

Section siblings.
Context (p : Page) (l r : list (bytes * Z)) (s : bytes) (y : Z).
Hypothesis Hn : node p (l ++ (s, y) :: r).

Lemma num_16 : pg_num p = zlen l + 1 + zlen r /\ pg_num p < 65536.
Proof.
  pose proof (pg_num_range p) as Hr. rewrite (holds_num p _ (node_holds _ _ Hn)) in *.
  rewrite zlen_app, zlen_cons in *. split; [lia|apply Hr].
Qed.

(** The scan stops at the first slot with the page. *)
Lemma find_slot_ok (m i : nat) :
  (i + m = length l)%nat -> y ∉ l.*2 ->
  forall n, (m < n)%nat -> find_slot n (Z.of_nat i) y p = Ok (Some (zlen l)).
Proof.
  intros Hi Hy. revert i Hi. induction m as [|m IH]; intros i Hi [|n] Hlt; try lia; cbn [find_slot].
  - rewrite Nat.add_0_r in Hi. subst i. rewrite (result_bind_ok _ _ y) by (apply (child_at_ok _ _ _ s _ Hn); by rewrite list_lookup_middle).
    by rewrite Z.eqb_refl.
  - destruct (lookup_lt_is_Some_2 l i) as [[k c] Hk]; [lia|].
    rewrite (result_bind_ok _ _ c) by (apply (child_at_ok _ _ _ k _ Hn); by rewrite lookup_app_l by lia).
    rewrite (proj2 (Z.eqb_neq _ _)).
    + pose proof num_16. unfold zlen in *. rewrite wrap16_small by lia.
      replace (Z.of_nat i + 1) with (Z.of_nat (S i)) by lia. apply IH; lia.
    + intros ->. apply Hy, list_elem_of_fmap. exists (k, y). split; [done|by eapply list_elem_of_lookup_2].
Qed.

(** [find_siblings] of a child that is not the first. *)
Lemma find_siblings_ok :
  y <> pg_first p -> y ∉ l.*2 ->
  find_siblings y p = Ok (zlen l, left_child (pg_first p) l, right_child r).
Proof.
  intros Hfc Hy. pose proof (holds_length _ _ (node_holds _ _ Hn)) as Hl. pose proof num_16 as [Hnum H16].
  pose proof (zlen_nonneg l). pose proof (zlen_nonneg r).
  unfold find_siblings. rewrite (result_bind_ok _ _ _ (first_child_ok p Hl)).
  rewrite (proj2 (Z.eqb_neq _ _)) by done. rewrite (result_bind_ok _ _ _ (num_keys_ok p Hl)), Hnum.
  rewrite (result_bind_ok _ _ (Some (zlen l)))
    by (apply (find_slot_ok (length l) 0); [lia|done|unfold zlen in *; lia]).
  rewrite (result_bind_ok _ _ (right_child r)).
  - rewrite (result_bind_ok _ _ (left_child (pg_first p) l)); [done|]. unfold left_child.
    destruct l as [|x l' _] eqn:El using rev_ind; [done|]. rewrite last_snoc, zlen_app, zlen_cons, zlen_nil.
    pose proof (zlen_nonneg l'). rewrite (proj2 (Z.eqb_neq _ _)) by lia. destruct x as [k c].
    rewrite zlen_app, zlen_cons, zlen_nil in *. rewrite wrap16_small by lia.
    replace (zlen l' + (1 + 0) - 1) with (Z.of_nat (length l')) by (unfold zlen; lia).
    apply (child_at_ok _ _ _ k _ Hn). rewrite <- app_assoc. cbn [app]. by rewrite list_lookup_middle.
  - unfold right_child. destruct r as [|[k c] r'].
    + rewrite zlen_nil. by rewrite (proj2 (Z.ltb_ge _ _)) by lia.
    + rewrite zlen_cons in *. pose proof (zlen_nonneg r'). rewrite (proj2 (Z.ltb_lt _ _)) by lia.
      rewrite wrap16_small by lia. replace (zlen l + 1) with (Z.of_nat (S (length l))) by (unfold zlen; lia).
      apply (child_at_ok _ _ _ k _ Hn). rewrite lookup_app_r by lia.
      by replace (S (length l) - length l)%nat with 1%nat by lia.
Qed.

(** [find_siblings] of the first child. *)
Lemma find_siblings_first : l = [] -> find_siblings (pg_first p) p = Ok (0, INVALID_PAGE_ID, y).
Proof.
  intros ->. pose proof (holds_length _ _ (node_holds _ _ Hn)) as Hl.
  unfold find_siblings. rewrite (result_bind_ok _ _ _ (first_child_ok p Hl)), Z.eqb_refl.
  by rewrite (result_bind_ok _ _ y) by by apply (child_at_ok _ _ 0 s _ Hn).
Qed.
End siblings.
