(* ===== verification/Tree.v ===== *)
(** * The tree in the pages

    [subtree V h pid lo hi kvs pids]: in the pages [V], the node [pid] is the
    root of a tree of height [h] whose keys lie in [lo, hi); [kvs] are the
    entries of its leaves in order and [pids] its pages.  [context] is such a
    tree with a hole for one of its subtrees, and the nodes above the hole are
    what [find_leaf] collects as breadcrumbs: looking a key up moves the hole
    down along [route], plugging the hole gives a tree again. *)

From stdpp Require Import functions.
From S2P Require Import Prelude.
From S2P Require Import Buffers.
From S2P Require Import Page.
From S2P Require Import Node.
From S2P Require Import NodeSlots.
From S2P Require Import KeyOrder.
From S2P Require Import NodeCells.
From S2P Require Import NodeKinds.

(** ** Key ranges *)

Definition above (lo : option bytes) (k : bytes) : Prop :=
  match lo with Some l => ~ key_lt k l | None => True end.
Definition below (hi : option bytes) (k : bytes) : Prop :=
  match hi with Some h => key_lt k h | None => True end.
Definition in_range (lo hi : option bytes) (k : bytes) : Prop := above lo k /\ below hi k.

Lemma key_le_lt_trans (a b c : bytes) : ~ key_lt b a -> key_lt b c -> key_lt a c.
Proof.
  intros Hab Hbc. destruct (decide (key_lt a c)) as [|Hac]; [done|]. exfalso.
  destruct (decide (key_lt c a)) as [Hca|Hca].
  - apply Hab. by eapply key_lt_trans.
  - apply Hab. by rewrite (key_lt_total a c).
Qed.

Lemma key_lt_le_trans (a b c : bytes) : key_lt a b -> ~ key_lt c b -> key_lt a c.
Proof.
  intros Hab Hcb. destruct (decide (key_lt b c)) as [|Hbc]; [by eapply key_lt_trans|].
  by rewrite <- (key_lt_total b c).
Qed.

Lemma key_le_trans (a b c : bytes) : ~ key_lt b a -> ~ key_lt c b -> ~ key_lt c a.
Proof. intros Hab Hcb Hca. apply Hcb. by eapply key_lt_le_trans. Qed.

Lemma above_trans (lo : option bytes) (k x : bytes) : above lo k -> ~ key_lt x k -> above lo x.
Proof. destruct lo as [l|]; [|done]. simpl. intros. by eapply key_le_trans. Qed.

Lemma below_trans (hi : option bytes) (k x : bytes) : below hi k -> ~ key_lt k x -> below hi x.
Proof. destruct hi as [h|]; [|done]. simpl. intros. by eapply key_le_lt_trans. Qed.

Abbreviation kv := (bytes * bytes)%type.

Definition keys_in (lo hi : option bytes) (l : list kv) : Prop :=
  forall k, k ∈ l.*1 -> in_range lo hi k.

Lemma keys_in_app (lo hi : option bytes) (l1 l2 : list kv) :
  keys_in lo hi (l1 ++ l2) <-> keys_in lo hi l1 /\ keys_in lo hi l2.
Proof.
  unfold keys_in. rewrite fmap_app. split.
  - intros Hk. split; intros k Hin; apply Hk, elem_of_app; tauto.
  - intros [H1 H2] k [Hin|Hin]%elem_of_app; auto.
Qed.

(** ** Routing in one node *)

(** The child a key leads to: the one before the first separator above it. *)
Fixpoint route (c : Z) (cells : list (bytes * Z)) (key : bytes) : Z :=
  match cells with
  | [] => c
  | (k, c') :: cells' => if key_ltb key k then c else route c' cells' key
  end.

Section forest.
Implicit Types (R : Z -> option bytes -> option bytes -> list kv -> list Z -> Prop).

(** The children of a node, left to right: [c] and those of [cells]. *)
Inductive forest R : Z -> option bytes -> list (bytes * Z) -> option bytes -> list kv -> list Z -> Prop :=
| forest_last c lo hi kvs pids :
    R c lo hi kvs pids -> forest R c lo [] hi kvs pids
| forest_cons c lo k c' cells hi kvs1 pids1 kvs2 pids2 :
    in_range lo hi k -> R c lo (Some k) kvs1 pids1 ->
    forest R c' (Some k) cells hi kvs2 pids2 ->
    forest R c lo ((k, c') :: cells) hi (kvs1 ++ kvs2) (pids1 ++ pids2).

Lemma forest_mono R R' c lo cells hi kvs pids :
  (forall d l h ks ps, R d l h ks ps -> (forall j, j ∈ ps -> j ∈ pids) -> R' d l h ks ps) ->
  forest R c lo cells hi kvs pids -> forest R' c lo cells hi kvs pids.
Proof.
  intros HR Hf. induction Hf as [|c lo k c' cells hi kvs1 pids1 kvs2 pids2 Hk Hc Hf IH].
  - constructor. by apply HR.
  - constructor; [done| |].
    + apply HR; [done|]. intros j Hj. apply elem_of_app. by left.
    + apply IH. intros d l h ks ps Hd Hps. apply HR; [done|].
      intros j Hj. apply elem_of_app. right. by apply Hps.
Qed.

(** A forest with a hole: [before], the children to its left, and [after],
    those to its right. *)
Inductive before R (hi : option bytes) :
    Z -> option bytes -> list (bytes * Z) -> Z -> option bytes -> list kv -> list Z -> Prop :=
| before_nil c lo : before R hi c lo [] c lo [] []
| before_cons c lo k c' l d lo' ks ps kvs pids :
    in_range lo hi k -> R c lo (Some k) ks ps -> before R hi c' (Some k) l d lo' kvs pids ->
    before R hi c lo ((k, c') :: l) d lo' (ks ++ kvs) (ps ++ pids).

Definition after R (lo hi' : option bytes) (r : list (bytes * Z)) (hi : option bytes)
    (kvs : list kv) (pids : list Z) : Prop :=
  match r with
  | [] => hi' = hi /\ kvs = [] /\ pids = []
  | (k, c) :: r' => hi' = Some k /\ in_range lo hi k /\ forest R c (Some k) r' hi kvs pids
  end.

Lemma forest_plug R hi c lo l d lo' hi' kb pb kvs pids r ka pa :
  before R hi c lo l d lo' kb pb -> R d lo' hi' kvs pids -> after R lo' hi' r hi ka pa ->
  forest R c lo (l ++ r) hi (kb ++ kvs ++ ka) (pb ++ pids ++ pa).
Proof.
  intros Hb Hd Ha. induction Hb as [c lo|c lo k c' l d lo' ks ps kvs' pids' Hk Hc Hb IH]; simpl.
  - destruct r as [|[k c'] r].
    + destruct Ha as (-> & -> & ->). rewrite !app_nil_r. by constructor.
    + destruct Ha as (-> & Hk & Hf). by constructor.
  - rewrite <- !app_assoc. constructor; [done..|]. by apply IH.
Qed.

Lemma before_mono R R' hi c lo l d lo' kvs pids :
  (forall d l h ks ps, R d l h ks ps -> (forall j, j ∈ ps -> j ∈ pids) -> R' d l h ks ps) ->
  before R hi c lo l d lo' kvs pids -> before R' hi c lo l d lo' kvs pids.
Proof.
  intros HR Hb. induction Hb as [c lo|c lo k c' l d lo' ks ps kvs pids Hk Hc Hb IH]; constructor; [done| |].
  - apply HR; [done|]. intros j Hj. apply elem_of_app. by left.
  - apply IH. intros e l' h ks' ps' He Hps. apply HR; [done|].
    intros j Hj. apply elem_of_app. right. by apply Hps.
Qed.

Lemma after_mono R R' lo hi' r hi kvs pids :
  (forall d l h ks ps, R d l h ks ps -> (forall j, j ∈ ps -> j ∈ pids) -> R' d l h ks ps) ->
  after R lo hi' r hi kvs pids -> after R' lo hi' r hi kvs pids.
Proof.
  intros HR. destruct r as [|[k c] r]; [done|]. intros (-> & Hk & Hf). split; [done|].
  split; [done|]. by eapply forest_mono.
Qed.

Lemma forest_forall R (P : Z -> Prop) c lo cells hi kvs pids :
  (forall d l h ks ps, R d l h ks ps -> forall j, j ∈ ps -> P j) ->
  forest R c lo cells hi kvs pids -> forall j, j ∈ pids -> P j.
Proof.
  intros HP. induction 1 as [c lo hi kvs pids Hc|c lo k c' cells hi kvs1 pids1 kvs2 pids2 Hk Hc Hf IH]; intros j.
  - by eapply HP.
  - intros [Hj|Hj]%elem_of_app; [by eapply HP|by apply IH].
Qed.

Section bounds.
Context R (HR : forall c lo hi kvs pids, R c lo hi kvs pids -> keys_in lo hi kvs).

Lemma forest_keys c lo cells hi kvs pids :
  forest R c lo cells hi kvs pids -> keys_in lo hi kvs.
Proof.
  induction 1 as [|c lo k c' cells hi kvs1 pids1 kvs2 pids2 [Ha Hb] Hc Hf IH]; [by eapply HR|].
  apply keys_in_app. split.
  - intros x Hx. destruct (HR _ _ _ _ _ Hc x Hx) as [H1 H2]. split; [done|].
    eapply below_trans; [exact Hb|]. by apply key_lt_asym.
  - intros x Hx. destruct (IH x Hx) as [H1 H2]. split; [|done]. by eapply above_trans.
Qed.

Lemma forest_sorted (HS : forall c lo hi kvs pids, R c lo hi kvs pids -> sorted_cells fst kvs)
    c lo cells hi kvs pids :
  forest R c lo cells hi kvs pids -> sorted_cells fst kvs.
Proof.
  induction 1 as [|c lo k c' cells hi kvs1 pids1 kvs2 pids2 [Ha Hb] Hc Hf IH]; [by eapply HS|].
  apply sorted_app. split; [by eapply HS|]. split; [done|]. intros x y Hx Hy.
  assert (key_lt x.1 k) as Hxk by (apply (HR _ _ _ _ _ Hc); by apply list_elem_of_fmap_2).
  assert (~ key_lt y.1 k) as Hyk by (apply (forest_keys _ _ _ _ _ _ Hf); by apply list_elem_of_fmap_2).
  by eapply key_lt_le_trans.
Qed.

(** The child a key is routed to. *)
Lemma forest_locate c lo cells hi kvs pids key :
  forest R c lo cells hi kvs pids -> in_range lo hi key ->
  exists l r lo' hi' kvs' pids' kb ka pb pa,
    cells = l ++ r /\ before R hi c lo l (route c cells key) lo' kb pb /\
    R (route c cells key) lo' hi' kvs' pids' /\ after R lo' hi' r hi ka pa /\ in_range lo' hi' key /\
    kvs = kb ++ kvs' ++ ka /\ pids = pb ++ pids' ++ pa /\
    (forall x, x ∈ kb.*1 -> key_lt x key) /\ (forall x, x ∈ ka.*1 -> key_lt key x).
Proof.
  induction 1 as [c lo hi kvs pids Hc|c lo k c' cells hi kvs1 pids1 kvs2 pids2 Hk Hc Hf IH];
    intros [Hlo Hhi]; simpl.
  - exists [], [], lo, hi, kvs, pids, [], [], [], []. rewrite !app_nil_r.
    split_and!; try done; [constructor|by intros x ?%not_elem_of_nil..].
  - destruct (key_ltb key k) eqn:Hkey.
    + exists [], ((k, c') :: cells), lo, (Some k), kvs1, pids1, [], kvs2, [], pids2.
      split_and!; try done; [constructor|by intros x ?%not_elem_of_nil|].
      intros x Hx. destruct (forest_keys _ _ _ _ _ _ Hf x Hx) as [Hxk _]. by eapply key_lt_le_trans.
    + assert (Hk' : ~ key_lt key k) by (unfold key_lt; by rewrite Hkey).
      destruct IH as (l & r & lo' & hi' & kvs' & pids' & kb & ka & pb & pa & -> & H1 & H2 & H3 & H4 & -> & -> & H5 & H6);
        [done|].
      exists ((k, c') :: l), r, lo', hi', kvs', pids', (kvs1 ++ kb), ka, (pids1 ++ pb), pa.
      rewrite <- !app_assoc. split_and!; try done; [by constructor|].
      intros x. rewrite fmap_app. intros [Hx|Hx]%elem_of_app; [|by apply H5].
      destruct (HR _ _ _ _ _ Hc x Hx) as [_ Hxk]. by eapply key_lt_le_trans.
Qed.
End bounds.
End forest.

(** ** Trees *)

(** The page is a node of one of the two kinds. *)
Definition is_node (p : Page) : Prop :=
  (exists cells : list kv, node p cells) \/ (exists cells : list (bytes * Z), node p cells).

(** The pages differ in links that lookups do not follow. *)
Record same_node (p p' : Page) : Prop := {
  sn_id : pg_id p' = pg_id p;
  sn_first : pg_first p' = pg_first p;
  sn_right : pg_right p' = pg_right p;
  sn_type : pg_type p' = pg_type p;
  sn_leaf : forall cells : list kv, node p cells -> node p' cells;
  sn_internal : forall cells : list (bytes * Z), node p cells -> node p' cells;
}.

#[export] Instance same_node_refl : Reflexive same_node.
Proof. by split. Qed.

#[export] Instance same_node_trans : Transitive same_node.
Proof. intros p q r [] []. split; try congruence; auto. Qed.

Lemma same_node_is_node (p p' : Page) : same_node p p' -> is_node p -> is_node p'.
Proof. intros [_ _ _ _ N1 N2] [[cells Hn]|[cells Hn]]; [left|right]; exists cells; auto. Qed.

Section tree.
Implicit Types (V : Z -> Page) (pid : Z) (lo hi : option bytes) (kvs : list kv) (pids : list Z).

Fixpoint subtree V (h : nat) pid lo hi kvs pids : Prop :=
  pg_id (V pid) = pid /\
  match h with
  | O => node (V pid) kvs /\ keys_in lo hi kvs /\ pids = [pid]
  | S h' => exists (cells : list (bytes * Z)) pids', node (V pid) cells /\ pids = pid :: pids' /\
      forest (subtree V h') (pg_first (V pid)) lo cells hi kvs pids'
  end.

Lemma subtree_keys V h pid lo hi kvs pids : subtree V h pid lo hi kvs pids -> keys_in lo hi kvs.
Proof.
  revert pid lo hi kvs pids. induction h as [|h IH]; intros pid lo hi kvs pids; simpl.
  - tauto.
  - intros (_ & cells & pids' & _ & _ & Hf). eapply forest_keys; [exact IH|exact Hf].
Qed.

Lemma subtree_sorted V h pid lo hi kvs pids :
  subtree V h pid lo hi kvs pids -> sorted_cells fst kvs.
Proof.
  revert pid lo hi kvs pids. induction h as [|h IH]; intros pid lo hi kvs pids; simpl.
  - intros (_ & Hn & _). apply (node_sorted _ _ Hn).
  - intros (_ & cells & pids' & _ & _ & Hf). eapply forest_sorted; [|exact IH|exact Hf].
    apply subtree_keys.
Qed.

(** A tree depends on its own pages only, and not on their headers. *)
Lemma subtree_frame V V' h pid lo hi kvs pids :
  subtree V h pid lo hi kvs pids -> (forall j, j ∈ pids -> same_node (V j) (V' j)) ->
  subtree V' h pid lo hi kvs pids.
Proof.
  revert pid lo hi kvs pids. induction h as [|h IH]; intros pid lo hi kvs pids; simpl.
  - intros (Hid & Hn & Hk & ->) HV. destruct (HV pid) as [I _ _ _ N _]; [by left|].
    split; [congruence|]. by split; [apply N|].
  - intros (Hid & cells & pids' & Hn & -> & Hf) HV. destruct (HV pid) as [I C _ _ _ N]; [by left|].
    split; [congruence|]. exists cells, pids'. split; [by apply N|]. split; [done|]. rewrite C.
    eapply forest_mono; [|exact Hf].
    intros d l h' ks ps Hd Hps. apply IH; [done|]. intros j Hj. apply HV. right. by apply Hps.
Qed.

Lemma subtree_ids V h pid lo hi kvs pids :
  subtree V h pid lo hi kvs pids -> forall j, j ∈ pids -> pg_id (V j) = j /\ is_node (V j).
Proof.
  revert pid lo hi kvs pids. induction h as [|h IH]; intros pid lo hi kvs pids; simpl.
  - intros (Hid & Hn & _ & ->) j ->%list_elem_of_singleton. split; [done|]. left. by exists kvs.
  - intros (Hid & cells & pids' & Hn & -> & Hf) j [->|Hj]%elem_of_cons.
    { split; [done|]. right. by exists cells. }
    exact (forest_forall _ (fun j => pg_id (V j) = j /\ is_node (V j)) _ _ _ _ _ _ IH Hf j Hj).
Qed.

Lemma subtree_root V h pid lo hi kvs pids : subtree V h pid lo hi kvs pids -> pid ∈ pids.
Proof. destruct h; [intros (_ & _ & _ & ->)|intros (_ & ? & ? & _ & -> & _)]; by left. Qed.

(** A tree is higher than it has pages only if it has none. *)
Lemma subtree_height V h pid lo hi kvs pids : subtree V h pid lo hi kvs pids -> (h < length pids)%nat.
Proof.
  revert pid lo hi kvs pids. induction h as [|h IH]; intros pid lo hi kvs pids; simpl.
  - intros (_ & _ & _ & ->). simpl. lia.
  - intros (_ & cells & pids' & _ & -> & Hf). simpl.
    enough (h < length pids')%nat by lia. destruct Hf as [c lo hi kvs pids Hc|c lo k c' cells hi ks1 ps1 ks2 ps2 _ Hc _].
    + by eapply IH.
    + rewrite length_app. apply IH in Hc. lia.
Qed.

(** The tree of height [H] under [root] without the subtree of height [h] at
    [c]: [crumbs] are the nodes above [c], [kb] and [ka] the entries before and
    after it, [pb] and [pa] the pages. *)
Inductive context V (H : nat) (root : Z) :
    nat -> Z -> option bytes -> option bytes -> list Z -> list kv -> list kv -> list Z -> list Z -> Prop :=
| context_top : context V H root H root None None [] [] [] [] []
| context_down h pid lo hi crumbs kb ka pb pa l r c lo' hi' kb' ka' pb' pa' :
    context V H root (S h) pid lo hi crumbs kb ka pb pa ->
    pg_id (V pid) = pid -> node (V pid) (l ++ r) ->
    before (subtree V h) hi (pg_first (V pid)) lo l c lo' kb' pb' ->
    after (subtree V h) lo' hi' r hi ka' pa' ->
    context V H root h c lo' hi' (pid :: crumbs) (kb ++ kb') (ka' ++ ka) (pb ++ pid :: pb') (pa' ++ pa).

Lemma context_plug V H root h c lo hi crumbs kb ka pb pa kvs pids :
  context V H root h c lo hi crumbs kb ka pb pa -> subtree V h c lo hi kvs pids ->
  subtree V H root None None (kb ++ kvs ++ ka) (pb ++ pids ++ pa).
Proof.
  intros Hx. revert kvs pids.
  induction Hx as [|h pid lo hi crumbs kb ka pb pa l r c lo' hi' kb' ka' pb' pa' Hx IH Hid Hn Hb Ha];
    intros kvs pids Hs.
  - simpl. by rewrite !app_nil_r.
  - rewrite <- !app_assoc. cbn [app].
    replace (kb ++ kb' ++ kvs ++ ka' ++ ka) with (kb ++ (kb' ++ kvs ++ ka') ++ ka) by by rewrite <- !app_assoc.
    replace (pb ++ pid :: pb' ++ pids ++ pa' ++ pa) with (pb ++ (pid :: pb' ++ pids ++ pa') ++ pa)
      by by cbn [app]; rewrite <- !app_assoc.
    apply IH. split; [done|]. exists (l ++ r), (pb' ++ pids ++ pa'). split; [done|]. split; [done|].
    by eapply forest_plug.
Qed.

Lemma context_frame V V' H root h c lo hi crumbs kb ka pb pa :
  context V H root h c lo hi crumbs kb ka pb pa ->
  (forall j, j ∈ pb ++ pa -> same_node (V j) (V' j)) ->
  context V' H root h c lo hi crumbs kb ka pb pa.
Proof.
  induction 1 as [|h pid lo hi crumbs kb ka pb pa l r c lo' hi' kb' ka' pb' pa' Hx IH Hid Hn Hb Ha];
    intros HV; [constructor|].
  assert (HV1 : forall j, j ∈ pb ++ pa \/ j = pid \/ j ∈ pb' \/ j ∈ pa' -> same_node (V j) (V' j)).
  { intros j Hj. apply HV. rewrite !elem_of_app, elem_of_cons. rewrite elem_of_app in Hj. tauto. }
  destruct (HV1 pid) as [I C _ _ _ N]; [tauto|].
  econstructor; [apply IH; intros j Hj; apply HV1; tauto|congruence|by apply N|rewrite C|].
  - eapply before_mono; [|exact Hb]. intros d l' h' ks ps Hd Hps.
    apply (subtree_frame V); [done|]. intros j Hj. apply HV1. right. right. left. by apply Hps.
  - eapply after_mono; [|exact Ha]. intros d l' h' ks ps Hd Hps.
    apply (subtree_frame V); [done|]. intros j Hj. apply HV1. right. right. right. by apply Hps.
Qed.

Lemma context_length V H root h c lo hi crumbs kb ka pb pa :
  context V H root h c lo hi crumbs kb ka pb pa -> (length crumbs + h = H)%nat.
Proof. induction 1; simpl; lia. Qed.

Lemma context_crumbs V H root h c lo hi crumbs kb ka pb pa j :
  context V H root h c lo hi crumbs kb ka pb pa -> j ∈ crumbs -> j ∈ pb.
Proof.
  induction 1 as [|h pid lo hi crumbs kb ka pb pa l r c lo' hi' kb' ka' pb' pa' Hx IH]; [done|].
  rewrite elem_of_app, !elem_of_cons. intros [->|Hj]; [tauto|]. left. by apply IH.
Qed.

(** The nodes a key passes on the way down; the path is listed bottom up. *)
Inductive descends V (key : bytes) : nat -> Z -> Z -> list Z -> Prop :=
| descends_leaf pid (lcells : list kv) : node (V pid) lcells -> descends V key 0 pid pid []
| descends_node h pid (cells : list (bytes * Z)) leaf path :
    node (V pid) cells -> descends V key h (route (pg_first (V pid)) cells key) leaf path ->
    descends V key (S h) pid leaf (path ++ [pid]).

(** The hole moves down to the leaf. *)
Lemma context_descend V H root h pid lo hi crumbs kb kvs ka pb pids pa key :
  context V H root h pid lo hi crumbs kb ka pb pa -> subtree V h pid lo hi kvs pids ->
  in_range lo hi key ->
  (forall x, x ∈ kb.*1 -> key_lt x key) -> (forall x, x ∈ ka.*1 -> key_lt key x) ->
  exists leaf path lo' hi' kb' lcells ka' pb' pa',
    descends V key h pid leaf path /\
    context V H root 0 leaf lo' hi' (path ++ crumbs) kb' ka' pb' pa' /\
    subtree V 0 leaf lo' hi' lcells [leaf] /\ in_range lo' hi' key /\
    kb ++ kvs ++ ka = kb' ++ lcells ++ ka' /\ pb ++ pids ++ pa = pb' ++ leaf :: pa' /\
    (forall x, x ∈ kb'.*1 -> key_lt x key) /\ (forall x, x ∈ ka'.*1 -> key_lt key x).
Proof.
  revert pid lo hi crumbs kb kvs ka pb pids pa.
  induction h as [|h IH]; intros pid lo hi crumbs kb kvs ka pb pids pa Hx Hs Hkey Hkb Hka.
  - pose proof Hs as (_ & Hn & _ & ->). exists pid, [], lo, hi, kb, kvs, ka, pb, pa.
    split; [by econstructor|]. by split_and!.
  - destruct Hs as (Hid & cells & pids' & Hn & -> & Hf).
    destruct (forest_locate _ (subtree_keys V h) _ _ _ _ _ _ _ Hf Hkey)
      as (l & r & lo1 & hi1 & kvs1 & pids1 & kb1 & ka1 & pb1 & pa1 & -> & Hb & Hsub & Ha & Hkey1 & -> & -> & Hb1 & Ha1).
    destruct (IH _ _ _ _ _ _ _ _ _ _ (context_down _ _ _ _ _ _ _ _ _ _ _ _ _ _ _ _ _ _ _ _ _ Hx Hid Hn Hb Ha) Hsub Hkey1)
      as (leaf & path & lo' & hi' & kb' & lcells & ka' & pb' & pa' & Hd & Hx' & Hleaf & Hkey' & Hkvs & Hpids & Hb' & Ha').
    { intros x. rewrite fmap_app. intros [?|?]%elem_of_app; auto. }
    { intros x. rewrite fmap_app. intros [?|?]%elem_of_app; auto. }
    exists leaf, (path ++ [pid]), lo', hi', kb', lcells, ka', pb', pa'.
    split; [by econstructor|]. split; [by rewrite <- app_assoc|].
    rewrite <- Hkvs, <- Hpids. cbn [app]. rewrite <- !app_assoc. cbn [app]. rewrite <- ?app_assoc.
    by split_and!.
Qed.
End tree.
