(* ===== verification/NodeCalls.v ===== *)
(** * The methods of a node, called in any order

    [node_call] lists the public methods of [Node] that touch one page, and
    [reached] the pages that any sequence of calls makes of a fresh node.  What
    the header asks of the caller is [wanted]; what the code asserts is
    [accepted]. *)

From S2P Require Import Prelude.
From S2P Require Import Buffers.
From S2P Require Import Page.
From S2P Require Import Node.
From S2P Require Import NodeSlots.
From S2P Require Import KeyOrder.
From S2P Require Import NodeCells.
From S2P Require Import NodeKinds.
From S2P Require Import NodeOps.
From S2P Require Import NodeInsert.
From S2P Require Import NodeSplit.
From S2P Require Import NodeMerge.
From S2P Require Import NodeSeparator.
From S2P Require Import Tree.

Inductive node_call : Type :=
| CKeyAt (slot : Z)
| CValueAt (slot : Z)
| CChildAt (slot : Z)
| CLowerBound (key : bytes)
| CIsFull (new_cell_bytes : Z)
| CUnderflow
| CInsertLeafCell (key value : bytes)
| CRemoveCell (slot : Z)
| CInsertSeparator (key : bytes) (right_child : Z)
| CUpdateSeparatorKey (slot : Z) (new_key : bytes)
| CUpdateChildAt (slot child_id : Z)
| CCompact
| CSetParent (id : Z)
| CSetRightSibling (id : Z)
| CSetLeftSibling (id : Z)
| CSetFirstChild (id : Z).

(** The call, without its result. *)
Definition do_call (c : node_call) : M Page unit :=
  match c with
  | CKeyAt slot => let* _ := query (key_at slot) in ret tt
  | CValueAt slot => let* _ := query (value_at slot) in ret tt
  | CChildAt slot => let* _ := query (child_at slot) in ret tt
  | CLowerBound key => let* _ := query (lower_bound key) in ret tt
  | CIsFull n => let* _ := query (is_full n) in ret tt
  | CUnderflow => let* _ := query underflow in ret tt
  | CInsertLeafCell key value => let* _ := insert_leaf_cell key value in ret tt
  | CRemoveCell slot => remove_cell slot
  | CInsertSeparator key child => let* _ := insert_separator key child in ret tt
  | CUpdateSeparatorKey slot key => update_separator_key slot key
  | CUpdateChildAt slot child => update_child_at slot child
  | CCompact => compact
  | CSetParent id => set_parent_id id
  | CSetRightSibling id => set_right_sibling id
  | CSetLeftSibling id => set_left_sibling id
  | CSetFirstChild id => set_first_child id
  end.

(** The assertions at the head of the methods. *)
Definition accepted (c : node_call) (p : Page) : bool :=
  let leaf := bool_decide (pg_type p = BTREE_LEAF) in
  match c with
  | CKeyAt slot | CRemoveCell slot => slot <? pg_num p
  | CValueAt slot => leaf && (slot <? pg_num p)
  | CChildAt slot | CUpdateChildAt slot _ => negb leaf && (slot <? pg_num p)
  | CInsertLeafCell _ _ => leaf
  | CInsertSeparator _ _ => negb leaf
  | CUpdateSeparatorKey slot key =>
      negb leaf && (slot <? pg_num p) &&
      match key_at slot p with Ok k => zlen k =? zlen key | Err _ => false end
  | _ => true
  end.

(** Slots are unsigned and page ids have 32 bits; a separator is inserted once,
    and one that is changed keeps its place. *)
Definition wanted (c : node_call) (p : Page) : Prop :=
  match c with
  | CKeyAt slot | CValueAt slot | CChildAt slot | CRemoveCell slot => 0 <= slot
  | CInsertSeparator key child => is_page_id child /\ forall i, key_at i p <> Ok key
  | CUpdateSeparatorKey slot key => 0 <= slot /\ forall i k, key_at i p = Ok k ->
      (i < slot -> key_lt k key) /\ (slot < i -> key_lt key k)
  | CUpdateChildAt slot child => 0 <= slot /\ is_page_id child
  | CSetParent id | CSetRightSibling id | CSetLeftSibling id | CSetFirstChild id => is_page_id id
  | _ => True
  end.

(** The pages of a node with the given id, after any calls. *)
Inductive reached (pid parent : Z) : Page -> Prop :=
| reached_leaf p : reached pid parent (init_leaf pid parent p).2
| reached_internal p : reached pid parent (init_internal pid parent p).2
| reached_call p c : reached pid parent p -> wanted c p -> reached pid parent (do_call c p).2.

(** A call on a page, with what it leaves: the node keeps its kind and its id. *)
Definition runs_well (c : node_call) (p : Page) : Prop :=
  if accepted c p then
    exists p', do_call c p = (Ok tt, p') /\ is_node p' /\ pg_type p' = pg_type p /\ pg_id p' = pg_id p
  else do_call c p = (Err AssertionFailure, p).

(** ** Slots *)

Section slots.
Context {A : Type} `{NodeKindLaws A} (p : Page) (cells : list A) (Hn : node p cells).

Lemma node_length : zlen p = PAGE_SIZE.
Proof. exact (holds_length p cells (node_holds _ _ Hn)). Qed.

Lemma slot_cell (slot : Z) : 0 <= slot -> (slot <? pg_num p) = true ->
  exists (i : nat) a, slot = Z.of_nat i /\ cells !! i = Some a.
Proof.
  intros Hpos Hs%Z.ltb_lt. rewrite (holds_num p cells (node_holds _ _ Hn)) in Hs. unfold zlen in Hs.
  destruct (lookup_lt_is_Some_2 cells (Z.to_nat slot)) as [a Ha]; [lia|]. exists (Z.to_nat slot), a. split; [lia|done].
Qed.

Lemma no_key_at (slot : Z) : (slot <? pg_num p) = false -> key_at slot p = Err AssertionFailure.
Proof. intros Hs. unfold key_at. mstep (num_keys_ok p node_length). by rewrite Hs. Qed.

Lemma key_at_cell (i : nat) a : cells !! i = Some a -> key_at (Z.of_nat i) p = Ok (cell_key a).
Proof. apply (key_at_holds p cells (node_holds _ _ Hn)). Qed.


(** ** The calls that do not depend on the kind *)

Context `{!CompactLaw A} (Hkind : forall q (cells' : list A), node q cells' -> is_node q).

(** A call that ends in a node of the same kind. *)
Lemma ends_well (m : M Page unit) p' (cells' : list A) :
  m p = (Ok tt, p') -> node p' cells' -> pg_id p' = pg_id p ->
  exists q, m p = (Ok tt, q) /\ is_node q /\ pg_type q = pg_type p /\ pg_id q = pg_id p.
Proof.
  intros E N I. exists p'. split; [exact E|]. split; [by eapply Hkind|]. split; [|exact I].
  by rewrite (node_type _ _ N), (node_type _ _ Hn).
Qed.

Lemma ends_meta (m : M Page unit) p' (cells' : list A) :
  m p = (Ok tt, p') -> node p' cells' -> meta p' = meta p ->
  exists q, m p = (Ok tt, q) /\ is_node q /\ pg_type q = pg_type p /\ pg_id q = pg_id p.
Proof. intros E N Mt. eapply ends_well; [exact E|exact N|]. unfold meta in Mt. by injection Mt. Qed.

Lemma reads_well {B : Type} (q : Page -> result B) (v : B) : q p = Ok v ->
  exists p', (let* _ := query q in ret tt) p = (Ok tt, p') /\ is_node p' /\ pg_type p' = pg_type p /\ pg_id p' = pg_id p.
Proof. intros E. eapply ends_meta; [by mstep E|exact Hn|done]. Qed.

Lemma sets_well (m : M Page unit) (f : Z * PageType * (Z * Z * Z * Z)) :
  (exists p', m p = (Ok tt, p') /\ node p' cells /\ pg_ce p' = pg_ce p /\ meta p' = f) -> f.1.1 = pg_id p ->
  exists p', m p = (Ok tt, p') /\ is_node p' /\ pg_type p' = pg_type p /\ pg_id p' = pg_id p.
Proof.
  intros (p' & E & N & _ & Mt) Hid. eapply ends_well; [exact E|exact N|]. rewrite <- Hid, <- Mt. done.
Qed.

(** The calls that both kinds have. *)
Definition kindless (c : node_call) : bool :=
  match c with
  | CValueAt _ | CChildAt _ | CInsertLeafCell _ _ | CInsertSeparator _ _ | CUpdateSeparatorKey _ _
  | CUpdateChildAt _ _ => false
  | _ => true
  end.

Lemma kindless_well (c : node_call) : kindless c = true -> wanted c p -> runs_well c p.
Proof.
  pose proof (node_holds _ _ Hn) as Hh. pose proof node_length as Hl. unfold runs_well.
  destruct c; try done; intros _ Hw; cbn [accepted do_call wanted] in *.
  - destruct (slot <? pg_num p) eqn:Hs; [|by unfold bind, query; rewrite (no_key_at slot Hs)].
    destruct (slot_cell slot Hw Hs) as (i & a & -> & Ha). by eapply reads_well, key_at_cell.
  - eapply reads_well, (lower_bound_holds p cells Hh key (node_sorted _ _ Hn)).
  - eapply reads_well, (is_full_holds p cells Hh).
  - eapply reads_well, (underflow_holds p cells Hn).
  - destruct (slot <? pg_num p) eqn:Hs.
    + destruct (slot_cell slot Hw Hs) as (i & a & -> & Ha).
      destruct (node_remove p cells i Hn (lookup_lt_Some _ _ _ Ha)) as (p' & E & N & _ & Mt). by eapply ends_meta.
    + unfold remove_cell. mstep (num_keys_ok p Hl). by rewrite bind_assert_false.
  - destruct (compact_ok p cells Hn) as (p' & E & N & _ & Mt). by eapply ends_meta.
  - by eapply sets_well; [apply (set_parent_id_ok p cells id Hn Hw)|].
  - by eapply sets_well; [apply (set_right_sibling_ok p cells id Hn Hw)|].
  - by eapply sets_well; [apply (set_left_sibling_ok p cells id Hn Hw)|].
  - by eapply sets_well; [apply (set_first_child_ok p cells id Hn Hw)|].
Qed.
End slots.

(** ** Leaves and internal nodes *)

Lemma leaf_is_node p (cells : list kv) : node p cells -> is_node p.
Proof. intros Hn. left. by exists cells. Qed.

Lemma internal_is_node p (cells : list (bytes * Z)) : node p cells -> is_node p.
Proof. intros Hn. right. by exists cells. Qed.

Lemma leaf_call p (cells : list kv) (c : node_call) : node p cells -> wanted c p -> runs_well c p.
Proof.
  intros Hn Hw. destruct (kindless c) eqn:Hk; [exact (kindless_well p cells Hn leaf_is_node c Hk Hw)|].
  pose proof (node_length p cells Hn) as Hl. pose proof (node_type _ _ Hn) as Ht. cbn [nk_type leaf_kind] in Ht.
  assert (Hleaf : bool_decide (pg_type p = BTREE_LEAF) = true) by by apply bool_decide_eq_true_2.
  unfold runs_well. destruct c; try done; cbn [accepted do_call wanted] in *; cbv zeta; rewrite Hleaf; cbn [andb negb].
  - destruct (slot <? pg_num p) eqn:Hs.
    + destruct (slot_cell p cells Hn slot Hw Hs) as (i & [k v] & -> & Ha).
      eapply (reads_well p cells Hn leaf_is_node), value_at_holds; [apply (node_holds _ _ Hn)|exact Ht|exact Ha].
    + unfold value_at, bind, query. rewrite (result_bind_ok _ _ _ (is_leaf_ok p Hl)), Hleaf. cbn [assert_r result_bind].
      rewrite (result_bind_ok _ _ _ (num_keys_ok p Hl)). by rewrite Hs.
  - unfold child_at, bind, query. by rewrite (result_bind_ok _ _ _ (is_leaf_ok p Hl)), Hleaf.
  - destruct (insert_leaf_cell_ok p cells key value Hn) as (p' & E & Mt & N & _).
    eapply (ends_meta p cells Hn leaf_is_node); [by mstep E|exact N|exact Mt].
  - unfold insert_separator. rewrite bind_assoc. mstep (is_leaf_ok p Hl). by rewrite Hleaf.
  - unfold update_separator_key. mstep (is_leaf_ok p Hl). by rewrite Hleaf.
  - unfold update_child_at. mstep (is_leaf_ok p Hl). by rewrite Hleaf.
Qed.

(** A separator that keeps its place. *)
Lemma update_separator_call p (cells : list (bytes * Z)) (slot : Z) (new_key : bytes) :
  node p cells -> wanted (CUpdateSeparatorKey slot new_key) p -> runs_well (CUpdateSeparatorKey slot new_key) p.
Proof.
  intros Hn [Hpos Hord]. pose proof (node_length p cells Hn) as Hl. pose proof (node_type _ _ Hn) as Ht.
  assert (Hleaf : bool_decide (pg_type p = BTREE_LEAF) = false) by (apply bool_decide_eq_false_2; by rewrite Ht).
  unfold runs_well. cbn [accepted do_call]. cbv zeta. rewrite Hleaf. cbn [andb negb].
  destruct (slot <? pg_num p) eqn:Hs; cbn [andb].
  + destruct (slot_cell p cells Hn slot Hpos Hs) as (i & [k c] & -> & Ha).
    pose proof (key_at_cell p cells Hn i _ Ha) as Ek. rewrite Ek. cell_simpl.
    destruct (zlen k =? zlen new_key) eqn:Hz.
    * destruct (update_separator_key_ok p cells i k new_key c Hn Ha) as (p' & E & N & Mt); [by apply Z.eqb_eq| |].
      -- apply sorted_of_lookup. intros u w y z Hu Hw' Huw. pose proof (node_sorted _ _ Hn) as Hsort.
         apply list_lookup_insert_Some in Hu as [(-> & <- & _)|[Hne1 Hu]];
           apply list_lookup_insert_Some in Hw' as [(-> & <- & _)|[Hne2 Hw']]; [lia|..].
         ++ apply (Hord (Z.of_nat w) _ (key_at_cell p cells Hn w z Hw')). lia.
         ++ apply (Hord (Z.of_nat u) _ (key_at_cell p cells Hn u y Hu)). lia.
         ++ by apply (sorted_lookup fst cells u w).
      -- by eapply (ends_meta p cells Hn internal_is_node).
    * unfold update_separator_key. mstep (is_leaf_ok p Hl). rewrite Hleaf, bind_assert by done.
      mstep (num_keys_ok p Hl). rewrite Hs, bind_assert by done. mstep Ek. cell_simpl. by rewrite Hz.
  + unfold update_separator_key. mstep (is_leaf_ok p Hl). rewrite Hleaf, bind_assert by done.
    mstep (num_keys_ok p Hl). by rewrite Hs.
Qed.

Lemma internal_call p (cells : list (bytes * Z)) (c : node_call) : node p cells -> wanted c p -> runs_well c p.
Proof.
  intros Hn Hw. destruct (kindless c) eqn:Hk; [exact (kindless_well p cells Hn internal_is_node c Hk Hw)|].
  pose proof (node_length p cells Hn) as Hl. pose proof (node_type _ _ Hn) as Ht. cbn [nk_type internal_kind] in Ht.
  assert (Hleaf : bool_decide (pg_type p = BTREE_LEAF) = false) by (apply bool_decide_eq_false_2; by rewrite Ht).
  pose proof (node_ok _ _ Hn) as Hok. rewrite Forall_lookup in Hok.
  unfold runs_well. destruct c; try done; cbn [accepted do_call wanted] in *; cbv zeta; rewrite Hleaf; cbn [andb negb].
  - unfold value_at, bind, query. by rewrite (result_bind_ok _ _ _ (is_leaf_ok p Hl)), Hleaf.
  - destruct (slot <? pg_num p) eqn:Hs.
    + destruct (slot_cell p cells Hn slot Hw Hs) as (i & [k v] & -> & Ha).
      by eapply (reads_well p cells Hn internal_is_node), child_at_ok.
    + unfold child_at, bind, query. rewrite (result_bind_ok _ _ _ (is_leaf_ok p Hl)), Hleaf. cbn [assert_r negb result_bind].
      rewrite (result_bind_ok _ _ _ (num_keys_ok p Hl)). by rewrite Hs.
  - unfold insert_leaf_cell. rewrite bind_assoc. mstep (is_leaf_ok p Hl). by rewrite Hleaf.
  - destruct Hw as [Hc Hnew]. destruct (insert_separator_ok p cells key right_child Hn) as (p' & E & Mt & N & _); [|exact Hc|].
    + intros (x & -> & Hx)%list_elem_of_fmap. apply list_elem_of_lookup in Hx as [i Hi].
      apply (Hnew (Z.of_nat i)). exact (key_at_cell p cells Hn i x Hi).
    + eapply (ends_meta p cells Hn internal_is_node); [by mstep E|exact N|exact Mt].
  - pose proof (update_separator_call p cells slot new_key Hn Hw) as Hc. unfold runs_well in Hc.
    cbn [accepted do_call] in Hc. cbv zeta in Hc. by rewrite Hleaf in Hc.
  - destruct Hw as [Hpos Hc]. destruct (slot <? pg_num p) eqn:Hs.
    + destruct (slot_cell p cells Hn slot Hpos Hs) as (i & [k c] & -> & Ha).
      destruct (update_child_at_ok p cells i k c child_id Hn Ha Hc) as (p' & E & N & Mt).
      by eapply (ends_meta p cells Hn internal_is_node).
    + unfold update_child_at. mstep (is_leaf_ok p Hl). rewrite Hleaf, bind_assert by done.
      mstep (num_keys_ok p Hl). by rewrite Hs.
Qed.

Lemma node_call_ok p (c : node_call) : is_node p -> wanted c p -> runs_well c p.
Proof. intros [[cells Hn]|[cells Hn]]; [by eapply leaf_call|by eapply internal_call]. Qed.

(** ** Any calls *)

Lemma reached_node (pid parent : Z) p :
  is_page_id pid -> is_page_id parent -> reached pid parent p -> is_node p /\ pg_id p = pid.
Proof.
  intros Hpid Hpar. induction 1 as [p|p|p c Hr [IHn IHid] Hw].
  - destruct (init_leaf_ok pid parent p Hpid Hpar) as (p' & E & N & _ & Mt). rewrite E. cbn [snd].
    split; [by eapply leaf_is_node|]. by injection Mt.
  - destruct (init_internal_ok pid parent p Hpid Hpar) as (p' & E & N & _ & Mt). rewrite E. cbn [snd].
    split; [by eapply internal_is_node|]. by injection Mt.
  - pose proof (node_call_ok p c IHn Hw) as Hc. unfold runs_well in Hc. destruct (accepted c p); [|by rewrite Hc].
    destruct Hc as (p' & E & N & _ & I). rewrite E. cbn [snd]. split; [exact N|congruence].
Qed.
