(* ===== verification/TreeNav.v ===== *)
(** * Finding the leaf of a key

    [next_child] follows [route], so [find_leaf] ends in the leaf that
    [context_descend] describes, with that leaf pinned and nothing else, and
    the breadcrumbs are those of the context of the leaf. *)

From stdpp Require Import functions.
From S2P Require Import Prelude.
From S2P Require Import Buffers.
From S2P Require Import Page.
From S2P Require Import Node.
From S2P Require Import NodeSlots.
From S2P Require Import KeyOrder.
From S2P Require Import NodeCells.
From S2P Require Import NodeKinds.
From S2P Require Import DiskManager.
From S2P Require Import FreeList.
From S2P Require Import BufferPool.
From S2P Require Import PoolSpec.
From S2P Require Import PoolOps.
From S2P Require Import BTree.
From S2P Require Import Tree.

(** ** One step down *)

Lemma route_at (c : Z) (cells : list (bytes * Z)) (key : bytes) (u : nat) :
  (u <= length cells)%nat ->
  (forall i x, cells !! i = Some x -> (i < u)%nat -> ~ key_lt key x.1) ->
  (forall x, cells !! u = Some x -> key_lt key x.1) ->
  route c cells key = match u with O => c | S u' => from_option snd c (cells !! u') end.
Proof.
  revert c u. induction cells as [|[k d] cells IH]; intros c u Hu Hlo Hhi.
  - simpl in Hu. by replace u with O by lia.
  - cbn [route]. destruct u as [|u].
    + by rewrite (Hhi (k, d) eq_refl : key_ltb key k = true).
    + destruct (key_ltb key k) eqn:Hk.
      { exfalso. apply (Hlo O (k, d)); [done|lia|exact Hk]. }
      simpl in Hu. rewrite (IH d u); [|lia| |].
      * destruct u as [|u]; [done|]. change (((k, d) :: cells) !! S u) with (cells !! u).
        destruct (lookup_lt_is_Some_2 cells u) as [y Hy]; [lia|]. by rewrite Hy.
      * intros i x Hx Hi. apply (Hlo (S i)); [done|lia].
      * intros x Hx. by apply Hhi.
Qed.

Section next_child.
Context (p : Page) (cells : list (bytes * Z)) (key : bytes).
Hypothesis Hn : node p cells.

Let lb := lb_index fst key cells.

Lemma upper_bound_stop (fuel u : nat) :
  (forall x, cells !! u = Some x -> x.1 <> key) ->
  upper_bound_loop fuel key (Z.of_nat u) p = Ok (Z.of_nat u).
Proof.
  intros Hu. pose proof (node_holds _ _ Hn) as Hh. pose proof (holds_length p cells Hh) as Hl.
  destruct fuel; cbn [upper_bound_loop]; rewrite (result_bind_ok _ _ _ (num_keys_ok p Hl));
    rewrite (holds_num p cells Hh);
    (destruct (Z.ltb_spec (Z.of_nat u) (zlen cells)) as [Hlt|]; [|done];
     destruct (lookup_lt_is_Some_2 cells u) as [x Hx]; [unfold zlen in Hlt; lia|];
     rewrite (result_bind_ok _ _ _ (key_at_holds p cells Hh u x Hx));
     by rewrite bool_decide_eq_false_2 by by apply Hu).
Qed.

Lemma upper_bound_ok :
  exists u, upper_bound_loop (Z.to_nat (zlen cells)) key (Z.of_nat lb) p = Ok (Z.of_nat u) /\
    (u <= length cells)%nat /\
    (forall i x, cells !! i = Some x -> (i < u)%nat -> ~ key_lt key x.1) /\
    (forall x, cells !! u = Some x -> key_lt key x.1).
Proof.
  pose proof (node_sorted _ _ Hn) as Hs. pose proof (node_holds _ _ Hn) as Hh.
  pose proof (holds_length p cells Hh) as Hl.
  destruct (lb_index_spec fst key cells Hs) as (Hle & Hlo & Hhi). fold lb in Hle, Hlo, Hhi.
  destruct (cells !! lb) as [c|] eqn:Hc; [destruct (decide (c.1 = key)) as [Heq|Hne]|].
  - assert (Hlt := lookup_lt_Some _ _ _ Hc). exists (S lb). split; [|split; [lia|split]].
    + unfold zlen. rewrite Nat2Z.id.
      destruct (length cells) as [|n] eqn:Hlen; [lia|]. cbn [upper_bound_loop].
      rewrite (result_bind_ok _ _ _ (num_keys_ok p Hl)), (holds_num p cells Hh).
      rewrite (proj2 (Z.ltb_lt _ _)) by (unfold zlen; lia).
      rewrite (result_bind_ok _ _ _ (key_at_holds p cells Hh lb c Hc)).
      rewrite bool_decide_eq_true_2 by done.
      pose proof (pg_num_range p) as Hr. rewrite (holds_num p cells Hh) in Hr. unfold zlen in Hr.
      unfold wrap. change (2 ^ 16) with 65536. rewrite Z.mod_small by lia.
      replace (Z.of_nat lb + 1) with (Z.of_nat (S lb)) by lia. apply upper_bound_stop.
      intros x Hx Hxk. assert (key_lt c.1 x.1) as Hcx by (eapply (sorted_lookup fst cells lb (S lb)); eauto).
      rewrite Heq, Hxk in Hcx. by apply key_lt_irrefl in Hcx.
    + intros i x Hx Hi. destruct (decide (i = lb)) as [->|].
      * assert (x = c) as -> by congruence. rewrite Heq. apply key_lt_irrefl.
      * apply key_lt_asym. apply (Hlo i x Hx). lia.
    + intros x Hx. rewrite <- Heq. eapply (sorted_lookup fst cells lb (S lb)); eauto.
  - exists lb. split; [|split; [done|split]].
    + apply upper_bound_stop. intros x Hx. congruence.
    + intros i x Hx Hi. apply key_lt_asym. by apply (Hlo i x Hx).
    + intros x Hx. assert (x = c) as -> by congruence.
      destruct (decide (key_lt key c.1)) as [|Hn']; [done|]. exfalso. apply Hne.
      apply key_lt_total; [|done]. by apply (Hhi lb c Hc).
  - exists lb. split; [|split; [done|split]].
    + apply upper_bound_stop. intros x Hx. congruence.
    + intros i x Hx Hi. apply key_lt_asym. by apply (Hlo i x Hx).
    + intros x Hx. congruence.
Qed.

Lemma next_child_ok : next_child key p = Ok (route (pg_first p) cells key).
Proof.
  pose proof (node_holds _ _ Hn) as Hh. pose proof (holds_length p cells Hh) as Hl.
  unfold next_child.
  rewrite (result_bind_ok _ _ _ (lower_bound_holds p cells Hh key (node_sorted _ _ Hn))).
  rewrite (result_bind_ok _ _ _ (num_keys_ok p Hl)), (holds_num p cells Hh). cell_simpl. fold lb.
  destruct upper_bound_ok as (u & E & Hu & Hlo & Hhi). rewrite (result_bind_ok _ _ _ E).
  rewrite (route_at _ cells key u Hu Hlo Hhi).
  destruct u as [|u]; [by apply first_child_ok|].
  rewrite (proj2 (Z.eqb_neq _ _)) by lia.
  destruct (lookup_lt_is_Some_2 cells u) as [[k c] Hc]; [lia|]. rewrite Hc. simpl from_option.
  pose proof (pg_num_range p) as Hr. rewrite (holds_num p cells Hh) in Hr. unfold zlen in Hr.
  unfold wrap. change (2 ^ 16) with 65536. rewrite Z.mod_small by lia.
  replace (Z.of_nat (S u) - 1) with (Z.of_nat u) by lia.
  pose proof (node_ok _ _ Hn) as Hok. rewrite Forall_lookup in Hok.
  apply (child_at_holds p cells u k c Hh (node_type _ _ Hn) Hc). apply (Hok _ _ Hc).
Qed.
End next_child.

Lemma Node_ctor_ok {A : Type} `{NodeKindLaws A} (p : Page) (cells : list A) :
  node p cells -> Node_ctor p = Ok tt.
Proof.
  intros [Hh Ht _ _]. unfold Node_ctor.
  rewrite (result_bind_ok _ _ _ (page_type_ok p (holds_length p cells Hh))), Ht.
  by destruct nk_not_unknown as [->| ->].
Qed.

(** ** Steps of the tree operations *)

Section steps.
Context {F : Type} `{ReliableFile F}.
Implicit Types (t : BTree F) (b : BufferPool F) (a : APool) (D : gset Z) (L : list (Z * Z)).

(** A page of the store that may be fetched. *)
Definition good a (j : Z) : Prop := (0 < j < a_num a) /\ (j ∉ a_free a) /\ pg_id (a_page a j) = j.

Lemma bind_on_bp {A B} (m : M (BufferPool F) A) (k : A -> M (BTree F) B) t b' v :
  m (bp_ t) = (Ok v, b') -> bind (on_bp m) k t = k v (set_bp b' t).
Proof. intros E. unfold bind, on_bp, zoom. by rewrite E. Qed.

Lemma on_bp_eq {A} (m : M (BufferPool F) A) t b' r :
  m (bp_ t) = (r, b') -> on_bp m t = (r, set_bp b' t).
Proof. intros E. unfold on_bp, zoom. by rewrite E. Qed.

Lemma set_bp_same t : set_bp (bp_ t) t = t.
Proof. by destruct t. Qed.

Lemma fetch_tree D L t a j :
  pool_rep D L (bp_ t) a -> (length L < a_cap a)%nat -> good a j ->
  exists i b', fetch j t = (Ok i, set_bp b' t) /\ pool_rep D ((j, i) :: L) b' a.
Proof.
  intros Hr Hc (Hj & Hf & Hid). destruct (fetch_ok D L (bp_ t) a j Hr Hc Hj Hf Hid) as (i & b' & E & Hr').
  exists i, b'. split; [|done]. unfold fetch. by rewrite (bind_on_bp _ _ t b' (Some i) E).
Qed.

Lemma ask_tree {A} D L t a j i (q : Page -> result A) r :
  pool_rep D L (bp_ t) a -> (j, i) ∈ L -> q (a_page a j) = r -> ask i q t = (r, t).
Proof.
  intros Hr Hin E. unfold ask, at_page. rewrite (on_bp_eq _ t (bp_ t) r).
  - by rewrite set_bp_same.
  - rewrite (on_page_read D L (bp_ t) a j i q Hr Hin). by rewrite E.
Qed.

Lemma at_page_tree {A} D L t a j i (m : M Page A) r p' :
  pool_rep D L (bp_ t) a -> (j, i) ∈ L -> m (a_page a j) = (r, p') ->
  pg_id p' = j -> zlen p' = PAGE_SIZE ->
  exists b', at_page i m t = (r, set_bp b' t) /\ pool_rep (D ∪ {[j]}) L b' (a_set_page j p' a).
Proof.
  intros Hr Hin E Hid Hl.
  destruct (on_page_write D L (bp_ t) a j i m r p' Hr Hin E Hid Hl) as (b' & E' & Hr').
  exists b'. split; [|done]. by apply on_bp_eq.
Qed.

Lemma unpin_tree D L L' t a j i (dirty : bool) :
  pool_rep D L (bp_ t) a -> L ≡ₚ (j, i) :: L' -> (dirty = false -> j ∉ D) ->
  exists b', unpin j dirty t = (Ok tt, set_bp b' t) /\
    pool_rep (if dirty then D ∖ {[j]} else D) L' b' a.
Proof.
  intros Hr HL Hd. destruct (unpin_ok D L L' (bp_ t) a j i dirty Hr HL Hd) as (b' & E & Hr' & _).
  exists b'. split; [|done]. by apply on_bp_eq.
Qed.

Lemma make_node_tree {A} `{NodeKindLaws A} D L t a j i (cells : list A) :
  pool_rep D L (bp_ t) a -> (j, i) ∈ L -> node (a_page a j) cells -> make_node i t = (Ok tt, t).
Proof.
  intros Hr Hin Hn. eapply ask_tree; [done|done|]. by eapply Node_ctor_ok.
Qed.

Lemma ask_leaf_id D L t a j i (cells : list kv) :
  pool_rep D L (bp_ t) a -> (j, i) ∈ L -> node (a_page a j) cells -> pg_id (a_page a j) = j ->
  ask i page_id t = (Ok j, t).
Proof.
  intros Hr Hin Hn Hid. eapply ask_tree; [done|done|].
  by rewrite (page_id_ok _ (holds_length _ _ (node_holds _ _ Hn))), Hid.
Qed.

(** [find_leaf] pins one page at a time on the way down. *)
Lemma find_leaf_loop_ok D L a key h pid leaf path fuel crumbs t :
  descends (a_page a) key h pid leaf path -> (h < fuel)%nat ->
  pool_rep D L (bp_ t) a -> (length L < a_cap a)%nat ->
  (forall j, j = leaf \/ j ∈ path -> good a j) -> (forall j, j ∈ path -> j ∉ D) ->
  exists i b', find_leaf_loop fuel key pid crumbs t = (Ok (i, path ++ crumbs), set_bp b' t) /\
    pool_rep D ((leaf, i) :: L) b' a.
Proof.
  intros Hd. revert fuel crumbs t. induction Hd as [pid lcells Hn|h pid cells leaf path Hn Hd IH];
    intros [|fuel] crumbs t Hfuel Hr Hc Hgood HD; try lia; cbn [find_leaf_loop].
  - destruct (fetch_tree D L t a pid Hr Hc) as (i & b' & E & Hr'); [apply Hgood; by left|].
    exists i, b'. split; [|done]. mstep E.
    assert (Et : ask i page_type (set_bp b' t) = (Ok BTREE_LEAF, set_bp b' t)).
    { eapply ask_tree; [exact Hr'|by left|].
      by rewrite (page_type_ok _ (holds_length _ _ (node_holds _ _ Hn))), (node_type _ _ Hn). }
    mstep Et. done.
  - destruct (fetch_tree D L t a pid Hr Hc) as (i & b1 & E1 & Hr1);
      [apply Hgood; right; apply elem_of_app; right; by left|].
    mstep E1.
    assert (Et : ask i page_type (set_bp b1 t) = (Ok BTREE_INTERNAL, set_bp b1 t)).
    { eapply ask_tree; [exact Hr1|by left|].
      by rewrite (page_type_ok _ (holds_length _ _ (node_holds _ _ Hn))), (node_type _ _ Hn). }
    mstep Et. rewrite bool_decide_eq_false_2 by done.
    assert (Em : make_node i (set_bp b1 t) = (Ok tt, set_bp b1 t))
      by (eapply (make_node_tree D ((pid, i) :: L) (set_bp b1 t) a pid i cells); [done|by left|done]).
    mstep Em.
    assert (En : ask i (next_child key) (set_bp b1 t)
                 = (Ok (route (pg_first (a_page a pid)) cells key), set_bp b1 t)).
    { eapply ask_tree; [exact Hr1|by left|]. by apply next_child_ok. }
    mstep En.
    destruct (unpin_tree D ((pid, i) :: L) L (set_bp b1 t) a pid i false Hr1) as (b2 & E2 & Hr2);
      [done|intros _; apply HD, elem_of_app; right; by left|].
    mstep E2.
    destruct (IH fuel (pid :: crumbs) (set_bp b2 (set_bp b1 t))) as (i' & b' & E & Hr');
      [lia|done|done| | |].
    + intros j Hj. apply Hgood. rewrite elem_of_app. tauto.
    + intros j Hj. apply HD, elem_of_app. by left.
    + exists i', b'. split; [|done]. rewrite E, <- app_assoc. done.
Qed.
End steps.

(** ** The tree as a finite map *)

Section rep.
Context {F : Type} `{ReliableFile F}.
Implicit Types (t : BTree F) (a : APool).

(** Between operations nothing is pinned, and the tree of height [h] under
    the root holds the entries [kvs] in the pages [pids]. *)
Record tree_rep t a (h : nat) (kvs : list kv) (pids : list Z) : Prop := {
  tr_pool : pool_rep ∅ [] (bp_ t) a;
  tr_tree : subtree (a_page a) h (root_page_id_ t) None None kvs pids;
  tr_nodup : NoDup pids;
  tr_pids : forall j, j ∈ pids -> 0 < j < a_num a /\ j ∉ a_free a;
  tr_root : a_root a = root_page_id_ t;
}.

Lemma tr_good t a h kvs pids j : tree_rep t a h kvs pids -> j ∈ pids -> good a j.
Proof.
  intros Hr Hj. destruct (tr_pids _ _ _ _ _ Hr j Hj). split; [done|]. split; [done|].
  by apply (subtree_ids _ _ _ _ _ _ _ (tr_tree _ _ _ _ _ Hr)).
Qed.

Lemma tr_sorted t a h kvs pids : tree_rep t a h kvs pids -> sorted_cells fst kvs.
Proof. intros Hr. eapply subtree_sorted, (tr_tree _ _ _ _ _ Hr). Qed.

(** Distinct pages: no more of them than the file has. *)
Lemma tr_size t a h kvs pids : tree_rep t a h kvs pids -> (length pids < Z.to_nat (a_num a))%nat.
Proof.
  intros Hr. assert (Hsub : pids ⊆ (Z.of_nat <$> seq 1 (pred (Z.to_nat (a_num a))))).
  { intros j Hj. destruct (tr_pids _ _ _ _ _ Hr j Hj) as [Hx _].
    apply list_elem_of_fmap. exists (Z.to_nat j). split; [lia|]. apply elem_of_seq. lia. }
  apply NoDup_submseteq in Hsub; [|apply (tr_nodup _ _ _ _ _ Hr)].
  apply submseteq_length in Hsub. rewrite length_fmap, length_seq in Hsub.
  destruct pids as [|j pids]; [|simpl in *; lia].
  pose proof (tr_tree _ _ _ _ _ Hr) as Ht. destruct h; simpl in Ht; [by destruct Ht as (_ & _ & _ & ?)|].
  destruct Ht as (_ & ? & ? & _ & ? & _). done.
Qed.

Lemma pool_num t a : pool_rep ∅ [] (bp_ t) a -> num_pages (dm (pool_fl (bp_ t))) = a_num a.
Proof. intros Hr. apply (pr_num _ _ _ _ Hr). Qed.

(** What [find_leaf] gives: the pinned leaf, its segment of the entries, and
    its context in the tree. *)
Record found t a h kvs pids (key : bytes) (i : Z) (path : list Z) b'
    (leaf : Z) lo hi (lcells kb ka : list kv) pb pa : Prop := {
  fd_pool : pool_rep ∅ [(leaf, i)] b' a;
  fd_ctx : context (a_page a) h (root_page_id_ t) 0 leaf lo hi path kb ka pb pa;
  fd_id : pg_id (a_page a leaf) = leaf;
  fd_node : node (a_page a leaf) lcells;
  fd_keys : keys_in lo hi lcells;
  fd_range : in_range lo hi key;
  fd_kvs : kvs = kb ++ lcells ++ ka;
  fd_pids : pids = pb ++ leaf :: pa;
  fd_before : forall x, x ∈ kb.*1 -> key_lt x key;
  fd_after : forall x, x ∈ ka.*1 -> key_lt key x;
}.

(** Which leaf that is depends on the pages alone. *)
Lemma find_leaf_same t a h kvs pids key :
  tree_rep t a h kvs pids -> (0 < a_cap a)%nat ->
  exists path leaf lo hi lcells kb ka pb pa, forall t', tree_rep t' a h kvs pids ->
    exists i b', find_leaf key t' = (Ok (i, path), set_bp b' t') /\
      found t' a h kvs pids key i path b' leaf lo hi lcells kb ka pb pa.
Proof.
  intros Hr Hc. pose proof (tr_size _ _ _ _ _ Hr) as Hsz. pose proof (tr_tree _ _ _ _ _ Hr) as Ht.
  pose proof (subtree_height _ _ _ _ _ _ _ Ht) as Hh.
  destruct (context_descend _ h _ h _ _ _ [] [] kvs [] [] pids [] key (context_top _ _ _) Ht)
    as (leaf & path & lo & hi & kb & lcells & ka & pb & pa & Hd & Hx & Hleaf & Hkey & Hkvs & Hpids & Hb & Ha);
    [done|by intros x ?%not_elem_of_nil..|].
  rewrite app_nil_r in *. cbn [app] in *. destruct Hleaf as (Hid & Hn & Hk & _).
  exists path, leaf, lo, hi, lcells, kb, ka, pb, pa. intros t' Hr'.
  assert (Eroot : root_page_id_ t = root_page_id_ t')
    by by rewrite <- (tr_root _ _ _ _ _ Hr), <- (tr_root _ _ _ _ _ Hr').
  rewrite Eroot in Hd, Hx.
  destruct (find_leaf_loop_ok ∅ [] a key h (root_page_id_ t') leaf path (Z.to_nat (a_num a)) [] t' Hd)
    as (i & b' & E & Hp'); [lia|apply (tr_pool _ _ _ _ _ Hr')|simpl; lia| |intros j _; apply not_elem_of_empty|].
  { intros j Hj. eapply tr_good; [exact Hr|]. rewrite Hpids, elem_of_app, elem_of_cons.
    destruct Hj as [->|Hj]; [tauto|]. left. by eapply context_crumbs. }
  exists i, b'. split; [|by split].
  unfold find_leaf. mstep (eq_refl : getS t' = (Ok t', t')).
  rewrite (pool_num t' a (tr_pool _ _ _ _ _ Hr')), E. by rewrite app_nil_r.
Qed.

Lemma find_leaf_ok t a h kvs pids key :
  tree_rep t a h kvs pids -> (0 < a_cap a)%nat ->
  exists i path b' leaf lo hi lcells kb ka pb pa,
    find_leaf key t = (Ok (i, path), set_bp b' t) /\
    found t a h kvs pids key i path b' leaf lo hi lcells kb ka pb pa.
Proof.
  intros Hr Hc. destruct (find_leaf_same t a h kvs pids key Hr Hc)
    as (path & leaf & lo & hi & lcells & kb & ka & pb & pa & Hf).
  destruct (Hf t Hr) as (i & b' & E & Fd). by exists i, path, b', leaf, lo, hi, lcells, kb, ka, pb, pa.
Qed.
End rep.
