(* ===== verification/TreeFrame.v ===== *)
(** * What a step of the tree leaves alone

    The tree operations work on a few pages and leave the others as they are,
    up to the links that lookups do not follow: [evolves X n] says so of the
    store.  [update_node] and [reparent_children] change such links only, a
    new page is one that no tree has. *)

From stdpp Require Import functions.
From S2P Require Import Prelude.
From S2P Require Import Buffers.
From S2P Require Import Page.
From S2P Require Import Node.
From S2P Require Import NodeSlots.
From S2P Require Import KeyOrder.
From S2P Require Import NodeCells.
From S2P Require Import NodeKinds.
From S2P Require Import NodeOps.
From S2P Require Import NodeSplit.
From S2P Require Import DiskManager.
From S2P Require Import FreeList.
From S2P Require Import BufferPool.
From S2P Require Import PoolSpec.
From S2P Require Import PoolOps.
From S2P Require Import BTree.
From S2P Require Import Tree.
From S2P Require Import TreeNav.

(** ** Pages of the store *)

(** At most [n] pages are new, and only those in [X] have other cells. *)
Record evolves (X : list Z) (n : Z) (a a' : APool) : Prop := {
  ev_num : a_num a <= a_num a' <= a_num a + n;
  ev_free : forall j, j ∈ a_free a' -> j ∈ a_free a;
  ev_root : a_root a' = a_root a;
  ev_cap : a_cap a' = a_cap a;
  ev_same : forall j, j ∉ X -> same_node (a_page a j) (a_page a' j);
}.

Lemma evolves_refl X a : evolves X 0 a a.
Proof. split; try done. lia. Qed.

Lemma evolves_trans X n m a1 a2 a3 : evolves X n a1 a2 -> evolves X m a2 a3 -> evolves X (n + m) a1 a3.
Proof.
  intros [N1 F1 R1 C1 S1] [N2 F2 R2 C2 S2]. split; try congruence; [lia|auto|].
  intros j Hj. etrans; [by apply S1|by apply S2].
Qed.

Lemma evolves_weaken X Y n m a a' : (forall j, j ∈ X -> j ∈ Y) -> n <= m -> evolves X n a a' -> evolves Y m a a'.
Proof. intros HXY Hnm [N1 F1 R1 C1 S1]. split; try done; [lia|]. intros j Hj. apply S1. auto. Qed.

Lemma evolves_set_page X j p a : j ∈ X -> evolves X 0 a (a_set_page j p a).
Proof.
  intros Hj. split; try done; [simpl; lia|]. intros k Hk. simpl.
  rewrite fn_lookup_insert_ne; [done|]. by intros ->.
Qed.

Lemma evolves_same_page X j p a : same_node (a_page a j) p -> evolves X 0 a (a_set_page j p a).
Proof.
  intros Hp. split; try done; [simpl; lia|]. intros k _. simpl.
  destruct (decide (k = j)) as [->|Hk]; [by rewrite fn_lookup_insert|by rewrite fn_lookup_insert_ne].
Qed.

(** Distinct pages that are in use. *)
Definition in_use_page a (j : Z) : Prop := 0 < j < a_num a /\ j ∉ a_free a.
Definition live a (ps : list Z) : Prop := NoDup ps /\ forall j, j ∈ ps -> in_use_page a j.

Lemma in_use_evolves X n a a' j : evolves X n a a' -> in_use_page a j -> in_use_page a' j.
Proof. intros [N1 F1 _ _ _] [Hj Hf]. split; [lia|]. intros Hin. by apply Hf, F1. Qed.

Lemma live_evolves X n a a' ps : evolves X n a a' -> live a ps -> live a' ps.
Proof. intros He [Hnd Hps]. split; [done|]. intros j Hj. eapply in_use_evolves; eauto. Qed.

Lemma live_perm a ps ps' : ps ≡ₚ ps' -> live a ps -> live a ps'.
Proof. intros Hp [Hnd Hps]. split; [by rewrite <- Hp|]. intros j. rewrite <- Hp. apply Hps. Qed.

Lemma live_cons a j ps : live a ps -> in_use_page a j -> j ∉ ps -> live a (j :: ps).
Proof.
  intros [Hnd Hps] Hj Hn. split; [by apply NoDup_cons|].
  intros k [->|Hk]%elem_of_cons; [done|by apply Hps].
Qed.

(** A node of the store. *)
Definition node_in a (j : Z) : Prop := good a j /\ is_node (a_page a j).

Lemma node_in_evolves X n a a' j : evolves X n a a' -> j ∉ X -> node_in a j -> node_in a' j.
Proof.
  intros He Hj [(Hr & Hf & Hid) Hn]. pose proof (ev_same _ _ _ _ He j Hj) as Hs.
  destruct (in_use_evolves _ _ _ _ j He) as [Hr' Hf']; [done|].
  split; [|by eapply same_node_is_node]. split; [done|]. split; [done|]. by rewrite (sn_id _ _ Hs).
Qed.

Lemma subtree_evolves X n a a' h pid lo hi kvs pids :
  evolves X n a a' -> (forall j, j ∈ pids -> j ∉ X) ->
  subtree (a_page a) h pid lo hi kvs pids -> subtree (a_page a') h pid lo hi kvs pids.
Proof. intros He HX Hs. eapply subtree_frame; [exact Hs|]. intros j Hj. by apply (ev_same _ _ _ _ He), HX. Qed.

Lemma context_evolves X n a a' H root h c lo hi crumbs kb ka pb pa :
  evolves X n a a' -> (forall j, j ∈ pb ++ pa -> j ∉ X) ->
  context (a_page a) H root h c lo hi crumbs kb ka pb pa ->
  context (a_page a') H root h c lo hi crumbs kb ka pb pa.
Proof. intros He HX Hs. eapply context_frame; [exact Hs|]. intros j Hj. by apply (ev_same _ _ _ _ He), HX. Qed.

Lemma subtree_node_in a h pid lo hi kvs pids j :
  subtree (a_page a) h pid lo hi kvs pids -> in_use_page a j -> j ∈ pids -> node_in a j.
Proof.
  intros Hs [Hr Hf] Hj. destruct (subtree_ids _ _ _ _ _ _ _ Hs j Hj). by split.
Qed.

Lemma is_node_length (p : Page) : is_node p -> zlen p = PAGE_SIZE.
Proof. intros [[cells Hn]|[cells Hn]]; by apply (holds_length p cells (node_holds _ _ Hn)). Qed.

(** The cells of a page are determined by its bytes. *)
Lemma node_cells_unique {A : Type} `{NodeKindLaws A} (p : Page) (l1 l2 : list A) :
  node p l1 -> node p l2 -> l1 = l2.
Proof.
  intros [G1 T1 _ K1] [G2 T2 _ K2]. rewrite Forall_lookup in K1, K2.
  assert (Hlen : length l1 = length l2).
  { pose proof (holds_num p l1 G1) as N1. rewrite (holds_num p l2 G2) in N1. unfold zlen in N1. lia. }
  apply list_eq. intros i. destruct (l1 !! i) as [x|] eqn:E1.
  - destruct (lookup_lt_is_Some_2 l2 i) as [y E2]; [rewrite <- Hlen; by apply lookup_lt_Some in E1|].
    pose proof (nk_cell_at_ok p l1 i x G1 T1 E1 (K1 _ _ E1)) as X1.
    rewrite (nk_cell_at_ok p l2 i y G2 T2 E2 (K2 _ _ E2)) in X1. congruence.
  - symmetry. apply lookup_ge_None. rewrite <- Hlen. by apply lookup_ge_None.
Qed.

(** ** Links that lookups do not follow *)

Definition relinks (m : M Page unit) : Prop :=
  forall p, is_node p -> exists p', m p = (Ok tt, p') /\ same_node p p'.

(** A change of the header that keeps cells, id, first child and right link. *)
Lemma relinks_intro (m : M Page unit) :
  (forall {A} `{NodeKind A} p (cells : list A), node p cells -> exists p', m p = (Ok tt, p') /\
     node p' cells /\ pg_id p' = pg_id p /\ pg_first p' = pg_first p /\ pg_right p' = pg_right p) ->
  relinks m.
Proof.
  intros Hm p Hp.
  assert (Hex : exists p', m p = (Ok tt, p') /\ pg_id p' = pg_id p /\ pg_first p' = pg_first p /\ pg_right p' = pg_right p).
  { destruct Hp as [[cells Hn]|[cells Hn]]; destruct (Hm _ _ _ p cells Hn) as (q & E & _ & Hrest); exists q; by split. }
  destruct Hex as (p' & E & I & C & R). exists p'. split; [done|].
  split; [done..| | |].
  { destruct Hp as [[cells Hn]|[cells Hn]]; destruct (Hm _ _ _ p cells Hn) as (q & E' & N & _);
      assert (p' = q) as -> by congruence; by rewrite (node_type _ _ N), (node_type _ _ Hn). }
  all: intros cells Hn; destruct (Hm _ _ _ p cells Hn) as (p2 & E2 & N & _); by assert (p' = p2) as -> by congruence.
Qed.

Lemma relinks_parent (z : Z) : is_page_id z -> relinks (set_parent_id z).
Proof.
  intros Hz. apply relinks_intro. intros A C K p cells Hn.
  destruct (set_parent_id_ok p cells z Hn Hz) as (p' & E & N & _ & Mt). exists p'.
  unfold meta in Mt. by injection Mt as -> _ _ -> _ ->.
Qed.

Lemma relinks_left (z : Z) : is_page_id z -> relinks (set_left_sibling z).
Proof.
  intros Hz. apply relinks_intro. intros A C K p cells Hn.
  destruct (set_left_sibling_ok p cells z Hn Hz) as (p' & E & N & _ & Mt). exists p'.
  unfold meta in Mt. by injection Mt as -> _ _ -> _ ->.
Qed.

(** ** Steps that relink *)

Lemma union_elem (D : gset Z) (j : Z) : j ∈ D -> D ∪ {[j]} = D.
Proof.
  intros Hj. apply leibniz_equiv. intros x. rewrite elem_of_union, elem_of_singleton.
  split; [by intros [?| ->]|by left].
Qed.

Lemma undirty (D : gset Z) (j : Z) : (D ∪ {[j]}) ∖ {[j]} ⊆ D.
Proof. intros x. rewrite elem_of_difference, elem_of_union. tauto. Qed.

(** A page written and unpinned dirty is not pending any more. *)
Lemma clean_one (j : Z) : (∅ : gset Z) = (∅ ∪ {[j]}) ∖ {[j]}.
Proof.
  apply leibniz_equiv. intros x. rewrite elem_of_difference, elem_of_union, elem_of_singleton.
  rewrite elem_of_empty. tauto.
Qed.

Section relink.
Context {F : Type} `{ReliableFile F}.
Implicit Types (t : BTree F) (b : BufferPool F) (a : APool) (D : gset Z) (L : list (Z * Z)).

Lemma rep_dirty_pinned D L b a j : pool_rep D L b a -> j ∈ D -> 0 < pins L j.
Proof. intros Hr Hj. rewrite <- (pr_pin _ _ _ _ Hr). by apply (inv_pinned _ _ (pr_inv _ _ _ _ Hr)). Qed.

(** More pages may count as changed, as long as they are pinned. *)
Lemma pool_rep_dirty D D' L b a :
  pool_rep D L b a -> D ⊆ D' -> (forall j, j ∈ D' -> 0 < pins L j) -> pool_rep D' L b a.
Proof.
  intros Hr HD Hp. destruct Hr as [[I1 I2 I3 I4 I5 I6 I7 I8 I9] R2 R3 R4 R5 R6 R7 R8 R9 R10].
  split; try done. split; try done.
  - intros pid id Hpid. destruct (I4 pid id Hpid) as (Hr & Hl & f & [C1 C2 C3 C4]).
    split; [done|]. split; [done|]. exists f. split; try done. intros Hc Hn. apply C4; [done|].
    intros Hin. by apply Hn, HD.
  - intros pid Hpid. rewrite R3. by apply Hp.
Qed.

Lemma pool_rep_widen D L b a j i : pool_rep D L b a -> (j, i) ∈ L -> pool_rep (D ∪ {[j]}) L b a.
Proof.
  intros Hr Hin. eapply pool_rep_dirty; [exact Hr|apply union_subseteq_l|].
  intros k [Hk|Hk]%elem_of_union; [by eapply rep_dirty_pinned|].
  apply elem_of_singleton in Hk as ->. by eapply pins_pos.
Qed.

(** A page that may count as changed is written through its pointer. *)
Lemma at_page_dirty {A} D L t a j i (m : M Page A) r p' :
  pool_rep D L (bp_ t) a -> j ∈ D -> (j, i) ∈ L -> m (a_page a j) = (r, p') ->
  pg_id p' = j -> zlen p' = PAGE_SIZE ->
  exists b', at_page i m t = (r, set_bp b' t) /\ pool_rep D L b' (a_set_page j p' a).
Proof.
  intros Hr Hj Hin E Hid Hl. destruct (at_page_tree D L t a j i m r p' Hr Hin E Hid Hl) as (b' & E' & Hr').
  exists b'. split; [done|]. by rewrite (union_elem D j Hj) in Hr'.
Qed.

(** Two pages at once. *)
Lemma at_pages_dirty {A} D L t a j1 i1 j2 i2 (m : M (Page * Page) A) r p q :
  pool_rep D L (bp_ t) a -> j1 ∈ D -> j2 ∈ D -> (j1, i1) ∈ L -> (j2, i2) ∈ L -> j1 <> j2 ->
  m (a_page a j1, a_page a j2) = (r, (p, q)) ->
  pg_id p = j1 -> zlen p = PAGE_SIZE -> pg_id q = j2 -> zlen q = PAGE_SIZE ->
  exists b', at_pages i1 i2 m t = (r, set_bp b' t) /\
    pool_rep D L b' (a_set_page j2 q (a_set_page j1 p a)).
Proof.
  intros Hr D1 D2 L1 L2 Hne E I1 Z1 I2 Z2.
  destruct (rep_pinned D L _ a j1 i1 Hr L1) as (f1 & C1 & Q1 & _).
  destruct (rep_pinned D L _ a j2 i2 Hr L2) as (f2 & C2 & Q2 & _).
  pose proof (c_frame _ _ _ _ _ C1) as G1. pose proof (c_frame _ _ _ _ _ C2) as G2.
  assert (Hi : i2 <> i1).
  { intros ->. rewrite G1 in G2. injection G2 as ->.
    pose proof (c_id _ _ _ _ _ C1). pose proof (c_id _ _ _ _ _ C2). congruence. }
  destruct (at_page_dirty D L t a j1 i1 (fun _ => (Ok tt, p)) (Ok tt) p Hr D1 L1 eq_refl I1 Z1) as (b1 & E1 & Hr1).
  destruct (at_page_dirty D L (set_bp b1 t) _ j2 i2 (fun _ => (Ok tt, q)) (Ok tt) q Hr1 D2 L2 eq_refl I2 Z2)
    as (b2 & E2 & Hr2).
  exists b2. split; [|done]. unfold at_page, at_pages in *.
  assert (B1 : b1 = put_frame i1 (set_page p f1) (bp_ t)).
  { pose proof (on_bp_eq _ t _ _ (on_page_ok (bp_ t) i1 f1 p (fun _ => (Ok tt, p)) (Ok tt) G1 eq_refl)) as X.
    rewrite X in E1. by injection E1. }
  assert (G2' : frame_at i2 b1 = Some f2)
    by (rewrite B1, (frame_at_put (bp_ t) i1 f1) by done; by rewrite decide_False).
  assert (B2 : b2 = put_frame i2 (set_page q f2) b1).
  { pose proof (on_bp_eq _ (set_bp b1 t) _ _ (on_page_ok b1 i2 f2 q (fun _ => (Ok tt, q)) (Ok tt) G2' eq_refl)) as X.
    rewrite X in E2. by injection E2. }
  apply on_bp_eq. unfold on_pages. rewrite G1, G2, Q1, Q2, E, B2, B1. done.
Qed.

(** [update_node] with a link that lookups do not follow. *)
Lemma update_node_ok D L t a j (m : M Page unit) :
  pool_rep D L (bp_ t) a -> (length L < a_cap a)%nat -> node_in a j -> relinks m ->
  exists b' a', update_node j m t = (Ok tt, set_bp b' t) /\ pool_rep D L b' a' /\ evolves [] 0 a a'.
Proof.
  intros Hr Hc [Hg Hn] Hm. destruct (fetch_tree D L t a j Hr Hc Hg) as (i & b1 & E1 & Hr1).
  assert (Hin : (j, i) ∈ (j, i) :: L) by by left.
  destruct (Hm _ Hn) as (p' & Em & Hs).
  assert (Hid : pg_id p' = j) by (rewrite (sn_id _ _ Hs); apply Hg).
  pose proof (is_node_length p' (same_node_is_node _ _ Hs Hn)) as Hz.
  destruct (at_page_tree D _ (set_bp b1 t) a j i m (Ok tt) p' Hr1 Hin Em Hid Hz) as (b2 & E2 & Hr2).
  destruct (unpin_tree _ _ L (set_bp b2 (set_bp b1 t)) _ j i true Hr2) as (b3 & E3 & Hr3); [done..|].
  exists b3, (a_set_page j p' a). split; [|split].
  - unfold update_node. mstep E1.
    assert (Ec : make_node i (set_bp b1 t) = (Ok tt, set_bp b1 t)).
    { destruct Hn as [[cells Hn]|[cells Hn]];
        by apply (make_node_tree D _ (set_bp b1 t) a j i cells Hr1 Hin). }
    mstep Ec. mstep E2. exact E3.
  - eapply pool_rep_dirty; [exact Hr3|apply undirty|]. intros k Hk. by apply (rep_dirty_pinned D L (bp_ t) a).
  - by apply evolves_same_page.
Qed.

Lemma reparent_ok D L t a c parent :
  pool_rep D L (bp_ t) a -> (length L < a_cap a)%nat -> node_in a c -> is_page_id parent ->
  exists b' a', reparent c parent t = (Ok tt, set_bp b' t) /\ pool_rep D L b' a' /\ evolves [] 0 a a'.
Proof.
  intros Hr Hc Hn Hp. unfold reparent.
  assert (0 < c) by (destruct Hn as [[? _] _]; lia).
  rewrite (proj2 (Z.eqb_neq _ _)) by (unfold INVALID_PAGE_ID; lia).
  by apply update_node_ok, relinks_parent.
Qed.

(** The children from the [n]-th on. *)
Lemma reparent_loop_ok D L j i parent (cells : list (bytes * Z)) (n m : nat) t a :
  pool_rep D L (bp_ t) a -> (length L < a_cap a)%nat -> (j, i) ∈ L -> is_page_id parent ->
  node (a_page a j) cells -> (forall c, c ∈ cells.*2 -> node_in a c) -> (m + n = length cells)%nat ->
  exists b' a', for_up n (Z.of_nat m) (fun k => let* c := ask i (child_at k) in reparent c parent) t
      = (Ok tt, set_bp b' t) /\ pool_rep D L b' a' /\ evolves [] 0 a a'.
Proof.
  intros Hr Hc Hin Hp Hn Hch. revert m t a Hr Hc Hn Hch.
  induction n as [|n IH]; intros m t a Hr Hc Hn Hch Hm.
  - exists (bp_ t), a. cbn [for_up]. rewrite set_bp_same. split; [done|]. split; [done|apply evolves_refl].
  - destruct (lookup_lt_is_Some_2 cells m) as [[k c] Hk]; [lia|]. cbn [for_up].
    assert (Hcm : c ∈ cells.*2).
    { apply list_elem_of_fmap. exists (k, c). split; [done|]. by eapply list_elem_of_lookup_2. }
    assert (Hidc : is_page_id c).
    { pose proof (node_ok _ _ Hn) as Hok. rewrite Forall_lookup in Hok. apply (Hok _ _ Hk). }
    assert (E1 : ask i (child_at (Z.of_nat m)) t = (Ok c, t)).
    { eapply ask_tree; [exact Hr|exact Hin|].
      by apply (child_at_holds _ cells m k c (node_holds _ _ Hn) (node_type _ _ Hn)). }
    destruct (reparent_ok D L t a c parent Hr Hc (Hch _ Hcm) Hp) as (b1 & a1 & E2 & Hr1 & He1).
    rewrite (bind_ok _ _ t (set_bp b1 t) tt) by by mstep E1.
    destruct (IH (S m) (set_bp b1 t) a1) as (b' & a' & E & Hr' & He').
    + done.
    + by rewrite (ev_cap _ _ _ _ He1).
    + by apply (ev_same _ _ _ _ He1 j (not_elem_of_nil _)).
    + intros d Hd. eapply node_in_evolves; [exact He1|apply not_elem_of_nil|by apply Hch].
    + lia.
    + exists b', a'. split; [|split; [done|exact (evolves_trans _ _ _ _ _ _ He1 He')]].
      by replace (Z.of_nat m + 1) with (Z.of_nat (S m)) by lia.
Qed.

Lemma reparent_children_ok D L t a j i parent (cells : list (bytes * Z)) :
  pool_rep D L (bp_ t) a -> (length L < a_cap a)%nat -> (j, i) ∈ L -> is_page_id parent ->
  node (a_page a j) cells -> node_in a (pg_first (a_page a j)) -> (forall c, c ∈ cells.*2 -> node_in a c) ->
  exists b' a', reparent_children i parent t = (Ok tt, set_bp b' t) /\ pool_rep D L b' a' /\ evolves [] 0 a a'.
Proof.
  intros Hr Hc Hin Hp Hn Hfc Hch. pose proof (holds_length _ _ (node_holds _ _ Hn)) as Hl.
  unfold reparent_children.
  mstep (ask_tree D L t a j i num_keys _ Hr Hin (num_keys_ok _ Hl)).
  mstep (ask_tree D L t a j i first_child _ Hr Hin (first_child_ok _ Hl)).
  destruct (reparent_ok D L t a _ parent Hr Hc Hfc Hp) as (b1 & a1 & E1 & Hr1 & He1). mstep E1.
  rewrite (holds_num _ _ (node_holds _ _ Hn)). unfold zlen. rewrite Nat2Z.id.
  destruct (reparent_loop_ok D L j i parent cells (length cells) 0 (set_bp b1 t) a1) as (b' & a' & E & Hr' & He');
    try done.
  - by rewrite (ev_cap _ _ _ _ He1).
  - by apply (ev_same _ _ _ _ He1 j (not_elem_of_nil _)).
  - intros d Hd. eapply node_in_evolves; [exact He1|apply not_elem_of_nil|by apply Hch].
  - exists b', a'. split; [exact E|]. split; [done|exact (evolves_trans _ _ _ _ _ _ He1 He')].
Qed.

(** A new page: one that no live page is, pinned. *)
Lemma new_page_tree D L t a :
  pool_rep D L (bp_ t) a -> (length L < a_cap a)%nat -> a_num a + 1 < 2 ^ 31 ->
  exists i nid b' a', on_bp new_page t = (Ok (Some (i, nid)), set_bp b' t) /\
    pool_rep (D ∪ {[nid]}) ((nid, i) :: L) b' a' /\ evolves [nid] 1 a a' /\
    in_use_page a' nid /\ ~ in_use_page a nid /\ is_page_id nid /\
    forall j, j <> nid -> a_page a' j = a_page a j.
Proof.
  intros Hr Hc Hnum. destruct (new_page_ok D L (bp_ t) a Hr Hc Hnum) as (i & p & b' & E & Hid & Hz & Hr').
  assert (Hpos : 0 < a_num a).
  { destruct (inv_fl D _ (pr_inv _ _ _ _ Hr)) as [[_ Hp _ _] _]. pose proof (pr_num _ _ _ _ Hr).
    unfold bp_num in *. lia. }
  set (nid := a_new_id a) in *.
  assert (Hfree : forall id, id ∈ a_free a -> 0 < id < a_num a) by apply (pr_free _ _ _ _ Hr).
  pose proof (pr_nodup _ _ _ _ Hr) as Hnd. pose proof (a_new_num p a) as Hn.
  assert (Hin : in_use_page (a_new p a) nid).
  { unfold in_use_page, nid, a_new_id, a_new in *. destruct (last (a_free a)) as [id|] eqn:Hlast; simpl in *.
    - apply removelast_app_last in Hlast. rewrite Hlast in Hnd.
      split; [apply Hfree; rewrite Hlast; apply elem_of_app; right; by left|].
      apply NoDup_app in Hnd as (_ & Hx & _). intros Hi. apply (Hx _ Hi). by left.
    - split; [lia|]. intros Hi%Hfree. lia. }
  exists i, nid, b', (a_new p a). split; [by apply on_bp_eq|]. split; [|split; [|split; [exact Hin|split; [|split]]]].
  - apply (pool_rep_widen D _ b' _ nid i); [done|by left].
  - split; [lia| | | |].
    + intros j Hj. unfold a_new in Hj. destruct (last (a_free a)) eqn:Hlast; [|done].
      apply removelast_app_last in Hlast. rewrite Hlast. apply elem_of_app. by left.
    + unfold a_new. by destruct (last (a_free a)).
    + apply a_new_cap.
    + intros j Hj%not_elem_of_cons. rewrite a_new_page, decide_False by apply Hj. done.
  - unfold in_use_page, nid, a_new_id. intros [Hx Hy]. destruct (last (a_free a)) as [id|] eqn:Hlast; [|lia].
    apply Hy. apply removelast_app_last in Hlast. rewrite Hlast. apply elem_of_app. right. by left.
  - destruct Hin as [Hx _]. unfold is_page_id. lia.
  - intros j Hj. by rewrite a_new_page, decide_False.
Qed.

(** Set up as an empty node. *)
Lemma init_node_ok {A} `{NodeKind A} D L t a nid i (init : M Page unit) ty par :
  pool_rep D L (bp_ t) a -> nid ∈ D -> (nid, i) ∈ L ->
  (exists q, init (a_page a nid) = (Ok tt, q) /\ node q (@nil A) /\ pg_ce q = NODE_DATA_SIZE /\
     meta q = fresh_meta nid ty par) ->
  exists b' q, at_page i init t = (Ok tt, set_bp b' t) /\ pool_rep D L b' (a_set_page nid q a) /\
    node q (@nil A) /\ compacted q (@nil A) /\ meta q = fresh_meta nid ty par.
Proof.
  intros Hr Hd Hin (q & E & N & C & Mt).
  assert (Hid : pg_id q = nid) by (unfold meta, fresh_meta in Mt; congruence).
  destruct (at_page_dirty D L t a nid i init (Ok tt) q Hr Hd Hin E Hid
    (holds_length _ _ (node_holds _ _ N))) as (b' & E' & Hr').
  exists b', q. by split_and!.
Qed.
End relink.
