(* ===== verification/TreeChain.v ===== *)
(** * The chain of the leaves

    [right_sibling] of a leaf is the next leaf of the tree, that of the last
    one is invalid: [chained V ls z] says so of the leaves [ls] in order, with
    [z] after the last.  The operations follow the link when they split or
    merge a leaf. *)

From S2P Require Import Prelude.
From S2P Require Import Buffers.
From S2P Require Import Page.
From S2P Require Import Node.
From S2P Require Import NodeSlots.

Implicit Types (V : Z -> Page) (ps ls : list Z) (z : Z).

Definition is_leaf_page (p : Page) : Prop := pg_type p = BTREE_LEAF.
#[export] Instance is_leaf_page_dec p : Decision (is_leaf_page p).
Proof. unfold is_leaf_page. apply _. Defined.

(** The leaves among the pages, which are listed with the leaves in order. *)
Definition leaves V ps : list Z := filter (fun j => is_leaf_page (V j)) ps.

Fixpoint chained V ls z : Prop :=
  match ls with
  | [] => True
  | j :: ls' => pg_right (V j) = hd z ls' /\ chained V ls' z
  end.

Lemma leaves_app V ps1 ps2 : leaves V (ps1 ++ ps2) = leaves V ps1 ++ leaves V ps2.
Proof. apply filter_app. Qed.

Lemma leaves_leaf V j ps : is_leaf_page (V j) -> leaves V (j :: ps) = j :: leaves V ps.
Proof. intros Hj. unfold leaves. by rewrite filter_cons_True. Qed.

Lemma leaves_skip V j ps : ~ is_leaf_page (V j) -> leaves V (j :: ps) = leaves V ps.
Proof. intros Hj. unfold leaves. by rewrite filter_cons_False. Qed.

Lemma leaves_elem V j ps : j ∈ leaves V ps <-> is_leaf_page (V j) /\ j ∈ ps.
Proof. unfold leaves. by rewrite list_elem_of_filter. Qed.

Lemma hd_app z (l1 l2 : list Z) : hd z (l1 ++ l2) = hd (hd z l2) l1.
Proof. by destruct l1. Qed.

Lemma chained_app V l1 l2 z : chained V (l1 ++ l2) z <-> chained V l1 (hd z l2) /\ chained V l2 z.
Proof.
  induction l1 as [|j l1 IH]; cbn [app chained]; [tauto|]. rewrite IH, hd_app. tauto.
Qed.

(** The chain depends on the tags and the links of its pages. *)
Definition same_link (p p' : Page) : Prop := pg_type p' = pg_type p /\ pg_right p' = pg_right p.

Lemma leaves_same V V' ps : (forall j, j ∈ ps -> same_link (V j) (V' j)) -> leaves V' ps = leaves V ps.
Proof.
  induction ps as [|j ps IH]; intros HV; [done|]. destruct (HV j ltac:(by left)) as [Ht _].
  assert (IH' := IH ltac:(intros k Hk; apply HV; by right)).
  destruct (decide (is_leaf_page (V j))) as [Hl|Hl].
  - rewrite (leaves_leaf V j), (leaves_leaf V' j), IH'; [done| |done]. unfold is_leaf_page in *. congruence.
  - rewrite (leaves_skip V j), (leaves_skip V' j), IH'; [done| |done]. unfold is_leaf_page in *. congruence.
Qed.

Lemma chained_same V V' ls z : (forall j, j ∈ ls -> same_link (V j) (V' j)) -> chained V ls z -> chained V' ls z.
Proof.
  induction ls as [|j ls IH]; intros HV; [done|]. intros [Hj Hc]. destruct (HV j ltac:(by left)) as [_ Hr].
  split; [congruence|]. apply IH; [|done]. intros k Hk. apply HV. by right.
Qed.

(** The chain of all the leaves among [ps], which end the tree. *)
Definition leaf_chain V ps : Prop := chained V (leaves V ps) INVALID_PAGE_ID.

Lemma leaf_chain_same V V' ps :
  (forall j, j ∈ ps -> same_link (V j) (V' j)) -> leaf_chain V ps -> leaf_chain V' ps.
Proof.
  intros HV Hc. unfold leaf_chain. rewrite (leaves_same V V' ps HV).
  eapply chained_same; [|exact Hc]. intros j [_ Hj]%leaves_elem. by apply HV.
Qed.

(** Another page of another kind in between. *)
Lemma leaf_chain_insert V j ps1 ps2 : ~ is_leaf_page (V j) -> leaf_chain V (ps1 ++ ps2) -> leaf_chain V (ps1 ++ j :: ps2).
Proof. intros Hj. unfold leaf_chain. by rewrite !leaves_app, leaves_skip. Qed.

Lemma leaf_chain_single V j : is_leaf_page (V j) -> pg_right (V j) = INVALID_PAGE_ID -> leaf_chain V [j].
Proof. intros Hj Hr. unfold leaf_chain. rewrite leaves_leaf by done. by split. Qed.

(** The neighbour of a leaf. *)
Lemma leaf_chain_right V ps1 j ps2 :
  is_leaf_page (V j) -> leaf_chain V (ps1 ++ j :: ps2) -> pg_right (V j) = hd INVALID_PAGE_ID (leaves V ps2).
Proof.
  intros Hj. unfold leaf_chain. rewrite leaves_app, leaves_leaf by done. intros [_ [Hr _]]%chained_app. exact Hr.
Qed.

Lemma leaf_chain_right_in V ps j :
  j ∈ ps -> is_leaf_page (V j) -> leaf_chain V ps -> pg_right (V j) = INVALID_PAGE_ID \/ pg_right (V j) ∈ ps.
Proof.
  intros (ps1 & ps2 & ->)%list_elem_of_split Hj Hc. rewrite (leaf_chain_right _ _ _ _ Hj Hc).
  destruct (leaves V ps2) as [|k l] eqn:E; [by left|right].
  assert (Hk : k ∈ leaves V ps2) by (rewrite E; by left). apply leaves_elem in Hk as [_ Hk].
  rewrite elem_of_app, elem_of_cons. tauto.
Qed.

(** A leaf is split in two: the links of the others stay. *)
Lemma leaf_chain_split V V' ps1 j nid ps2 :
  is_leaf_page (V j) -> is_leaf_page (V' j) -> is_leaf_page (V' nid) ->
  (forall k, k ∈ ps1 ++ ps2 -> same_link (V k) (V' k)) ->
  pg_right (V' j) = nid -> pg_right (V' nid) = pg_right (V j) ->
  leaf_chain V (ps1 ++ j :: ps2) -> leaf_chain V' (ps1 ++ j :: nid :: ps2).
Proof.
  intros Hj Hj' Hn Hs Hr Hrn. unfold leaf_chain.
  rewrite !leaves_app, !leaves_leaf by done.
  rewrite (leaves_same V V' ps1) by (intros k Hk; apply Hs, elem_of_app; by left).
  rewrite (leaves_same V V' ps2) by (intros k Hk; apply Hs, elem_of_app; by right).
  rewrite !chained_app. cbn [chained hd]. intros (H1 & H2 & H3). split; [|split; [done|split; [congruence|]]].
  - eapply chained_same; [|exact H1]. intros k [_ Hk]%leaves_elem. apply Hs, elem_of_app. by left.
  - eapply chained_same; [|exact H3]. intros k [_ Hk]%leaves_elem. apply Hs, elem_of_app. by right.
Qed.

(** A leaf takes over from its right neighbour. *)
Lemma leaf_chain_merge V V' ps1 j nid ps2 :
  is_leaf_page (V j) -> is_leaf_page (V' j) -> is_leaf_page (V nid) ->
  (forall k, k ∈ ps1 ++ ps2 -> same_link (V k) (V' k)) -> pg_right (V' j) = pg_right (V nid) ->
  leaf_chain V (ps1 ++ j :: nid :: ps2) -> leaf_chain V' (ps1 ++ j :: ps2).
Proof.
  intros Hj Hj' Hn Hs Hr. unfold leaf_chain. rewrite !leaves_app, !leaves_leaf by done.
  rewrite (leaves_same V V' ps1) by (intros k Hk; apply Hs, elem_of_app; by left).
  rewrite (leaves_same V V' ps2) by (intros k Hk; apply Hs, elem_of_app; by right).
  rewrite !chained_app. cbn [chained hd]. intros (H1 & _ & H2 & H3). split; [|split; [congruence|]].
  - eapply chained_same; [|exact H1]. intros k [_ Hk]%leaves_elem. apply Hs, elem_of_app. by left.
  - eapply chained_same; [|exact H3]. intros k [_ Hk]%leaves_elem. apply Hs, elem_of_app. by right.
Qed.
