(* ===== verification/TreeSplit.v ===== *)
(** * Splitting nodes of the tree

    A node that splits becomes two subtrees with a separator between them.
    [forest_split] cuts the children of a node at a separator, [upsert_app]
    says in which half a new cell goes; [tree_inv] adds to [tree_rep] what the
    splits rely on: entries and separators of at most a quarter of a page, no
    internal node without a separator, right links that lead to nodes of the
    tree. *)

From S2P Require Import Prelude.
From S2P Require Import Buffers.
From S2P Require Import Page.
From S2P Require Import Node.
From S2P Require Import NodeSlots.
From S2P Require Import KeyOrder.
From S2P Require Import NodeCells.
From S2P Require Import NodeKinds.
From S2P Require Import NodeInsert.
From S2P Require Import NodeSplit.
From S2P Require Import DiskManager.
From S2P Require Import FreeList.
From S2P Require Import BufferPool.
From S2P Require Import PoolSpec.
From S2P Require Import PoolOps.
From S2P Require Import BTree.
From S2P Require Import Tree.
From S2P Require Import TreeNav.
From S2P Require Import TreeFrame.
From S2P Require Import TreeChain.

(** ** Lists of cells in two halves *)

Section cut.
Context {V : Type}.
Implicit Types (l r : list (bytes * V)).

(** A cell goes into the half that its key selects. *)
Lemma upsert_app (k : bytes) (v : V) l c r :
  sorted_cells fst (l ++ c :: r) ->
  upsert k v (l ++ c :: r) = if key_ltb k c.1 then upsert k v l ++ c :: r else l ++ upsert k v (c :: r).
Proof.
  intros Hs. induction l as [|d l IH]; cbn [app].
  - destruct (key_ltb k c.1) eqn:Hk; [|done]. cbn [upsert app].
    destruct (key_ltb c.1 k) eqn:Hk'; [exfalso; exact (key_lt_asym _ _ Hk Hk')|].
    rewrite bool_decide_eq_false_2; [done|]. intros E. rewrite E in Hk. by apply key_lt_irrefl in Hk.
  - apply StronglySorted_inv in Hs as [Hs Hd]. specialize (IH Hs).
    rewrite Forall_app, Forall_cons in Hd. destruct Hd as (_ & Hdc & _).
    cbn [upsert]. destruct (key_ltb d.1 k) eqn:Hdk.
    + rewrite IH. by destruct (key_ltb k c.1).
    + assert (Hkc : key_lt k c.1) by (eapply key_le_lt_trans; [|exact Hdc]; unfold key_lt; by rewrite Hdk).
      unfold key_lt in Hkc. rewrite Hkc. by case_bool_decide.
Qed.

(** Where no key is in the way. *)
Lemma upsert_between (k : bytes) (v : V) l r :
  (forall x, x ∈ l.*1 -> key_lt x k) -> (forall x, x ∈ r.*1 -> key_lt k x) ->
  upsert k v (l ++ r) = l ++ (k, v) :: r.
Proof.
  intros Hl Hr. induction l as [|d l IH]; cbn [app upsert].
  - destruct r as [|d r]; [done|]. cbn [upsert].
    assert (Hk : key_lt k d.1) by (apply Hr; by left).
    destruct (key_ltb d.1 k) eqn:Hlt; [exfalso; exact (key_lt_asym _ _ Hk Hlt)|].
    rewrite bool_decide_eq_false_2; [done|]. intros E. rewrite E in Hk. by apply key_lt_irrefl in Hk.
  - assert (Hk : key_lt d.1 k) by (apply Hl; by left). unfold key_lt in Hk. rewrite Hk.
    rewrite IH; [done|]. intros x Hx. apply Hl. by right.
Qed.

Lemma upsert_not_nil (k : bytes) (v : V) l : upsert k v l <> [].
Proof. destruct l as [|c l]; cbn [upsert]; [done|]. destruct (key_ltb c.1 k); [done|]. by case_bool_decide. Qed.

Lemma Forall_upsert (P : bytes * V -> Prop) (k : bytes) (v : V) l :
  P (k, v) -> Forall P l -> Forall P (upsert k v l).
Proof.
  intros Hk. induction 1 as [|c l Hc Hl IH]; cbn [upsert]; [by constructor|].
  destruct (key_ltb c.1 k); [by constructor|]. case_bool_decide; by repeat constructor.
Qed.

Lemma upsert_remove (k : bytes) (v : V) l :
  sorted_cells fst l -> upsert k v (remove_key k l) = upsert k v l.
Proof.
  intros Hs. destruct (decide (k ∈ l.*1)) as [Hin|Hn]; [|by rewrite remove_key_absent].
  apply list_elem_of_fmap in Hin as (c & Hk & Hin). apply list_elem_of_lookup in Hin as [i Hi].
  rewrite (remove_key_present k l i c Hs Hi (eq_sym Hk)).
  pose proof (lb_index_spec fst k l Hs) as Hlb.
  rewrite <- (lower_bound_present fst k l _ i c Hs Hlb Hi (eq_sym Hk)) in Hlb.
  by apply (upsert_delete k v l i c Hs Hlb Hi).
Qed.
End cut.

(** ** Cutting the children of a node *)

Definition strictly (lo : option bytes) (k : bytes) : Prop :=
  match lo with Some l => key_lt l k | None => True end.

Lemma above_strictly (lo : option bytes) (x k : bytes) : above lo x -> key_lt x k -> strictly lo k.
Proof. destruct lo as [l|]; [|done]. simpl. intros Hx Hk. by eapply key_le_lt_trans. Qed.

Lemma strictly_above (lo : option bytes) (k : bytes) : strictly lo k -> above lo k.
Proof. destruct lo as [l|]; [|done]. apply key_lt_asym. Qed.

Section cut_forest.
Implicit Types (R : Z -> option bytes -> option bytes -> list kv -> list Z -> Prop).

Lemma forest_split R c lo l k c' r hi kvs pids :
  sorted_cells fst (l ++ (k, c') :: r) -> forest R c lo (l ++ (k, c') :: r) hi kvs pids ->
  exists kvs1 pids1 kvs2 pids2, kvs = kvs1 ++ kvs2 /\ pids = pids1 ++ pids2 /\
    forest R c lo l (Some k) kvs1 pids1 /\ forest R c' (Some k) r hi kvs2 pids2 /\
    in_range lo hi k /\ (l <> [] -> strictly lo k).
Proof.
  revert c lo kvs pids. induction l as [|[k0 c0] l IH]; intros c lo kvs pids Hs Hf; cbn [app] in Hf.
  - inversion Hf as [|? ? ? ? ? ? kvs1 pids1 kvs2 pids2 Hk Hc Hr]; subst.
    exists kvs1, pids1, kvs2, pids2. split_and!; try done. by constructor.
  - apply StronglySorted_inv in Hs as [Hs Hd]. rewrite Forall_app, Forall_cons in Hd.
    destruct Hd as (_ & Hk0 & _). simpl in Hk0.
    inversion Hf as [|? ? ? ? ? ? kvs1 pids1 kvs2 pids2 [Ha Hb] Hc Hr]; subst.
    destruct (IH _ _ _ _ Hs Hr) as (ks1 & ps1 & ks2 & ps2 & -> & -> & H1 & H2 & [H3 H4] & _).
    exists (kvs1 ++ ks1), (pids1 ++ ps1), ks2, ps2. rewrite <- !app_assoc.
    assert (Hst : strictly lo k) by by eapply above_strictly.
    split_and!; try done; [by constructor|]. split; [by apply strictly_above|done].
Qed.

(** The separators to the left of the hole lie below its range. *)
Lemma before_keys R hi c lo l d lo' kvs pids k :
  before R hi c lo l d lo' kvs pids -> strictly lo' k -> forall x, x ∈ l.*1 -> key_lt x k.
Proof.
  intros Hb Hk. induction Hb as [c lo|c lo k0 c0 l d lo' ks ps kvs pids Hr Hc Hb IH]; intros x.
  - by intros ?%not_elem_of_nil.
  - intros [->|Hx]%elem_of_cons; [|by apply IH].
    destruct l as [|[k1 c1] l]; inversion Hb as [|? ? ? ? ? ? ? ? ? ? ? [Ha1 _]]; subst; [exact Hk|].
    eapply key_le_lt_trans; [exact Ha1|]. apply (IH Hk). by left.
Qed.

Lemma after_keys R lo hi' r hi kvs pids k :
  sorted_cells fst r -> after R lo hi' r hi kvs pids -> below hi' k -> forall x, x ∈ r.*1 -> key_lt k x.
Proof.
  destruct r as [|[k0 c0] r]; [by intros _ _ _ x ?%not_elem_of_nil|].
  intros Hs (-> & _ & _) Hk x [->|Hx]%elem_of_cons; [exact Hk|].
  apply StronglySorted_inv in Hs as [_ Hd]. rewrite Forall_forall in Hd.
  apply list_elem_of_fmap in Hx as (y & -> & Hy). eapply key_lt_trans; [exact Hk|exact (Hd _ Hy)].
Qed.

(** A hole filled by two subtrees. *)
Lemma forest_plug2 R hi c lo l d d' lo' hi' kb pb sep kvs1 pids1 kvs2 pids2 r ka pa :
  before R hi c lo l d lo' kb pb -> R d lo' (Some sep) kvs1 pids1 -> R d' (Some sep) hi' kvs2 pids2 ->
  after R lo' hi' r hi ka pa -> strictly lo' sep -> below hi' sep -> below hi sep ->
  forest R c lo (l ++ (sep, d') :: r) hi (kb ++ (kvs1 ++ kvs2) ++ ka) (pb ++ (pids1 ++ pids2) ++ pa).
Proof.
  intros Hb H1 H2 Ha Hlo Hhi' Hhi. rewrite <- !app_assoc.
  eapply (forest_plug R hi c lo l d lo' (Some sep)); [exact Hb|exact H1|].
  split; [done|]. split; [split; [by apply strictly_above|done]|].
  change r with ([] ++ r). eapply (forest_plug R hi d' (Some sep) [] d' (Some sep) hi' [] []); [constructor|exact H2|].
  destruct r as [|[k c'] r]; [done|]. destruct Ha as (-> & [_ Hk] & Hf). split; [done|].
  split; [split; [|done]|done]. by apply key_lt_asym.
Qed.

Lemma after_below R lo hi' r hi kvs pids k : after R lo hi' r hi kvs pids -> below hi' k -> below hi k.
Proof.
  destruct r as [|[k0 c0] r]; [by intros (-> & _)|]. intros (-> & [_ Hk] & _) Hlt.
  eapply below_trans; [exact Hk|]. by apply key_lt_asym.
Qed.

Lemma forest_children R (HR : forall c lo hi kvs pids, R c lo hi kvs pids -> c ∈ pids) c lo cells hi kvs pids :
  forest R c lo cells hi kvs pids -> forall d, d ∈ c :: cells.*2 -> d ∈ pids.
Proof.
  induction 1 as [c lo hi kvs pids Hc|c lo k c' cells hi kvs1 pids1 kvs2 pids2 Hk Hc Hf IH]; intros d.
  - intros ->%list_elem_of_singleton. by eapply HR.
  - intros [->|Hd]%elem_of_cons; apply elem_of_app; [left; by eapply HR|right; by apply IH].
Qed.
End cut_forest.

(** ** The invariant of the pages *)

Definition kv_small (c : kv) : Prop := leaf_cell_size (zlen c.1) (zlen c.2) + 2 <= 1010.
Definition sep_small (c : bytes * Z) : Prop := internal_cell_size (zlen c.1) + 2 <= 1012.

Lemma kv_small_sep (k v : bytes) (c : Z) : kv_small (k, v) -> sep_small (k, c).
Proof.
  unfold kv_small, sep_small, leaf_cell_size, internal_cell_size. simpl. pose proof (zlen_nonneg v). lia.
Qed.

(** A full node of small cells has enough of them to be split, and both halves
    have cells and room for one more. *)
Section small.
Context {A : Type} `{Cell A} (cells : list A) (M : Z).
Hypothesis Hocc : occupied cells <= NODE_USABLE_SIZE.
Hypothesis Hsmall : Forall (fun a => zlen (enc a) + 2 <= M) cells.
Hypothesis Hfull : NODE_USABLE_SIZE < occupied cells + M.
Hypothesis HM : M <= 1012.

Lemma small_length : (2 <= length cells)%nat.
Proof.
  destruct cells as [|a [|b l]]; [| |simpl; lia]; exfalso; rewrite ?occupied_cons, occupied_nil in Hfull.
  - klia.
  - apply Forall_inv in Hsmall. klia.
Qed.

Lemma small_right (mid : nat) :
  (0 < mid < length cells)%nat -> (mid <= 1)%nat \/ occupied (take mid cells) <= occupied cells / 2 ->
  drop (S mid) cells <> [].
Proof.
  intros Hmid Hl Hnil. destruct (lookup_lt_is_Some_2 cells mid) as [x Hx]; [lia|].
  assert (Hsum : occupied cells = occupied (take mid cells) + occupied (drop mid cells))
    by by rewrite <- occupied_app, take_drop.
  rewrite (drop_S _ _ _ Hx), Hnil, occupied_cons, occupied_nil in Hsum.
  rewrite Forall_lookup in Hsmall. pose proof (Hsmall _ _ Hx) as Hxs.
  assert (occupied cells = 2 * (occupied cells / 2) + occupied cells mod 2) by (apply Z.div_mod; lia).
  assert (0 <= occupied cells mod 2 < 2) by (apply Z.mod_pos_bound; lia).
  destruct Hl as [Hl1|Hl2]; [|klia].
  assert (Ht : occupied (take mid cells) <= M).
  { replace mid with 1%nat by lia. apply (occupied_take_1 cells 1); [done|by apply Forall_lookup|lia]. }
  klia.
Qed.
End small.

Lemma small_seps (cells : list (bytes * Z)) :
  Forall sep_small cells -> Forall (fun a => zlen (enc a) + 2 <= 1012) cells.
Proof. intros Hs. eapply Forall_impl; [exact Hs|]. intros [k c] Hx. cbn beta. by rewrite zlen_enc_internal. Qed.

Lemma small_kvs (cells : list kv) :
  Forall kv_small cells -> Forall (fun a => zlen (enc a) + 2 <= 1010) cells.
Proof. intros Hs. eapply Forall_impl; [exact Hs|]. intros [k v] Hx. cbn beta. by rewrite zlen_enc_leaf. Qed.

Lemma promoted_room (cells : list (bytes * Z)) (mid : nat) :
  occupied cells <= NODE_USABLE_SIZE -> Forall sep_small cells -> promoted cells mid ->
  occupied (take mid cells) + 1012 <= NODE_USABLE_SIZE /\
  occupied (drop (S mid) cells) + 1012 <= NODE_USABLE_SIZE.
Proof.
  intros Ho Hs%small_seps (Hmid & Hl & Hr). split.
  - by apply (half_left_small cells mid 1012).
  - destruct (lookup_lt_is_Some_2 cells mid) as [x Hx]; [lia|].
    destruct (half_right_small cells mid 1012 Ho Hs Hmid x Hx Hr). klia.
Qed.

Definition page_ok (p : Page) : Prop :=
  (exists cells : list kv, node p cells) \/
  (exists cells : list (bytes * Z), node p cells /\ cells <> [] /\ Forall sep_small cells).

Lemma page_ok_same p p' : same_node p p' -> page_ok p -> page_ok p'.
Proof.
  intros [_ _ _ _ N1 N2] [[cells Hn]|(cells & Hn & Hrest)]; [left|right]; exists cells; auto.
Qed.

Lemma page_ok_internal p (cells : list (bytes * Z)) :
  page_ok p -> node p cells -> cells <> [] /\ Forall sep_small cells.
Proof.
  intros [[cells' Hn']|(cells' & Hn' & Hrest)] Hn.
  - pose proof (node_type _ _ Hn). pose proof (node_type _ _ Hn'). simpl in *. congruence.
  - by rewrite (node_cells_unique p cells cells' Hn Hn').
Qed.

(** The pages of a tree: every one is a node, and the leaves are chained. *)
Definition pages_ok (V : Z -> Page) (ps : list Z) : Prop :=
  (forall j, j ∈ ps -> page_ok (V j)) /\ leaf_chain V ps.

Lemma same_node_link p p' : same_node p p' -> same_link p p'.
Proof. by intros []. Qed.

(** The same pages, and all but those in [X] as they were. *)
Lemma pages_evolve X m a a' ps :
  evolves X m a a' -> pages_ok (a_page a) ps ->
  (forall j, j ∈ X -> j ∈ ps -> page_ok (a_page a' j) /\ same_link (a_page a j) (a_page a' j)) ->
  pages_ok (a_page a') ps.
Proof.
  intros He [Hp Hc] HX. split.
  - intros j Hj. destruct (decide (j ∈ X)) as [Hx|Hx]; [by apply HX|].
    eapply page_ok_same; [by apply (ev_same _ _ _ _ He)|by apply Hp].
  - eapply leaf_chain_same; [|exact Hc]. intros j Hj. destruct (decide (j ∈ X)) as [Hx|Hx]; [by apply HX|].
    by apply same_node_link, (ev_same _ _ _ _ He).
Qed.

(** One more internal node. *)
Lemma pages_ok_insert V j ps1 ps2 (cells : list (bytes * Z)) :
  node (V j) cells -> cells <> [] -> Forall sep_small cells -> pages_ok V (ps1 ++ ps2) -> pages_ok V (ps1 ++ j :: ps2).
Proof.
  intros Hn Hne Hs [Hp Hc]. split.
  - intros k. rewrite elem_of_app, elem_of_cons. intros [Hk|[->|Hk]]; [apply Hp, elem_of_app; by left| |apply Hp, elem_of_app; by right].
    right. by exists cells.
  - apply leaf_chain_insert; [|done]. unfold is_leaf_page. by rewrite (node_type _ _ Hn).
Qed.

Section inv.
Context {F : Type} `{ReliableFile F}.
Implicit Types (t : BTree F) (a : APool).

Record tree_inv t a (h : nat) (kvs : list kv) (pids : list Z) : Prop := {
  ti_rep : tree_rep t a h kvs pids;
  ti_pages : pages_ok (a_page a) pids;
  ti_small : Forall kv_small kvs;
}.
End inv.

(** Every internal node has two children, so the height is logarithmic. *)
Lemma subtree_pages V h pid lo hi kvs pids :
  subtree V h pid lo hi kvs pids -> (forall j, j ∈ pids -> page_ok (V j)) ->
  2 ^ Z.of_nat h <= zlen pids.
Proof.
  intros Hs Hps. revert pid lo hi kvs pids Hs Hps.
  induction h as [|h IH]; intros pid lo hi kvs pids; cbn [subtree].
  - intros (_ & _ & _ & ->) _. done.
  - intros (_ & cells & pids' & Hn & -> & Hf) Hps.
    destruct (page_ok_internal _ cells (Hps pid ltac:(by left)) Hn) as [Hne _].
    assert (Hps' : forall j, j ∈ pids' -> page_ok (V j)) by (intros j Hj; apply Hps; by right).
    rewrite Nat2Z.inj_succ, Z.pow_succ_r, zlen_cons by lia.
    destruct Hf as [|c lo k c' cells hi ks1 ps1 ks2 ps2 _ Hc Hf]; [done|].
    rewrite zlen_app. apply IH in Hc; [|intros j Hj; apply Hps', elem_of_app; by left].
    enough (2 ^ Z.of_nat h <= zlen ps2) by lia.
    assert (Hps2 : forall j, j ∈ ps2 -> page_ok (V j)) by (intros j Hj; apply Hps', elem_of_app; by right).
    destruct Hf as [c0 lo0 hi0 kvs0 pids0 Hc0|c0 lo0 k0 c1 cells0 hi0 ks3 ps3 ks4 ps4 _ Hc0 _].
    + by eapply IH.
    + rewrite zlen_app. pose proof (zlen_nonneg ps4).
      apply IH in Hc0; [lia|]. intros j Hj. apply Hps2, elem_of_app. by left.
Qed.
