(* ===== verification/TreeOps.v ===== *)
(** * The operations of the tree on its entries

    What an operation on one leaf does to the entries of the whole tree, and
    [get] on a tree of any height, which is the lookup of a finite map from
    keys to values. *)

From stdpp Require Import functions.
From S2P Require Import Prelude.
From S2P Require Import Buffers.
From S2P Require Import Page.
From S2P Require Import Node.
From S2P Require Import NodeSlots.
From S2P Require Import KeyOrder.
From S2P Require Import NodeCells.
From S2P Require Import NodeKinds.
From S2P Require Import NodeOps.
From S2P Require Import NodeInsert.
From S2P Require Import NodeSplit.
From S2P Require Import NodeMerge.
From S2P Require Import DiskManager.
From S2P Require Import FreeList.
From S2P Require Import BufferPool.
From S2P Require Import PoolSpec.
From S2P Require Import PoolOps.
From S2P Require Import BTree.
From S2P Require Import Tree.
From S2P Require Import TreeNav.

(** ** A segment of the entries *)

Section segment.
Context (key : bytes) (kb ka : list kv).
Hypothesis Hb : forall x, x ∈ kb.*1 -> key_lt x key.
Hypothesis Ha : forall x, x ∈ ka.*1 -> key_lt key x.

Lemma kv_lookup_mid (l : list kv) : kv_map (kb ++ l ++ ka) !! key = kv_map l !! key.
Proof.
  unfold kv_map. rewrite !list_to_map_app.
  assert (Hnb : (list_to_map kb : gmap bytes bytes) !! key = None).
  { apply not_elem_of_list_to_map_1. intros Hin. by apply Hb, key_lt_irrefl in Hin. }
  assert (Hna : (list_to_map ka : gmap bytes bytes) !! key = None).
  { apply not_elem_of_list_to_map_1. intros Hin. by apply Ha, key_lt_irrefl in Hin. }
  rewrite lookup_union_r by done. by apply lookup_union_l.
Qed.

Lemma upsert_before (l : list kv) (v : bytes) : upsert key v (l ++ ka) = upsert key v l ++ ka.
Proof.
  induction l as [|[k w] l IH]; cbn [app upsert fst].
  - destruct ka as [|[k w] ka'] eqn:E; [done|]. cbn [upsert fst].
    assert (Hk : key_lt key k) by (apply Ha; left).
    destruct (key_ltb k key) eqn:Hlt; [exfalso; by eapply key_lt_asym|].
    rewrite bool_decide_eq_false_2; [done|]. intros ->. by apply key_lt_irrefl in Hk.
  - destruct (key_ltb k key); [by rewrite IH|]. by case_bool_decide.
Qed.

Lemma upsert_mid (l : list kv) (v : bytes) : upsert key v (kb ++ l ++ ka) = kb ++ upsert key v l ++ ka.
Proof.
  pose proof (upsert_before l v) as Hbase. clear Ha. revert Hb.
  induction kb as [|[k w] kb' IH]; intros Hb'; cbn [app upsert fst].
  - exact Hbase.
  - assert (Hk : key_lt k key) by (apply Hb'; left). unfold key_lt in Hk. rewrite Hk. f_equal.
    apply IH. intros x Hx. apply Hb'. by right.
Qed.

Lemma remove_mid (l : list kv) : remove_key key (kb ++ l ++ ka) = kb ++ remove_key key l ++ ka.
Proof.
  assert (Hl : forall l', remove_key key (l' ++ ka) = remove_key key l' ++ ka).
  { intros l'. induction l' as [|[k w] l' IH]; cbn [app remove_key fst].
    - apply remove_key_absent. intros Hin. by apply Ha, key_lt_irrefl in Hin.
    - case_bool_decide; [done|]. by rewrite IH. }
  clear Ha. revert Hb. induction kb as [|[k w] kb' IH]; intros Hb'; cbn [app remove_key fst].
  - apply Hl.
  - assert (Hk : key_lt k key) by (apply Hb'; left).
    rewrite bool_decide_eq_false_2 by (intros ->; by apply key_lt_irrefl in Hk).
    f_equal. apply IH. intros x Hx. apply Hb'. by right.
Qed.
End segment.

Lemma keys_upsert (l : list kv) (k v : bytes) x : x ∈ (upsert k v l).*1 -> x = k \/ x ∈ l.*1.
Proof.
  induction l as [|[k' w] l IH]; cbn [upsert fst].
  - intros Hx%list_elem_of_singleton. by left.
  - destruct (key_ltb k' k); [|case_bool_decide]; cbn [fmap list_fmap fst].
    + intros [->|Hx]%elem_of_cons; [right; by left|]. destruct (IH Hx); [by left|right; by right].
    + intros [->|Hx]%elem_of_cons; [by left|right; by right].
    + intros [->|Hx]%elem_of_cons; [by left|by right].
Qed.

Lemma keys_remove (l : list kv) (k : bytes) x : x ∈ (remove_key k l).*1 -> x ∈ l.*1.
Proof.
  induction l as [|[k' w] l IH]; cbn [remove_key fst]; [done|].
  case_bool_decide; cbn [fmap list_fmap fst].
  - intros Hx. by right.
  - intros [->|Hx]%elem_of_cons; [by left|right; by apply IH].
Qed.

Lemma keys_in_upsert lo hi (l : list kv) (k v : bytes) :
  keys_in lo hi l -> in_range lo hi k -> keys_in lo hi (upsert k v l).
Proof. intros Hl Hk x [->|Hx]%keys_upsert; [done|by apply Hl]. Qed.

Lemma keys_in_remove lo hi (l : list kv) (k : bytes) :
  keys_in lo hi l -> keys_in lo hi (remove_key k l).
Proof. intros Hl x Hx%keys_remove. by apply Hl. Qed.

(** ** Reading the leaf *)

Lemma slot_has_ok (p : Page) (cells : list kv) (key : bytes) :
  node p cells ->
  slot_has (Z.of_nat (lb_index fst key cells)) key p =
    Ok (match cells !! lb_index fst key cells with Some c => bool_decide (c.1 = key) | None => false end).
Proof.
  intros Hn. unfold slot_has.
  rewrite (result_bind_ok _ _ _ (num_keys_ok p (holds_length p cells (node_holds _ _ Hn)))).
  apply (key_present_ok p cells key Hn).
Qed.

Section ops.
Context {F : Type} `{ReliableFile F}.
Implicit Types (t : BTree F) (a : APool) (key value : bytes).

(** The steps that [get] and [remove] share after [find_leaf]. *)
Lemma leaf_prefix t b a leaf i (lcells : list kv) key {B}
    (k : Z -> Z -> bool -> M (BTree F) B) :
  pool_rep ∅ [(leaf, i)] b a -> node (a_page a leaf) lcells -> pg_id (a_page a leaf) = leaf ->
  (let* leaf_id := ask i page_id in
   do* make_node i in
   let* slot := ask i (lower_bound key) in
   let* found := ask i (slot_has slot key) in
   k leaf_id slot found) (set_bp b t) =
  k leaf (Z.of_nat (lb_index fst key lcells))
    (match lcells !! lb_index fst key lcells with Some c => bool_decide (c.1 = key) | None => false end)
    (set_bp b t).
Proof.
  intros Hr Hn Hid. set (t1 := set_bp b t). assert (Hin : (leaf, i) ∈ [(leaf, i)]) by by left.
  assert (Hr1 : pool_rep ∅ [(leaf, i)] (bp_ t1) a) by done.
  mstep (ask_leaf_id _ _ t1 a leaf i lcells Hr1 Hin Hn Hid).
  mstep (make_node_tree _ _ t1 a leaf i lcells Hr1 Hin Hn).
  mstep (ask_tree _ _ t1 a leaf i (lower_bound key) _ Hr1 Hin
    (lower_bound_holds _ lcells (node_holds _ _ Hn) key (node_sorted _ _ Hn))).
  cell_simpl.
  by mstep (ask_tree _ _ t1 a leaf i (slot_has _ key) _ Hr1 Hin (slot_has_ok _ lcells key Hn)).
Qed.

(** [get] returns what the map holds and changes nothing. *)
Lemma get_ok t a h kvs pids key :
  tree_rep t a h kvs pids -> (0 < a_cap a)%nat ->
  exists t', get key t = (Ok (kv_map kvs !! key), t') /\ tree_rep t' a h kvs pids.
Proof.
  intros Hr Hc. destruct (find_leaf_ok t a h kvs pids key Hr Hc)
    as (i & path & b1 & leaf & lo & hi & lcells & kb & ka & pb & pa & E1 & Fd).
  pose proof Fd as [Hr1 _ Hid Hn Hk Hrange Hkvs _ Hb Ha].
  destruct (unpin_tree ∅ [(leaf, i)] [] (set_bp b1 t) a leaf i false Hr1) as (b2 & E2 & Hr2);
    [done|intros _; apply not_elem_of_empty|].
  exists (set_bp b2 t). split.
  - unfold get. mstep E1. cbn [fst].
    rewrite (leaf_prefix t b1 a leaf i lcells key (fun leaf_id slot found =>
      let* r := (if found then let* v := ask i (value_at slot) in ret (Some v) else ret None) in
      do* unpin leaf_id false in ret r) Hr1 Hn Hid).
    set (j := lb_index fst key lcells).
    assert (Hm : kv_map kvs !! key =
      match lcells !! j with Some c => if bool_decide (c.1 = key) then Some c.2 else None | None => None end).
    { rewrite Hkvs, kv_lookup_mid by done.
      apply kv_map_lookup_at; [apply (node_sorted _ _ Hn)|apply lb_index_spec, (node_sorted _ _ Hn)]. }
    rewrite Hm. destruct (lcells !! j) as [[k v]|] eqn:Hj; [case_bool_decide as Hkey|].
    + assert (Ev : ask i (value_at (Z.of_nat j)) (set_bp b1 t) = (Ok v, set_bp b1 t)).
      { eapply ask_tree; [exact Hr1|by left|].
        by apply (value_at_holds _ lcells j k v (node_holds _ _ Hn) (node_type _ _ Hn)). }
      rewrite (bind_ok _ _ (set_bp b1 t) (set_bp b1 t) (Some v)) by (by mstep Ev). by mstep E2.
    + rewrite (bind_ok _ _ (set_bp b1 t) (set_bp b1 t) None) by done. by mstep E2.
    + rewrite (bind_ok _ _ (set_bp b1 t) (set_bp b1 t) None) by done. by mstep E2.
  - destruct Hr. by split.
Qed.
End ops.
