(* ===== verification/TreeUpdate.v ===== *)
(** * Updates that stay within one leaf

    [insert] into a leaf that has room and [remove] of a key that is not there,
    on a tree of any height, and the tree with other entries in one leaf: the
    entries change by [upsert] and [remove_key], the pages of the tree are the
    same. *)

From stdpp Require Import functions.
From S2P Require Import Prelude.
From S2P Require Import Buffers.
From S2P Require Import Page.
From S2P Require Import Node.
From S2P Require Import NodeSlots.
From S2P Require Import KeyOrder.
From S2P Require Import NodeCells.
From S2P Require Import NodeKinds.
From S2P Require Import NodeOps.
From S2P Require Import NodeInsert.
From S2P Require Import NodeMerge.
From S2P Require Import DiskManager.
From S2P Require Import FreeList.
From S2P Require Import BufferPool.
From S2P Require Import PoolSpec.
From S2P Require Import PoolOps.
From S2P Require Import BTree.
From S2P Require Import Tree.
From S2P Require Import TreeNav.
From S2P Require Import TreeFrame.
From S2P Require Import TreeOps.

Section updates.
Context {F : Type} `{ReliableFile F}.
Implicit Types (t : BTree F) (a : APool) (key value : bytes).

(** The store with another page for a leaf of the tree. *)
Lemma found_update t a h kvs pids key i path b leaf lo hi lcells kb ka pb pa b2 p' lcells' :
  tree_rep t a h kvs pids ->
  found t a h kvs pids key i path b leaf lo hi lcells kb ka pb pa ->
  pool_rep ∅ [] b2 (a_set_page leaf p' a) -> pg_id p' = leaf -> node p' lcells' ->
  keys_in lo hi lcells' ->
  tree_rep (set_bp b2 t) (a_set_page leaf p' a) h (kb ++ lcells' ++ ka) pids.
Proof.
  intros Hr Fd Hp Hid Hn Hk. destruct Hr as [Hpool Htree Hnd Hpids Hroot]. split; try done.
  change (root_page_id_ (set_bp b2 t)) with (root_page_id_ t). cbn [a_page a_set_page].
  destruct Fd as [_ Hx _ _ _ _ _ -> _ _]. change (leaf :: pa) with ([leaf] ++ pa).
  apply NoDup_app in Hnd as (_ & Hnb & [Hna _]%NoDup_cons).
  eapply context_plug; [eapply context_frame; [exact Hx|]|].
  - intros j Hj. rewrite fn_lookup_insert_ne; [done|]. intros ->.
    apply elem_of_app in Hj as [Hj|Hj]; [|done]. apply (Hnb _ Hj). by left.
  - cbn [subtree]. rewrite fn_lookup_insert. by split_and!.
Qed.

(** [insert] ends in the leaf when the entry fits. *)
Lemma insert_room_step t a h kvs pids key value i path b leaf lo hi lcells kb ka pb pa :
  leaf_cell_size (zlen key) (zlen value) + 2 <= NODE_USABLE_SIZE ->
  find_leaf key t = (Ok (i, path), set_bp b t) ->
  found t a h kvs pids key i path b leaf lo hi lcells kb ka pb pa ->
  leaf_fits key value lcells = true ->
  exists b' p', insert key value t = (Ok tt, set_bp b' t) /\ pool_rep ∅ [] b' (a_set_page leaf p' a) /\
    node p' (upsert key value lcells) /\ meta p' = meta (a_page a leaf).
Proof.
  intros Hsize E1 Fd Hfit. pose proof Fd as [Hr1 _ Hid Hn _ _ _ _ _ _].
  assert (Hin : (leaf, i) ∈ [(leaf, i)]) by by left.
  destruct (insert_leaf_cell_ok _ lcells key value Hn) as (p' & E & Mt & N & _). rewrite Hfit in E, N.
  assert (Hid' : pg_id p' = leaf) by (unfold meta in Mt; congruence).
  destruct (at_page_tree ∅ _ (set_bp b t) a leaf i (insert_leaf_cell key value) _ p' Hr1 Hin E Hid'
    (holds_length _ _ (node_holds _ _ N))) as (b1 & E2 & Hr2).
  destruct (unpin_tree _ _ [] (set_bp b1 (set_bp b t)) _ leaf i true Hr2) as (b2 & E3 & Hr3); [done..|].
  exists b2, p'. split; [|split; [|done]].
  - unfold insert. rewrite (proj2 (Z.ltb_ge _ _)) by lia. mstep E1. cbn [fst].
    mstep (ask_leaf_id _ _ (set_bp b t) a leaf i lcells Hr1 Hin Hn Hid).
    mstep (make_node_tree _ _ (set_bp b t) a leaf i lcells Hr1 Hin Hn).
    mstep E2. exact E3.
  - by rewrite (clean_one leaf).
Qed.

Lemma insert_room_ok t a h kvs pids key value i path b leaf lo hi lcells kb ka pb pa :
  tree_rep t a h kvs pids ->
  leaf_cell_size (zlen key) (zlen value) + 2 <= NODE_USABLE_SIZE ->
  find_leaf key t = (Ok (i, path), set_bp b t) ->
  found t a h kvs pids key i path b leaf lo hi lcells kb ka pb pa ->
  leaf_fits key value lcells = true ->
  exists t' a', insert key value t = (Ok tt, t') /\
    tree_rep t' a' h (upsert key value kvs) pids /\ a_cap a' = a_cap a.
Proof.
  intros Hr Hsize E1 Fd Hfit. pose proof Fd as [_ _ Hid _ Hk Hrange Hkvs _ Hb Ha].
  destruct (insert_room_step _ _ _ _ _ _ _ _ _ _ _ _ _ _ _ _ _ _ Hsize E1 Fd Hfit) as (b' & p' & E & Hr' & N & Mt).
  exists (set_bp b' t), (a_set_page leaf p' a). split; [exact E|]. split; [|done].
  subst kvs. rewrite (upsert_mid key kb ka Hb Ha lcells value).
  eapply found_update; [exact Hr|exact Fd|exact Hr'|unfold meta in Mt; congruence|done|by apply keys_in_upsert].
Qed.

(** Pinning and unpinning pages leaves the tree. *)
Lemma tree_rep_pool t a h kvs pids b' :
  tree_rep t a h kvs pids -> pool_rep ∅ [] b' a -> tree_rep (set_bp b' t) a h kvs pids.
Proof. intros [] ?. by split. Qed.

(** The key is in the leaf exactly when it is in the tree. *)
Lemma leaf_has (kvs lcells kb ka : list kv) key :
  sorted_cells fst lcells -> kvs = kb ++ lcells ++ ka ->
  (forall x, x ∈ kb.*1 -> key_lt x key) -> (forall x, x ∈ ka.*1 -> key_lt key x) ->
  (match lcells !! lb_index fst key lcells with Some c => bool_decide (c.1 = key) | None => false end)
  = bool_decide (is_Some (kv_map kvs !! key)).
Proof.
  intros Hs -> Hb Ha. rewrite (kv_lookup_mid key kb ka Hb Ha).
  rewrite (kv_map_lookup_at key lcells _ Hs (lb_index_spec fst key lcells Hs)).
  destruct (lcells !! lb_index fst key lcells) as [[k v]|]; cbn [fst snd].
  - case_bool_decide; symmetry; [by apply bool_decide_eq_true_2|apply bool_decide_eq_false_2].
    by intros [? ?].
  - symmetry. apply bool_decide_eq_false_2. by intros [? ?].
Qed.

(** [remove] of a key that is not there. *)
Lemma remove_absent_ok t a h kvs pids key :
  tree_rep t a h kvs pids -> (0 < a_cap a)%nat -> kv_map kvs !! key = None ->
  exists t', remove key t = (Ok false, t') /\ tree_rep t' a h kvs pids.
Proof.
  intros Hr Hc Hkey. destruct (find_leaf_ok t a h kvs pids key Hr Hc)
    as (i & path & b1 & leaf & lo & hi & lcells & kb & ka & pb & pa & E1 & Fd).
  pose proof Fd as [Hr1 _ Hid Hn Hk Hrange Hkvs _ Hb Ha].
  destruct (unpin_tree ∅ [(leaf, i)] [] (set_bp b1 t) a leaf i false Hr1) as (b2 & E2 & Hr2);
    [done|intros _; apply not_elem_of_empty|].
  exists (set_bp b2 t). split; [|exact (tree_rep_pool t a h kvs pids b2 Hr Hr2)].
  unfold remove. mstep E1. cbn [fst].
  rewrite (leaf_prefix t b1 a leaf i lcells key _ Hr1 Hn Hid).
  rewrite (leaf_has kvs lcells kb ka key (node_sorted _ _ Hn) Hkvs Hb Ha), Hkey.
  rewrite bool_decide_eq_false_2 by by intros [? ?]. cbn [negb]. by mstep E2.
Qed.
End updates.
