(* ===== verification/TreeHalves.v ===== *)
(** * Nodes that are split, at the level of the pages

    What the insertions do with the node they split, its new right neighbour
    and the pages these refer to, before the tree is looked at as a whole. *)

From stdpp Require Import functions.
From S2P Require Import Prelude.
From S2P Require Import Buffers.
From S2P Require Import Page.
From S2P Require Import Node.
From S2P Require Import NodeSlots.
From S2P Require Import KeyOrder.
From S2P Require Import NodeCells.
From S2P Require Import NodeKinds.
From S2P Require Import NodeOps.
From S2P Require Import NodeInsert.
From S2P Require Import NodeSplit.
From S2P Require Import DiskManager.
From S2P Require Import FreeList.
From S2P Require Import BufferPool.
From S2P Require Import PoolSpec.
From S2P Require Import PoolOps.
From S2P Require Import BTree.
From S2P Require Import Tree.
From S2P Require Import TreeNav.
From S2P Require Import TreeFrame.
From S2P Require Import TreeSplit.
From S2P Require Import TreeOps.
From S2P Require Import TreeUpdate.

(** The links that lookups follow, and the right link. *)
Definition links (p : Page) : Z * Z * Z := (pg_id p, pg_first p, pg_right p).

Lemma same_node_links p p' : same_node p p' -> links p' = links p.
Proof. intros [I C R _ _]. unfold links. by rewrite I, C, R. Qed.

Lemma meta_links p p' : meta p' = meta p -> links p' = links p.
Proof. unfold meta, links. intros E. by injection E as -> _ _ -> _ ->. Qed.

Lemma links_id p p' : links p' = links p -> pg_id p' = pg_id p.
Proof. unfold links. intros E. by injection E. Qed.

Lemma not_two (j pid nid : Z) : j <> pid -> j <> nid -> j ∉ [pid; nid].
Proof. by intros ? ? [->|[->|?%not_elem_of_nil]%elem_of_cons]%elem_of_cons. Qed.

Lemma two_dirty (pid nid : Z) : pid ∈ ({[pid; nid]} : gset Z) /\ nid ∈ ({[pid; nid]} : gset Z).
Proof. rewrite !elem_of_union, !elem_of_singleton. tauto. Qed.

Lemma evolves_left j nid n m a a1 a2 :
  evolves [j] n a a1 -> evolves [j; nid] m a1 a2 -> evolves [j; nid] (n + m) a a2.
Proof.
  intros H1 H2. apply (evolves_trans _ _ _ _ a1); [|done]. eapply evolves_weaken; [|reflexivity|exact H1].
  intros k ->%list_elem_of_singleton. by left.
Qed.

Lemma evolves_relinked X n a a1 a2 : evolves X n a a1 -> evolves [] 0 a1 a2 -> evolves X n a a2.
Proof.
  intros H1 H2. replace n with (n + 0) by lia. apply (evolves_trans _ _ _ _ a1); [done|].
  eapply evolves_weaken; [|reflexivity|exact H2]. by intros j ?%not_elem_of_nil.
Qed.

Lemma node_occupied {A : Type} `{NodeKind A} p (cells : list A) :
  node p cells -> occupied cells <= NODE_USABLE_SIZE.
Proof.
  intros Hn. pose proof (holds_occupied _ _ (node_holds _ _ Hn)).
  pose proof (holds_bounds _ _ (node_holds _ _ Hn)). lia.
Qed.

Section steps.
Context {F : Type} `{ReliableFile F}.
Implicit Types (t : BTree F) (b : BufferPool F) (a : APool) (D : gset Z) (L : list (Z * Z)).

(** The separator [sep] with the child [c'] goes into the pinned node [j]. *)
Lemma add_to_half_ok D L t a j i (cells : list (bytes * Z)) sep c' :
  pool_rep D L (bp_ t) a -> j ∈ D -> (j, i) ∈ L -> (length L < a_cap a)%nat ->
  node (a_page a j) cells -> pg_id (a_page a j) = j -> sep ∉ cells.*1 ->
  separator_fits sep c' cells = true -> node_in a c' -> c' <> j ->
  exists b' a', add_to_half i j sep c' t = (Ok tt, set_bp b' t) /\ pool_rep D L b' a' /\
    evolves [j] 0 a a' /\ node (a_page a' j) (upsert sep c' cells) /\ links (a_page a' j) = links (a_page a j).
Proof.
  intros Hr Hd Hin Hc Hn Hid Hsep Hfit Hc' Hne.
  assert (Hpj : is_page_id j) by (rewrite <- Hid; apply is_page_id_pg_id).
  assert (Hpc : is_page_id c') by (destruct Hc' as [(_ & _ & <-) _]; apply is_page_id_pg_id).
  destruct (insert_separator_ok _ cells sep c' Hn Hsep Hpc) as (p' & E & Mt & N & _).
  rewrite Hfit in E, N. apply meta_links in Mt.
  destruct (at_page_dirty D L t a j i _ _ p' Hr Hd Hin E) as (b1 & E1 & Hr1);
    [by rewrite (links_id _ _ Mt)|apply (holds_length _ _ (node_holds _ _ N))|].
  set (a1 := a_set_page j p' a) in *.
  assert (He1 : evolves [j] 0 a a1) by (apply evolves_set_page; by left).
  assert (Hc1 : node_in a1 c').
  { eapply node_in_evolves; [exact He1| |done]. by intros ?%list_elem_of_singleton. }
  destruct (update_node_ok D L (set_bp b1 t) a1 c' _ Hr1 Hc Hc1 (relinks_parent j Hpj)) as (b2 & a2 & E2 & Hr2 & He2).
  assert (Hj1 : a_page a1 j = p') by (simpl; by rewrite fn_lookup_insert).
  pose proof (ev_same _ _ _ _ He2 j (not_elem_of_nil _)) as Hs2. rewrite Hj1 in Hs2.
  exists b2, a2. split; [|split; [done|split; [|split]]].
  - unfold add_to_half. mstep E1. cbn [assert_]. exact E2.
  - apply (evolves_trans [j] 0 0 _ a1); [done|]. by eapply evolves_weaken; [|reflexivity|exact He2]; intros ? ?%not_elem_of_nil.
  - by apply (sn_internal _ _ Hs2).
  - by rewrite (same_node_links _ _ Hs2).
Qed.

Lemma add_separator_eq i j sep c' t :
  add_separator i j sep c' t = (do* add_to_half i j sep c' in unpin j true) t.
Proof.
  unfold add_separator, add_to_half, bind. destruct (at_page _ _ t) as [[ok|e] t1]; [|done].
  by destruct (assert_ ok t1) as [[u|e] t2].
Qed.

(** A new empty node next to the pinned node [j]. *)
Lemma new_sibling {A} `{NodeKindLaws A} (init : Z -> Z -> M Page unit) ty t a j i (cells : list A)
    {B} (err : M (BTree F) B) (k : Z -> Z -> M (BTree F) B) :
  (forall pid par p, is_page_id pid -> is_page_id par -> exists p', init pid par p = (Ok tt, p') /\
     node p' (@nil A) /\ pg_ce p' = NODE_DATA_SIZE /\ meta p' = fresh_meta pid ty par) ->
  pool_rep {[j]} [(j, i)] (bp_ t) a -> (3 <= a_cap a)%nat -> a_num a + 1 < 2 ^ 31 -> in_use_page a j ->
  node (a_page a j) cells ->
  exists i' nid b' a',
    (let* r := on_bp new_page in
     match r with
     | None => err
     | Some (ptr, nid) =>
         let* pp := ask i Node.parent_id in
         do* at_page ptr (init nid pp) in
         do* make_node ptr in
         k ptr nid
     end) t = k i' nid (set_bp b' t) /\
    pool_rep {[j; nid]} [(nid, i'); (j, i)] b' a' /\ evolves [nid] 1 a a' /\
    in_use_page a' nid /\ ~ in_use_page a nid /\ a_page a' j = a_page a j /\
    node (a_page a' nid) (@nil A) /\ compacted (a_page a' nid) (@nil A) /\
    meta (a_page a' nid) = fresh_meta nid ty (pg_parent (a_page a j)).
Proof.
  intros Hinit Hr Hc Hnum Huse Hn.
  destruct (new_page_tree {[j]} [(j, i)] t a Hr ltac:(simpl; lia) Hnum)
    as (i' & nid & b1 & a1 & E1 & Hr1 & He1 & Hnew & Hold & Hpn & Hsame).
  assert (Hne : j <> nid) by (intros ->; done).
  set (t1 := set_bp b1 t) in *. set (L := [(nid, i'); (j, i)]) in *.
  assert (HnD : nid ∈ ({[j]} ∪ {[nid]} : gset Z)) by (apply elem_of_union; right; by apply elem_of_singleton).
  assert (HnL : (nid, i') ∈ L) by by left. assert (HjL : (j, i) ∈ L) by by right; left.
  pose proof (Hsame j Hne) as Hj.
  assert (Ep : ask i Node.parent_id t1 = (Ok (pg_parent (a_page a1 j)), t1)).
  { eapply ask_tree; [exact Hr1|exact HjL|]. rewrite Hj. apply parent_id_ok, (holds_length _ _ (node_holds _ _ Hn)). }
  destruct (init_node_ok (A := A) _ L t1 a1 nid i' (init nid (pg_parent (a_page a1 j))) ty (pg_parent (a_page a1 j))
    Hr1 HnD HnL (Hinit _ _ _ Hpn (is_page_id_field _ _))) as (b2 & q & E2 & Hr2 & Nq & Cq & Mq).
  assert (Hq : a_page (a_set_page nid q a1) nid = q) by (simpl; by rewrite fn_lookup_insert).
  exists i', nid, b2, (a_set_page nid q a1). rewrite Hq, <- Hj. split_and!; try done.
  - mstep E1. mstep Ep. mstep E2.
    assert (Em : make_node i' (set_bp b2 t1) = (Ok tt, set_bp b2 t1))
      by (apply (make_node_tree _ L (set_bp b2 t1) _ nid i' (@nil A) Hr2 HnL); by rewrite Hq).
    by mstep Em.
  - eapply (evolves_trans _ 1 0); [exact He1|]. apply evolves_set_page. by left.
  - simpl. by rewrite fn_lookup_insert_ne.
Qed.

Lemma split_pages_ok {A} `{NodeKind A} t a j i nid i' sep p' q' (l r : list A) :
  pool_rep {[j; nid]} [(nid, i'); (j, i)] (bp_ t) a -> j <> nid ->
  split_into (a_page a j, a_page a nid) = (Ok sep, (p', q')) ->
  node p' l -> pg_id p' = j -> node q' r -> pg_id q' = nid ->
  exists b' a', at_pages i i' split_into t = (Ok sep, set_bp b' t) /\
    pool_rep {[j; nid]} [(nid, i'); (j, i)] b' a' /\ evolves [j; nid] 0 a a' /\
    a_page a' j = p' /\ a_page a' nid = q'.
Proof.
  intros Hr Hne E Np Ip Nq Iq.
  assert (HD : j ∈ ({[j; nid]} : gset Z) /\ nid ∈ ({[j; nid]} : gset Z))
    by (rewrite !elem_of_union, !elem_of_singleton; tauto).
  destruct (at_pages_dirty _ _ t a j i nid i' split_into (Ok sep) p' q' Hr (proj1 HD) (proj2 HD)
    ltac:(by right; left) ltac:(by left) Hne E Ip (holds_length _ _ (node_holds _ _ Np)) Iq
    (holds_length _ _ (node_holds _ _ Nq))) as (b' & E' & Hr').
  exists b', (a_set_page nid q' (a_set_page j p' a)). split_and!; try done.
  - eapply (evolves_trans _ 0 0); apply evolves_set_page; [by left|by right; left].
  - simpl. by rewrite fn_lookup_insert_ne, fn_lookup_insert.
  - simpl. by rewrite fn_lookup_insert.
Qed.

Lemma evolves_two j nid n m a a1 a2 :
  evolves [nid] n a a1 -> evolves [j; nid] m a1 a2 -> evolves [j; nid] (n + m) a a2.
Proof.
  intros H1 H2. apply (evolves_trans _ _ _ _ a1); [|done]. eapply evolves_weaken; [|reflexivity|exact H1].
  intros k ->%list_elem_of_singleton. by right; left.
Qed.

(** A new internal node takes the right half of the cells. *)
Lemma split_new_internal t a j i (cells : list (bytes * Z)) {B} (k : Z -> Z -> bytes -> M (BTree F) B) :
  pool_rep {[j]} [(j, i)] (bp_ t) a -> (3 <= a_cap a)%nat -> a_num a + 1 < 2 ^ 31 -> in_use_page a j ->
  node (a_page a j) cells -> compacted (a_page a j) cells -> pg_id (a_page a j) = j -> (2 <= length cells)%nat ->
  exists i' nid sep c mid b' a',
    (let* r := on_bp new_page in
     match r with
     | None => throw AssertionFailure
     | Some (ptr, nid) =>
         let* pp := ask i Node.parent_id in
         do* at_page ptr (init_internal nid pp) in
         do* make_node ptr in
         let* sep := at_pages i ptr split_into in
         k ptr nid sep
     end) t = k i' nid sep (set_bp b' t) /\
    pool_rep {[j; nid]} [(nid, i'); (j, i)] b' a' /\ evolves [j; nid] 1 a a' /\
    in_use_page a' nid /\ ~ in_use_page a nid /\
    promoted cells mid /\ cells !! mid = Some (sep, c) /\
    node (a_page a' j) (take mid cells) /\ links (a_page a' j) = links (a_page a j) /\
    node (a_page a' nid) (drop (S mid) cells) /\ links (a_page a' nid) = (nid, c, INVALID_PAGE_ID).
Proof.
  intros Hr Hc Hnum Huse Hn Hcomp Hid H2.
  destruct (new_sibling init_internal BTREE_INTERNAL t a j i cells (throw AssertionFailure)
    (fun ptr nid => let* sep := at_pages i ptr split_into in k ptr nid sep) init_internal_ok Hr Hc Hnum Huse Hn)
    as (i' & nid & b1 & a1 & E1 & Hr1 & He1 & Hnew & Hold & Hj & Nq & Cq & Mq).
  assert (Hne : j <> nid) by (intros ->; done). rewrite <- Hj in Hn, Hcomp, Hid.
  destruct (split_internal_ok (a_page a1 j) (a_page a1 nid) cells Hn Hcomp H2 Nq Cq)
    as (mid & sep & c & p' & q' & Es & Hmid & Hsep & Np & _ & Nq' & _ & Mp & Mq').
  apply meta_links in Mp.
  assert (Lq : links q' = (nid, c, INVALID_PAGE_ID)).
  { unfold meta, fresh_meta in *. unfold links. injection Mq' as -> _ _ -> _ ->. by injection Mq as -> _ _ -> _ _. }
  destruct (split_pages_ok (set_bp b1 t) a1 j i nid i' sep p' q' (take mid cells) (drop (S mid) cells) Hr1 Hne Es Np) as (b2 & a2 & E2 & Hr2 & He2 & P2 & Q2);
    [by rewrite (links_id _ _ Mp)|exact Nq'|unfold links in Lq; by injection Lq|].
  exists i', nid, sep, c, mid, b2, a2. rewrite P2, Q2. split_and!; try done.
  - rewrite E1. by mstep E2.
  - exact (evolves_two j nid 1 0 _ _ _ He1 He2).
  - by eapply in_use_evolves.
  - by rewrite Mp, Hj.
Qed.

(** A new leaf takes the right half of the entries. *)
Lemma split_new_leaf t a j i (cells : list kv) {B} (err : M (BTree F) B) (k : Z -> Z -> Z -> bytes -> M (BTree F) B) :
  pool_rep {[j]} [(j, i)] (bp_ t) a -> (3 <= a_cap a)%nat -> a_num a + 1 < 2 ^ 31 -> in_use_page a j ->
  node (a_page a j) cells -> compacted (a_page a j) cells -> pg_id (a_page a j) = j -> (2 <= length cells)%nat ->
  exists i' nid c r b' a',
    (let* rp := on_bp new_page in
     match rp with
     | None => err
     | Some (ptr, nid) =>
         let* par := ask i Node.parent_id in
         do* at_page ptr (init_leaf nid par) in
         do* make_node ptr in
         let* old := ask i right_sibling in
         let* sep := at_pages i ptr split_into in
         k ptr nid old sep
     end) t = k i' nid (pg_right (a_page a j)) c.1 (set_bp b' t) /\
    pool_rep {[j; nid]} [(nid, i'); (j, i)] b' a' /\ evolves [j; nid] 1 a a' /\
    in_use_page a' nid /\ ~ in_use_page a nid /\
    split_balanced cells r /\ cells !! r = Some c /\
    node (a_page a' j) (take r cells) /\ pg_id (a_page a' j) = j /\ pg_right (a_page a' j) = nid /\
    node (a_page a' nid) (drop r cells) /\ pg_id (a_page a' nid) = nid /\
    pg_right (a_page a' nid) = pg_right (a_page a j).
Proof.
  intros Hr Hc Hnum Huse Hn Hcomp Hid H2.
  destruct (new_sibling init_leaf BTREE_LEAF t a j i cells err
    (fun ptr nid => let* old := ask i right_sibling in let* sep := at_pages i ptr split_into in k ptr nid old sep)
    init_leaf_ok Hr Hc Hnum Huse Hn)
    as (i' & nid & b1 & a1 & E1 & Hr1 & He1 & Hnew & Hold & Hj & Nq & Cq & Mq).
  assert (Hne : j <> nid) by (intros ->; done). rewrite <- Hj in Hn, Hcomp, Hid.
  destruct (split_leaf_ok (a_page a1 j) (a_page a1 nid) cells Hn Hcomp H2 Nq Cq)
    as (r & c & p' & q' & Es & Hbal & Hcr & Np & _ & Nq' & _ & Mp & Mq').
  unfold meta, fresh_meta in *. injection Mp as Ip _ _ Rp _ _. injection Mq' as Iq _ _ Rq _ _.
  assert (In : pg_id (a_page a1 nid) = nid) by by injection Mq. rewrite In in Iq, Rp. rewrite Hid in Ip.
  destruct (split_pages_ok (set_bp b1 t) a1 j i nid i' c.1 p' q' (take r cells) (drop r cells) Hr1 Hne Es Np Ip Nq' Iq)
    as (b2 & a2 & E2 & Hr2 & He2 & P2 & Q2).
  exists i', nid, c, r, b2, a2. rewrite P2, Q2. rewrite Hj in Rq. split_and!; try done.
  - rewrite E1.
    assert (Eo : ask i right_sibling (set_bp b1 t) = (Ok (pg_right (a_page a j)), set_bp b1 t)).
    { eapply ask_tree; [exact Hr1|by right; left|]. rewrite <- Hj. apply right_sibling_ok, (holds_length _ _ (node_holds _ _ Hn)). }
    mstep Eo. by mstep E2.
  - exact (evolves_two j nid 1 0 _ _ _ He1 He2).
  - by eapply in_use_evolves.
Qed.

(** Both halves are unpinned, marked as changed. *)
Lemma unpin_both t a pid i nid i' :
  pool_rep {[pid; nid]} [(nid, i'); (pid, i)] (bp_ t) a ->
  exists b', (do* unpin pid true in unpin nid true) t = (Ok tt, set_bp b' t) /\ pool_rep ∅ [] b' a.
Proof.
  intros Hr.
  destruct (unpin_tree _ _ [(nid, i')] t a pid i true Hr) as (b1 & E1 & Hr1); [by apply Permutation_swap|done|].
  destruct (unpin_tree _ _ [] (set_bp b1 t) a nid i' true Hr1) as (b2 & E2 & Hr2); [done..|].
  exists b2. split; [by mstep E1|]. cbn iota in Hr2.
  replace (∅ : gset Z) with (({[pid; nid]} ∖ {[pid]}) ∖ {[nid]} : gset Z); [done|].
  apply leibniz_equiv. intros x. rewrite !elem_of_difference, elem_of_union, !elem_of_singleton, elem_of_empty. tauto.
Qed.
End steps.
