(* ===== verification/TreeParent.v ===== *)
(** * Separators on their way up

    A node that was split is a state of [halves]: two subtrees and the key
    between them, in the context of the nodes above.  [insert_into_parent]
    puts the separator into the parent, which may be split in its turn
    ([split_parent_ok]: the same state one level up), or makes a new root; the
    breadcrumbs are the context, so the proof is an induction on them. *)

From stdpp Require Import functions.
From S2P Require Import Prelude.
From S2P Require Import Buffers.
From S2P Require Import Page.
From S2P Require Import Node.
From S2P Require Import NodeSlots.
From S2P Require Import KeyOrder.
From S2P Require Import NodeCells.
From S2P Require Import NodeKinds.
From S2P Require Import NodeOps.
From S2P Require Import NodeInsert.
From S2P Require Import NodeSplit.
From S2P Require Import DiskManager.
From S2P Require Import FreeList.
From S2P Require Import BufferPool.
From S2P Require Import PoolSpec.
From S2P Require Import PoolOps.
From S2P Require Import BTree.
From S2P Require Import Tree.
From S2P Require Import TreeNav.
From S2P Require Import TreeFrame.
From S2P Require Import TreeChain.
From S2P Require Import TreeSplit.
From S2P Require Import TreeOps.
From S2P Require Import TreeUpdate.

From S2P Require Import TreeHalves.

Section parent.
Context {F : Type} `{ReliableFile F}.
Implicit Types (t : BTree F) (b : BufferPool F) (a : APool) (D : gset Z) (L : list (Z * Z)).

(** The halves of a node, in the context of the nodes above it. *)
Record halves t a n h c c' lo hi sep crumbs kb ka pb pa kvs1 kvs2 pids1 pids2 : Prop := {
  hv_pool : pool_rep ∅ [] (bp_ t) a;
  hv_root : a_root a = root_page_id_ t;
  hv_cap : (3 <= a_cap a)%nat;
  hv_num : a_num a + zlen crumbs + 1 < 2 ^ 31;
  hv_ctx : context (a_page a) n (root_page_id_ t) h c lo hi crumbs kb ka pb pa;
  hv_left : subtree (a_page a) h c lo (Some sep) kvs1 pids1;
  hv_right : subtree (a_page a) h c' (Some sep) hi kvs2 pids2;
  hv_lo : strictly lo sep;
  hv_hi : below hi sep;
  hv_sep : sep_small (sep, c');
  hv_live : live a (pb ++ (pids1 ++ pids2) ++ pa);
  hv_pages : pages_ok (a_page a) (pb ++ (pids1 ++ pids2) ++ pa);
  hv_small : Forall kv_small (kb ++ (kvs1 ++ kvs2) ++ ka);
}.

(** The same state as the parent sees it: with the separator among its cells
    it is the root of a tree. *)
Record parent_state t a n h pid lo hi crumbs kb ka pb pa
    (cells : list (bytes * Z)) kvs pids sep c' : Prop := {
  ps_pool : pool_rep ∅ [] (bp_ t) a;
  ps_root : a_root a = root_page_id_ t;
  ps_cap : (3 <= a_cap a)%nat;
  ps_num : a_num a + (1 + zlen crumbs) + 1 < 2 ^ 31;
  ps_ctx : context (a_page a) n (root_page_id_ t) (S h) pid lo hi crumbs kb ka pb pa;
  ps_id : pg_id (a_page a pid) = pid;
  ps_node : node (a_page a pid) cells;
  ps_sep : sep ∉ cells.*1;
  ps_small_sep : sep_small (sep, c');
  ps_child : node_in a c' /\ c' <> pid;
  ps_forest : forest (subtree (a_page a) h) (pg_first (a_page a pid)) lo (upsert sep c' cells) hi kvs pids;
  ps_live : live a (pb ++ (pid :: pids) ++ pa);
  ps_pages : pages_ok (a_page a) (pb ++ (pid :: pids) ++ pa);
  ps_small : Forall kv_small (kb ++ kvs ++ ka);
}.

Lemma halves_parent t a n h c c' lo hi sep pid crumbs kb ka pb pa kvs1 kvs2 pids1 pids2 :
  halves t a n h c c' lo hi sep (pid :: crumbs) kb ka pb pa kvs1 kvs2 pids1 pids2 ->
  exists lo' hi' kb' ka' pb' pa' cells kvs pids,
    parent_state t a n h pid lo' hi' crumbs kb' ka' pb' pa' cells kvs pids sep c' /\
    kb ++ (kvs1 ++ kvs2) ++ ka = kb' ++ kvs ++ ka'.
Proof.
  intros [Hr Hroot Hc Hnum Hx H1 H2 Hlo Hhi Hsep Hlive Hpages Hsmall].
  inversion Hx as [|? ? lo' hi' ? kb' ka' pb' pa' l r ? ? ? kbi kai pbi pai Hx' Hid Hn Hb Ha]; subst.
  pose proof (node_sorted _ _ Hn) as Hs. pose proof Hs as (Hsl & Hsr & _)%sorted_app.
  assert (Hkl : forall x, x ∈ l.*1 -> key_lt x sep) by by eapply before_keys.
  assert (Hkr : forall x, x ∈ r.*1 -> key_lt sep x) by by eapply after_keys.
  pose proof (forest_plug2 _ _ _ _ _ _ _ _ _ _ _ _ _ _ _ _ _ _ _ Hb H1 H2 Ha Hlo Hhi
    (after_below _ _ _ _ _ _ _ _ Ha Hhi)) as Hf.
  rewrite <- (upsert_between sep c' l r Hkl Hkr) in Hf.
  exists lo', hi', kb', ka', pb', pa', (l ++ r), (kbi ++ (kvs1 ++ kvs2) ++ kai), (pbi ++ (pids1 ++ pids2) ++ pai).
  assert (Ep : (pb' ++ pid :: pbi) ++ (pids1 ++ pids2) ++ pai ++ pa' =
    pb' ++ (pid :: pbi ++ (pids1 ++ pids2) ++ pai) ++ pa')
    by (rewrite <- !app_assoc; cbn [app]; by rewrite <- !app_assoc).
  assert (Ek : (kb' ++ kbi) ++ (kvs1 ++ kvs2) ++ kai ++ ka' = kb' ++ (kbi ++ (kvs1 ++ kvs2) ++ kai) ++ ka')
    by by rewrite <- !app_assoc.
  rewrite Ek in Hsmall. rewrite Ep in Hlive, Hpages. split; [|exact Ek].
  assert (Hc' : c' ∈ pids2) by by eapply subtree_root.
  split; try done.
  - by rewrite zlen_cons in Hnum.
  - rewrite fmap_app. intros [Hin|Hin]%elem_of_app.
    + by apply Hkl, key_lt_irrefl in Hin.
    + by apply Hkr, key_lt_irrefl in Hin.
  - split.
    + eapply subtree_node_in; [exact H2| |exact Hc']. apply Hlive. rewrite !elem_of_app, elem_of_cons, !elem_of_app. tauto.
    + intros ->. destruct Hlive as [(_ & _ & (Hnd & _)%NoDup_app)%NoDup_app _].
      apply NoDup_cons in Hnd as [Hnd _]. apply Hnd. rewrite !elem_of_app. tauto.
Qed.

(** An internal node with other cells. *)
Lemma rewritten_ok p p' (cells cells' : list (bytes * Z)) :
  node p cells -> links p' = links p -> node p' cells' -> cells' <> [] -> Forall sep_small cells' ->
  page_ok p' /\ same_link p p'.
Proof.
  intros Hn Hl Hn' Hne Hs. split; [right; by exists cells'|]. split; [by rewrite (node_type _ _ Hn), (node_type _ _ Hn')|].
  unfold links in Hl. by injection Hl.
Qed.

(** The pages of the tree around the parent are not the parent. *)
Lemma parent_apart t a n h pid lo hi crumbs kb ka pb pa cells kvs pids sep c' :
  parent_state t a n h pid lo hi crumbs kb ka pb pa cells kvs pids sep c' ->
  (forall j, j ∈ pb ++ pa -> j <> pid) /\ (pid ∉ pids) /\ in_use_page a pid.
Proof.
  intros Hp. destruct (ps_live _ _ _ _ _ _ _ _ _ _ _ _ _ _ _ _ _ Hp) as [Hnd Huse].
  pose proof Hnd as (_ & Hb & (Hp' & Ha & _)%NoDup_app)%NoDup_app. apply NoDup_cons in Hp' as [Hp' _].
  split; [|split; [done|]].
  - intros j [Hj|Hj]%elem_of_app ->.
    + apply (Hb _ Hj). rewrite elem_of_app. left. by left.
    + by apply (Ha pid ltac:(by left)).
  - apply Huse. rewrite !elem_of_app, elem_of_cons. tauto.
Qed.

(** The parent had room. *)
Lemma parent_done t a n h pid lo hi crumbs kb ka pb pa cells kvs pids sep c' b' a' :
  parent_state t a n h pid lo hi crumbs kb ka pb pa cells kvs pids sep c' ->
  pool_rep ∅ [] b' a' -> evolves [pid] 0 a a' ->
  node (a_page a' pid) (upsert sep c' cells) -> links (a_page a' pid) = links (a_page a pid) ->
  tree_inv (set_bp b' t) a' n (kb ++ kvs ++ ka) (pb ++ (pid :: pids) ++ pa).
Proof.
  intros Hp Hr He Hn Hl. destruct (parent_apart _ _ _ _ _ _ _ _ _ _ _ _ _ _ _ _ _ Hp) as (Hout & Hin & _).
  destruct Hp as [_ Hroot _ _ Hx Hid Hn0 _ Hss _ Hf Hlive Hpages Hsmall].
  assert (Hsing : forall j : Z, j <> pid -> j ∉ [pid]) by by intros j Hj ->%list_elem_of_singleton.
  split; [| |exact Hsmall].
  - pose proof (live_evolves _ _ _ _ _ He Hlive) as [Hnd Huse].
    split; [exact Hr| |exact Hnd|exact Huse|].
    + eapply context_plug; [eapply context_evolves; [exact He| |exact Hx]; intros j Hj; by apply Hsing, Hout|].
      split; [by rewrite (links_id _ _ Hl)|]. exists (upsert sep c' cells), pids. split; [done|]. split; [done|].
      assert (Hfc : pg_first (a_page a' pid) = pg_first (a_page a pid)) by (unfold links in Hl; by injection Hl).
      rewrite Hfc. eapply forest_mono; [|exact Hf]. intros d l' h' ks ps Hd Hps.
      eapply subtree_evolves; [exact He| |exact Hd]. intros j Hj. apply Hsing. intros ->. by apply Hin, Hps.
    + rewrite (ev_root _ _ _ _ He). exact Hroot.
  - assert (Hpp : pid ∈ pb ++ (pid :: pids) ++ pa) by (rewrite !elem_of_app, elem_of_cons; tauto).
    eapply pages_evolve; [exact He|exact Hpages|]. intros j ->%list_elem_of_singleton _.
    destruct (page_ok_internal _ _ (proj1 Hpages pid Hpp) Hn0) as [_ Hs].
    eapply rewritten_ok; [exact Hn0|exact Hl|exact Hn|apply upsert_not_nil|by apply Forall_upsert].
Qed.

Lemma separator_fits_room (sep : bytes) (c : Z) (cells : list (bytes * Z)) :
  sep_small (sep, c) -> occupied cells + 1012 <= NODE_USABLE_SIZE -> separator_fits sep c cells = true.
Proof.
  intros Hs Ho. apply bool_decide_eq_true_2. rewrite occupied_cons, zlen_enc_internal.
  unfold sep_small in Hs. cbn [fst] in Hs. lia.
Qed.

(** One of the halves takes the separator that did not fit before. *)
Lemma add_after_split D L t a pid i nid i' (cells : list (bytes * Z)) mid k c sep c' :
  pool_rep D L (bp_ t) a -> (length L < a_cap a)%nat ->
  pid ∈ D -> (pid, i) ∈ L -> nid ∈ D -> (nid, i') ∈ L -> pid <> nid ->
  sorted_cells fst cells -> Forall sep_small cells ->
  occupied cells <= NODE_USABLE_SIZE < occupied cells + 1012 ->
  promoted cells mid -> cells !! mid = Some (k, c) ->
  node (a_page a pid) (take mid cells) -> pg_id (a_page a pid) = pid ->
  node (a_page a nid) (drop (S mid) cells) -> pg_id (a_page a nid) = nid ->
  sep ∉ cells.*1 -> sep_small (sep, c') -> node_in a c' -> c' <> pid -> c' <> nid ->
  exists b' a' l r,
    (if key_ltb sep k then add_to_half i pid sep c' else add_to_half i' nid sep c') t = (Ok tt, set_bp b' t) /\
    pool_rep D L b' a' /\ evolves [pid; nid] 0 a a' /\
    node (a_page a' pid) l /\ links (a_page a' pid) = links (a_page a pid) /\
    node (a_page a' nid) r /\ links (a_page a' nid) = links (a_page a nid) /\
    l ++ (k, c) :: r = upsert sep c' cells /\ l <> [] /\ r <> [].
Proof.
  intros Hr Hc HpD HpL HnD HnL Hne Hs Hsmall [Ho Hfull] Hmid Hk Hnl Hil Hnr Hir Hsep Hss Hc' Hcp Hcn.
  destruct (promoted_room cells mid Ho Hsmall Hmid) as [Rl Rr].
  pose proof (take_drop_middle cells mid (k, c) Hk) as Hcut.
  set (l0 := take mid cells) in *. set (r0 := drop (S mid) cells) in *.
  rewrite <- Hcut in Hs, Hsep. rewrite fmap_app, elem_of_app in Hsep. cbn [fmap list_fmap fst] in Hsep.
  rewrite elem_of_cons in Hsep.
  assert (Hl0 : l0 <> []).
  { intros Hnil. apply (f_equal length) in Hnil. unfold l0 in Hnil. rewrite length_take in Hnil.
    destruct Hmid as [Hmid _]. simpl in Hnil. lia. }
  assert (Hr0 : r0 <> []) by (apply (small_right cells 1012); try done; [by apply small_seps|apply Hmid..]).
  assert (Hsub : forall j X, X = pid \/ X = nid -> j ∈ [X] -> j ∈ [pid; nid]).
  { intros j X HX ->%list_elem_of_singleton. destruct HX as [->| ->]; [by left|by right; left]. }
  pose proof (upsert_app sep c' l0 (k, c) r0 Hs) as Hup. rewrite Hcut in Hup. cbn [fst] in Hup.
  destruct (key_ltb sep k) eqn:Hlt.
  - destruct (add_to_half_ok D L t a pid i l0 sep c' Hr HpD HpL Hc Hnl Hil) as (b' & a' & E & Hr' & He & N & Lk);
      [tauto|by apply separator_fits_room|done|done|].
    pose proof (ev_same _ _ _ _ He nid ltac:(by intros ->%list_elem_of_singleton)) as Hsn.
    exists b', a', (upsert sep c' l0), r0. split_and!; try done.
    + eapply evolves_weaken; [|reflexivity|exact He]. intros j. apply Hsub. by left.
    + by apply (sn_internal _ _ Hsn).
    + by apply same_node_links.
    + apply upsert_not_nil.
  - destruct (add_to_half_ok D L t a nid i' r0 sep c' Hr HnD HnL Hc Hnr Hir) as (b' & a' & E & Hr' & He & N & Lk);
      [tauto|by apply separator_fits_room|done|done|].
    pose proof (ev_same _ _ _ _ He pid ltac:(by intros ->%list_elem_of_singleton)) as Hsn.
    exists b', a', l0, (upsert sep c' r0). split_and!; try done.
    + eapply evolves_weaken; [|reflexivity|exact He]. intros j. apply Hsub. by right.
    + by apply (sn_internal _ _ Hsn).
    + by apply same_node_links.
    + rewrite Hup. cbn [upsert fst]. destruct (key_ltb k sep) eqn:Hgt; [done|].
      exfalso. assert (sep = k); [|tauto]. apply key_lt_total; unfold key_lt; by rewrite ?Hlt, ?Hgt.
    + apply upsert_not_nil.
Qed.

(** The split parent is in the state of [halves] one level up. *)
Lemma split_halves t a n h pid lo hi crumbs kb ka pb pa cells kvs pids sep c' b' a' nid l k c r :
  parent_state t a n h pid lo hi crumbs kb ka pb pa cells kvs pids sep c' ->
  pool_rep ∅ [] b' a' -> evolves [pid; nid] 1 a a' -> in_use_page a' nid -> ~ in_use_page a nid ->
  node (a_page a' pid) l -> links (a_page a' pid) = links (a_page a pid) ->
  node (a_page a' nid) r -> links (a_page a' nid) = (nid, c, INVALID_PAGE_ID) ->
  l ++ (k, c) :: r = upsert sep c' cells -> l <> [] -> r <> [] ->
  exists kvs1 kvs2 pids1 pids2,
    halves (set_bp b' t) a' n (S h) pid nid lo hi k crumbs kb ka pb pa kvs1 kvs2 (pid :: pids1) (nid :: pids2) /\
    kvs = kvs1 ++ kvs2.
Proof.
  intros Hp Hr He Hnew Hold Hl Ll Hrt Lr Hcut Hlne Hrne.
  destruct (parent_apart _ _ _ _ _ _ _ _ _ _ _ _ _ _ _ _ _ Hp) as (Hout & Hin & Huse).
  destruct Hp as [_ Hroot Hc Hnum Hx Hid Hn0 _ Hss _ Hf Hlive Hpages Hsmall].
  set (ps := pb ++ (pid :: pids) ++ pa) in *.
  assert (Hfresh : nid ∉ ps) by (intros Hx'; by apply Hold, Hlive).
  assert (Hsort : sorted_cells fst (upsert sep c' cells)) by apply sorted_upsert, (node_sorted _ _ Hn0).
  rewrite <- Hcut in Hf, Hsort.
  destruct (forest_split _ _ _ _ _ _ _ _ _ _ Hsort Hf)
    as (kvs1 & pids1 & kvs2 & pids2 & -> & -> & F1 & F2 & [_ Hhi] & Hlo).
  exists kvs1, kvs2, pids1, pids2. split; [|done].
  assert (Hps : forall j, j ∈ pb ++ pa \/ j ∈ pids1 \/ j ∈ pids2 -> j ∉ [pid; nid]).
  { intros j Hj [->|[->|?%not_elem_of_nil]%elem_of_cons]%elem_of_cons; [| |done].
    - destruct Hj as [Hj|Hj]; [by apply (Hout _ Hj)|]. apply Hin, elem_of_app. tauto.
    - apply Hfresh. unfold ps. rewrite !elem_of_app, elem_of_cons, elem_of_app. rewrite elem_of_app in Hj. tauto. }
  assert (Hframe : forall d lo' hi' ks (ps' : list Z), subtree (a_page a) h d lo' hi' ks ps' ->
    (forall j, j ∈ ps' -> j ∈ pids1 \/ j ∈ pids2) -> subtree (a_page a') h d lo' hi' ks ps').
  { intros d lo' hi' ks ps' Hd Hq. eapply subtree_evolves; [exact He| |exact Hd].
    intros j Hj. apply Hps. right. by apply Hq. }
  assert (Hperm : nid :: ps ≡ₚ pb ++ ((pid :: pids1) ++ nid :: pids2) ++ pa) by (unfold ps; cbn [app]; solve_Permutation).
  assert (Hpp : pid ∈ ps) by (unfold ps; rewrite !elem_of_app, elem_of_cons; tauto).
  assert (Fl : pg_first (a_page a' pid) = pg_first (a_page a pid)) by (unfold links in Ll; by injection Ll).
  unfold links in Lr. injection Lr as Ln Lf Lrt.
  split.
  - exact Hr.
  - rewrite (ev_root _ _ _ _ He). exact Hroot.
  - by rewrite (ev_cap _ _ _ _ He).
  - pose proof (ev_num _ _ _ _ He). lia.
  - eapply context_evolves; [exact He| |exact Hx]. intros j Hj. apply Hps. by left.
  - split; [by rewrite (links_id _ _ Ll)|]. exists l, pids1. split; [done|]. split; [done|]. rewrite Fl.
    eapply forest_mono; [|exact F1]. intros d l' h' ks ps' Hd Hq. apply Hframe; [done|]. intros j Hj. specialize (Hq j Hj). tauto.
  - split; [done|]. exists r, pids2. split; [done|]. split; [done|]. rewrite Lf.
    eapply forest_mono; [|exact F2]. intros d l' h' ks ps' Hd Hq. apply Hframe; [done|]. intros j Hj. specialize (Hq j Hj). tauto.
  - by apply Hlo.
  - exact Hhi.
  - destruct (page_ok_internal _ _ (proj1 Hpages pid Hpp) Hn0) as [_ Hs].
    assert (Hsu : Forall sep_small (upsert sep c' cells)) by by apply Forall_upsert.
    rewrite <- Hcut, Forall_app, Forall_cons in Hsu. exact (proj1 (proj2 Hsu)).
  - eapply live_perm; [exact Hperm|]. apply live_cons; [by eapply live_evolves|done|done].
  - destruct (page_ok_internal _ _ (proj1 Hpages pid Hpp) Hn0) as [_ Hs].
    assert (Hsu : Forall sep_small (upsert sep c' cells)) by by apply Forall_upsert.
    rewrite <- Hcut, Forall_app, Forall_cons in Hsu. destruct Hsu as (Hs1 & _ & Hs2).
    replace (pb ++ ((pid :: pids1) ++ nid :: pids2) ++ pa) with ((pb ++ pid :: pids1) ++ nid :: pids2 ++ pa)
      by by simplify_list_eq.
    apply (pages_ok_insert _ nid _ _ r Hrt Hrne Hs2).
    replace ((pb ++ pid :: pids1) ++ pids2 ++ pa) with ps by (unfold ps; by simplify_list_eq).
    eapply pages_evolve; [exact He|exact Hpages|].
    intros j [->|[->|?%not_elem_of_nil]%elem_of_cons]%elem_of_cons Hj; [|done..].
    by apply (rewritten_ok _ _ cells l).
  - exact Hsmall.
Qed.

Lemma parent_children t a n h pid lo hi crumbs kb ka pb pa cells kvs pids sep c' a' nid l k c r :
  parent_state t a n h pid lo hi crumbs kb ka pb pa cells kvs pids sep c' ->
  evolves [pid; nid] 1 a a' -> ~ in_use_page a nid -> l ++ (k, c) :: r = upsert sep c' cells ->
  forall d, d ∈ c :: r.*2 -> node_in a' d.
Proof.
  intros Hp He Hold Hcut d Hd. destruct (parent_apart _ _ _ _ _ _ _ _ _ _ _ _ _ _ _ _ _ Hp) as (_ & Hin & _).
  pose proof Hp as [_ _ _ _ _ _ _ _ _ _ Hf Hlive _ _]. rewrite <- Hcut in Hf.
  assert (Hdp : d ∈ pids).
  { apply (forest_children _ (subtree_root (a_page a) h) _ _ _ _ _ _ Hf d). right.
    rewrite fmap_app. apply elem_of_app. by right. }
  assert (Huse : in_use_page a d) by (apply Hlive; rewrite !elem_of_app, elem_of_cons; tauto).
  assert (Hids : pg_id (a_page a d) = d /\ is_node (a_page a d)).
  { eapply (forest_forall _ (fun j => pg_id (a_page a j) = j /\ is_node (a_page a j))); [|exact Hf|exact Hdp].
    intros e lo' hi' ks ps Hs. by apply (subtree_ids _ _ _ _ _ _ _ Hs). }
  eapply node_in_evolves; [exact He| |].
  - intros [->|[->|?%not_elem_of_nil]%elem_of_cons]%elem_of_cons; done.
  - destruct Hids, Huse. by split.
Qed.

(** The pages of [split_parent] before the children are told. *)
Lemma split_parent_pages t a pid i (cells : list (bytes * Z)) sep c' :
  pool_rep {[pid]} [(pid, i)] (bp_ t) a -> (3 <= a_cap a)%nat -> a_num a + 1 < 2 ^ 31 -> in_use_page a pid ->
  node (a_page a pid) cells -> compacted (a_page a pid) cells -> pg_id (a_page a pid) = pid ->
  Forall sep_small cells -> NODE_USABLE_SIZE < occupied cells + 1012 ->
  sep ∉ cells.*1 -> sep_small (sep, c') -> node_in a c' -> c' <> pid ->
  exists i' nid k c b' a' l r,
    split_parent i pid sep c' t =
      (do* reparent_children i' nid in do* unpin pid true in do* unpin nid true in ret (nid, k)) (set_bp b' t) /\
    pool_rep {[pid; nid]} [(nid, i'); (pid, i)] b' a' /\ evolves [pid; nid] 1 a a' /\
    in_use_page a' nid /\ ~ in_use_page a nid /\
    node (a_page a' pid) l /\ links (a_page a' pid) = links (a_page a pid) /\
    node (a_page a' nid) r /\ links (a_page a' nid) = (nid, c, INVALID_PAGE_ID) /\
    l ++ (k, c) :: r = upsert sep c' cells /\ l <> [] /\ r <> [].
Proof.
  intros Hr Hcap Hnum Huse Hn Hc Hid Hsmall Hfull Hsep Hss Hc' Hcp.
  assert (Hocc : occupied cells <= NODE_USABLE_SIZE) by by eapply node_occupied.
  destruct (split_new_internal t a pid i cells (fun ptr nid parent_sep =>
      do* (if key_ltb sep parent_sep then add_to_half i pid sep c' else add_to_half ptr nid sep c') in
      do* reparent_children ptr nid in
      do* unpin pid true in
      do* unpin nid true in
      ret (nid, parent_sep)) Hr Hcap Hnum Huse Hn Hc Hid) as
    (i' & nid & k & c & mid & b1 & a1 & E1 & Hr1 & He1 & Hnew & Hold & Hmid & Hk & Hl & Ll & Hrt & Lr).
  { eapply (small_length cells 1012); [exact Hocc|by apply small_seps|done|lia]. }
  assert (Hne : pid <> nid) by (intros ->; done).
  assert (Hcn : c' <> nid) by (intros ->; apply Hold; destruct Hc' as [(? & ? & _) _]; by split).
  destruct (two_dirty pid nid) as [D1 D2].
  destruct (add_after_split _ _ (set_bp b1 t) a1 pid i nid i' cells mid k c sep c' Hr1)
    as (b2 & a2 & l & r & E2 & Hr2 & He2 & Hl2 & Ll2 & Hrt2 & Lr2 & Hcut & Hlne & Hrne); try done.
  { rewrite (ev_cap _ _ _ _ He1). simpl. lia. }
  { by right; left. }
  { by left. }
  { apply (node_sorted _ _ Hn). }
  { by rewrite (links_id _ _ Ll). }
  { unfold links in Lr. by injection Lr. }
  { eapply node_in_evolves; [exact He1|by apply not_two|exact Hc']. }
  exists i', nid, k, c, b2, a2, l, r. rewrite <- Ll, <- Lr. split_and!; try done.
  - unfold split_parent. rewrite E1. by mstep E2.
  - exact (evolves_trans _ 1 0 _ _ _ He1 He2).
  - by eapply in_use_evolves.
Qed.

(** The parent is split: the same state one level up. *)
Lemma split_parent_ok t a n h pid lo hi crumbs kb ka pb pa cells kvs pids sep c' i b1 a1 :
  parent_state t a n h pid lo hi crumbs kb ka pb pa cells kvs pids sep c' ->
  pool_rep {[pid]} [(pid, i)] b1 a1 -> evolves [pid] 0 a a1 ->
  node (a_page a1 pid) cells -> compacted (a_page a1 pid) cells ->
  links (a_page a1 pid) = links (a_page a pid) -> NODE_USABLE_SIZE < occupied cells + 1012 ->
  exists b' a' nid k kvs1 kvs2 pids1 pids2,
    split_parent i pid sep c' (set_bp b1 t) = (Ok (nid, k), set_bp b' t) /\
    halves (set_bp b' t) a' n (S h) pid nid lo hi k crumbs kb ka pb pa kvs1 kvs2 (pid :: pids1) (nid :: pids2) /\
    kvs = kvs1 ++ kvs2 /\ a_cap a' = a_cap a /\ a_num a <= a_num a' <= a_num a + 1.
Proof.
  intros Hp Hr1 He1 Hn1 Hc1 Hl1 Hfull. pose proof Hp as [_ _ Hcap Hnum _ Hid Hn Hsep Hss [Hc' Hcp] _ _ Hpages _].
  destruct (parent_apart _ _ _ _ _ _ _ _ _ _ _ _ _ _ _ _ _ Hp) as (_ & Hin & Huse).
  destruct (page_ok_internal _ _ (proj1 Hpages pid ltac:(rewrite !elem_of_app, elem_of_cons; tauto)) Hn) as [_ Hsmall].
  pose proof (zlen_nonneg crumbs). pose proof (ev_num _ _ _ _ He1) as Hnum1. pose proof (ev_cap _ _ _ _ He1) as Hcap1.
  destruct (split_parent_pages (set_bp b1 t) a1 pid i cells sep c' Hr1)
    as (i' & nid & k & c & b2 & a2 & l & r & E2 & Hr2 & He2 & Hnew & Hold & Hl2 & Ll2 & Hrt2 & Lr2 & Hcut & Hlne & Hrne);
    try done; [lia|lia|by eapply in_use_evolves|by rewrite (links_id _ _ Hl1)| |].
  { eapply node_in_evolves; [exact He1| |exact Hc']. by intros ->%list_elem_of_singleton. }
  assert (Hold' : ~ in_use_page a nid) by (intros Hx; by apply Hold, (in_use_evolves _ _ _ _ _ He1)).
  pose proof (evolves_left _ _ _ _ _ _ _ He1 He2) as He12. cbn in He12.
  pose proof (parent_children _ _ _ _ _ _ _ _ _ _ _ _ _ _ _ _ _ _ _ _ _ _ _ Hp He12 Hold' Hcut) as Hchild.
  assert (Hfc : pg_first (a_page a2 nid) = c) by (unfold links in Lr2; by injection Lr2).
  destruct (reparent_children_ok _ _ (set_bp b2 t) a2 nid i' nid r Hr2) as (b3 & a3 & E3 & Hr3 & He3).
  { rewrite (ev_cap _ _ _ _ He12). simpl. lia. }
  { by left. }
  { destruct Hnew as [Hx _]. pose proof (ev_num _ _ _ _ He12). unfold is_page_id. lia. }
  { done. }
  { rewrite Hfc. apply Hchild. by left. }
  { intros d Hd. apply Hchild. by right. }
  pose proof (ev_same _ _ _ _ He3 pid (not_elem_of_nil _)) as Sp. pose proof (ev_same _ _ _ _ He3 nid (not_elem_of_nil _)) as Sn.
  destruct (unpin_both (set_bp b3 t) a3 pid i nid i' Hr3) as (b4 & E4 & Hr4).
  pose proof (evolves_relinked _ _ _ _ _ He12 He3) as He.
  destruct (split_halves _ _ _ _ _ _ _ _ _ _ _ _ _ _ _ _ _ b4 a3 nid l k c r Hp Hr4 He)
    as (kvs1 & kvs2 & pids1 & pids2 & Hh & Hkvs); try done.
  { eapply in_use_evolves; [exact He3|exact Hnew]. }
  { by apply (sn_internal _ _ Sp). }
  { by rewrite (same_node_links _ _ Sp), Ll2. }
  { by apply (sn_internal _ _ Sn). }
  { by rewrite (same_node_links _ _ Sn). }
  exists b4, a3, nid, k, kvs1, kvs2, pids1, pids2. split; [|split; [done|split; [done|]]].
  - rewrite E2. mstep E3. rewrite <- bind_assoc. by mstep E4.
  - split; [apply (ev_cap _ _ _ _ He)|apply (ev_num _ _ _ _ He)].
Qed.

(** A new node with one separator, and the rest [k] of [create_new_root]. *)
Lemma new_root_node t a c sep c' {B} (k : Z -> M (BTree F) B) :
  pool_rep ∅ [] (bp_ t) a -> (3 <= a_cap a)%nat -> a_num a + 1 < 2 ^ 31 ->
  is_page_id c -> is_page_id c' -> sep_small (sep, c') ->
  exists nid b' a',
    (let* r := on_bp new_page in
     match r with
     | None => throw AssertionFailure
     | Some (ptr, nid) =>
         do* at_page ptr (init_internal nid INVALID_PAGE_ID) in
         do* make_node ptr in
         do* at_page ptr (set_first_child c) in
         let* ok := at_page ptr (insert_separator sep c') in
         do* assert_ ok in
         do* unpin nid true in
         k nid
     end) t = k nid (set_bp b' t) /\
    pool_rep ∅ [] b' a' /\ evolves [nid] 1 a a' /\ in_use_page a' nid /\ ~ in_use_page a nid /\
    node (a_page a' nid) [(sep, c')] /\ links (a_page a' nid) = (nid, c, INVALID_PAGE_ID).
Proof.
  intros Hr Hc Hnum Hpc Hpc' Hss.
  destruct (new_page_tree ∅ [] t a Hr ltac:(simpl; lia) Hnum)
    as (i & nid & b1 & a1 & E1 & Hr1 & He1 & Hnew & Hold & Hpn & Hsame).
  assert (Hinv : is_page_id INVALID_PAGE_ID) by by split.
  set (D := ∅ ∪ {[nid]} : gset Z) in *. assert (HD : nid ∈ D) by (apply elem_of_union; right; by apply elem_of_singleton).
  assert (HL : (nid, i) ∈ [(nid, i)]) by by left.
  destruct (init_node_ok (A := bytes * Z) D _ (set_bp b1 t) a1 nid i (init_internal nid INVALID_PAGE_ID)
    BTREE_INTERNAL INVALID_PAGE_ID Hr1 HD HL (init_internal_ok _ _ _ Hpn Hinv))
    as (b2 & q & E2 & Hr2 & Nq & Cq & Mq).
  set (a2 := a_set_page nid q a1) in *. unfold meta, fresh_meta in Mq.
  assert (P2 : a_page a2 nid = q) by (simpl; by rewrite fn_lookup_insert).
  destruct (set_first_child_ok q (@nil (bytes * Z)) c Nq Hpc) as (q1 & Q1 & N1 & _ & M1). rewrite <- P2 in Q1.
  assert (L1 : links q1 = (nid, c, INVALID_PAGE_ID)).
  { unfold meta in M1. unfold links. injection M1 as -> _ _ -> _ ->. by injection Mq as -> _ _ -> _ _. }
  assert (I1 : pg_id q1 = nid) by (unfold links in L1; by injection L1).
  destruct (at_page_dirty D _ (set_bp b2 (set_bp b1 t)) a2 nid i _ _ q1 Hr2 HD HL Q1 I1
    (holds_length _ _ (node_holds _ _ N1))) as (b3 & E3 & Hr3).
  set (a3 := a_set_page nid q1 a2) in *.
  assert (P3 : a_page a3 nid = q1) by (simpl; by rewrite fn_lookup_insert).
  destruct (insert_separator_ok q1 [] sep c' N1 ltac:(apply not_elem_of_nil) Hpc') as (q2 & Q2 & M2 & N2 & _).
  rewrite (separator_fits_room sep c' [] Hss ltac:(by vm_compute)) in Q2, N2. rewrite <- P3 in Q2.
  apply meta_links in M2. rewrite L1 in M2.
  assert (I2 : pg_id q2 = nid) by (unfold links in M2; by injection M2).
  destruct (at_page_dirty D _ (set_bp b3 (set_bp b2 (set_bp b1 t))) a3 nid i _ _ q2 Hr3 HD HL Q2 I2
    (holds_length _ _ (node_holds _ _ N2))) as (b4 & E4 & Hr4).
  set (a4 := a_set_page nid q2 a3) in *.
  destruct (unpin_tree _ _ [] (set_bp b4 t) a4 nid i true Hr4) as (b5 & E5 & Hr5); [done..|].
  exists nid, b5, a4.
  assert (P4 : a_page a4 nid = q2) by (simpl; by rewrite fn_lookup_insert). rewrite P4.
  split_and!; try done.
  - mstep E1. mstep E2.
    assert (Em : make_node i (set_bp b2 (set_bp b1 t)) = (Ok tt, set_bp b2 (set_bp b1 t)))
      by (apply (make_node_tree D _ (set_bp b2 (set_bp b1 t)) a2 nid i (@nil (bytes * Z)) Hr2 HL); by rewrite P2).
    mstep Em. mstep E3. mstep E4. cbn [assert_]. mstep (eq_refl : ret tt (set_bp b4 t) = (Ok tt, set_bp b4 t)). by mstep E5.
  - cbn iota in Hr5. unfold D in Hr5. by rewrite <- (clean_one nid) in Hr5.
  - eapply (evolves_trans _ 1 0); [exact He1|].
    assert (Hn : nid ∈ [nid]) by by left.
    eapply (evolves_trans _ 0 0); [by apply evolves_set_page|].
    eapply (evolves_trans _ 0 0); by apply evolves_set_page.
Qed.

Lemma node_in_page_id a j : node_in a j -> is_page_id j.
Proof. intros [(_ & _ & <-) _]. apply is_page_id_pg_id. Qed.

(** Two links changed: nothing that lookups follow. *)
Lemma relink_both t a c c' (z : Z) :
  pool_rep ∅ [] (bp_ t) a -> (0 < a_cap a)%nat -> node_in a c -> node_in a c' -> is_page_id z ->
  exists b' a', (do* update_node c (set_parent_id z) in update_node c' (set_parent_id z)) t = (Ok tt, set_bp b' t) /\
    pool_rep ∅ [] b' a' /\ evolves [] 0 a a'.
Proof.
  intros Hr Hc H1 H2 Hz.
  destruct (update_node_ok ∅ [] t a c _ Hr Hc H1 (relinks_parent z Hz)) as (b1 & a1 & E1 & Hr1 & He1).
  destruct (update_node_ok ∅ [] (set_bp b1 t) a1 c' (set_parent_id z) Hr1) as (b2 & a2 & E2 & Hr2 & He2).
  - by rewrite (ev_cap _ _ _ _ He1).
  - eapply node_in_evolves; [exact He1|apply not_elem_of_nil|done].
  - by apply relinks_parent.
  - exists b2, a2. split; [by mstep E1|]. split; [done|exact (evolves_trans _ 0 0 _ _ _ He1 He2)].
Qed.

Lemma set_root_tree t a r :
  pool_rep ∅ [] (bp_ t) a -> is_page_id r ->
  exists b', (do* modifyS (set_root r) in persist_root) t = (Ok tt, set_bp b' (set_root r t)) /\
    pool_rep ∅ [] b' (a_set_root r a).
Proof.
  intros Hr Hp. destruct (set_root_ok ∅ [] (bp_ t) a r Hr Hp) as (b' & E & Hr'). exists b'. split; [|done].
  mstep (eq_refl : modifyS (set_root r) t = (Ok tt, set_root r t)). unfold persist_root.
  mstep (eq_refl : getS (set_root r t) = (Ok (set_root r t), set_root r t)).
  by apply (on_bp_eq _ (set_root r t) b' (Ok tt)).
Qed.

(** The root was split: the halves get a new root above them. *)
Lemma create_new_root_ok t a n h c c' lo hi sep kb ka pb pa kvs1 kvs2 pids1 pids2 :
  halves t a n h c c' lo hi sep [] kb ka pb pa kvs1 kvs2 pids1 pids2 ->
  exists t' a' pids', create_new_root c sep c' t = (Ok tt, t') /\
    tree_inv t' a' (S n) (kb ++ (kvs1 ++ kvs2) ++ ka) pids' /\
    a_cap a' = a_cap a /\ a_num a <= a_num a' <= a_num a + 1.
Proof.
  intros [Hr Hroot Hc Hnum Hx S1 S2 _ _ Hss Hlive Hpages Hsmall].
  inversion Hx; subst. rewrite zlen_nil in Hnum. cbn [app] in *. rewrite !app_nil_r in *.
  set (root := root_page_id_ t) in *. set (ps := pids1 ++ pids2) in *.
  assert (Hcin : root ∈ ps /\ c' ∈ ps)
    by (unfold ps; rewrite !elem_of_app; split; [left|right]; by eapply subtree_root).
  assert (Hn1 : node_in a root).
  { eapply subtree_node_in; [exact S1|apply Hlive, Hcin|by eapply subtree_root]. }
  assert (Hn2 : node_in a c').
  { eapply subtree_node_in; [exact S2|apply Hlive, Hcin|by eapply subtree_root]. }
  destruct (new_root_node t a root sep c' (fun nid =>
      do* update_node root (set_parent_id nid) in
      do* update_node c' (set_parent_id nid) in
      do* modifyS (set_root nid) in persist_root) Hr Hc) as
    (nid & b1 & a1 & E1 & Hr1 & He1 & Hnew & Hold & Hn & Hl);
    [lia|by eapply node_in_page_id|by eapply node_in_page_id|done|].
  assert (Hfresh : nid ∉ ps) by (intros Hx'; by apply Hold, Hlive).
  assert (Hps : forall j, j ∈ ps -> j ∉ [nid]) by by intros j Hj ->%list_elem_of_singleton.
  assert (Hpn : is_page_id nid).
  { destruct Hnew as [Hy _]. pose proof (ev_num _ _ _ _ He1). unfold is_page_id. lia. }
  destruct (relink_both (set_bp b1 t) a1 root c' nid Hr1) as (b2 & a2 & E2 & Hr2 & He2);
    [rewrite (ev_cap _ _ _ _ He1); lia|eapply node_in_evolves; [exact He1|apply Hps; apply Hcin|done]..|done|].
  destruct (set_root_tree (set_bp b2 (set_bp b1 t)) a2 nid Hr2 Hpn) as (b3 & E3 & Hr3).
  assert (He : evolves [nid] 1 a a2).
  { apply (evolves_trans _ 1 0 _ a1); [done|]. eapply evolves_weaken; [|reflexivity|exact He2]. by intros j ?%not_elem_of_nil. }
  pose proof (ev_same _ _ _ _ He2 nid (not_elem_of_nil _)) as Sn.
  assert (Hn' : node (a_page a2 nid) [(sep, c')]) by by apply (sn_internal _ _ Sn).
  rewrite <- (same_node_links _ _ Sn) in Hl. unfold links in Hl. injection Hl as Li Lf Lr.
  eexists _, (a_set_root nid a2), (nid :: ps). split; [|split; [|split]].
  - unfold create_new_root. rewrite E1. rewrite <- bind_assoc. mstep E2. exact E3.
  - split; [split| |exact Hsmall].
    + exact Hr3.
    + change (subtree (a_page a2) (S h) nid None None (kvs1 ++ kvs2) (nid :: ps)).
      split; [exact Li|]. exists [(sep, c')], ps. split; [exact Hn'|]. split; [done|]. rewrite Lf. constructor; [done| |constructor].
      * eapply subtree_evolves; [exact He| |exact S1]. intros j Hj. apply Hps, elem_of_app. by left.
      * eapply subtree_evolves; [exact He| |exact S2]. intros j Hj. apply Hps, elem_of_app. by right.
    + apply NoDup_cons. split; [done|apply Hlive].
    + intros j [->|Hj]%elem_of_cons.
      * by eapply (in_use_evolves [] 0 a1 a2).
      * eapply (in_use_evolves _ _ a a2); [exact He|by apply Hlive].
    + done.
    + cbn [a_page a_set_root]. apply (pages_ok_insert _ nid [] ps _ Hn'); [done|by repeat constructor|].
      eapply pages_evolve; [exact He|exact Hpages|]. by intros j ->%list_elem_of_singleton.
  - apply (ev_cap _ _ _ _ He).
  - apply (ev_num _ _ _ _ He).
Qed.

(** A parent with room takes the separator. *)
Lemma add_separator_ok t a n h pid lo hi crumbs kb ka pb pa cells kvs pids sep c' i b1 a1 :
  parent_state t a n h pid lo hi crumbs kb ka pb pa cells kvs pids sep c' ->
  pool_rep {[pid]} [(pid, i)] b1 a1 -> evolves [pid] 0 a a1 ->
  node (a_page a1 pid) cells -> links (a_page a1 pid) = links (a_page a pid) ->
  separator_fits sep c' cells = true ->
  exists b' a', add_separator i pid sep c' (set_bp b1 t) = (Ok tt, set_bp b' t) /\
    tree_inv (set_bp b' t) a' n (kb ++ kvs ++ ka) (pb ++ (pid :: pids) ++ pa) /\ evolves [pid] 0 a a'.
Proof.
  intros Hp Hr1 He1 Hn1 Hl1 Hfit. pose proof Hp as [_ _ Hcap _ _ Hid _ Hsep _ [Hc' Hcp] _ _ _ _].
  assert (Hin : (pid, i) ∈ [(pid, i)]) by by left.
  destruct (add_to_half_ok {[pid]} [(pid, i)] (set_bp b1 t) a1 pid i cells sep c' Hr1)
    as (b2 & a2 & E2 & Hr2 & He2 & Hn2 & Hl2); try done.
  { by apply elem_of_singleton. }
  { rewrite (ev_cap _ _ _ _ He1). simpl. lia. }
  { by rewrite (links_id _ _ Hl1). }
  { eapply node_in_evolves; [exact He1| |done]. by intros ->%list_elem_of_singleton. }
  destruct (unpin_tree _ _ [] (set_bp b2 t) a2 pid i true Hr2) as (b3 & E3 & Hr3); [done..|].
  cbn iota in Hr3. rewrite difference_diag_L in Hr3.
  assert (He : evolves [pid] 0 a a2) by exact (evolves_trans _ 0 0 _ _ _ He1 He2).
  exists b3, a2. split; [|split; [|done]].
  - rewrite add_separator_eq. mstep E2. exact E3.
  - eapply parent_done; [exact Hp|exact Hr3|exact He|exact Hn2|congruence].
Qed.

Lemma is_full_node {A : Type} `{NodeKind A} p (cells : list A) (z : Z) :
  node p cells -> exists full, is_full z p = Ok full /\
    (full = false -> occupied cells + z + 2 <= NODE_USABLE_SIZE) /\
    (full = true -> compacted p cells -> NODE_USABLE_SIZE < occupied cells + z + 2).
Proof.
  intros Hn. pose proof (node_holds _ _ Hn) as Hh. eexists. split; [apply (is_full_holds p cells Hh)|].
  unfold total_cell_cost. split.
  - intros Hf%Z.ltb_ge. apply (room_fits p cells z Hh). unfold has_room. lia.
  - intros Hf%Z.ltb_lt Hc. unfold compacted, occupied in *. rewrite Hc, (holds_fe p cells Hh) in Hf. klia.
Qed.

Lemma is_full_parent t a pid i b (cells : list (bytes * Z)) sep c' D L :
  pool_rep D L b a -> (pid, i) ∈ L -> node (a_page a pid) cells -> sep_small (sep, c') ->
  exists full, ask i (is_full (internal_cell_size (zlen sep))) (set_bp b t) = (Ok full, set_bp b t) /\
    (full = false -> separator_fits sep c' cells = true) /\
    (full = true -> compacted (a_page a pid) cells -> NODE_USABLE_SIZE < occupied cells + 1012).
Proof.
  intros Hr Hin Hn Hss. destruct (is_full_node _ cells (internal_cell_size (zlen sep)) Hn) as (full & E & H1 & H2).
  exists full. unfold sep_small in Hss. cbn [fst] in Hss.
  split; [by apply (ask_tree D L (set_bp b t) a pid i)|]. split.
  - intros Hf%H1. apply bool_decide_eq_true_2. rewrite occupied_cons, zlen_enc_internal. lia.
  - intros Hf Hc. specialize (H2 Hf Hc). lia.
Qed.

(** [insert_into_parent] ends with the tree in order, whatever is split on the
    way up. *)
Lemma insert_into_parent_ok crumbs t a n h c c' lo hi sep kb ka pb pa kvs1 kvs2 pids1 pids2 :
  halves t a n h c c' lo hi sep crumbs kb ka pb pa kvs1 kvs2 pids1 pids2 ->
  exists t' a' n' pids', insert_into_parent c sep c' crumbs t = (Ok tt, t') /\
    tree_inv t' a' n' (kb ++ (kvs1 ++ kvs2) ++ ka) pids' /\
    a_cap a' = a_cap a /\ a_num a <= a_num a' <= a_num a + zlen crumbs + 1 /\ (n <= n' <= S n)%nat.
Proof.
  revert t a h c c' lo hi sep kb ka pb pa kvs1 kvs2 pids1 pids2.
  induction crumbs as [|pid crumbs IH]; intros t a h c c' lo hi sep kb ka pb pa kvs1 kvs2 pids1 pids2 Hh.
  - destruct (create_new_root_ok _ _ _ _ _ _ _ _ _ _ _ _ _ _ _ _ _ Hh) as (t' & a' & pids' & E & Hi & Hc & Hnum).
    exists t', a', (S n), pids'. rewrite zlen_nil. split; [exact E|]. split; [done|]. split; [done|]. split; [lia|lia].
  - destruct (halves_parent _ _ _ _ _ _ _ _ _ _ _ _ _ _ _ _ _ _ _ Hh)
      as (lo' & hi' & kb' & ka' & pb' & pa' & cells & kvs & pids & Hp & Hkvs).
    pose proof Hp as [Hr _ Hc _ _ Hid Hn Hsep Hss [Hc' Hcp] _ _ _ _]. rewrite Hkvs. pose proof (zlen_nonneg crumbs).
    destruct (parent_apart _ _ _ _ _ _ _ _ _ _ _ _ _ _ _ _ _ Hp) as (_ & _ & Huse).
    destruct (fetch_tree ∅ [] t a pid Hr) as (i & b1 & E1 & Hr1); [simpl; lia|by destruct Huse|].
    assert (Hin : (pid, i) ∈ [(pid, i)]) by by left.
    pose proof (pool_rep_widen _ _ _ _ _ _ Hr1 Hin) as Hr1'. rewrite union_empty_l_L in Hr1'.
    cbn [insert_into_parent]. mstep E1. mstep (make_node_tree _ _ (set_bp b1 t) a pid i cells Hr1 Hin Hn).
    destruct (is_full_parent t a pid i b1 cells sep c' _ _ Hr1 Hin Hn Hss) as (full & Ef & Hroom & _). mstep Ef.
    rewrite zlen_cons. destruct full; cbn [negb].
    2: { destruct (add_separator_ok _ _ _ _ _ _ _ _ _ _ _ _ _ _ _ _ _ i b1 a Hp Hr1' (evolves_refl _ _) Hn eq_refl)
           as (b2 & a2 & E2 & Hi2 & He2); [by apply Hroom|].
         eexists _, a2, n, _. split; [exact E2|]. split; [exact Hi2|]. split; [apply (ev_cap _ _ _ _ He2)|].
         pose proof (ev_num _ _ _ _ He2). lia. }
    clear Hroom. destruct (compact_ok _ cells Hn) as (p1 & Ec & N1 & C1 & M1). apply meta_links in M1.
    destruct (at_page_dirty {[pid]} _ (set_bp b1 t) a pid i compact (Ok tt) p1 Hr1') as (b2 & E2 & Hr2); try done.
    { by apply elem_of_singleton. }
    { by rewrite (links_id _ _ M1). }
    { apply (holds_length _ _ (node_holds _ _ N1)). }
    set (a1 := a_set_page pid p1 a) in *.
    assert (P1 : a_page a1 pid = p1) by (simpl; by rewrite fn_lookup_insert).
    assert (He1 : evolves [pid] 0 a a1) by (apply evolves_set_page; by left).
    rewrite <- P1 in N1, C1, M1. mstep E2.
    destruct (is_full_parent (set_bp b1 t) a1 pid i b2 cells sep c' _ _ Hr2 Hin N1 Hss) as (full' & Ef' & Hroom & Hfull). mstep Ef'.
    destruct full'; cbn [negb].
    + destruct (split_parent_ok _ _ _ _ _ _ _ _ _ _ _ _ _ _ _ _ _ i b2 a1 Hp Hr2 He1 N1 C1 M1)
        as (b3 & a3 & nid & k & ks1 & ks2 & ps1 & ps2 & E3 & Hh3 & -> & Hc3 & Hn3); [by apply Hfull|].
      mstep E3. destruct (IH _ _ _ _ _ _ _ _ _ _ _ _ _ _ _ _ Hh3) as (t' & a' & n' & pids' & E' & Hi' & Hc4 & Hn4 & Hh4).
      exists t', a', n', pids'. split; [exact E'|]. split; [done|]. split; [congruence|]. split; [lia|done].
    + destruct (add_separator_ok _ _ _ _ _ _ _ _ _ _ _ _ _ _ _ _ _ i b2 a1 Hp Hr2 He1 N1 M1)
        as (b3 & a3 & E3 & Hi3 & He3); [by apply Hroom|].
      eexists _, a3, n, _. split; [exact E3|]. split; [exact Hi3|]. split; [apply (ev_cap _ _ _ _ He3)|].
      pose proof (ev_num _ _ _ _ He3). lia.
Qed.
End parent.
