(* ===== verification/TreeBorrow.v ===== *)
(** * Neighbours that lend an entry

    [fix_underflow] of a leaf whose left neighbour does not underflow, or, for
    a first child, whose right neighbour does not: an entry moves over and the
    separator between the two changes.  The entries of the tree stay the same.
    Where the code merges instead, or takes a wrong separator, nothing is
    claimed. *)

From stdpp Require Import functions.
From S2P Require Import Prelude.
From S2P Require Import Buffers.
From S2P Require Import Page.
From S2P Require Import Node.
From S2P Require Import NodeSlots.
From S2P Require Import KeyOrder.
From S2P Require Import NodeCells.
From S2P Require Import NodeKinds.
From S2P Require Import NodeOps.
From S2P Require Import NodeInsert.
From S2P Require Import NodeSplit.
From S2P Require Import NodeMerge.
From S2P Require Import DiskManager.
From S2P Require Import FreeList.
From S2P Require Import BufferPool.
From S2P Require Import PoolSpec.
From S2P Require Import PoolOps.
From S2P Require Import BTree.
From S2P Require Import NodeSeparator.
From S2P Require Import Tree.
From S2P Require Import TreeNav.
From S2P Require Import TreeFrame.
From S2P Require Import TreeChain.
From S2P Require Import TreeSplit.
From S2P Require Import TreeHalves.
From S2P Require Import TreeParent.

(** ** The separator *)

Lemma sorted_middle (l r : list (bytes * Z)) (s : bytes) (y : Z) :
  sorted_cells fst (l ++ (s, y) :: r) -> sorted_cells fst (l ++ r).
Proof.
  intros Hs. apply (sorted_delete _ _ (length l)) in Hs. by rewrite delete_middle in Hs.
Qed.

Section steps.
Context {F : Type} `{ReliableFile F}.
Implicit Types (t : BTree F) (b : BufferPool F) (a : APool) (D : gset Z) (L : list (Z * Z)).

(** A write through the pointer of one page of the tree. *)
Lemma write_node {A B} `{NodeKind A} D L t a j i (m : M Page B) (r : result B) p' (cells : list A) :
  pool_rep D L (bp_ t) a -> j ∈ D -> (j, i) ∈ L -> pg_id (a_page a j) = j ->
  m (a_page a j) = (r, p') -> node p' cells -> meta p' = meta (a_page a j) ->
  exists b' a', at_page i m t = (r, set_bp b' t) /\ pool_rep D L b' a' /\ evolves [j] 0 a a' /\
    node (a_page a' j) cells /\ meta (a_page a' j) = meta (a_page a j).
Proof.
  intros Hr Hj Hin Hid E N Mt. assert (Hid' : pg_id p' = j) by (unfold meta in Mt; congruence).
  destruct (at_page_dirty D L t a j i m r p' Hr Hj Hin E Hid' (holds_length _ _ (node_holds _ _ N))) as (b' & E' & Hr').
  exists b', (a_set_page j p' a). split; [exact E'|]. split; [exact Hr'|].
  split; [apply evolves_set_page; by left|]. cbn [a_page a_set_page]. by rewrite fn_lookup_insert.
Qed.

(** The separator [s] in front of [y] becomes [s']. *)
Lemma replace_separator_ok D L t a j i l s y r (s' : bytes) :
  pool_rep D L (bp_ t) a -> j ∈ D -> (j, i) ∈ L -> node (a_page a j) (l ++ (s, y) :: r) -> pg_id (a_page a j) = j ->
  (forall x, x ∈ l.*1 -> key_lt x s') -> (forall x, x ∈ r.*1 -> key_lt s' x) ->
  if separator_fits s' y (l ++ r) then
    exists b' a', replace_separator i (zlen l) s' t = (Ok tt, set_bp b' t) /\ pool_rep D L b' a' /\
      evolves [j] 0 a a' /\ node (a_page a' j) (l ++ (s', y) :: r) /\ meta (a_page a' j) = meta (a_page a j)
  else (replace_separator i (zlen l) s' t).1 = Err AssertionFailure.
Proof.
  intros Hr Hj Hin Hn Hid Hl Hr'. pose proof Hn as [Hh Ht Hs Hok].
  assert (Hi : (l ++ (s, y) :: r) !! length l = Some (s, y)) by by rewrite list_lookup_middle.
  pose proof (upsert_between s' y l r Hl Hr') as Hup.
  pose proof (sorted_upsert s' y _ (sorted_middle l r s y Hs)) as Hs'. rewrite Hup in Hs'.
  unfold replace_separator. mstep (ask_tree D L t a j i (key_at (zlen l)) _ Hr Hin (key_at_holds _ _ Hh _ _ Hi)).
  cell_simpl. destruct (Z.eqb_spec (zlen s) (zlen s')) as [Hz|Hz].
  - assert (Hins : <[length l := (s', y)]> (l ++ (s, y) :: r) = l ++ (s', y) :: r).
    { rewrite <- (Nat.add_0_r (length l)) at 1. by rewrite insert_app_r. }
    destruct (update_separator_key_ok _ _ (length l) s s' y Hn Hi Hz) as (p' & E & N & Mt); [by rewrite Hins|].
    rewrite Hins in N. unfold separator_fits.
    rewrite bool_decide_eq_true_2 by (rewrite <- occupied_middle; by apply (node_occupied p')).
    by apply (write_node D L t a j i _ _ p').
  - mstep (ask_tree D L t a j i (child_at (zlen l)) _ Hr Hin (child_at_ok _ _ _ _ _ Hn Hi)).
    destruct (node_remove _ _ (length l) Hn) as (p1 & E1 & N1 & _ & M1); [by eapply lookup_lt_Some|].
    rewrite delete_middle in N1.
    destruct (write_node D L t a j i _ _ p1 _ Hr Hj Hin Hid E1 N1 M1) as (b1 & a1 & E1' & Hr1 & He1 & N1' & M1').
    mstep E1'.
    assert (Hs0 : s' ∉ (l ++ r).*1).
    { rewrite fmap_app. intros [Hx|Hx]%elem_of_app; [by apply Hl, key_lt_irrefl in Hx|by apply Hr', key_lt_irrefl in Hx]. }
    rewrite Forall_lookup in Hok.
    destruct (insert_separator_ok _ _ s' y N1' Hs0 (Hok _ _ Hi)) as (p2 & E2 & M2 & N2 & _). rewrite Hup in N2.
    assert (Hid1 : pg_id (a_page a1 j) = j) by (unfold meta in M1'; congruence).
    destruct (separator_fits s' y (l ++ r)).
    + destruct (write_node D L (set_bp b1 t) a1 j i _ _ p2 _ Hr1 Hj Hin Hid1 E2 N2 M2) as (b2 & a2 & E2' & Hr2 & He2 & N2' & M2').
      exists b2, a2. split; [by mstep E2'|]. split; [done|].
      split; [exact (evolves_trans _ 0 0 _ _ _ He1 He2)|]. split; [done|congruence].
    + destruct (write_node D L (set_bp b1 t) a1 j i _ _ p2 _ Hr1 Hj Hin Hid1 E2 N2 M2) as (b2 & a2 & E2' & _).
      by mstep E2'.
Qed.

(** ** Two neighbours *)

(** The leaves [x] and [y] next to each other under the node [pid], and the
    separator [s] between them. *)
Set Implicit Arguments.
Record siblings a n root kvs pids pid l s r x y lo hi crumbs kb ka pb pa lo1 hi1 kvs1 kvs2 kbi kai pbi pai : Prop := {
  sb_ctx : context (a_page a) n root 1 pid lo hi crumbs kb ka pb pa;
  sb_id : pg_id (a_page a pid) = pid;
  sb_node : node (a_page a pid) (l ++ (s, y) :: r);
  sb_before : before (subtree (a_page a) 0) hi (pg_first (a_page a pid)) lo l x lo1 kbi pbi;
  sb_left : subtree (a_page a) 0 x lo1 (Some s) kvs1 [x];
  sb_right : subtree (a_page a) 0 y (Some s) hi1 kvs2 [y];
  sb_after : after (subtree (a_page a) 0) (Some s) hi1 r hi kai pai;
  sb_lo : above lo1 s;
  sb_hi : below hi1 s;
  sb_kvs : kvs = kb ++ (kbi ++ (kvs1 ++ kvs2) ++ kai) ++ ka;
  sb_pids : pids = pb ++ (pid :: pbi ++ ([x] ++ [y]) ++ pai) ++ pa;
}.
Unset Implicit Arguments.

(** Entries have moved between the two, and the separator has changed. *)
Record moved a a' pid l (s' : bytes) r x y (kvs1' kvs2' : list kv) : Prop := {
  mv_evolves : evolves [pid; x; y] 0 a a';
  mv_node : node (a_page a' pid) (l ++ (s', y) :: r);
  mv_links : links (a_page a' pid) = links (a_page a pid);
  mv_left : node (a_page a' x) kvs1';
  mv_left_links : links (a_page a' x) = links (a_page a x);
  mv_right : node (a_page a' y) kvs2';
  mv_right_links : links (a_page a' y) = links (a_page a y);
}.

Section siblings.
Context a n root kvs pids pid l s r x y lo hi crumbs kb ka pb pa lo1 hi1 kvs1 kvs2 kbi kai pbi pai
  (Hsb : siblings a n root kvs pids pid l s r x y lo hi crumbs kb ka pb pa lo1 hi1 kvs1 kvs2 kbi kai pbi pai).

Lemma siblings_in : pid ∈ pids /\ x ∈ pids /\ y ∈ pids.
Proof.
  rewrite (sb_pids Hsb).
  cbn [app]. rewrite !elem_of_app, !elem_of_cons, !elem_of_app, !elem_of_cons. tauto.
Qed.

(** Three pages, and not those around them. *)
Lemma siblings_apart : NoDup pids ->
  (forall j, j ∈ pb ++ pa ++ pbi ++ pai -> j ∉ [pid; x; y]) /\ pid <> x /\ pid <> y /\ x <> y.
Proof.
  rewrite (sb_pids Hsb). intros Hnd.
  assert (Hp : pb ++ (pid :: pbi ++ ([x] ++ [y]) ++ pai) ++ pa ≡ₚ [pid; x; y] ++ pb ++ pa ++ pbi ++ pai)
    by (cbn [app]; solve_Permutation).
  rewrite Hp in Hnd. apply NoDup_app in Hnd as (Hnd & Hd & _). split.
  - intros j Hj Hx. by apply (Hd j).
  - apply NoDup_cons in Hnd as [H1 Hnd]. apply NoDup_cons in Hnd as [H2 _].
    rewrite !elem_of_cons in *. split_and!; intros ->; tauto.
Qed.

(** The tree after the move. *)
Lemma siblings_update t b' a' (s' : bytes) kvs1' kvs2' :
  tree_inv t a n kvs pids -> root = root_page_id_ t -> pool_rep ∅ [] b' a' ->
  moved a a' pid l s' r x y kvs1' kvs2' ->
  kvs1' ++ kvs2' = kvs1 ++ kvs2 -> keys_in lo1 (Some s') kvs1' -> keys_in (Some s') hi1 kvs2' ->
  strictly lo1 s' -> below hi1 s' -> sep_small (s', y) ->
  tree_inv (set_bp b' t) a' n kvs pids.
Proof.
  intros [Ht Hpages Hsmall] Hroot Hr [He Np Lp Nx Lx Ny Ly] Hkvs Kx Ky Hlo Hhi Hss.
  pose proof (tr_nodup _ _ _ _ _ Ht) as Hnd. destruct (siblings_apart Hnd) as (Hout & _).
  destruct siblings_in as (Ip & Ix & Iy).
  pose proof Hsb as [Hx Hid Hn Hb Hl Hr' Ha _ _ Ekvs Epids].
  assert (Hframe : forall d lo' hi' ks (ps : list Z), subtree (a_page a) 0 d lo' hi' ks ps ->
    (forall j, j ∈ ps -> j ∈ pb ++ pa ++ pbi ++ pai) -> subtree (a_page a') 0 d lo' hi' ks ps).
  { intros d lo' hi' ks ps Hd Hps. eapply subtree_evolves; [exact He| |exact Hd]. intros j Hj. by apply Hout, Hps. }
  split; [|apply (pages_evolve [pid; x; y] 0 a a' pids He Hpages)|done].
  - split; [exact Hr| |exact Hnd| |].
    + cbn [root_page_id_ set_bp]. rewrite <- Hroot, Ekvs, Epids, <- Hkvs. eapply context_plug.
      { eapply context_evolves; [exact He| |exact Hx]. intros j Hj. apply Hout. rewrite app_assoc. by apply elem_of_app; left. }
      split; [by rewrite (links_id _ _ Lp)|]. exists (l ++ (s', y) :: r). eexists. split; [done|]. split; [done|].
      assert (Hfc : pg_first (a_page a' pid) = pg_first (a_page a pid)) by (unfold links in Lp; by injection Lp).
      rewrite Hfc. destruct Hl as [Ix' _]. destruct Hr' as [Iy' _].
      eapply forest_plug2; [| | |  |exact Hlo|exact Hhi|by eapply after_below].
      * eapply before_mono; [|exact Hb]. intros d l' h' ks ps Hd Hps. apply Hframe; [done|].
        intros j Hj. rewrite !elem_of_app. right. right. left. by apply Hps.
      * split; [by rewrite (links_id _ _ Lx)|done].
      * split; [by rewrite (links_id _ _ Ly)|done].
      * destruct r as [|[k c] r0]; [exact Ha|]. destruct Ha as (E1 & [_ E2] & Hf). subst hi1. split; [done|].
        split; [split; [|exact E2]; apply strictly_above, (above_strictly _ s'); [by apply strictly_above|exact Hhi]|].
        eapply forest_mono; [|exact Hf]. intros d l' h' ks ps Hd Hps. apply Hframe; [done|].
        intros j Hj. rewrite !elem_of_app. right. right. right. by apply Hps.
    + intros j Hj. destruct (tr_pids _ _ _ _ _ Ht j Hj). by apply (in_use_evolves _ _ _ _ _ He).
    + rewrite (ev_root _ _ _ _ He). apply (tr_root _ _ _ _ _ Ht).
  - assert (Hleaf : forall j (ks ks' : list kv), node (a_page a j) ks -> node (a_page a' j) ks' ->
      links (a_page a' j) = links (a_page a j) -> page_ok (a_page a' j) /\ same_link (a_page a j) (a_page a' j)).
    { intros j ks ks' N N' E. split; [left; by eexists|]. split; [by rewrite (node_type _ _ N), (node_type _ _ N')|].
      unfold links in E. by injection E. }
    intros j Hj _. rewrite !elem_of_cons in Hj. destruct Hj as [->|[->|[->|?%not_elem_of_nil]]]; [| | |done].
    + destruct (page_ok_internal _ _ (proj1 Hpages pid Ip) Hn) as [_ Hs].
      eapply rewritten_ok; [exact Hn|exact Lp|exact Np|by destruct l|].
      rewrite Forall_app, Forall_cons in Hs |- *. tauto.
    + by apply (Hleaf x kvs1 kvs1'); [apply Hl|..].
    + by apply (Hleaf y kvs2 kvs2'); [apply Hr'|..].
Qed.
End siblings.

(** ** The neighbours of a leaf *)

Lemma before_end R hi c lo l d lo' kvs pids : before R hi c lo l d lo' kvs pids -> d = left_child c l.
Proof.
  induction 1 as [c lo|c lo k c' l d lo' ks ps kvs pids Hk Hc Hb IH]; [done|].
  rewrite IH. unfold left_child. destruct l as [|z l]; [done|]. rewrite last_cons_cons.
  destruct (last (z :: l)) eqn:E; [done|]. by apply last_None in E.
Qed.

Lemma before_children R (HR : forall c lo hi kvs pids, R c lo hi kvs pids -> c ∈ pids) hi c lo l d lo' kvs pids :
  before R hi c lo l d lo' kvs pids -> forall e, e ∈ c :: l.*2 -> e ∈ pids \/ e = d.
Proof.
  induction 1 as [c lo|c lo k c' l d lo' ks ps kvs pids Hk Hc Hb IH]; intros e.
  - intros ->%list_elem_of_singleton. by right.
  - intros [->|He]%elem_of_cons.
    + left. apply elem_of_app. left. by eapply HR.
    + destruct (IH e He); [|by right]. left. apply elem_of_app. by right.
Qed.

Lemma before_snoc R hi c lo l s d' d lo' kvs pids :
  before R hi c lo (l ++ [(s, d')]) d lo' kvs pids ->
  d = d' /\ lo' = Some s /\ exists e lo0 kb pb ks ps, before R hi c lo l e lo0 kb pb /\
    R e lo0 (Some s) ks ps /\ in_range lo0 hi s /\ kvs = kb ++ ks /\ pids = pb ++ ps.
Proof.
  revert c lo kvs pids. induction l as [|[k0 c0] l IH]; intros c lo kvs pids Hb; cbn [app] in Hb.
  - inversion Hb as [|? ? ? ? ? ? ? ks ps ? ? Hk Hc Hb']; subst. inversion Hb'; subst. split; [done|]. split; [done|].
    exists c, lo, [], [], ks, ps. rewrite !app_nil_r. split; [constructor|done].
  - inversion Hb as [|? ? ? ? ? ? ? ks ps ? ? Hk Hc Hb']; subst.
    destruct (IH _ _ _ _ Hb') as (-> & -> & e & lo0 & kb & pb & ks' & ps' & H1 & H2 & H3 & -> & ->).
    split; [done|]. split; [done|]. exists e, lo0, (ks ++ kb), (ps ++ pb), ks', ps'. rewrite <- !app_assoc.
    split; [by constructor|done].
Qed.

(** The head of a forest. *)
Lemma forest_head R c lo r hi kvs pids :
  forest R c (Some lo) r hi kvs pids -> exists hi1 ks ps ka pa,
    R c (Some lo) hi1 ks ps /\ after R (Some lo) hi1 r hi ka pa /\ kvs = ks ++ ka /\ pids = ps ++ pa.
Proof.
  inversion 1 as [? ? ? ? ? Hc|? ? k c' cells ? ks ps ks' ps' Hk Hc Hf]; subst.
  - exists hi, kvs, pids, [], []. by rewrite !app_nil_r.
  - by exists (Some k), ks, ps, ks', ps'.
Qed.

Lemma after_bound R lo hi1 r hi kvs pids (s : bytes) (y : Z) :
  after R lo hi1 r hi kvs pids -> sorted_cells fst ((s, y) :: r) -> below hi s -> below hi1 s.
Proof.
  destruct r as [|[k c] r]; [by intros (-> & _)|]. intros (-> & _ & _) [_ Hd]%StronglySorted_inv _.
  apply Forall_inv in Hd. exact Hd.
Qed.

(** A leaf that is not the root has a left neighbour, or is a first child and
    has a right one. *)
Lemma leaf_siblings t a n kvs pids leaf pid crumbs lo hi kb ka pb pa lcells :
  tree_inv t a n kvs pids -> context (a_page a) n (root_page_id_ t) 0 leaf lo hi (pid :: crumbs) kb ka pb pa ->
  subtree (a_page a) 0 leaf lo hi lcells [leaf] -> kvs = kb ++ lcells ++ ka -> pids = pb ++ leaf :: pa ->
  exists l s r x y lo0 hi0 kb0 ka0 pb0 pa0 lo1 hi1 kvs1 kvs2 kbi kai pbi pai,
    siblings a n (root_page_id_ t) kvs pids pid l s r x y lo0 hi0 crumbs kb0 ka0 pb0 pa0 lo1 hi1 kvs1 kvs2 kbi kai pbi pai /\
    (y = leaf \/ (x = leaf /\ l = [])).
Proof.
  intros Hi Hx Hl Hkvs Hpids.
  inversion Hx as [|? ? lo0 hi0 ? kb0 ka0 pb0 pa0 l r ? ? ? kbi kai pbi pai Hx' Hid Hn Hb Ha]; subst.
  destruct l as [|[s d] l _] using rev_ind.
  - inversion Hb; subst. destruct r as [|[s y] r].
    { exfalso. eapply page_ok_internal; [eapply (proj1 (ti_pages _ _ _ _ _ Hi))|exact Hn|done].
      rewrite !elem_of_app, !elem_of_cons. tauto. }
    destruct Ha as (-> & Hk & Hf). apply forest_head in Hf as (hi1 & ks & ps & ka' & pa' & Hy & Ha' & -> & ->).
    pose proof Hy as (_ & _ & _ & ->).
    do 19 eexists. split; [|right; by split].
    split; [exact Hx'|exact Hid|exact Hn|constructor|exact Hl|exact Hy|exact Ha'|apply Hk| | |]; [|by simplify_list_eq..].
    eapply after_bound; [exact Ha'|exact (node_sorted _ _ Hn)|apply Hk].
  - apply before_snoc in Hb as (-> & -> & e & lo1 & kbi' & pbi' & ks & ps & Hb & He & Hs & -> & ->).
    pose proof He as (_ & _ & _ & ->). rewrite <- app_assoc in Hn.
    do 19 eexists. split; [|by left].
    split; [exact Hx'|exact Hid|exact Hn|exact Hb|exact He|exact Hl|exact Ha|apply Hs| | |]; [|by simplify_list_eq..].
    pose proof (node_sorted _ _ Hn) as Hsr. apply sorted_app_r in Hsr.
    eapply after_bound; [exact Ha|exact Hsr|apply Hs].
Qed.
End steps.
