(* ===== verification/TreeLend.v ===== *)
(** * Borrowing an entry

    [borrow_left] and [borrow_right] on two neighbouring leaves, and when a
    neighbour lends. *)

From stdpp Require Import functions.
From S2P Require Import Prelude.
From S2P Require Import Buffers.
From S2P Require Import Page.
From S2P Require Import Node.
From S2P Require Import NodeSlots.
From S2P Require Import KeyOrder.
From S2P Require Import NodeCells.
From S2P Require Import NodeKinds.
From S2P Require Import NodeOps.
From S2P Require Import NodeInsert.
From S2P Require Import NodeSplit.
From S2P Require Import NodeMerge.
From S2P Require Import DiskManager.
From S2P Require Import FreeList.
From S2P Require Import BufferPool.
From S2P Require Import PoolSpec.
From S2P Require Import PoolOps.
From S2P Require Import BTree.
From S2P Require Import NodeSeparator.
From S2P Require Import Tree.
From S2P Require Import TreeNav.
From S2P Require Import TreeFrame.
From S2P Require Import TreeSplit.
From S2P Require Import TreeHalves.
From S2P Require Import TreeParent.
From S2P Require Import TreeBorrow.

Section defs.
Context {F : Type} `{PosixFile F}.

(** A neighbour that does not underflow lends an entry; it must have a second
    one, since [underflow] counts the bytes of removed cells as occupied. *)
Definition lend (sib : Z) (borrow : Z -> M (BTree F) unit) : M (BTree F) bool :=
  try_borrow sib (fun ptr =>
    let* n := ask ptr num_keys in
    do* assert_ (2 <=? n) in
    borrow ptr).

Definition is_yes (r : result bool) : bool := match r with Ok b => b | Err _ => false end.

Lemma bind_inv {A B} (m : M (BTree F) A) (k : A -> M (BTree F) B) t v t' :
  bind m k t = (Ok v, t') -> exists x t1, m t = (Ok x, t1) /\ k x t1 = (Ok v, t').
Proof. unfold bind. destruct (m t) as [[x|e] t1]; [|done]. intros E. by exists x, t1. Qed.

Lemma ask_same {A} (i : Z) (q : Page -> result A) (t : BTree F) : (ask i q t).2 = t.
Proof.
  unfold ask, at_page. destruct (frame_at i (bp_ t)) as [f|] eqn:Hf.
  - rewrite (on_bp_eq _ t (bp_ t) _ (on_page_query _ i f q _ Hf eq_refl)). apply set_bp_same.
  - rewrite (on_bp_eq _ t (bp_ t) (Err OutOfBounds)); [apply set_bp_same|]. unfold on_page, at_frame. by rewrite Hf.
Qed.

Lemma assert_inv (b : bool) (t : BTree F) v t' : assert_ b t = (Ok v, t') -> b = true /\ t' = t.
Proof. destruct b; [|done]. intros E. by injection E. Qed.

(** What was lent was borrowed. *)
Lemma lend_try sib (borrow : Z -> M (BTree F) unit) t t' :
  lend sib borrow t = (Ok true, t') -> try_borrow sib borrow t = (Ok true, t').
Proof.
  unfold lend, try_borrow. destruct (sib =? INVALID_PAGE_ID); [done|].
  intros (ptr & t1 & E1 & (u & t2 & E2 & (low & t3 & E3 & E)%bind_inv)%bind_inv)%bind_inv.
  mstep E1. mstep E2. mstep E3. destruct low; cbn [negb] in *.
  - apply bind_inv in E as (u' & t4 & _ & E). unfold ret in E. congruence.
  - apply bind_inv in E as ([] & t4 & (n & t5 & E4 & (u'' & t6 & E5 & E6)%bind_inv)%bind_inv & E7).
    apply assert_inv in E5 as [_ ->]. pose proof (ask_same ptr num_keys t3) as Es. rewrite E4 in Es. simpl in Es. subst t5.
    by mstep E6.
Qed.

Lemma lend_refuses sib (borrow borrow' : Z -> M (BTree F) unit) t t' :
  lend sib borrow t = (Ok false, t') -> try_borrow sib borrow' t = (Ok false, t').
Proof.
  unfold lend, try_borrow. destruct (sib =? INVALID_PAGE_ID); [done|].
  intros (ptr & t1 & E1 & (u & t2 & E2 & (low & t3 & E3 & E)%bind_inv)%bind_inv)%bind_inv.
  mstep E1. mstep E2. mstep E3. destruct low; cbn [negb] in *; [exact E|].
  by apply bind_inv in E as (u' & t4 & _ & E).
Qed.
End defs.

Section steps.
Context {F : Type} `{ReliableFile F}.
Implicit Types (t : BTree F) (b : BufferPool F) (a : APool) (D : gset Z) (L : list (Z * Z)).

Definition fails {A} (m : M (BTree F) A) t : Prop := exists e, (m t).1 = Err e.

Lemma fails_bind {A B} (m : M (BTree F) A) (k : A -> M (BTree F) B) t : fails m t -> fails (bind m k) t.
Proof. intros [e E]. exists e. unfold bind. destruct (m t) as [r t1]. simpl in E. by subst r. Qed.

(** Pinned pages may count as changed. *)
Lemma pool_rep_pinned D L b a : pool_rep ∅ L b a -> (forall j, j ∈ D -> exists i, (j, i) ∈ L) -> pool_rep D L b a.
Proof.
  intros Hr HD. eapply pool_rep_dirty; [exact Hr|set_solver|]. intros j Hj. destruct (HD j Hj) as [i Hi].
  by eapply pins_pos.
Qed.

(** The neighbour [j] is asked. *)
Lemma lend_ok t a pid ip j (cells : list kv) (borrow : Z -> M (BTree F) unit) :
  pool_rep ∅ [(pid, ip)] (bp_ t) a -> (3 <= a_cap a)%nat -> good a j -> node (a_page a j) cells ->
  match underflow (a_page a j) with
  | Ok true => exists b', lend j borrow t = (Ok false, set_bp b' t) /\ pool_rep ∅ [(pid, ip)] b' a
  | Ok false =>
      if 2 <=? zlen cells then
        exists i b', lend j borrow t = (do* borrow i in ret true) (set_bp b' t) /\
          pool_rep ∅ [(j, i); (pid, ip)] b' a
      else fails (lend j borrow) t
  | Err _ => False
  end.
Proof.
  intros Hr Hc Hg Hn. unfold fails, lend, try_borrow.
  assert (0 < j) by (destruct Hg as [? _]; lia). rewrite (proj2 (Z.eqb_neq _ _)) by (unfold INVALID_PAGE_ID; lia).
  destruct (fetch_tree ∅ _ t a j Hr ltac:(simpl; lia) Hg) as (i & b1 & E1 & Hr1). mstep E1.
  assert (Hin : (j, i) ∈ [(j, i); (pid, ip)]) by by left.
  mstep (make_node_tree _ _ (set_bp b1 t) a j i cells Hr1 Hin Hn).
  pose proof (underflow_holds _ _ Hn) as Eu. rewrite Eu.
  mstep (ask_tree _ _ (set_bp b1 t) a j i underflow _ Hr1 Hin Eu).
  pose proof (num_keys_ok _ (holds_length _ _ (node_holds _ _ Hn))) as En.
  rewrite (holds_num _ _ (node_holds _ _ Hn)) in En. pose proof (ask_tree _ _ (set_bp b1 t) a j i num_keys _ Hr1 Hin En) as En'.
  destruct (Z.ltb _ (NODE_USABLE_SIZE / 2)); cbn [negb andb].
  - destruct (unpin_tree ∅ _ [(pid, ip)] (set_bp b1 t) a j i false Hr1) as (b2 & E2 & Hr2); [done|set_solver|].
    exists b2. split; [by mstep E2|exact Hr2].
  - destruct (2 <=? zlen cells) eqn:Ez.
    + exists i, b1. split; [|exact Hr1]. rewrite !bind_assoc. mstep En'. by rewrite !bind_assoc, bind_assert.
    + exists AssertionFailure. rewrite !bind_assoc. mstep En'. by rewrite !bind_assoc, bind_assert_false.
Qed.

(** The end of both: the separator, and the pins. *)
Lemma finish_borrow t a pid ip j1 i1 j2 i2 l s y r (s' : bytes) :
  pool_rep {[pid; j1; j2]} [(j1, i1); (j2, i2); (pid, ip)] (bp_ t) a ->
  node (a_page a pid) (l ++ (s, y) :: r) -> pg_id (a_page a pid) = pid ->
  (forall x, x ∈ l.*1 -> key_lt x s') -> (forall x, x ∈ r.*1 -> key_lt s' x) ->
  let m := do* replace_separator ip (zlen l) s' in do* unpin j1 true in do* unpin j2 true in unpin pid true in
  if separator_fits s' y (l ++ r) then
    exists b' a', m t = (Ok tt, set_bp b' t) /\ pool_rep ∅ [] b' a' /\ evolves [pid] 0 a a' /\
      node (a_page a' pid) (l ++ (s', y) :: r) /\ meta (a_page a' pid) = meta (a_page a pid)
  else fails m t.
Proof.
  intros Hr Hn Hid Hl Hr'. cbv zeta.
  assert (HD : pid ∈ ({[pid; j1; j2]} : gset Z)) by set_solver.
  assert (HL : (pid, ip) ∈ [(j1, i1); (j2, i2); (pid, ip)]) by set_solver.
  pose proof (replace_separator_ok _ _ t a pid ip l s y r s' Hr HD HL Hn Hid Hl Hr') as Hs.
  destruct (separator_fits s' y (l ++ r)); [|by apply fails_bind; eexists].
  destruct Hs as (b1 & a1 & E1 & Hr1 & He & N & Mt).
  destruct (unpin_tree _ _ [(j2, i2); (pid, ip)] (set_bp b1 t) a1 j1 i1 true Hr1) as (b2 & E2 & Hr2); [done..|].
  destruct (unpin_tree _ _ [(pid, ip)] (set_bp b2 (set_bp b1 t)) a1 j2 i2 true Hr2) as (b3 & E3 & Hr3); [done..|].
  destruct (unpin_tree _ _ [] (set_bp b3 (set_bp b2 (set_bp b1 t))) a1 pid ip true Hr3) as (b4 & E4 & Hr4); [done..|].
  exists b4, a1. split; [|split; [|done]].
  - mstep E1. mstep E2. mstep E3. exact E4.
  - cbn iota in Hr4. replace (∅ : gset Z) with (((({[pid; j1; j2]} : gset Z) ∖ {[j1]}) ∖ {[j2]}) ∖ {[pid]}); [done|set_solver].
Qed.

(** Two leaves at once. *)
Lemma write_nodes {B} D L t a j1 i1 j2 i2 (m : M (Page * Page) B) (r : result B) p q (c1 c2 : list kv) :
  pool_rep D L (bp_ t) a -> j1 ∈ D -> j2 ∈ D -> (j1, i1) ∈ L -> (j2, i2) ∈ L -> j1 <> j2 ->
  m (a_page a j1, a_page a j2) = (r, (p, q)) -> node p c1 -> node q c2 -> pg_id p = j1 -> pg_id q = j2 ->
  exists b' a', at_pages i1 i2 m t = (r, set_bp b' t) /\ pool_rep D L b' a' /\ evolves [j1; j2] 0 a a' /\
    a_page a' j1 = p /\ a_page a' j2 = q /\ forall j, j <> j1 -> j <> j2 -> a_page a' j = a_page a j.
Proof.
  intros Hr D1 D2 L1 L2 Hne E N1 N2 I1 I2.
  destruct (at_pages_dirty D L t a j1 i1 j2 i2 m r p q Hr D1 D2 L1 L2 Hne E I1 (holds_length _ _ (node_holds _ _ N1))
    I2 (holds_length _ _ (node_holds _ _ N2))) as (b' & E' & Hr').
  exists b', (a_set_page j2 q (a_set_page j1 p a)). split; [exact E'|]. split; [exact Hr'|]. split; [|split; [|split]].
  - apply (evolves_trans _ 0 0 _ (a_set_page j1 p a)); apply evolves_set_page; [by left|by right; left].
  - simpl. by rewrite fn_lookup_insert_ne, fn_lookup_insert.
  - simpl. by rewrite fn_lookup_insert.
  - intros j H1 H2. simpl. by rewrite !fn_lookup_insert_ne.
Qed.

(** The move and the change of the separator, one after the other. *)
Lemma moved_intro a a1 a2 pid l (s' : bytes) r x y (kvs1' kvs2' : list kv) :
  pid <> x -> pid <> y -> evolves [x; y] 0 a a1 -> evolves [pid] 0 a1 a2 ->
  node (a_page a1 x) kvs1' -> meta (a_page a1 x) = meta (a_page a x) ->
  node (a_page a1 y) kvs2' -> meta (a_page a1 y) = meta (a_page a y) ->
  node (a_page a2 pid) (l ++ (s', y) :: r) -> meta (a_page a2 pid) = meta (a_page a1 pid) ->
  moved a a2 pid l s' r x y kvs1' kvs2'.
Proof.
  intros Hx Hy He1 He2 Nx Mx Ny My Np Mp.
  assert (Hs : forall j, pid <> j -> same_node (a_page a1 j) (a_page a2 j)).
  { intros j Hj. apply (ev_same _ _ _ _ He2). by intros ->%list_elem_of_singleton. }
  pose proof (Hs x Hx) as Sx. pose proof (Hs y Hy) as Sy.
  assert (Sp : same_node (a_page a pid) (a_page a1 pid)) by (apply (ev_same _ _ _ _ He1); set_solver).
  split.
  - apply (evolves_trans _ 0 0 _ a1); (eapply evolves_weaken; [|reflexivity|]); [|exact He1| |exact He2]; set_solver.
  - exact Np.
  - rewrite (meta_links _ _ Mp). by apply same_node_links.
  - by apply (sn_leaf _ _ Sx).
  - rewrite (same_node_links _ _ Sx). by apply meta_links.
  - by apply (sn_leaf _ _ Sy).
  - rewrite (same_node_links _ _ Sy). by apply meta_links.
Qed.

Section siblings.
Context t a n root kvs pids pid l s r x y lo hi crumbs kb ka pb pa lo1 hi1 kvs1 kvs2 kbi kai pbi pai
  (Hsb : siblings a n root kvs pids pid l s r x y lo hi crumbs kb ka pb pa lo1 hi1 kvs1 kvs2 kbi kai pbi pai)
  (Hnd : NoDup pids) (Hcap : (3 <= a_cap a)%nat) (Hgood : forall j, j ∈ pids -> good a j)
  (ip : Z).

Lemma siblings_nodes : node (a_page a x) kvs1 /\ pg_id (a_page a x) = x /\ keys_in lo1 (Some s) kvs1 /\
  node (a_page a y) kvs2 /\ pg_id (a_page a y) = y /\ keys_in (Some s) hi1 kvs2.
Proof.
  destruct (sb_left Hsb) as (I1 & N1 & K1 & _).
  destruct (sb_right Hsb) as (I2 & N2 & K2 & _).
  done.
Qed.

(** The separators on the two sides. *)
Lemma siblings_order (s' : bytes) : strictly lo1 s' -> below hi1 s' ->
  (forall k, k ∈ l.*1 -> key_lt k s') /\ (forall k, k ∈ r.*1 -> key_lt s' k).
Proof.
  intros Hlo Hhi. pose proof (node_sorted _ _ (sb_node Hsb)) as Hs.
  apply sorted_middle, sorted_app in Hs as (_ & Hs & _). split.
  - eapply before_keys; [exact (sb_before Hsb)|exact Hlo].
  - eapply after_keys; [exact Hs|exact (sb_after Hsb)|exact Hhi].
Qed.

(** An entry moves between the two, then the separator changes. *)
Lemma steal_and_separate t1 j1 i1 j2 i2 (steal : M (Page * Page) bytes) p q c1 c2 kx ky (s' : bytes) :
  (j1, c1, (j2, c2)) = (x, kx, (y, ky)) \/ (j1, c1, (j2, c2)) = (y, ky, (x, kx)) ->
  pool_rep ∅ [(j1, i1); (j2, i2); (pid, ip)] (bp_ t1) a ->
  steal (a_page a j1, a_page a j2) = (Ok s', (p, q)) -> node p c1 -> node q c2 ->
  meta p = meta (a_page a j1) -> meta q = meta (a_page a j2) -> strictly lo1 s' -> below hi1 s' ->
  let m :=
    let* new_sep := at_pages i1 i2 steal in
    do* replace_separator ip (zlen l) new_sep in
    do* unpin j1 true in
    do* unpin j2 true in
    unpin pid true in
  if separator_fits s' y (l ++ r) then
    exists b' a', m t1 = (Ok tt, set_bp b' t1) /\ pool_rep ∅ [] b' a' /\ moved a a' pid l s' r x y kx ky
  else fails m t1.
Proof.
  intros Hj Hr Es N1 N2 M1 M2 Hlo Hhi. cbv zeta. destruct (siblings_order s' Hlo Hhi) as [Hkl Hkr].
  edestruct siblings_apart as (_ & Hpx & Hpy & Hxy); [exact Hsb|exact Hnd|].
  destruct siblings_nodes as (_ & Ix & _ & _ & Iy & _).
  set (L := [(j1, i1); (j2, i2); (pid, ip)]) in *.
  assert (Hr2 : pool_rep {[pid; j1; j2]} L (bp_ t1) a).
  { apply pool_rep_pinned; [exact Hr|]. intros j. rewrite !elem_of_union, !elem_of_singleton.
    intros [[->| ->]| ->]; [exists ip|exists i1|exists i2]; set_solver. }
  destruct (write_nodes {[pid; j1; j2]} L t1 a j1 i1 j2 i2 steal (Ok s') p q c1 c2 Hr2)
    as (b2 & a2 & E2 & Hr3 & He & P1 & P2 & _); try done; [set_solver..| | | |];
    [destruct Hj as [[=]|[=]]; unfold meta in M1, M2; congruence..|].
  assert (He' : evolves [x; y] 0 a a2).
  { eapply evolves_weaken; [|reflexivity|exact He]. destruct Hj as [[=]|[=]]; subst; set_solver. }
  assert (Sp : same_node (a_page a pid) (a_page a2 pid)) by (apply (ev_same _ _ _ _ He'); set_solver).
  pose proof (finish_borrow (set_bp b2 t1) a2 pid ip j1 i1 j2 i2 l s y r s' Hr3 (sn_internal _ _ Sp _ (sb_node Hsb))
    ltac:(rewrite (sn_id _ _ Sp); exact (sb_id Hsb)) Hkl Hkr) as Hfin. cbv zeta in Hfin.
  unfold fails. rewrite (bind_ok _ _ t1 _ _ E2). destruct (separator_fits s' y (l ++ r)); [|exact Hfin].
  destruct Hfin as (b' & a' & Ef & Hr' & He2 & Nf & Mf). exists b', a'. split; [exact Ef|]. split; [exact Hr'|].
  eapply moved_intro; [exact Hpx|exact Hpy|exact He'|exact He2| | | | |exact Nf|exact Mf];
    destruct Hj as [[=]|[=]]; subst; try rewrite P1; try rewrite P2; done.
Qed.

(** What both read of the parent. *)
Lemma ask_separator L t1 (z : Z) :
  pool_rep ∅ L (bp_ t1) a -> (pid, ip) ∈ L -> 0 <= z <= zlen l -> exists k, ask ip (key_at (wrap 16 z)) t1 = (Ok k, t1).
Proof.
  intros Hr Hin Hz. pose proof (sb_node Hsb) as Np. destruct (num_16 _ _ _ _ _ Np) as [Hnum H16].
  pose proof (zlen_nonneg r). rewrite wrap16_small by lia.
  destruct (lookup_lt_is_Some_2 (l ++ (s, y) :: r) (Z.to_nat z)) as [c Hc];
    [rewrite length_app; unfold zlen in Hz; simpl; lia|].
  exists c.1. eapply ask_tree; [exact Hr|exact Hin|].
  rewrite <- (Z2Nat.id z) by lia. apply (key_at_holds _ _ (node_holds _ _ Np) _ _ Hc).
Qed.

Lemma slot_16 : wrap 16 (zlen l) = zlen l.
Proof.
  destruct (num_16 _ _ _ _ _ (sb_node Hsb)) as [Hnum H16]. pose proof (zlen_nonneg l). pose proof (zlen_nonneg r).
  apply wrap16_small. lia.
Qed.

(** A leaf steals from another. *)
Lemma steal_leaf_eq L t1 (j1 i1 i2 : Z) (c1 : list kv) (left : bool) :
  pool_rep ∅ L (bp_ t1) a -> (j1, i1) ∈ L -> node (a_page a j1) c1 ->
  (if left then steal_from_left i1 i2 else steal_from_right i1 i2) t1 =
  at_pages i1 i2 (if left then steal_left_leaf else steal_right_leaf) t1.
Proof.
  intros Hr Hin N. pose proof (ask_tree _ _ t1 a j1 i1 is_leaf _ Hr Hin (is_leaf_ok _ (holds_length _ _ (node_holds _ _ N)))) as E.
  rewrite (node_type _ _ N), bool_decide_eq_true_2 in E by done.
  destruct left; [unfold steal_from_left|unfold steal_from_right]; by mstep E.
Qed.

(** [y] borrows the last entry of [x]. *)
Lemma borrow_left_ok ix kl k v :
  pool_rep ∅ [(x, ix); (pid, ip)] (bp_ t) a -> kvs1 = kl ++ [(k, v)] -> y <> pg_first (a_page a pid) ->
  strictly lo1 k -> occupied ((k, v) :: kvs2) <= NODE_USABLE_SIZE ->
  let m := borrow_left ip pid y x ix (zlen l) in
  if separator_fits k y (l ++ r) then
    exists b' a', m t = (Ok tt, set_bp b' t) /\ pool_rep ∅ [] b' a' /\ moved a a' pid l k r x y kl ((k, v) :: kvs2)
  else fails m t.
Proof.
  intros Hr Hkl Hfc Hlo Hocc. cbv zeta. destruct siblings_nodes as (N1 & I1 & K1 & N2 & I2 & K2).
  edestruct siblings_in as (_ & _ & Iy); [exact Hsb|]. pose proof (holds_length _ _ (node_holds _ _ (sb_node Hsb))) as Lp.
  assert (Hks : key_lt k s) by (apply (K1 k); rewrite Hkl, fmap_app; set_solver).
  assert (Hhi : below hi1 k) by (eapply below_trans; [exact (sb_hi Hsb)|by apply key_lt_asym]).
  assert (Hsort : sorted_cells fst ((k, v) :: kvs2)).
  { constructor; [apply (node_sorted _ _ N2)|]. rewrite Forall_forall. intros c Hc.
    eapply key_lt_le_trans; [exact Hks|]. apply (K2 c.1). apply list_elem_of_fmap. by exists c. }
  rewrite Hkl in N1. destruct (steal_left_leaf_ok _ _ kl kvs2 k v N1 N2 Hsort Hocc) as (p & q & Es & Np & Nq & Mp & Mq).
  destruct (fetch_tree ∅ _ t a y Hr ltac:(simpl; lia) (Hgood y Iy)) as (iy & b1 & E1 & Hr1).
  set (L := [(y, iy); (x, ix); (pid, ip)]) in *.
  assert (Hly : (y, iy) ∈ L) by set_solver. assert (Hlp : (pid, ip) ∈ L) by set_solver.
  pose proof (steal_and_separate (set_bp b1 t) y iy x ix steal_left_leaf p q _ _ kl _ k
    ltac:(by right) Hr1 Es Np Nq Mp Mq Hlo Hhi) as Hm. cbv zeta in Hm.
  assert (Em : borrow_left ip pid y x ix (zlen l) t = (let* new_sep := at_pages iy ix steal_left_leaf in
      do* replace_separator ip (zlen l) new_sep in
      do* unpin y true in do* unpin x true in unpin pid true) (set_bp b1 t)).
  { unfold borrow_left. mstep E1. mstep (make_node_tree _ _ (set_bp b1 t) a y iy kvs2 Hr1 Hly N2).
    pose proof (zlen_nonneg l).
    destruct (ask_separator L (set_bp b1 t) (if 0 <? zlen l then zlen l - 1 else 0) Hr1 Hlp) as [k1 Ek1];
      [destruct (Z.ltb_spec 0 (zlen l)); lia|].
    mstep Ek1. mstep (ask_tree _ _ (set_bp b1 t) a pid ip first_child _ Hr1 Hlp (first_child_ok _ Lp)).
    rewrite (proj2 (Z.eqb_neq _ _)) by congruence.
    destruct (ask_separator L (set_bp b1 t) (zlen l) Hr1 Hlp) as [k2 Ek2]; [lia|].
    mstep Ek2. rewrite slot_16. unfold bind at 1. rewrite (steal_leaf_eq L (set_bp b1 t) y iy ix kvs2 true Hr1 Hly N2). done. }
  unfold fails in *. rewrite Em. exact Hm.
Qed.

(** [x], a first child, borrows the first entry of [y]. *)
Lemma borrow_right_ok iy k v c kr :
  pool_rep ∅ [(y, iy); (pid, ip)] (bp_ t) a -> kvs2 = (k, v) :: c :: kr ->
  occupied (kvs1 ++ [(k, v)]) <= NODE_USABLE_SIZE ->
  let m := borrow_right ip pid x y iy (zlen l) in
  if separator_fits c.1 y (l ++ r) then
    exists b' a', m t = (Ok tt, set_bp b' t) /\ pool_rep ∅ [] b' a' /\
      moved a a' pid l c.1 r x y (kvs1 ++ [(k, v)]) (c :: kr)
  else fails m t.
Proof.
  intros Hr Hkr Hocc. cbv zeta. destruct siblings_nodes as (N1 & I1 & K1 & N2 & I2 & K2).
  edestruct siblings_in as (_ & Ix & _); [exact Hsb|].
  rewrite Hkr in N2, K2. pose proof (node_sorted _ _ N2) as Hs2.
  assert (Hkc : key_lt k c.1).
  { apply StronglySorted_inv in Hs2 as [_ Hd]. apply Forall_inv in Hd. exact Hd. }
  assert (Hk : in_range (Some s) hi1 k) by (apply K2; by left).
  assert (Hlo : strictly lo1 c.1).
  { eapply above_strictly; [|exact Hkc]. eapply above_trans; [exact (sb_lo Hsb)|apply Hk]. }
  assert (Hhi : below hi1 c.1) by (apply K2; right; by left).
  assert (Hsort : sorted_cells fst (kvs1 ++ [(k, v)])).
  { apply sorted_app. split; [apply (node_sorted _ _ N1)|]. split; [repeat constructor|].
    intros z w Hz ->%list_elem_of_singleton. eapply key_lt_le_trans; [|apply Hk].
    apply (K1 z.1). apply list_elem_of_fmap. by exists z. }
  destruct (steal_right_leaf_ok _ _ kvs1 kr k v c N2 N1 Hsort Hocc) as (p & q & Es & Np & Nq & Mp & Mq).
  destruct (fetch_tree ∅ _ t a x Hr ltac:(simpl; lia) (Hgood x Ix)) as (ix & b1 & E1 & Hr1).
  set (L := [(x, ix); (y, iy); (pid, ip)]) in *.
  assert (Hlx : (x, ix) ∈ L) by set_solver. assert (Hlp : (pid, ip) ∈ L) by set_solver.
  pose proof (steal_and_separate (set_bp b1 t) x ix y iy steal_right_leaf p q _ _ _ _ c.1
    ltac:(by left) Hr1 Es Np Nq Mp Mq Hlo Hhi) as Hm. cbv zeta in Hm.
  assert (Em : borrow_right ip pid x y iy (zlen l) t = (let* new_sep := at_pages ix iy steal_right_leaf in
      do* replace_separator ip (zlen l) new_sep in
      do* unpin x true in do* unpin y true in unpin pid true) (set_bp b1 t)).
  { unfold borrow_right. mstep E1. mstep (make_node_tree _ _ (set_bp b1 t) a x ix kvs1 Hr1 Hlx N1).
    destruct (ask_separator L (set_bp b1 t) (zlen l) Hr1 Hlp) as [k2 Ek2]; [pose proof (zlen_nonneg l); lia|].
    mstep Ek2. rewrite slot_16. unfold bind at 1. rewrite (steal_leaf_eq L (set_bp b1 t) x ix iy kvs1 false Hr1 Hlx N1). done. }
  unfold fails in *. rewrite Em. exact Hm.
Qed.
End siblings.

(** ** The outcome *)

(** The tree has the same entries afterwards and its file the same pages, or
    there is no answer. *)
Definition outcome (yes : bool) (res : result bool * BTree F) a kvs : Prop :=
  if yes then exists t' a' n' pids', res = (Ok true, t') /\ tree_inv t' a' n' kvs pids' /\
    (3 <= a_cap a')%nat /\ a_num a' = a_num a
  else is_yes res.1 = false.

(** A neighbour that does not underflow, once its borrower is known: what would
    come next does not matter. *)
Lemma lend_outcome t b0 a n kvs pids pid ip j (cells : list kv) (borrow : Z -> M (BTree F) unit) (fits : bool)
    (k : M (BTree F) bool) :
  pool_rep ∅ [(pid, ip)] b0 a -> (3 <= a_cap a)%nat -> good a j -> node (a_page a j) cells ->
  underflow (a_page a j) = Ok false ->
  (2 <= zlen cells -> forall i b, pool_rep ∅ [(j, i); (pid, ip)] b a ->
    if fits then exists b' a', borrow i (set_bp b t) = (Ok tt, set_bp b' t) /\
      tree_inv (set_bp b' t) a' n kvs pids /\ a_cap a' = a_cap a /\ a_num a' = a_num a
    else fails (borrow i) (set_bp b t)) ->
  outcome ((2 <=? zlen cells) && fits) ((let* lent := lend j borrow in if lent then ret true else k) (set_bp b0 t)) a kvs.
Proof.
  intros Hr Hc Hg Hn Hu Hb. pose proof (lend_ok (set_bp b0 t) a pid ip j cells borrow Hr Hc Hg Hn) as Hl.
  rewrite Hu in Hl. destruct (Z.leb_spec 2 (zlen cells)) as [Hz|Hz].
  - destruct Hl as (i & b1 & E & Hr1). specialize (Hb Hz i b1 Hr1). cbn [andb]. destruct fits.
    + destruct Hb as (b' & a' & Eb & Hi & Hc' & Hn'). exists (set_bp b' t), a', n, pids.
      split; [|split; [exact Hi|split; [lia|exact Hn']]].
      assert (El : lend j borrow (set_bp b0 t) = (Ok true, set_bp b' t)) by (rewrite E; by mstep Eb). by mstep El.
    + apply (fails_bind _ (fun _ => ret true)) in Hb as Hf. 
      change (set_bp b1 t) with (set_bp b1 (set_bp b0 t)) in Hf. unfold fails in Hf. rewrite <- E in Hf.
      apply (fails_bind _ (fun lent : bool => if lent then ret true else k)) in Hf as [e Ee]. unfold outcome. by rewrite Ee.
  - apply (fails_bind _ (fun lent : bool => if lent then ret true else k)) in Hl as [e E]. unfold outcome. by rewrite E.
Qed.

Lemma moved_counts a a' pid l s r x y kx ky : moved a a' pid l s r x y kx ky -> a_cap a' = a_cap a /\ a_num a' = a_num a.
Proof. intros [[Hn _ _ Hc _] _ _ _ _ _ _]. split; [exact Hc|lia]. Qed.

Section lending.
Context t a n kvs pids pid l s r x y lo hi crumbs kb ka pb pa lo1 hi1 kvs1 kvs2 kbi kai pbi pai
  (Hsb : siblings a n (root_page_id_ t) kvs pids pid l s r x y lo hi crumbs kb ka pb pa lo1 hi1 kvs1 kvs2 kbi kai pbi pai)
  (Hi : tree_inv t a n kvs pids) (Hcap : (3 <= a_cap a)%nat).

Lemma lending_small : Forall kv_small kvs1 /\ Forall kv_small kvs2.
Proof.
  pose proof (ti_small _ _ _ _ _ Hi) as Hs. rewrite (sb_kvs Hsb), !Forall_app in Hs. tauto.
Qed.

Lemma borrowed_room c (cells : list kv) (j : Z) :
  kv_small c -> node (a_page a j) cells -> underflow (a_page a j) = Ok true ->
  occupied (c :: cells) <= NODE_USABLE_SIZE /\ occupied (cells ++ [c]) <= NODE_USABLE_SIZE.
Proof.
  intros Hc Hn Hu. pose proof (underflow_small _ _ Hn Hu) as Ho. destruct c as [k v].
  rewrite occupied_app, !occupied_cons, occupied_nil, zlen_enc_leaf. unfold kv_small in Hc. cbn [fst snd] in Hc.
  change NODE_USABLE_SIZE with 4040 in *. change (4040 / 2) with 2020 in Ho. lia.
Qed.

Definition lends_left : bool :=
  (2 <=? zlen kvs1) && match last kvs1 with Some c => separator_fits c.1 y (l ++ r) | None => false end.

Lemma lend_left_outcome ip b0 (k : M (BTree F) bool) :
  pool_rep ∅ [(pid, ip)] b0 a -> y <> pg_first (a_page a pid) -> underflow (a_page a y) = Ok true ->
  underflow (a_page a x) = Ok false ->
  outcome lends_left ((let* lent := lend x (fun left => borrow_left ip pid y x left (zlen l)) in
    if lent then ret true else k) (set_bp b0 t)) a kvs.
Proof.
  intros Hr Hfc Hu Hx. destruct lending_small as [S1 S2].
  edestruct siblings_in as (_ & Ix & _); [exact Hsb|]. edestruct siblings_nodes as (N1 & _ & K1 & N2 & _ & K2); [exact Hsb|].
  assert (Hgood : forall j, j ∈ pids -> good a j) by (intros j; apply (tr_good _ _ _ _ _ _ (ti_rep _ _ _ _ _ Hi))).
  apply (lend_outcome t b0 a n kvs pids pid ip x kvs1 _ _ k Hr Hcap (Hgood x Ix) N1 Hx). intros Hw ix b Hr1.
  destruct (last kvs1) as [[key v]|] eqn:Ek; [|apply last_None in Ek; rewrite Ek, zlen_nil in Hw; lia].
  apply last_Some in Ek as [kl Ek]. rewrite Ek, zlen_app, zlen_cons, zlen_nil in Hw. rewrite Ek in N1, K1, S1.
  assert (Hlo : strictly lo1 key).
  { destruct kl as [|[k0 v0] kl]; [rewrite zlen_nil in Hw; lia|].
    apply above_strictly with k0; [apply K1; by left|].
    pose proof (node_sorted _ _ N1) as [_ Hd]%StronglySorted_inv. rewrite Forall_forall in Hd.
    apply (Hd (key, v)). apply elem_of_app. right. by left. }
  apply Forall_app in S1 as [_ S1%Forall_inv]. destruct (borrowed_room (key, v) kvs2 y S1 N2 Hu) as [Ho _].
  pose proof (borrow_left_ok (set_bp b t) a n _ kvs pids pid l s r x y _ _ _ _ _ _ _ _ _ _ _ _ _ _ _ Hsb
    (tr_nodup _ _ _ _ _ (ti_rep _ _ _ _ _ Hi)) Hcap Hgood ip ix kl key v Hr1 Ek Hfc Hlo Ho) as Hm. cbv zeta in Hm.
  cbn [fst]. destruct (separator_fits key y (l ++ r)); [|exact Hm].
  destruct Hm as (b' & a' & E & Hr' & Hmv). exists b', a'. split; [exact E|]. split; [|by eapply moved_counts].
  assert (Hks : key_lt key s) by (apply (K1 key); rewrite fmap_app; apply elem_of_app; right; by left).
  assert (Hhi : below hi1 key) by (eapply below_trans; [exact (sb_hi Hsb)|by apply key_lt_asym]).
  eapply (siblings_update _ _ _ _ _ _ _ _ _ _ _ _ _ _ _ _ _ _ _ _ _ _ _ _ _ _ Hsb t b' a' key kl ((key, v) :: kvs2));
    [exact Hi|done|exact Hr'|exact Hmv|by rewrite Ek, <- app_assoc| | |exact Hlo|exact Hhi|by eapply kv_small_sep].
  - intros z Hz. split; [apply (K1 z); rewrite fmap_app; apply elem_of_app; by left|].
    pose proof (node_sorted _ _ N1) as (_ & _ & Hd)%sorted_app. apply list_elem_of_fmap in Hz as (w & -> & Hw').
    apply (Hd w (key, v)); [done|by left].
  - intros z [->|Hz]%elem_of_cons; [split; [apply key_lt_irrefl|exact Hhi]|].
    destruct (K2 z Hz) as [Hz1 Hz2]. split; [|exact Hz2]. eapply key_le_trans; [|exact Hz1]. by apply key_lt_asym.
Qed.

Definition lends_right : bool :=
  (2 <=? zlen kvs2) && match kvs2 with _ :: c :: _ => separator_fits c.1 y (l ++ r) | _ => false end.

Lemma lend_right_outcome ip b0 (k : M (BTree F) bool) :
  pool_rep ∅ [(pid, ip)] b0 a -> underflow (a_page a x) = Ok true -> underflow (a_page a y) = Ok false ->
  outcome lends_right ((let* lent := lend y (fun right => borrow_right ip pid x y right (zlen l)) in
    if lent then ret true else k) (set_bp b0 t)) a kvs.
Proof.
  intros Hr Hu Hy. destruct lending_small as [S1 S2].
  edestruct siblings_in as (_ & _ & Iy); [exact Hsb|]. edestruct siblings_nodes as (N1 & _ & K1 & N2 & _ & K2); [exact Hsb|].
  assert (Hgood : forall j, j ∈ pids -> good a j) by (intros j; apply (tr_good _ _ _ _ _ _ (ti_rep _ _ _ _ _ Hi))).
  apply (lend_outcome t b0 a n kvs pids pid ip y kvs2 _ _ k Hr Hcap (Hgood y Iy) N2 Hy). intros Hw iy b Hr1.
  assert (Ek : exists key v c kr, kvs2 = (key, v) :: c :: kr).
  { destruct kvs2 as [|[key v] [|c kr]]; [done..|]. by exists key, v, c, kr. }
  destruct Ek as (key & v & [c w] & kr & Ek). rewrite Ek in N2, K2, S2. pose proof (node_sorted _ _ N2) as Hs.
  apply Forall_cons in S2 as [Sk S2]. apply Forall_inv in S2. destruct (borrowed_room (key, v) kvs1 x Sk N1 Hu) as [_ Ho].
  pose proof (borrow_right_ok (set_bp b t) a n _ kvs pids pid l s r x y _ _ _ _ _ _ _ _ _ _ _ _ _ _ _ Hsb
    (tr_nodup _ _ _ _ _ (ti_rep _ _ _ _ _ Hi)) Hcap Hgood ip iy key v (c, w) kr Hr1 Ek Ho) as Hm. cbv zeta in Hm.
  rewrite Ek. cbn [fst] in *. destruct (separator_fits c y (l ++ r)); [|exact Hm].
  destruct Hm as (b' & a' & E & Hr' & Hmv). exists b', a'. split; [exact E|]. split; [|by eapply moved_counts].
  apply StronglySorted_inv in Hs as [Hs Hd]. pose proof (Forall_inv Hd) as Hkc. cbn [fst] in Hkc.
  assert (Hk : in_range (Some s) hi1 key) by (apply K2; by left).
  assert (Hc : in_range (Some s) hi1 c) by (apply K2; right; by left).
  eapply (siblings_update _ _ _ _ _ _ _ _ _ _ _ _ _ _ _ _ _ _ _ _ _ _ _ _ _ _ Hsb t b' a' c (kvs1 ++ [(key, v)]) ((c, w) :: kr));
    [exact Hi|done|exact Hr'|exact Hmv|by rewrite Ek, <- app_assoc| | | |apply Hc|by eapply kv_small_sep].
  - apply keys_in_app. split.
    + intros z Hz. destruct (K1 z Hz) as [Hz1 Hz2]. split; [exact Hz1|]. eapply key_lt_trans; [|exact Hkc].
      eapply key_lt_le_trans; [exact Hz2|apply Hk].
    + intros z ->%list_elem_of_singleton. split; [|exact Hkc]. eapply above_trans; [exact (sb_lo Hsb)|apply Hk].
  - intros z Hz. split; [|apply K2; by right]. apply elem_of_cons in Hz as [->|Hz]; [apply key_lt_irrefl|].
    apply StronglySorted_inv in Hs as [_ Hs]. rewrite Forall_forall in Hs.
    apply list_elem_of_fmap in Hz as (q & -> & Hq). apply key_lt_asym. exact (Hs q Hq).
  - eapply above_strictly; [|exact Hkc]. eapply above_trans; [exact (sb_lo Hsb)|apply Hk].
Qed.
End lending.
End steps.
