(* ===== verification/TreeMerge.v ===== *)
(** * Merging two leaves

    One leaf absorbs its right neighbour, whose page is freed: the entries of
    the tree stay the same.  The node above loses a separator; if it is the
    root and that was the last one, the leaf becomes the root. *)

From stdpp Require Import functions.
From S2P Require Import Prelude.
From S2P Require Import Buffers.
From S2P Require Import Page.
From S2P Require Import Node.
From S2P Require Import NodeSlots.
From S2P Require Import KeyOrder.
From S2P Require Import NodeCells.
From S2P Require Import NodeKinds.
From S2P Require Import NodeOps.
From S2P Require Import NodeInsert.
From S2P Require Import NodeSplit.
From S2P Require Import NodeMerge.
From S2P Require Import DiskManager.
From S2P Require Import FreeList.
From S2P Require Import BufferPool.
From S2P Require Import PoolSpec.
From S2P Require Import PoolOps.
From S2P Require Import BTree.
From S2P Require Import NodeSeparator.
From S2P Require Import Tree.
From S2P Require Import TreeNav.
From S2P Require Import TreeFrame.
From S2P Require Import TreeChain.
From S2P Require Import TreeSplit.
From S2P Require Import TreeHalves.
From S2P Require Import TreeParent.
From S2P Require Import TreeBorrow.
From S2P Require Import TreeLend.

(** ** The tree without the neighbour *)

Section pages.
Context {F : Type} `{ReliableFile F}.
Implicit Types (t : BTree F) (b : BufferPool F) (a : APool) (D : gset Z) (L : list (Z * Z)).

(** [x] has absorbed [y], and of the pages of the tree only [y] may be free. *)
Record absorbed a a' pid l r x y (kvs : list kv) : Prop := {
  ab_num : a_num a' = a_num a;
  ab_free : forall j, j ∈ a_free a' -> j ∈ a_free a \/ j = y;
  ab_root : a_root a' = a_root a;
  ab_same : forall j, j ∉ [pid; x; y] -> same_node (a_page a j) (a_page a' j);
  ab_node : node (a_page a' pid) (l ++ r : list (bytes * Z));
  ab_links : links (a_page a' pid) = links (a_page a pid);
  ab_left : node (a_page a' x) kvs;
  ab_id : pg_id (a_page a' x) = x;
  ab_right : pg_right (a_page a' x) = pg_right (a_page a y);
}.

Section siblings.
Context a n root kvs pids pid l s r x y lo hi crumbs kb ka pb pa lo1 hi1 kvs1 kvs2 kbi kai pbi pai
  (Hsb : siblings a n root kvs pids pid l s r x y lo hi crumbs kb ka pb pa lo1 hi1 kvs1 kvs2 kbi kai pbi pai).

Definition remaining : list Z := pb ++ (pid :: pbi ++ [x] ++ pai) ++ pa.

Lemma remaining_perm : pids ≡ₚ y :: remaining.
Proof. rewrite (sb_pids Hsb). unfold remaining. cbn [app]. solve_Permutation. Qed.

Lemma remaining_elem j : j ∈ pids <-> j = y \/ j ∈ remaining.
Proof. rewrite remaining_perm. apply elem_of_cons. Qed.

Lemma merged_keys : keys_in lo1 hi1 (kvs1 ++ kvs2) /\ sorted_cells fst (kvs1 ++ kvs2).
Proof.
  edestruct siblings_nodes as (N1 & _ & K1 & N2 & _ & K2); [exact Hsb|]. split.
  - apply keys_in_app. split; intros k Hk.
    + destruct (K1 k Hk) as [H1 H2]. split; [exact H1|]. eapply below_trans; [exact (sb_hi Hsb)|]. by apply key_lt_asym.
    + destruct (K2 k Hk) as [H1 H2]. split; [|exact H2]. eapply above_trans; [exact (sb_lo Hsb)|exact H1].
  - apply sorted_app. split; [apply (node_sorted _ _ N1)|]. split; [apply (node_sorted _ _ N2)|].
    intros u w Hu Hw. eapply key_lt_le_trans; [apply (K1 u.1), list_elem_of_fmap; by exists u|].
    apply (K2 w.1), list_elem_of_fmap. by exists w.
Qed.

(** The tree after the merge. *)
Lemma siblings_absorb t b' a' :
  tree_inv t a n kvs pids -> root = root_page_id_ t -> pool_rep ∅ [] b' a' ->
  absorbed a a' pid l r x y (kvs1 ++ kvs2) -> l ++ r <> [] ->
  tree_inv (set_bp b' t) a' n kvs remaining.
Proof.
  intros [Ht Hpages Hsmall] Hroot Hr [En Ef Er Hs Np Lp Nx Ix Rx] Hne.
  pose proof (tr_nodup _ _ _ _ _ Ht) as Hnd.
  edestruct siblings_apart as (Hout & Hpx & Hpy & Hxy); [exact Hsb|exact Hnd|].
  edestruct siblings_in as (Ip & Ixs & Iy); [exact Hsb|].
  edestruct siblings_nodes as (N1 & _ & _ & N2 & _ & _); [exact Hsb|]. pose proof merged_keys as [Hk _].
  pose proof Hsb as [Hx Hid Hn Hb _ _ Ha Hlo Hhi Ekvs Epids].
  pose proof (remaining_perm) as Hperm. rewrite Hperm in Hnd. apply NoDup_cons in Hnd as [Hny Hnd].
  assert (Hsame : forall j, j ∈ pb ++ pa ++ pbi ++ pai -> same_node (a_page a j) (a_page a' j)).
  { intros j Hj. apply Hs. by apply Hout. }
  assert (Hframe : forall d lo' hi' ks (ps : list Z), subtree (a_page a) 0 d lo' hi' ks ps ->
    (forall j, j ∈ ps -> j ∈ pb ++ pa ++ pbi ++ pai) -> subtree (a_page a') 0 d lo' hi' ks ps).
  { intros d lo' hi' ks ps Hd Hps. eapply subtree_frame; [exact Hd|]. intros j Hj. by apply Hsame, Hps. }
  split; [split; [exact Hr| |exact Hnd| |]| |exact Hsmall].
  - cbn [root_page_id_ set_bp]. rewrite <- Hroot, Ekvs. unfold remaining. eapply context_plug.
    { eapply context_frame; [exact Hx|]. intros j Hj. apply Hsame. rewrite app_assoc. by apply elem_of_app; left. }
    split; [by rewrite (links_id _ _ Lp)|]. exists (l ++ r). eexists. split; [done|]. split; [done|].
    assert (Hfc : pg_first (a_page a' pid) = pg_first (a_page a pid)) by (unfold links in Lp; by injection Lp).
    rewrite Hfc. eapply (forest_plug _ hi _ lo l x lo1 hi1).
    + eapply before_mono; [|exact Hb]. intros d l' h' ks ps Hd Hps. apply Hframe; [done|].
      intros j Hj. rewrite !elem_of_app. right. right. left. by apply Hps.
    + split; [exact Ix|]. split; [exact Nx|]. by split.
    + destruct r as [|[k c] r0]; [exact Ha|]. destruct Ha as (E1 & [_ E2] & Hf). split; [exact E1|].
      split; [split; [|exact E2]; eapply above_trans; [exact Hlo|]; apply key_lt_asym; rewrite E1 in Hhi; exact Hhi|].
      eapply forest_mono; [|exact Hf]. intros d l' h' ks ps Hd Hps. apply Hframe; [done|].
      intros j Hj. rewrite !elem_of_app. right. right. right. by apply Hps.
  - intros j Hj. destruct (tr_pids _ _ _ _ _ Ht j) as [Hj1 Hj2]; [apply remaining_elem; by right|].
    rewrite En. split; [done|]. intros [?| ->]%Ef; done.
  - rewrite Er. apply (tr_root _ _ _ _ _ Ht).
  - destruct Hpages as [Hp Hc]. assert (Hdec : forall j, j ∈ remaining -> j = pid \/ j = x \/ j ∈ pb ++ pa ++ pbi ++ pai).
    { intros j. unfold remaining. cbn [app]. rewrite !elem_of_app, !elem_of_cons, !elem_of_app, !elem_of_cons, ?elem_of_app. tauto. }
    destruct (page_ok_internal _ _ (Hp pid Ip) Hn) as [_ Hss].
    assert (Hpid : page_ok (a_page a' pid) /\ same_link (a_page a pid) (a_page a' pid)).
    { apply (rewritten_ok _ _ _ _ Hn Lp Np Hne). rewrite Forall_app, Forall_cons in Hss. rewrite Forall_app. tauto. }
    split.
    + intros j [->|[->|Hj]]%Hdec; [apply Hpid|left; by eexists|]. eapply page_ok_same; [by apply Hsame|].
      apply Hp, remaining_elem. right. revert Hj. unfold remaining. cbn [app].
      rewrite !elem_of_app, !elem_of_cons, !elem_of_app, !elem_of_cons. tauto.
    + replace remaining with ((pb ++ pid :: pbi) ++ x :: pai ++ pa) by (unfold remaining; by simplify_list_eq).
      apply (leaf_chain_merge (a_page a) (a_page a') _ x y); [apply N1|apply Nx|apply N2| |exact Rx|].
      * intros j. rewrite !elem_of_app, elem_of_cons. intros [[Hj|[->|Hj]]|Hj]; [|apply Hpid|..];
          apply same_node_link, Hsame; rewrite !elem_of_app; tauto.
      * rewrite Epids in Hc. by simplify_list_eq.
Qed.
End siblings.
End pages.
