(* ===== verification/TreeAbsorb.v ===== *)
(** * The operations that merge

    [merge_pages] and what follows it in [merge_right] and [merge_left], on two
    neighbouring leaves. *)

From stdpp Require Import functions.
From S2P Require Import Prelude.
From S2P Require Import Buffers.
From S2P Require Import Page.
From S2P Require Import Node.
From S2P Require Import NodeSlots.
From S2P Require Import KeyOrder.
From S2P Require Import NodeCells.
From S2P Require Import NodeKinds.
From S2P Require Import NodeOps.
From S2P Require Import NodeInsert.
From S2P Require Import NodeSplit.
From S2P Require Import NodeMerge.
From S2P Require Import DiskManager.
From S2P Require Import FreeList.
From S2P Require Import BufferPool.
From S2P Require Import PoolSpec.
From S2P Require Import PoolOps.
From S2P Require Import BTree.
From S2P Require Import NodeSeparator.
From S2P Require Import Tree.
From S2P Require Import TreeNav.
From S2P Require Import TreeFrame.
From S2P Require Import TreeChain.
From S2P Require Import TreeSplit.
From S2P Require Import TreeHalves.
From S2P Require Import TreeParent.
From S2P Require Import TreeBorrow.
From S2P Require Import TreeLend.
From S2P Require Import TreeMerge.

Section steps.
Context {F : Type} `{ReliableFile F}.
Implicit Types (t : BTree F) (b : BufferPool F) (a : APool) (D : gset Z) (L : list (Z * Z)).

(** ** Pages that are not pinned any more *)

(** The pointer to a page in the pool can be read. *)
Lemma ask_cached {A} D L t a j i (q : Page -> result A) :
  pool_rep D L (bp_ t) a -> page_table_ (bp_ t) !! j = Some i -> ask i q t = (q (a_page a j), t).
Proof.
  intros Hr Hp. destruct (cached_lookup D (bp_ t) j i (pr_inv _ _ _ _ Hr) Hp) as (f & C & Hpg & _ & Hrange & _).
  rewrite (pr_num _ _ _ _ Hr) in Hrange. pose proof (pr_page _ _ _ _ Hr j Hrange) as Hj.
  unfold ask, at_page. rewrite (on_bp_eq _ t (bp_ t) _ (on_page_query _ i f q _ (c_frame _ _ _ _ _ C) eq_refl)).
  by rewrite set_bp_same, <- Hj, Hpg.
Qed.

(** [unpin] leaves the page where it is. *)
Lemma unpin_stays D L L' t a j i :
  pool_rep D L (bp_ t) a -> L ≡ₚ (j, i) :: L' ->
  exists b', unpin j true t = (Ok tt, set_bp b' t) /\ pool_rep (D ∖ {[j]}) L' b' a /\
    page_table_ b' = page_table_ (bp_ t).
Proof.
  intros Hr HL. destruct (unpin_ok D L L' (bp_ t) a j i true Hr HL) as (b' & E & Hr' & Hp); [done|].
  exists b'. split; [by apply on_bp_eq|done].
Qed.

(** ** [merge_pages] *)

(** The left link of the next leaf. *)
Lemma relink_next D L t a x ix (cells : list kv) rs :
  pool_rep D L (bp_ t) a -> (x, ix) ∈ L -> (length L < a_cap a)%nat -> node (a_page a x) cells -> is_page_id x ->
  pg_right (a_page a x) = rs -> rs = INVALID_PAGE_ID \/ (node_in a rs /\ rs <> x) ->
  exists b' a',
    (if negb (rs =? INVALID_PAGE_ID) then
       let* rrs := fetch rs in
       do* make_node rrs in
       do* at_page rrs (set_left_sibling x) in
       let* rs' := ask ix right_sibling in
       unpin rs' true
     else ret tt) t = (Ok tt, set_bp b' t) /\
    pool_rep D L b' a' /\ evolves [] 0 a a' /\ forall j, j <> rs -> a_page a' j = a_page a j.
Proof.
  intros Hr Hin Hc Hn Hx Hrs Hnext. destruct (Z.eqb_spec rs INVALID_PAGE_ID) as [Ers|Hne]; cbn [negb].
  - exists (bp_ t), a. rewrite set_bp_same. split_and!; [done|done|apply evolves_refl|done].
  - destruct Hnext as [?|[[Hg Hrn] Hrx]]; [done|]. destruct (fetch_tree D L t a rs Hr Hc Hg) as (i & b1 & E1 & Hr1).
    assert (Hri : (rs, i) ∈ (rs, i) :: L) by by left. assert (Hxi : (x, ix) ∈ (rs, i) :: L) by by right.
    destruct (relinks_left x Hx _ Hrn) as (p' & Em & Hs).
    assert (Hid : pg_id p' = rs) by (rewrite (sn_id _ _ Hs); apply Hg).
    pose proof (is_node_length p' (same_node_is_node _ _ Hs Hrn)) as Hz.
    destruct (at_page_tree D _ (set_bp b1 t) a rs i _ (Ok tt) p' Hr1 Hri Em Hid Hz) as (b2 & E2 & Hr2).
    destruct (unpin_tree _ _ L (set_bp b2 (set_bp b1 t)) _ rs i true Hr2) as (b3 & E3 & Hr3); [done..|].
    exists b3, (a_set_page rs p' a). split; [|split; [|split]].
    + mstep E1. assert (Ec : make_node i (set_bp b1 t) = (Ok tt, set_bp b1 t)).
      { destruct Hrn as [[cs Hn']|[cs Hn']]; by apply (make_node_tree D _ (set_bp b1 t) a rs i cs Hr1 Hri). }
      mstep Ec. mstep E2.
      assert (Er : ask ix right_sibling (set_bp b2 (set_bp b1 t)) = (Ok rs, set_bp b2 (set_bp b1 t))).
      { eapply ask_tree; [exact Hr2|exact Hxi|]. cbn [a_page a_set_page]. rewrite fn_lookup_insert_ne by done.
        by rewrite (right_sibling_ok _ (holds_length _ _ (node_holds _ _ Hn))), Hrs. }
      mstep Er. exact E3.
    + eapply pool_rep_dirty; [exact Hr3|apply undirty|]. intros k Hk. by apply (rep_dirty_pinned D L (bp_ t) a).
    + by apply evolves_same_page.
    + intros j Hj. cbn [a_page a_set_page]. by rewrite fn_lookup_insert_ne.
Qed.

Section siblings.
Context t0 a n kvs pids pid l s r x y lo hi crumbs kb ka pb pa lo1 hi1 kvs1 kvs2 kbi kai pbi pai
  (Hsb : siblings a n (root_page_id_ t0) kvs pids pid l s r x y lo hi crumbs kb ka pb pa lo1 hi1 kvs1 kvs2 kbi kai pbi pai)
  (Hi : tree_inv t0 a n kvs pids) (Hcap : (5 <= a_cap a)%nat)
  (Hocc : occupied kvs1 + occupied kvs2 <= NODE_USABLE_SIZE).

(** The leaf after the two. *)
Lemma next_leaf : pg_right (a_page a y) = INVALID_PAGE_ID \/
  (pg_right (a_page a y) ∈ pids /\ is_leaf_page (a_page a (pg_right (a_page a y))) /\
   pg_right (a_page a y) <> x /\ pg_right (a_page a y) <> y).
Proof.
  edestruct siblings_nodes as (N1 & _ & _ & N2 & _ & _); [exact Hsb|]. pose proof (proj2 (ti_pages _ _ _ _ _ Hi)) as Hc.
  pose proof (tr_nodup _ _ _ _ _ (ti_rep _ _ _ _ _ Hi)) as Hnd.
  assert (Ep : pids = (pb ++ pid :: pbi) ++ x :: y :: pai ++ pa) by (rewrite (sb_pids Hsb); by simplify_list_eq).
  rewrite Ep in Hnd. replace pids with (((pb ++ pid :: pbi) ++ [x]) ++ y :: pai ++ pa) in Hc by (rewrite Ep; by simplify_list_eq).
  rewrite (leaf_chain_right _ _ _ _ (node_type _ _ N2) Hc).
  destruct (leaves (a_page a) (pai ++ pa)) as [|k ks] eqn:E; [by left|right]. cbn [hd].
  assert (Hk : k ∈ leaves (a_page a) (pai ++ pa)) by (rewrite E; by left). apply leaves_elem in Hk as [Hl Hk].
  split; [rewrite Ep, !elem_of_app, !elem_of_cons; tauto|]. split; [exact Hl|].
  apply NoDup_app in Hnd as (_ & _ & Hnd). apply NoDup_cons in Hnd as [Hx Hnd]. apply NoDup_cons in Hnd as [Hy _].
  rewrite elem_of_cons in Hx. split; intros ->; tauto.
Qed.

Lemma next_node a1 : evolves [x; y] 0 a a1 ->
  (pg_right (a_page a y) = INVALID_PAGE_ID \/ (node_in a1 (pg_right (a_page a y)) /\ pg_right (a_page a y) <> x)) /\
  pid <> pg_right (a_page a y).
Proof.
  intros He. split.
  - destruct next_leaf as [?|(Hin & _ & Hrx & Hry)]; [by left|right]. split; [|exact Hrx].
    eapply node_in_evolves; [exact He|by apply not_two|]. pose proof (ti_rep _ _ _ _ _ Hi) as Ht.
    eapply subtree_node_in; [apply (tr_tree _ _ _ _ _ Ht)|by apply (tr_pids _ _ _ _ _ Ht)|exact Hin].
  - intros E. destruct next_leaf as [Ei|(_ & Hl & _)].
    + edestruct siblings_in as (Hp & _ & _); [exact Hsb|]. pose proof (tr_pids _ _ _ _ _ (ti_rep _ _ _ _ _ Hi) pid Hp) as [Hpos _].
      rewrite E, Ei in Hpos. unfold INVALID_PAGE_ID in Hpos. lia.
    + rewrite <- E in Hl. unfold is_leaf_page in Hl. by rewrite (node_type _ _ (sb_node Hsb)) in Hl.
Qed.

Lemma merge_pages_ok t ip ix iy q :
  pool_rep ∅ [(y, iy); (x, ix); (pid, ip)] (bp_ t) a -> remove_cell (zlen l) (a_page a pid) = (Ok tt, q) ->
  exists b' a', merge_pages ip x y (zlen l) ix iy t = (Ok tt, set_bp b' t) /\
    pool_rep {[pid; x; y]} [(y, iy); (x, ix); (pid, ip)] b' a' /\ evolves [pid; x] 0 a a' /\
    a_page a' pid = q /\ node q (l ++ r) /\ links q = links (a_page a pid) /\
    node (a_page a' x) (kvs1 ++ kvs2) /\ pg_id (a_page a' x) = x /\
    pg_right (a_page a' x) = pg_right (a_page a y).
Proof.
  intros Hr Eq. edestruct siblings_nodes as (N1 & I1 & _ & N2 & I2 & _); [exact Hsb|].
  edestruct merged_keys as [_ Hsort]; [exact Hsb|].
  edestruct siblings_apart as (Hout & Hpx & Hpy & Hxy); [exact Hsb|exact (tr_nodup _ _ _ _ _ (ti_rep _ _ _ _ _ Hi))|].
  pose proof (sb_node Hsb) as Np. pose proof (sb_id Hsb) as Ip.
  set (L := [(y, iy); (x, ix); (pid, ip)]) in *.
  assert (HLy : (y, iy) ∈ L) by set_solver. assert (HLx : (x, ix) ∈ L) by set_solver. assert (HLp : (pid, ip) ∈ L) by set_solver.
  assert (Hk : key_at (zlen l) (a_page a pid) = Ok s).
  { apply (key_at_holds _ _ (node_holds _ _ Np) (length l) (s, y)). by rewrite list_lookup_middle. }
  destruct (merge_leaf_ok _ _ kvs1 kvs2 N1 N2 Hsort Hocc) as (p' & Em & Np' & Mp).
  assert (Hid' : pg_id p' = x) by (unfold meta in Mp; congruence).
  assert (Hrt' : pg_right p' = pg_right (a_page a y)) by (unfold meta in Mp; congruence).
  assert (Hr0 : pool_rep {[pid; x; y]} L (bp_ t) a).
  { apply pool_rep_pinned; [exact Hr|]. intros j. rewrite !elem_of_union, !elem_of_singleton.
    intros [[->| ->]| ->]; [exists ip|exists ix|exists iy]; done. }
  destruct (write_nodes {[pid; x; y]} L t a x ix y iy merge_leaf (Ok tt) p' (a_page a y) (kvs1 ++ kvs2) kvs2 Hr0)
    as (b1 & a1 & E1 & Hr1 & He1 & Px & Py & Pj); [set_solver|set_solver|done|done|done|exact Em|exact Np'|exact N2|exact Hid'|exact I2|].
  set (t1 := set_bp b1 t) in *. set (rs := pg_right (a_page a y)) in *.
  rewrite <- Px in Np', Hid', Hrt'. pose proof (holds_length _ _ (node_holds _ _ Np')) as Lx.
  destruct (next_node a1 He1) as [Hnext Hrp]. fold rs in Hnext, Hrp.
  assert (Hpgx : is_page_id x) by (rewrite <- Hid'; apply is_page_id_pg_id).
  destruct (relink_next {[pid; x; y]} L t1 a1 x ix (kvs1 ++ kvs2) rs Hr1 HLx) as (b2 & a2 & E2 & Hr2 & He2 & Pj2);
    [rewrite (ev_cap _ _ _ _ He1); simpl; lia|exact Np'|exact Hpgx|exact Hrt'|exact Hnext|].
  assert (Ppid : a_page a2 pid = a_page a pid) by (rewrite Pj2 by done; by apply Pj).
  destruct (node_remove _ _ (length l) Np) as (q' & Eq' & Nq & _ & Mq); [by apply lookup_lt_is_Some_1; rewrite list_lookup_middle|].
  change (Z.of_nat (length l)) with (zlen l) in Eq'. assert (q' = q) as -> by congruence. rewrite delete_middle in Nq.
  rewrite <- Ppid in Eq.
  destruct (at_page_dirty {[pid; x; y]} L (set_bp b2 t1) a2 pid ip _ (Ok tt) q Hr2 ltac:(set_solver) HLp Eq)
    as (b3 & E3 & Hr3); [unfold meta in Mq; congruence|apply (holds_length _ _ (node_holds _ _ Nq))|].
  assert (Sx : same_node (a_page a1 x) (a_page a2 x)) by (apply (ev_same _ _ _ _ He2); apply not_elem_of_nil).
  exists b3, (a_set_page pid q a2). split; [|split; [exact Hr3|]].
  - unfold merge_pages. mstep (ask_tree _ L t a pid ip _ _ Hr HLp Hk). unfold merge_from. rewrite bind_assoc.
    assert (Eleaf : ask ix is_leaf t = (Ok true, t)).
    { eapply ask_tree; [exact Hr|exact HLx|]. rewrite (is_leaf_ok _ (holds_length _ _ (node_holds _ _ N1))), (node_type _ _ N1).
      by rewrite bool_decide_eq_true_2. }
    mstep Eleaf. mstep E1.
    assert (Eleaf1 : ask ix is_leaf t1 = (Ok true, t1)).
    { eapply ask_tree; [exact Hr1|exact HLx|]. rewrite (is_leaf_ok _ Lx), (node_type _ _ Np'). by rewrite bool_decide_eq_true_2. }
    mstep Eleaf1. mstep (ask_tree _ L t1 a1 x ix right_sibling _ Hr1 HLx (right_sibling_ok _ Lx)).
    rewrite Hrt'. cbn [andb]. mstep E2. exact E3.
  - cbn [a_page a_set_page]. rewrite fn_lookup_insert, fn_lookup_insert_ne by done.
    split_and!; [|done|exact Nq|by apply meta_links|by apply (sn_leaf _ _ Sx)|by rewrite (sn_id _ _ Sx)|by rewrite (sn_right _ _ Sx)].
    assert (Hey : evolves [pid; x] 0 a a1).
    { destruct He1 as [V1 V2 V3 V4 V5]. split; try done. intros j Hj. destruct (decide (j = y)) as [->|Hjy]; [by rewrite Py|].
      apply V5. set_solver. }
    apply (evolves_trans _ 0 0 _ a1); [exact Hey|]. apply (evolves_trans _ 0 0 _ a2).
    + eapply evolves_weaken; [|reflexivity|exact He2]. by intros ? ?%not_elem_of_nil.
    + apply evolves_set_page. by left.
Qed.

(** ** The page of the neighbour is freed *)

(** The root of a tree is above everything else. *)
Lemma context_root V height root h c lo' hi' cr kb' ka' pb' pa' :
  context V height root h c lo' hi' cr kb' ka' pb' pa' -> cr <> [] -> root ∈ pb'.
Proof.
  induction 1 as [|h' pid' lo0 hi0 cr0 kb0 ka0 pb0 pa0 l0 r0 c0 lo2 hi2 kb2 ka2 pb2 pa2 Hx IH]; [done|].
  intros _. rewrite elem_of_app, elem_of_cons. destruct cr0; [inversion Hx; subst; tauto|left; by apply IH].
Qed.

Lemma free_length b b' D D' L L' a1 :
  pool_rep D L b a -> pool_rep D' L' b' a1 -> (forall j, j ∈ a_free a1 -> j ∈ a_free a) ->
  zlen (a_free a1) <= zlen (a_free a).
Proof.
  intros Hr Hr1 Hsub. pose proof (NoDup_submseteq _ _ (pr_nodup _ _ _ _ Hr1) Hsub) as Hs.
  apply submseteq_length in Hs. unfold zlen. lia.
Qed.

(** What [merge_pages] leaves, once the two leaves are unpinned and the right
    one is deleted. *)
Lemma delete_right t ip ix iy a1 :
  pool_rep {[pid; x; y]} [(y, iy); (x, ix); (pid, ip)] (bp_ t) a1 -> evolves [pid; x] 0 a a1 ->
  node (a_page a1 pid) (l ++ r) -> links (a_page a1 pid) = links (a_page a pid) ->
  node (a_page a1 x) (kvs1 ++ kvs2) -> pg_id (a_page a1 x) = x ->
  pg_right (a_page a1 x) = pg_right (a_page a y) -> zlen (a_free a) + 2 <= MAX_FREE_PAGES ->
  exists b2 a2, (do* unpin x true in do* unpin y true in on_bp (delete_page y)) t = (Ok tt, set_bp b2 t) /\
    pool_rep {[pid]} [(pid, ip)] b2 a2 /\ absorbed a a2 pid l r x y (kvs1 ++ kvs2) /\
    a_page a2 pid = a_page a1 pid /\ (pred (a_cap a) <= a_cap a2)%nat /\ zlen (a_free a2) < MAX_FREE_PAGES.
Proof.
  intros Hr He Np Lp Nx Ix Rx Hfree. pose proof (ti_rep _ _ _ _ _ Hi) as Ht.
  edestruct siblings_apart as (Hout & Hpx & Hpy & Hxy); [exact Hsb|exact (tr_nodup _ _ _ _ _ Ht)|].
  edestruct siblings_in as (Ip & Ixs & Iy); [exact Hsb|].
  pose proof (free_length _ _ _ _ _ _ a1 (tr_pool _ _ _ _ _ Ht) Hr (ev_free _ _ _ _ He)) as Hlen.
  destruct (unpin_stays _ _ [(y, iy); (pid, ip)] t a1 x ix Hr) as (b1 & E1 & Hr1 & _); [by apply Permutation_swap|].
  destruct (unpin_stays _ _ [(pid, ip)] (set_bp b1 t) a1 y iy Hr1) as (b2 & E2 & Hr2 & _); [done|].
  destruct (tr_pids _ _ _ _ _ Ht y Iy) as [Hy1 Hy2].
  destruct (in_use_evolves _ _ _ _ y He) as [Hy3 Hy4]; [done|].
  destruct (delete_page_ok _ _ b2 a1 y Hr2) as (p & b3 & E3 & Hr3); [set_solver|done|done|lia|].
  replace ((({[pid; x; y]} : gset Z) ∖ {[x]}) ∖ {[y]}) with ({[pid]} : gset Z) in Hr3 by set_solver.
  set (a2 := mkAPool _ _ _ _ _) in Hr3. exists b3, a2. split; [|split; [exact Hr3|]].
  - mstep E1. mstep E2. by apply (on_bp_eq _ (set_bp b2 (set_bp b1 t))).
  - assert (Hpage : forall j, j <> y -> a_page a2 j = a_page a1 j) by (intros j Hj; simpl; by rewrite fn_lookup_insert_ne).
    split; [|split; [by apply Hpage|split]].
    + pose proof (ev_num _ _ _ _ He). split.
      * simpl. lia.
      * intros j [Hj|Hj%list_elem_of_singleton]%elem_of_app; [left; by apply (ev_free _ _ _ _ He)|by right].
      * apply (ev_root _ _ _ _ He).
      * intros j Hj. rewrite Hpage by set_solver. apply (ev_same _ _ _ _ He). set_solver.
      * by rewrite Hpage.
      * by rewrite Hpage.
      * by rewrite Hpage.
      * by rewrite Hpage.
      * by rewrite Hpage.
    + simpl. rewrite (ev_cap _ _ _ _ He). destruct (page_table_ b2 !! y); lia.
    + simpl. rewrite zlen_app, zlen_cons, zlen_nil. lia.
Qed.

(** ** The node above *)

(** The two leaves were the tree. *)
Lemma only_two : pid = root_page_id_ t0 -> l ++ r = [] ->
  kvs = kvs1 ++ kvs2 /\ pids = [pid; x; y].
Proof.
  intros Hroot [Hl Hr]%app_eq_nil. pose proof (sb_ctx Hsb) as Hx.
  pose proof (tr_nodup _ _ _ _ _ (ti_rep _ _ _ _ _ Hi)) as Hnd.
  assert (Hc : crumbs = []).
  { destruct (decide (crumbs = [])) as [|Hne]; [done|]. exfalso.
    pose proof (context_root _ _ _ _ _ _ _ _ _ _ _ _ Hx Hne) as Hin. rewrite <- Hroot in Hin.
    rewrite (sb_pids Hsb) in Hnd. apply NoDup_app in Hnd as (_ & Hd & _). apply (Hd _ Hin).
    cbn [app]. by left. }
  pose proof (sb_before Hsb) as Hb. pose proof (sb_after Hsb) as Ha. rewrite (sb_kvs Hsb), (sb_pids Hsb).
  rewrite Hl in Hb. rewrite Hr in Ha. rewrite Hc in Hx. clear - Hb Ha Hx. destruct Ha as (_ & -> & ->).
  inversion Hb; subst. inversion Hx; subst. by rewrite !app_nil_r.
Qed.

Lemma collapse_root b a2 :
  pool_rep ∅ [] b a2 -> absorbed a a2 pid l r x y (kvs1 ++ kvs2) -> pid = root_page_id_ t0 -> l ++ r = [] ->
  (1 <= a_cap a2)%nat -> zlen (a_free a2) < MAX_FREE_PAGES ->
  exists t' a', (do* update_node x (set_parent_id INVALID_PAGE_ID) in
      do* on_bp (delete_page pid) in
      do* modifyS (set_root x) in persist_root) (set_bp b t0) = (Ok tt, t') /\
    tree_inv t' a' 0 kvs [x] /\ (pred (a_cap a2) <= a_cap a')%nat /\ a_num a' = a_num a.
Proof.
  intros Hr Hab Hroot Hnil Hc2 Hfree. destruct (only_two Hroot Hnil) as [Ek Ep]. pose proof (ti_rep _ _ _ _ _ Hi) as Ht.
  edestruct siblings_apart as (_ & Hpx & Hpy & Hxy); [exact Hsb|exact (tr_nodup _ _ _ _ _ Ht)|].
  assert (Hin : x ∈ pids /\ pid ∈ pids) by (rewrite Ep; set_solver). destruct Hin as [Hx Hp].
  pose proof Hab as [En Ef Er _ _ _ Nx Ix Rx].
  assert (Hlive : forall j, j ∈ pids -> j <> y -> 0 < j < a_num a2 /\ j ∉ a_free a2).
  { intros j Hj Hjy. destruct (tr_pids _ _ _ _ _ Ht j Hj) as [H1 H2]. rewrite En. split; [done|]. by intros [?|?]%Ef. }
  destruct (Hlive x Hx Hxy) as [Hx1 Hx2]. destruct (Hlive pid Hp Hpy) as [Hp1 Hp2].
  assert (Hnx : node_in a2 x) by (split; [by split|left; by eexists]).
  destruct (update_node_ok ∅ [] (set_bp b t0) a2 x (set_parent_id INVALID_PAGE_ID) Hr Hc2 Hnx) as (b1 & a3 & E1 & Hr1 & He);
    [apply relinks_parent; by vm_compute|].
  destruct (in_use_evolves _ _ _ _ pid He) as [Hp3 Hp4]; [done|]. destruct (in_use_evolves _ _ _ _ x He) as [Hx3 Hx4]; [done|].
  pose proof (NoDup_submseteq _ _ (pr_nodup _ _ _ _ Hr1) (ev_free _ _ _ _ He)) as Hlen. apply submseteq_length in Hlen.
  destruct (delete_page_ok ∅ [] b1 a3 pid Hr1) as (p & b2 & E2 & Hr2); [apply not_elem_of_nil|done|done|unfold zlen in *; lia|].
  set (a4 := mkAPool _ _ _ _ _) in Hr2.
  assert (Hpx' : is_page_id x) by (rewrite <- Ix; apply is_page_id_pg_id).
  destruct (set_root_tree (set_bp b2 (set_bp b1 (set_bp b t0))) a4 x Hr2 Hpx') as (b3 & E3 & Hr3).
  assert (Px : same_node (a_page a2 x) (a_page a4 x)).
  { simpl. rewrite fn_lookup_insert_ne by done. apply (ev_same _ _ _ _ He). apply not_elem_of_nil. }
  assert (Nx4 : node (a_page a4 x) (kvs1 ++ kvs2)) by by apply (sn_leaf _ _ Px).
  eexists _, (a_set_root x a4). split; [|split; [split|split]].
  - mstep E1. rewrite (bind_ok _ _ _ _ _ (on_bp_eq _ (set_bp b1 (set_bp b t0)) _ _ E2)). exact E3.
  - split; [exact Hr3| |by apply NoDup_singleton| |done].
    + split; [exact (eq_trans (sn_id _ _ Px) Ix)|]. rewrite Ek. split; [exact Nx4|]. by split.
    + intros j ->%list_elem_of_singleton. simpl. split; [exact Hx3|]. rewrite elem_of_app. intros [?|?%list_elem_of_singleton]; [done|].
      congruence.
  - cbn [a_page a_set_root]. split; [intros j ->%list_elem_of_singleton; left; by eexists|].
    apply leaf_chain_single; [apply (node_type _ _ Nx4)|]. rewrite (sn_right _ _ Px), Rx.
    destruct next_leaf as [?|(Hin & Hl & H1 & H2)]; [done|exfalso]. rewrite Ep in Hin.
    apply elem_of_cons in Hin as [Hin|Hin]; [|set_solver]. rewrite Hin in Hl. unfold is_leaf_page in Hl.
    by rewrite (node_type _ _ (sb_node Hsb)) in Hl.
  - apply (ti_small _ _ _ _ _ Hi).
  - simpl. rewrite (ev_cap _ _ _ _ He). destruct (page_table_ b1 !! pid); lia.
  - simpl. pose proof (ev_num _ _ _ _ He). lia.
Qed.

(** After the merge: the parent is left alone, or goes. *)
Lemma after_merge_ok fix_parent b a2 ip low :
  pool_rep {[pid]} [(pid, ip)] b a2 -> absorbed a a2 pid l r x y (kvs1 ++ kvs2) ->
  underflow (a_page a2 pid) = Ok low -> (4 <= a_cap a2)%nat -> zlen (a_free a2) < MAX_FREE_PAGES ->
  pid = root_page_id_ t0 \/ (low = false /\ l ++ r <> []) ->
  exists t' a' n' pids', after_merge fix_parent ip pid x (set_bp b t0) = (Ok tt, t') /\
    tree_inv t' a' n' kvs pids' /\ (3 <= a_cap a')%nat /\ a_num a' = a_num a.
Proof.
  intros Hr Hab Hu Hc2 Hfree Hor. assert (Hin : (pid, ip) ∈ [(pid, ip)]) by by left.
  destruct (unpin_stays _ _ [] (set_bp b t0) a2 pid ip Hr) as (b1 & E1 & Hr1 & Htab); [done|].
  replace (({[pid]} : gset Z) ∖ {[pid]}) with (∅ : gset Z) in Hr1 by set_solver.
  assert (Hp : page_table_ b1 !! pid = Some ip) by (rewrite Htab; apply (pr_ptr _ _ _ _ Hr pid ip Hin)).
  pose proof (ab_node _ _ _ _ _ _ _ _ Hab) as Np. pose proof (holds_length _ _ (node_holds _ _ Np)) as Lp.
  assert (Hfix : low && negb (pid =? root_page_id_ t0) = false).
  { destruct Hor as [Hroot|[-> _]]; [|done]. rewrite (proj2 (Z.eqb_eq _ _) Hroot). apply andb_false_r. }
  assert (En : ask ip num_keys (set_bp b1 t0) = (Ok (zlen (l ++ r)), set_bp b1 t0)).
  { rewrite (ask_cached ∅ [] (set_bp b1 t0) a2 pid ip num_keys Hr1 Hp).
    by rewrite (num_keys_ok _ Lp), (holds_num _ _ (node_holds _ _ Np)). }
  assert (Eq : after_merge fix_parent ip pid x (set_bp b t0) =
    (if (zlen (l ++ r) =? 0) && (pid =? root_page_id_ t0) then
       do* update_node x (set_parent_id INVALID_PAGE_ID) in
       do* on_bp (delete_page pid) in
       do* modifyS (set_root x) in persist_root
     else ret tt) (set_bp b1 t0)).
  { unfold after_merge. rewrite (bind_ok _ _ _ (set_bp b t0) (set_bp b t0)) by done. cbn [root_page_id_ set_bp].
    mstep (ask_tree _ _ (set_bp b t0) a2 pid ip underflow _ Hr Hin Hu). cbv zeta. mstep E1. rewrite Hfix. by mstep En. }
  rewrite Eq. destruct (decide (l ++ r = [])) as [Hnil|Hne].
  - destruct Hor as [Hroot|[_ ?]]; [|done]. rewrite Hnil, zlen_nil, (proj2 (Z.eqb_eq _ _) Hroot). cbn [andb].
    destruct (collapse_root b1 a2 Hr1 Hab Hroot Hnil ltac:(lia) Hfree) as (t' & a' & E & Hi' & Hc' & Hn').
    exists t', a', 0%nat, [x]. split; [exact E|]. split; [exact Hi'|]. split; [lia|exact Hn'].
  - assert (Hz : (zlen (l ++ r) =? 0) = false).
    { destruct (l ++ r) as [|c cs]; [done|]. rewrite zlen_cons. pose proof (zlen_nonneg cs). apply Z.eqb_neq. lia. }
    rewrite Hz. cbn [andb]. exists (set_bp b1 t0), a2, n. eexists. split; [done|].
    split; [by eapply siblings_absorb|]. split; [lia|apply (ab_num _ _ _ _ _ _ _ _ Hab)].
Qed.
End siblings.
End steps.
