(* ===== verification/TreeFix.v ===== *)
(** * What [fix_underflow] settles

    [settles] is [fix_underflow] of a leaf, as far as the tree keeps its entries
    and the node above is not to be fixed in its turn: an entry is borrowed
    from the left neighbour, or, for a first child, from the right one; the
    first child merges with its right neighbour, the last one with its left
    neighbour.  A child in the middle that finds no entry on its left is left
    out: what the code does there is wrong. *)

From stdpp Require Import functions.
From S2P Require Import Prelude.
From S2P Require Import Buffers.
From S2P Require Import Page.
From S2P Require Import Node.
From S2P Require Import NodeSlots.
From S2P Require Import KeyOrder.
From S2P Require Import NodeCells.
From S2P Require Import NodeKinds.
From S2P Require Import NodeOps.
From S2P Require Import NodeInsert.
From S2P Require Import NodeSplit.
From S2P Require Import NodeMerge.
From S2P Require Import DiskManager.
From S2P Require Import FreeList.
From S2P Require Import BufferPool.
From S2P Require Import PoolSpec.
From S2P Require Import PoolOps.
From S2P Require Import BTree.
From S2P Require Import NodeSeparator.
From S2P Require Import Tree.
From S2P Require Import TreeNav.
From S2P Require Import TreeFrame.
From S2P Require Import TreeChain.
From S2P Require Import TreeSplit.
From S2P Require Import TreeHalves.
From S2P Require Import TreeParent.
From S2P Require Import TreeBorrow.
From S2P Require Import TreeLend.
From S2P Require Import TreeMerge.
From S2P Require Import TreeAbsorb.

Section defs.
Context {F : Type} `{PosixFile F}.

(** A merge that takes the separator in [slot] ends there: the parent is the
    root, or it keeps a separator and is half full.  The free list has room for
    two pages and, since [delete_page] loses their frames, the pool can spare
    two. *)
Definition may_merge (parent parent_id slot : Z) : M (BTree F) unit :=
  let* low := ask parent (fun p => let '(r, p') := remove_cell slot p in let? _ := r in underflow p') in
  let* n := ask parent num_keys in
  let* t := getS in
  do* assert_ ((parent_id =? root_page_id_ t) || (negb low && (2 <=? n))) in
  do* assert_ (zlen (free_pages_ (pool_fl (bp_ t))) + 2 <=? MAX_FREE_PAGES) in
  assert_ (5 <=? Z.of_nat (cap (bp_ t))).

(** The parent would underflow. *)
Definition no_fix : M (BTree F) unit := throw AssertionFailure.

(** With the parent pinned and the neighbours known. *)
Definition settle (parent parent_id page_id : Z) (sibs : Z * Z * Z) : M (BTree F) bool :=
  let sep_slot := sibs.1.1 in
  let left_sib := sibs.1.2 in
  let right_sib := sibs.2 in
  if left_sib =? INVALID_PAGE_ID then
    let* lent := lend right_sib (fun right => borrow_right parent parent_id page_id right_sib right sep_slot) in
    if lent then ret true
    else if right_sib =? INVALID_PAGE_ID then ret false
    else
      do* may_merge parent parent_id sep_slot in
      do* merge_right no_fix parent parent_id page_id right_sib sep_slot in
      ret true
  else
    let* lent := lend left_sib (fun left => borrow_left parent parent_id page_id left_sib left sep_slot) in
    if lent then ret true
    else if right_sib =? INVALID_PAGE_ID then
      do* may_merge parent parent_id sep_slot in
      do* merge_left no_fix parent parent_id page_id left_sib in
      ret true
    else ret false.

Definition settles (page_id : Z) (breadcrumbs : list Z) : M (BTree F) bool :=
  match breadcrumbs with
  | [] => ret false
  | parent_id :: _ =>
      let* parent := fetch parent_id in
      do* make_node parent in
      let* sibs := ask parent (find_siblings page_id) in
      do* assert_ (0 <=? sibs.1.1) in
      settle parent parent_id page_id sibs
  end.

(** ** [settles] and [fix_underflow] *)

Lemma may_merge_inv parent parent_id slot t v t' : may_merge parent parent_id slot t = (Ok v, t') -> t' = t.
Proof.
  unfold may_merge. intros (low & t1 & E1 & (n & t2 & E2 & (s & t3 & E3 & E)%bind_inv)%bind_inv)%bind_inv.
  pose proof (ask_same parent (fun p => let '(r, p') := remove_cell slot p in let? _ := r in underflow p') t) as S1.
  rewrite E1 in S1. simpl in S1. subst t1.
  pose proof (ask_same parent num_keys t) as S2. rewrite E2 in S2. simpl in S2. subst t2.
  injection E3 as <- <-. apply bind_inv in E as (u1 & t4 & E4 & (u2 & t5 & E5 & E6)%bind_inv).
  apply assert_inv in E4 as [_ ->]. apply assert_inv in E5 as [_ ->]. by apply assert_inv in E6 as [_ ->].
Qed.

(** A run that ends is the same whatever comes after the end. *)
Lemma bind_same {A B} (m : M (BTree F) A) (k k' : A -> M (BTree F) B) t v t' :
  (forall x t1, k x t1 = (Ok v, t') -> k' x t1 = (Ok v, t')) ->
  bind m k t = (Ok v, t') -> bind m k' t = (Ok v, t').
Proof. intros Hk (x & t1 & E & E')%bind_inv. mstep E. by apply Hk. Qed.

Lemma after_merge_same fix_parent parent parent_id kept t t' :
  after_merge no_fix parent parent_id kept t = (Ok tt, t') -> after_merge fix_parent parent parent_id kept t = (Ok tt, t').
Proof.
  unfold after_merge. apply bind_same. intros s t1. apply bind_same. intros low t2. apply bind_same. intros u t3.
  by destruct (low && negb (parent_id =? root_page_id_ s)).
Qed.

Lemma merge_right_same fix_parent parent parent_id page_id right_sib slot t t' :
  merge_right no_fix parent parent_id page_id right_sib slot t = (Ok tt, t') ->
  merge_right fix_parent parent parent_id page_id right_sib slot t = (Ok tt, t').
Proof. unfold merge_right. do 7 (apply bind_same; intros ? ?). apply after_merge_same. Qed.

Lemma merge_left_same fix_parent parent parent_id page_id left_sib t t' :
  merge_left no_fix parent parent_id page_id left_sib t = (Ok tt, t') ->
  merge_left fix_parent parent parent_id page_id left_sib t = (Ok tt, t').
Proof. unfold merge_left. do 8 (apply bind_same; intros ? ?). apply after_merge_same. Qed.

(** No neighbour, nothing to borrow. *)
Lemma try_borrow_none sib (borrow : Z -> M (BTree F) unit) t :
  (sib =? INVALID_PAGE_ID) = true -> try_borrow sib borrow t = (Ok false, t).
Proof. intros E. unfold try_borrow. by rewrite E. Qed.

(** [settles] is [fix_underflow] where it says so. *)
Lemma settles_fix page_id breadcrumbs t t' :
  settles page_id breadcrumbs t = (Ok true, t') -> fix_underflow page_id breadcrumbs t = (Ok tt, t').
Proof.
  destruct breadcrumbs as [|parent_id breadcrumbs]; [done|]. unfold settles.
  intros (ptr & t1 & E1 & (u & t2 & E2 & (sibs & t3 & E3 & (v & t4 & E4 & E)%bind_inv)%bind_inv)%bind_inv)%bind_inv.
  cbn [fix_underflow]. mstep E1. mstep E2. mstep E3. mstep E4. unfold settle in E.
  destruct (sibs.1.2 =? INVALID_PAGE_ID) eqn:El; apply bind_inv in E as ([] & t5 & E5 & E).
  - injection E as ->. mstep (try_borrow_none _ (fun left => borrow_left ptr parent_id page_id sibs.1.2 left sibs.1.1) t4 El).
    by mstep (lend_try _ _ _ _ E5).
  - mstep (try_borrow_none _ (fun left => borrow_left ptr parent_id page_id sibs.1.2 left sibs.1.1) t4 El).
    mstep (lend_refuses _ _ (fun right => borrow_right ptr parent_id page_id sibs.2 right sibs.1.1) _ _ E5).
    destruct (sibs.2 =? INVALID_PAGE_ID); [done|]. cbn [negb].
    apply bind_inv in E as (u1 & t6 & E6%may_merge_inv & ([] & t7 & E7 & E8)%bind_inv). subst t6.
    injection E8 as ->. by apply merge_right_same.
  - injection E as ->. by mstep (lend_try _ _ _ _ E5).
  - mstep (lend_refuses _ _ (fun left => borrow_left ptr parent_id page_id sibs.1.2 left sibs.1.1) _ _ E5).
    destruct (sibs.2 =? INVALID_PAGE_ID) eqn:Er; [|done].
    mstep (try_borrow_none _ (fun right => borrow_right ptr parent_id page_id sibs.2 right sibs.1.1) t5 Er). cbn [negb].
    apply bind_inv in E as (u1 & t6 & E6%may_merge_inv & ([] & t7 & E7 & E8)%bind_inv). subst t6.
    injection E8 as ->. by apply merge_left_same.
Qed.
End defs.

(** ** Merging *)

Section steps.
Context {F : Type} `{ReliableFile F}.
Implicit Types (t : BTree F) (b : BufferPool F) (a : APool) (L : list (Z * Z)).

(** [may_merge], as the pages have it. *)
Definition merges a (pid slot : Z) : bool :=
  let parent := a_page a pid in
  ((pid =? a_root a) || (negb (is_yes (underflow (remove_cell slot parent).2)) && (2 <=? pg_num parent))) &&
  (zlen (a_free a) + 2 <=? MAX_FREE_PAGES) && (5 <=? Z.of_nat (a_cap a)).

Lemma merges_inv a pid slot : merges a pid slot = true ->
  (pid = a_root a \/ (is_yes (underflow (remove_cell slot (a_page a pid)).2) = false /\ 2 <= pg_num (a_page a pid))) /\
  zlen (a_free a) + 2 <= MAX_FREE_PAGES /\ (5 <= a_cap a)%nat.
Proof.
  unfold merges. intros [[Hor Hf%Z.leb_le]%andb_true_iff Hc%Z.leb_le]%andb_true_iff. split; [|lia].
  apply orb_true_iff in Hor as [Hr%Z.eqb_eq|[Hl%negb_true_iff Hn%Z.leb_le]%andb_true_iff]; [by left|by right].
Qed.

Lemma may_merge_ok L t a pid ip l s y r q low :
  pool_rep ∅ L (bp_ t) a -> (pid, ip) ∈ L -> node (a_page a pid) (l ++ (s, y) :: r) -> root_page_id_ t = a_root a ->
  remove_cell (zlen l) (a_page a pid) = (Ok tt, q) -> underflow q = Ok low ->
  may_merge ip pid (zlen l) t = (if merges a pid (zlen l) then Ok tt else Err AssertionFailure, t).
Proof.
  intros Hr Hin Hn Hroot Eq Eu. unfold may_merge, merges. cbv zeta.
  assert (El : ask ip (fun p => let '(r, p') := remove_cell (zlen l) p in let? _ := r in underflow p') t = (Ok low, t))
    by (eapply ask_tree; [exact Hr|exact Hin|]; cbn beta; by rewrite Eq).
  mstep El. rewrite Eq. cbn [snd]. rewrite Eu. cbn [is_yes].
  mstep (ask_tree ∅ L t a pid ip num_keys _ Hr Hin (num_keys_ok _ (holds_length _ _ (node_holds _ _ Hn)))).
  rewrite (bind_ok _ _ t t t) by done. rewrite Hroot, (pr_list _ _ _ _ Hr), (pr_cap _ _ _ _ Hr).
  destruct ((pid =? a_root a) || _); [|done]. rewrite bind_assert by done. cbn [andb].
  destruct (zlen (a_free a) + 2 <=? MAX_FREE_PAGES); [|done]. rewrite bind_assert by done. cbn [andb].
  by destruct (5 <=? Z.of_nat (a_cap a)).
Qed.

Lemma fetch_two_ok L t a j1 j2 :
  pool_rep ∅ L (bp_ t) a -> (S (length L) < a_cap a)%nat -> good a j1 -> good a j2 ->
  exists i1 i2 b', fetch_two j1 j2 t = (Ok (i1, i2), set_bp b' t) /\ pool_rep ∅ ((j2, i2) :: (j1, i1) :: L) b' a.
Proof.
  intros Hr Hc (P1 & F1 & I1) (P2 & F2 & I2).
  destruct (fetch_ok ∅ L (bp_ t) a j1 Hr ltac:(lia) P1 F1 I1) as (i1 & b1 & E1 & Hr1).
  destruct (fetch_ok ∅ _ b1 a j2 Hr1 ltac:(simpl; lia) P2 F2 I2) as (i2 & b2 & E2 & Hr2).
  exists i1, i2, b2. split; [|exact Hr2]. unfold fetch_two. rewrite (bind_on_bp _ _ t b1 _ E1).
  by rewrite (bind_on_bp _ _ (set_bp b1 t) b2 _ E2).
Qed.

Section siblings.
Context t0 a n kvs pids pid l s r x y lo hi crumbs kb ka pb pa lo1 hi1 kvs1 kvs2 kbi kai pbi pai
  (Hsb : siblings a n (root_page_id_ t0) kvs pids pid l s r x y lo hi crumbs kb ka pb pa lo1 hi1 kvs1 kvs2 kbi kai pbi pai)
  (Hi : tree_inv t0 a n kvs pids).

(** The separator is taken out of the parent. *)
Lemma separator_out : exists q, remove_cell (zlen l) (a_page a pid) = (Ok tt, q) /\ node q (l ++ r) /\
  exists low, underflow q = Ok low.
Proof.
  destruct (node_remove _ _ (length l) (sb_node Hsb)) as (q & E & N & _); [apply lookup_lt_is_Some_1; by rewrite list_lookup_middle|].
  exists q. split; [exact E|]. rewrite delete_middle in N. split; [exact N|]. eexists. by apply (underflow_holds _ _ N).
Qed.

(** The children on the left of the separator. *)
Lemma left_children : (y <> pg_first (a_page a pid)) /\ (y ∉ l.*2) /\ (pg_first (a_page a pid) = x -> l = []).
Proof.
  edestruct siblings_apart as (Hout & _ & _ & Hxy); [exact Hsb|exact (tr_nodup _ _ _ _ _ (ti_rep _ _ _ _ _ Hi))|].
  assert (Hb : forall j, j ∈ pbi -> j <> x /\ j <> y).
  { intros j Hj. assert (Hn : j ∉ [pid; x; y]) by (apply Hout; rewrite !elem_of_app; tauto). set_solver. }
  assert (Hfar : y ∉ pg_first (a_page a pid) :: l.*2).
  { intros He. eapply before_children in He as [He|He]; [| |intros; by eapply subtree_root|exact (sb_before Hsb)];
      [by destruct (Hb y He)|congruence]. }
  apply not_elem_of_cons in Hfar as [Hfc Hl]. split; [exact Hfc|]. split; [exact Hl|]. intros Efc.
  pose proof (sb_before Hsb) as Hbe. rewrite Efc in Hbe. clear - Hbe Hb.
  inversion Hbe as [|? ? ? ? ? ? ? ? ps ? ? _ Hc _]; [done|]. subst. exfalso. apply subtree_root in Hc.
  destruct (Hb x) as [? _]; [apply elem_of_app; by left|done].
Qed.

Lemma left_sep_slot_ok : left_sep_slot x y (a_page a pid) = Ok (zlen l).
Proof.
  destruct left_children as (Hfc & Hl & Hnil). pose proof (sb_node Hsb) as Np.
  pose proof (holds_length _ _ (node_holds _ _ Np)) as Lp. destruct (num_16 _ _ _ _ _ Np) as [Hnum H16].
  unfold left_sep_slot. rewrite (result_bind_ok _ _ _ (first_child_ok _ Lp)). destruct (Z.eqb_spec (pg_first (a_page a pid)) x) as [E|E].
  - by rewrite (Hnil E).
  - rewrite (result_bind_ok _ _ _ (num_keys_ok _ Lp)), Hnum.
    rewrite (result_bind_ok _ _ (Some (zlen l))); [done|].
    pose proof (zlen_nonneg r). apply (find_slot_ok _ _ _ _ _ Np (length l) 0); [lia|done|unfold zlen in *; lia].
Qed.

Context (Hx : underflow (a_page a x) = Ok true) (Hy : underflow (a_page a y) = Ok true).

(** What both merges do with the two leaves in the pool. *)
Lemma merge_two fix_parent b ip ix iy :
  pool_rep ∅ [(y, iy); (x, ix); (pid, ip)] b a -> merges a pid (zlen l) = true ->
  exists t' a' n' pids',
    (do* merge_pages ip x y (zlen l) ix iy in
     do* unpin x true in
     do* unpin y true in
     do* on_bp (delete_page y) in
     after_merge fix_parent ip pid x) (set_bp b t0) = (Ok tt, t') /\
    tree_inv t' a' n' kvs pids' /\ (3 <= a_cap a')%nat /\ a_num a' = a_num a.
Proof.
  intros Hr (Hor & Hfree & Hcap)%merges_inv. destruct separator_out as (q & Eq & Nq & low & Eu).
  edestruct siblings_nodes as (N1 & _ & _ & N2 & _ & _); [exact Hsb|].
  pose proof (underflow_small _ _ N1 Hx) as O1. pose proof (underflow_small _ _ N2 Hy) as O2.
  assert (Hocc : occupied kvs1 + occupied kvs2 <= NODE_USABLE_SIZE)
    by (change NODE_USABLE_SIZE with 4040; change (NODE_USABLE_SIZE / 2) with 2020 in O1, O2; lia).
  edestruct merge_pages_ok with (t := set_bp b t0) as (b1 & a1 & E1 & Hr1 & He & Pq & Nq' & Lq & Nx & Ix & Rx);
    [exact Hsb|exact Hi|exact Hcap|exact Hocc|exact Hr|exact Eq|]. rewrite <- Pq in Nq, Lq, Eu.
  edestruct delete_right with (t := set_bp b1 t0) as (b2 & a2 & E2 & Hr2 & Hab & Pp & Hc2 & Hf2);
    [exact Hsb|exact Hi|exact Hcap|exact Hocc|exact Hr1|exact He|exact Nq|exact Lq|exact Nx|exact Ix|exact Rx|exact Hfree|].
  rewrite <- Pp in Eu. edestruct after_merge_ok with (fix_parent := fix_parent) as (t' & a' & n' & pids' & E3 & Hrest);
    [exact Hsb|exact Hi|exact Hcap|exact Hocc|exact Hr2|exact Hab|exact Eu|lia|exact Hf2| |].
  - rewrite <- (tr_root _ _ _ _ _ (ti_rep _ _ _ _ _ Hi)). destruct Hor as [?|[Hl Hn]]; [by left|right].
    rewrite Eq in Hl. cbn [snd] in Hl. rewrite <- Pq, <- Pp, Eu in Hl. split; [exact Hl|].
    destruct (num_16 _ _ _ _ _ (sb_node Hsb)) as [Hnum _]. intros [Hl0 Hr0]%app_eq_nil. rewrite Hl0, Hr0, !zlen_nil in Hnum. lia.
  - exists t', a', n', pids'. split; [|exact Hrest]. mstep E1.
    apply bind_inv in E2 as (u1 & s1 & F1 & (u2 & s2 & F2 & F3)%bind_inv). mstep F1. mstep F2. mstep F3. exact E3.
Qed.

Lemma merges_small : merges a pid (zlen l) = false -> forall L b ip (m : M (BTree F) unit),
  pool_rep ∅ L b a -> (pid, ip) ∈ L -> outcome false ((do* may_merge ip pid (zlen l) in do* m in ret true) (set_bp b t0)) a kvs.
Proof.
  intros Hm L b ip m Hr Hin. destruct separator_out as (q & Eq & _ & low & Eu).
  pose proof (may_merge_ok L (set_bp b t0) a pid ip l s y r q low Hr Hin (sb_node Hsb)
    (eq_sym (tr_root _ _ _ _ _ (ti_rep _ _ _ _ _ Hi))) Eq Eu) as E. rewrite Hm in E. unfold outcome.
  by rewrite (bind_err _ _ _ _ _ E).
Qed.

(** A merge, whichever of the two asked for it. *)
Lemma merge_outcome b ip (m : M (BTree F) unit) :
  pool_rep ∅ [(pid, ip)] b a ->
  (forall ix iy b', fetch_two x y (set_bp b t0) = (Ok (ix, iy), set_bp b' t0) ->
    pool_rep ∅ [(y, iy); (x, ix); (pid, ip)] b' a ->
    m (set_bp b t0) = (do* merge_pages ip x y (zlen l) ix iy in
      do* unpin x true in
      do* unpin y true in
      do* on_bp (delete_page y) in
      after_merge no_fix ip pid x) (set_bp b' t0)) ->
  outcome (merges a pid (zlen l)) ((do* may_merge ip pid (zlen l) in do* m in ret true) (set_bp b t0)) a kvs.
Proof.
  intros Hr Hm. assert (Hin : (pid, ip) ∈ [(pid, ip)]) by by left.
  destruct (merges a pid (zlen l)) eqn:Em; [|by apply (merges_small Em [(pid, ip)])].
  destruct separator_out as (q & Eq & _ & low & Eu).
  pose proof (may_merge_ok _ (set_bp b t0) a pid ip l s y r q low Hr Hin (sb_node Hsb)
    (eq_sym (tr_root _ _ _ _ _ (ti_rep _ _ _ _ _ Hi))) Eq Eu) as E. rewrite Em in E.
  edestruct siblings_in as (_ & Ix & Iy); [exact Hsb|]. pose proof (merges_inv _ _ _ Em) as (_ & _ & Hc).
  destruct (fetch_two_ok [(pid, ip)] (set_bp b t0) a x y Hr ltac:(simpl; lia)
    (tr_good _ _ _ _ _ _ (ti_rep _ _ _ _ _ Hi) Ix) (tr_good _ _ _ _ _ _ (ti_rep _ _ _ _ _ Hi) Iy)) as (ix & iy & b' & E2 & Hr2).
  destruct (merge_two no_fix b' ip ix iy Hr2 Em) as (t' & a' & n' & pids' & E3 & Hrest).
  exists t', a', n', pids'. split; [|exact Hrest]. mstep E. rewrite <- (Hm ix iy b' E2 Hr2) in E3. by mstep E3.
Qed.

Lemma merge_left_outcome b ip :
  pool_rep ∅ [(pid, ip)] b a ->
  outcome (merges a pid (zlen l))
    ((do* may_merge ip pid (zlen l) in do* merge_left no_fix ip pid y x in ret true) (set_bp b t0)) a kvs.
Proof.
  intros Hr. apply merge_outcome; [exact Hr|]. intros ix iy b' E Hr'.
  edestruct siblings_nodes as (N1 & _ & _ & N2 & _ & _); [exact Hsb|]. unfold merge_left. mstep E. cbn [fst snd].
  mstep (make_node_tree ∅ _ (set_bp b' t0) a x ix kvs1 Hr' ltac:(set_solver) N1).
  mstep (make_node_tree ∅ _ (set_bp b' t0) a y iy kvs2 Hr' ltac:(set_solver) N2).
  by mstep (ask_tree ∅ _ (set_bp b' t0) a pid ip (left_sep_slot x y) _ Hr' ltac:(set_solver) left_sep_slot_ok).
Qed.

Lemma merge_right_outcome b ip :
  pool_rep ∅ [(pid, ip)] b a ->
  outcome (merges a pid (zlen l))
    ((do* may_merge ip pid (zlen l) in do* merge_right no_fix ip pid x y (zlen l) in ret true) (set_bp b t0)) a kvs.
Proof.
  intros Hr. apply merge_outcome; [exact Hr|]. intros ix iy b' E Hr'.
  edestruct siblings_nodes as (N1 & _ & _ & N2 & _ & _); [exact Hsb|]. unfold merge_right. mstep E. cbn [fst snd].
  mstep (make_node_tree ∅ _ (set_bp b' t0) a x ix kvs1 Hr' ltac:(set_solver) N1).
  mstep (make_node_tree ∅ _ (set_bp b' t0) a y iy kvs2 Hr' ltac:(set_solver) N2).
  destruct (num_16 _ _ _ _ _ (sb_node Hsb)) as [Hnum H16]. pose proof (zlen_nonneg l). pose proof (zlen_nonneg r).
  by rewrite wrap16_small by lia.
Qed.
End siblings.

(** ** The leaf that underflows *)

Section leaf.
Context t a n kvs pids pid l s r x y lo hi crumbs kb ka pb pa lo1 hi1 kvs1 kvs2 kbi kai pbi pai
  (Hsb : siblings a n (root_page_id_ t) kvs pids pid l s r x y lo hi crumbs kb ka pb pa lo1 hi1 kvs1 kvs2 kbi kai pbi pai)
  (Hi : tree_inv t a n kvs pids) (Hcap : (3 <= a_cap a)%nat).

(** Up to the neighbours. *)
Lemma settles_prefix leaf sibs :
  leaf ∈ pids -> find_siblings leaf (a_page a pid) = Ok sibs -> 0 <= sibs.1.1 ->
  exists ip b, pool_rep ∅ [(pid, ip)] b a /\
    settles leaf (pid :: crumbs) t = settle ip pid leaf sibs (set_bp b t).
Proof.
  intros Hleaf Es Hs. edestruct siblings_in as (Ip & _ & _); [exact Hsb|]. pose proof (ti_rep _ _ _ _ _ Hi) as Ht.
  destruct (fetch_tree ∅ [] t a pid (tr_pool _ _ _ _ _ Ht) ltac:(simpl; lia) (tr_good _ _ _ _ _ _ Ht Ip)) as (ip & b & E & Hr).
  assert (Hin : (pid, ip) ∈ [(pid, ip)]) by by left. exists ip, b. split; [exact Hr|]. unfold settles. mstep E.
  mstep (make_node_tree _ _ (set_bp b t) a pid ip _ Hr Hin (sb_node Hsb)).
  mstep (ask_tree _ _ (set_bp b t) a pid ip (find_siblings leaf) _ Hr Hin Es).
  by rewrite bind_assert by by apply Z.leb_le.
Qed.

(** A page that underflows does not lend. *)
Lemma no_lender L b j (cells : list kv) ip (borrow : Z -> M (BTree F) unit) :
  L = [(pid, ip)] -> pool_rep ∅ L b a -> j ∈ pids -> node (a_page a j) cells -> underflow (a_page a j) = Ok true ->
  exists b', lend j borrow (set_bp b t) = (Ok false, set_bp b' t) /\ pool_rep ∅ L b' a.
Proof.
  intros -> Hr Hj Hn Hu. pose proof (lend_ok (set_bp b t) a pid ip j cells borrow Hr Hcap
    (tr_good _ _ _ _ _ _ (ti_rep _ _ _ _ _ Hi) Hj) Hn) as Hl. by rewrite Hu in Hl.
Qed.

Lemma real_page j : j ∈ pids -> (j =? INVALID_PAGE_ID) = false.
Proof.
  intros Hj. destruct (tr_pids _ _ _ _ _ (ti_rep _ _ _ _ _ Hi) j Hj). apply Z.eqb_neq. unfold INVALID_PAGE_ID. lia.
Qed.

Lemma right_end : (right_child r =? INVALID_PAGE_ID) = bool_decide (r = []).
Proof.
  pose proof (sb_after Hsb) as Ha. destruct r as [|[k c] r0] eqn:Er; [done|]. rewrite bool_decide_eq_false_2 by done.
  destruct Ha as (_ & _ & Hf). apply real_page. cbn. apply forest_head in Hf as (? & ks & ps & ? & ? & Hc%subtree_root & _ & _ & Ep).
  rewrite (sb_pids Hsb), Ep. set_solver.
Qed.

(** A leaf with a left neighbour. *)
Lemma settles_left : underflow (a_page a y) = Ok true ->
  outcome (if is_yes (underflow (a_page a x)) then bool_decide (r = []) && merges a pid (zlen l)
    else lends_left l r y kvs1) (settles y (pid :: crumbs) t) a kvs.
Proof.
  intros Hu. edestruct siblings_in as (_ & Ix & Iy); [exact Hsb|]. edestruct left_children as (Hfc & Hl & _); [exact Hsb|exact Hi|].
  edestruct siblings_nodes as (N1 & _); [exact Hsb|].
  destruct (settles_prefix y _ Iy (find_siblings_ok _ _ _ _ _ (sb_node Hsb) Hfc Hl) (zlen_nonneg l)) as (ip & b & Hr & E).
  rewrite E. unfold settle. cbn [fst snd]. rewrite <- (before_end _ _ _ _ _ _ _ _ _ (sb_before Hsb)), (real_page x Ix).
  pose proof (underflow_holds _ _ N1) as Ex. destruct (Z.ltb _ (NODE_USABLE_SIZE / 2)); rewrite Ex; cbn [is_yes].
  - destruct (no_lender _ b x kvs1 ip (fun left => borrow_left ip pid y x left (zlen l)) eq_refl Hr Ix N1 Ex) as (b1 & E1 & Hr1).
    mstep E1. rewrite right_end. case_bool_decide; [|done].
    by eapply merge_left_outcome.
  - eapply lend_left_outcome; [exact Hsb|exact Hi|exact Hcap|exact Hr|exact Hfc|exact Hu|exact Ex].
Qed.

(** A first child. *)
Lemma settles_right : l = [] -> underflow (a_page a x) = Ok true ->
  outcome (if is_yes (underflow (a_page a y)) then merges a pid (zlen l)
    else lends_right l r y kvs2) (settles x (pid :: crumbs) t) a kvs.
Proof.
  intros Hl Hu. edestruct siblings_in as (_ & Ix & Iy); [exact Hsb|]. edestruct siblings_nodes as (_ & _ & _ & N2 & _); [exact Hsb|].
  pose proof (before_end _ _ _ _ _ _ _ _ _ (sb_before Hsb)) as Ex. unfold left_child in Ex. rewrite Hl in Ex. cbn in Ex.
  pose proof (find_siblings_first _ _ _ _ _ (sb_node Hsb) Hl) as Es. rewrite <- Ex in Es.
  replace 0 with (zlen l) in Es by by rewrite Hl.
  destruct (settles_prefix x _ Ix Es (zlen_nonneg l)) as (ip & b & Hr & E).
  rewrite E. unfold settle. cbn [fst snd]. rewrite Z.eqb_refl, (real_page y Iy).
  pose proof (underflow_holds _ _ N2) as Ey. destruct (Z.ltb _ (NODE_USABLE_SIZE / 2)); rewrite Ey; cbn [is_yes].
  - destruct (no_lender _ b y kvs2 ip (fun right => borrow_right ip pid x y right (zlen l)) eq_refl Hr Iy N2 Ey) as (b1 & E1 & Hr1).
    mstep E1. by eapply merge_right_outcome.
  - eapply lend_right_outcome; [exact Hsb|exact Hi|exact Hcap|exact Hr|exact Hu|exact Ey].
Qed.
End leaf.

(** What [settles] does depends on the pages alone. *)
Lemma settles_ok t0 a n kvs pids leaf path lo hi kb ka pb pa lcells :
  tree_inv t0 a n kvs pids -> (3 <= a_cap a)%nat ->
  context (a_page a) n (root_page_id_ t0) 0 leaf lo hi path kb ka pb pa ->
  subtree (a_page a) 0 leaf lo hi lcells [leaf] -> kvs = kb ++ lcells ++ ka -> pids = pb ++ leaf :: pa ->
  underflow (a_page a leaf) = Ok true ->
  exists yes, forall t, tree_inv t a n kvs pids -> outcome yes (settles leaf path t) a kvs.
Proof.
  intros Hi Hc Hx Hl Hkvs Hpids Hu. destruct path as [|pid crumbs]; [by exists false|].
  destruct (leaf_siblings _ _ _ _ _ _ _ _ _ _ _ _ _ _ _ Hi Hx Hl Hkvs Hpids)
    as (l & s & r & x & y & lo0 & hi0 & kb0 & ka0 & pb0 & pa0 & lo1 & hi1 & kvs1 & kvs2 & kbi & kai & pbi & pai & Hsb & Hleaf).
  assert (Hroot : forall t, tree_inv t a n kvs pids -> root_page_id_ t = root_page_id_ t0).
  { intros t Ht. rewrite <- (tr_root _ _ _ _ _ (ti_rep _ _ _ _ _ Ht)). apply (tr_root _ _ _ _ _ (ti_rep _ _ _ _ _ Hi)). }
  destruct Hleaf as [->|[-> Hnil]]; eexists; intros t Ht; rewrite <- (Hroot t Ht) in Hsb.
  - by eapply settles_left.
  - by eapply settles_right.
Qed.
End steps.
