(* ===== verification/TreeInsert.v ===== *)
(** * Insertion into any tree

    [insert] of an entry of at most a quarter of a page succeeds on every tree
    that has pages left, whatever has to be split, and inserts it into the map
    of the entries. *)

From stdpp Require Import functions.
From S2P Require Import Prelude.
From S2P Require Import Buffers.
From S2P Require Import Page.
From S2P Require Import Node.
From S2P Require Import NodeSlots.
From S2P Require Import KeyOrder.
From S2P Require Import NodeCells.
From S2P Require Import NodeKinds.
From S2P Require Import NodeOps.
From S2P Require Import NodeInsert.
From S2P Require Import NodeSplit.
From S2P Require Import DiskManager.
From S2P Require Import FreeList.
From S2P Require Import BufferPool.
From S2P Require Import PoolSpec.
From S2P Require Import PoolOps.
From S2P Require Import BTree.
From S2P Require Import Tree.
From S2P Require Import TreeNav.
From S2P Require Import TreeFrame.
From S2P Require Import TreeChain.
From S2P Require Import TreeSplit.
From S2P Require Import TreeOps.
From S2P Require Import TreeUpdate.

From S2P Require Import TreeHalves.
From S2P Require Import TreeParent.

Section insert.
Context {F : Type} `{ReliableFile F}.
Implicit Types (t : BTree F) (b : BufferPool F) (a : APool) (D : gset Z) (L : list (Z * Z)).

(** The retried insertion succeeds in either half. *)
Lemma insert_in_half D L t a j i nid i' (cells : list kv) r c key value :
  pool_rep D L (bp_ t) a -> j ∈ D -> (j, i) ∈ L -> nid ∈ D -> (nid, i') ∈ L -> j <> nid ->
  sorted_cells fst cells -> Forall kv_small cells -> kv_small (key, value) ->
  occupied cells <= NODE_USABLE_SIZE -> split_balanced cells r -> cells !! r = Some c ->
  node (a_page a j) (take r cells) -> pg_id (a_page a j) = j ->
  node (a_page a nid) (drop r cells) -> pg_id (a_page a nid) = nid ->
  exists b' a' l2 r2,
    (if key_ltb key c.1 then at_page i (insert_leaf_cell key value)
     else at_page i' (insert_leaf_cell key value)) t = (Ok true, set_bp b' t) /\
    pool_rep D L b' a' /\ evolves [j; nid] 0 a a' /\
    node (a_page a' j) l2 /\ links (a_page a' j) = links (a_page a j) /\
    node (a_page a' nid) r2 /\ links (a_page a' nid) = links (a_page a nid) /\
    l2 ++ r2 = upsert key value cells /\
    (forall x, x ∈ l2.*1 -> key_lt x c.1) /\ (forall x, x ∈ r2.*1 -> ~ key_lt x c.1).
Proof.
  intros Hr HjD HjL HnD HnL Hne Hs Hsmall Hkv Ho Hbal Hc Hnj Hij Hnn Hin.
  destruct (split_leaf_room cells r 1010 Ho (small_kvs _ Hsmall) ltac:(lia) Hbal) as [Rl Rr].
  pose proof (take_drop_middle cells r c Hc) as Hcut. rewrite <- (drop_S cells c r Hc) in Hcut.
  assert (Hdr : drop r cells = c :: drop (S r) cells) by by apply drop_S.
  set (l0 := take r cells) in *. set (r0 := drop r cells) in *. rewrite Hdr in Hcut. rewrite <- Hcut in Hs.
  pose proof (upsert_app key value l0 c (drop (S r) cells) Hs) as Hup. rewrite Hcut, <- Hdr in Hup.
  apply sorted_app in Hs as (_ & Hsr & Hlr).
  assert (Hl0 : forall x, x ∈ l0.*1 -> key_lt x c.1).
  { intros x (y & -> & Hy)%list_elem_of_fmap. apply Hlr; [done|by left]. }
  assert (Hr0 : forall x, x ∈ r0.*1 -> ~ key_lt x c.1).
  { rewrite Hdr. intros x [->|(y & -> & Hy)%list_elem_of_fmap]%elem_of_cons; [apply key_lt_irrefl|].
    apply StronglySorted_inv in Hsr as [_ Hd]. rewrite Forall_forall in Hd. by apply key_lt_asym, Hd. }
  assert (Hfit : forall X : list kv, occupied X + 1010 <= NODE_USABLE_SIZE -> leaf_fits key value X = true).
  { intros X HX. apply bool_decide_eq_true_2. pose proof (occupied_upsert_le key value X) as Hle.
    rewrite zlen_enc_leaf in Hle. unfold kv_small in Hkv. cbn [fst snd] in Hkv. lia. }
  assert (Hsub : forall X k, X = j \/ X = nid -> k ∈ [X] -> k ∈ [j; nid]).
  { intros X k HX ->%list_elem_of_singleton. destruct HX as [->| ->]; [by left|by right; left]. }
  destruct (key_ltb key c.1) eqn:Hlt.
  - destruct (insert_leaf_cell_ok _ l0 key value Hnj) as (p' & E & Mt & N & _). rewrite (Hfit l0 Rl) in E, N.
    apply meta_links in Mt.
    destruct (at_page_dirty D L t a j i _ _ p' Hr HjD HjL E) as (b' & E' & Hr');
      [by rewrite (links_id _ _ Mt)|apply (holds_length _ _ (node_holds _ _ N))|].
    exists b', (a_set_page j p' a), (upsert key value l0), r0. cbn [a_page a_set_page].
    rewrite fn_lookup_insert, fn_lookup_insert_ne by done. split_and!; try done.
    + apply (evolves_set_page [j; nid]). by left.
    + intros x [->|Hx]%keys_upsert; [exact Hlt|by apply Hl0].
  - destruct (insert_leaf_cell_ok _ r0 key value Hnn) as (p' & E & Mt & N & _). rewrite (Hfit r0 Rr) in E, N.
    apply meta_links in Mt.
    destruct (at_page_dirty D L t a nid i' _ _ p' Hr HnD HnL E) as (b' & E' & Hr');
      [by rewrite (links_id _ _ Mt)|apply (holds_length _ _ (node_holds _ _ N))|].
    exists b', (a_set_page nid p' a), l0, (upsert key value r0). cbn [a_page a_set_page].
    rewrite fn_lookup_insert, fn_lookup_insert_ne by done. split_and!; try done.
    + apply (evolves_set_page [j; nid]). by right; left.
    + intros x [->|Hx]%keys_upsert; [unfold key_lt; by rewrite Hlt|by apply Hr0].
Qed.

(** The left link of the leaf to the right, when there is one. *)
Lemma relink_right_ok D L t a old nid :
  pool_rep D L (bp_ t) a -> (length L < a_cap a)%nat -> old = INVALID_PAGE_ID \/ node_in a old -> is_page_id nid ->
  exists b' a', (if old =? INVALID_PAGE_ID then ret tt else update_node old (set_left_sibling nid)) t
      = (Ok tt, set_bp b' t) /\ pool_rep D L b' a' /\ evolves [] 0 a a'.
Proof.
  intros Hr Hc Hold Hp. destruct (Z.eqb_spec old INVALID_PAGE_ID) as [|Hne].
  - exists (bp_ t), a. rewrite set_bp_same. split; [done|]. split; [done|apply evolves_refl].
  - destruct Hold as [|Hold]; [done|]. by apply update_node_ok, relinks_left.
Qed.

(** The state after the split of the leaf and the retried insertion. *)
Lemma leaf_halves t a n kvs pids key value i path b leaf lo hi lcells kb ka pb pa (cells : list kv) sep v nid b' a' l r :
  tree_inv t a n kvs pids -> found t a n kvs pids key i path b leaf lo hi lcells kb ka pb pa ->
  (3 <= a_cap a)%nat -> a_num a + Z.of_nat n + 2 < 2 ^ 31 -> kv_small (key, value) ->
  pool_rep ∅ [] b' a' -> evolves [leaf; nid] 1 a a' -> in_use_page a' nid -> ~ in_use_page a nid ->
  (forall x, x ∈ cells -> x ∈ lcells) -> sorted_cells fst cells -> (exists m, (0 < m)%nat /\ cells !! m = Some (sep, v)) ->
  node (a_page a' leaf) l -> pg_id (a_page a' leaf) = leaf -> pg_right (a_page a' leaf) = nid ->
  node (a_page a' nid) r -> pg_id (a_page a' nid) = nid -> pg_right (a_page a' nid) = pg_right (a_page a leaf) ->
  l ++ r = upsert key value lcells ->
  (forall x, x ∈ l.*1 -> key_lt x sep) -> (forall x, x ∈ r.*1 -> ~ key_lt x sep) ->
  halves (set_bp b' t) a' n 0 leaf nid lo hi sep path kb ka pb pa l r [leaf] [nid].
Proof.
  intros [Ht Hpages Hsmall] Fd Hc Hnum Hkv Hr He Hnew Hold Hsub Hs (m & Hm & Hsep) Hl Il Rl Hrt Ir Rr Hcut Hls Hrs.
  pose proof Fd as [_ Hx Hid Hn Hk Hrange Hkvs Hpids Hb Ha].
  pose proof (context_length _ _ _ _ _ _ _ _ _ _ _ _ Hx) as Hlen.
  assert (Hlive : live a pids) by (split; [apply (tr_nodup _ _ _ _ _ Ht)|apply (tr_pids _ _ _ _ _ Ht)]).
  assert (Hfresh : nid ∉ pids) by (intros Hx'; by apply Hold, Hlive).
  assert (Hin : (sep, v) ∈ lcells) by (apply Hsub; by eapply list_elem_of_lookup_2).
  assert (Hsr : in_range lo hi sep) by (apply Hk; by apply (list_elem_of_fmap_2 fst _ _ Hin)).
  assert (Hup : forall x, x ∈ (l ++ r).*1 -> in_range lo hi x) by (rewrite Hcut; by apply keys_in_upsert).
  assert (Hperm : nid :: pids ≡ₚ pb ++ ([leaf] ++ [nid]) ++ pa) by (rewrite Hpids; cbn [app]; solve_Permutation).
  rewrite Hpids in Hlive. pose proof Hlive as [(_ & Hnb & [Hna _]%NoDup_cons)%NoDup_app _]. rewrite <- Hpids in Hlive.
  split.
  - exact Hr.
  - rewrite (ev_root _ _ _ _ He). apply (tr_root _ _ _ _ _ Ht).
  - by rewrite (ev_cap _ _ _ _ He).
  - pose proof (ev_num _ _ _ _ He). unfold zlen. lia.
  - eapply context_evolves; [exact He| |exact Hx]. intros j Hj.
    intros [->|[->|?%not_elem_of_nil]%elem_of_cons]%elem_of_cons; [| |done].
    + apply elem_of_app in Hj as [Hj|Hj]; [|done]. apply (Hnb _ Hj). by left.
    + apply Hfresh. rewrite Hpids, elem_of_app, elem_of_cons. apply elem_of_app in Hj. tauto.
  - split; [done|]. split; [done|]. split; [|done]. intros x Hx'. split; [|by apply Hls].
    apply Hup. rewrite fmap_app. apply elem_of_app. by left.
  - split; [done|]. split; [done|]. split; [|done]. intros x Hx'. split; [by apply Hrs|].
    apply Hup. rewrite fmap_app. apply elem_of_app. by right.
  - destruct (lookup_lt_is_Some_2 cells 0) as [c0 Hc0]; [apply lookup_lt_Some in Hsep; lia|].
    eapply (above_strictly lo c0.1); [|exact (sorted_lookup fst cells 0 m _ _ Hs Hc0 Hsep Hm)].
    apply Hk. apply (list_elem_of_fmap_2 fst), Hsub. by eapply list_elem_of_lookup_2.
  - apply Hsr.
  - rewrite Hkvs, !Forall_app in Hsmall. destruct Hsmall as (_ & Hsm & _). rewrite Forall_forall in Hsm.
    exact (kv_small_sep sep v nid (Hsm _ Hin)).
  - eapply live_perm; [exact Hperm|]. apply live_cons; [by eapply live_evolves|done|done].
  - destruct Hpages as [Hpages Hchain]. rewrite Hpids in Hchain. split.
    + intros j. rewrite <- Hperm. intros Hj. destruct (decide (j ∈ [leaf; nid])) as [Hjn|Hjn].
      * apply elem_of_cons in Hjn as [->|Hjn%list_elem_of_singleton]; [left; by exists l|subst j; left; by exists r].
      * apply elem_of_cons in Hj as [->|Hj]; [exfalso; apply Hjn; right; by left|].
        eapply page_ok_same; [by apply (ev_same _ _ _ _ He)|by apply Hpages].
    + eapply (leaf_chain_split (a_page a) (a_page a') pb leaf nid pa); [apply Hn|apply Hl|apply Hrt| |exact Rl|exact Rr|exact Hchain].
      intros k Hkp. apply same_node_link, (ev_same _ _ _ _ He). intros [->|[->|?%not_elem_of_nil]%elem_of_cons]%elem_of_cons; [| |done].
      * apply elem_of_app in Hkp as [Hkp|Hkp]; [|done]. apply (Hnb _ Hkp). by left.
      * apply Hfresh. rewrite Hpids, elem_of_app, elem_of_cons. apply elem_of_app in Hkp. tauto.
  - rewrite Hcut. rewrite Hkvs, !Forall_app in Hsmall. destruct Hsmall as (Hs1 & Hs2 & Hs3).
    rewrite !Forall_app. split; [done|]. split; [by apply Forall_upsert|done].
Qed.

Lemma remove_key_elem {V} (k : bytes) (l : list (bytes * V)) x : x ∈ remove_key k l -> x ∈ l.
Proof.
  induction l as [|c l IH]; cbn [remove_key]; [done|]. case_bool_decide; [by right|].
  intros [->|Hx]%elem_of_cons; [by left|right; by apply IH].
Qed.

(** The pages of [insert_split] before the separator goes up. *)
Lemma insert_split_pages t a leaf i (cells : list kv) key value path :
  pool_rep {[leaf]} [(leaf, i)] (bp_ t) a -> (3 <= a_cap a)%nat -> a_num a + 1 < 2 ^ 31 -> in_use_page a leaf ->
  node (a_page a leaf) cells -> compacted (a_page a leaf) cells -> pg_id (a_page a leaf) = leaf ->
  Forall kv_small cells -> kv_small (key, value) -> NODE_USABLE_SIZE < occupied cells + 1010 ->
  pg_right (a_page a leaf) = INVALID_PAGE_ID \/ node_in a (pg_right (a_page a leaf)) ->
  exists nid c m b' a' l r,
    insert_split i leaf key value path t = insert_into_parent leaf c.1 nid path (set_bp b' t) /\
    pool_rep ∅ [] b' a' /\ evolves [leaf; nid] 1 a a' /\ in_use_page a' nid /\ ~ in_use_page a nid /\
    (0 < m)%nat /\ cells !! m = Some c /\
    node (a_page a' leaf) l /\ pg_id (a_page a' leaf) = leaf /\ pg_right (a_page a' leaf) = nid /\
    node (a_page a' nid) r /\ pg_id (a_page a' nid) = nid /\ pg_right (a_page a' nid) = pg_right (a_page a leaf) /\
    l ++ r = upsert key value cells /\
    (forall x, x ∈ l.*1 -> key_lt x c.1) /\ (forall x, x ∈ r.*1 -> ~ key_lt x c.1).
Proof.
  intros Hr Hcap Hnum Huse Hn Hc Hid Hsm Hkv Hfull Hright.
  assert (Hocc : occupied cells <= NODE_USABLE_SIZE) by by eapply node_occupied.
  assert (H2 : (2 <= length cells)%nat) by (apply (small_length cells 1010); [lia|by apply small_kvs|lia|lia]).
  destruct (split_new_leaf t a leaf i cells (do* unpin leaf false in throw StdRuntimeError)
    (fun ptr nid old sep =>
      do* (if old =? INVALID_PAGE_ID then ret tt else update_node old (set_left_sibling nid)) in
      let* ok := (if key_ltb key sep then at_page i (insert_leaf_cell key value)
                  else at_page ptr (insert_leaf_cell key value)) in
      do* unpin leaf true in
      do* unpin nid true in
      insert_into_parent leaf sep nid path) Hr Hcap Hnum Huse Hn Hc Hid H2) as
    (i' & nid & c & m & b1 & a1 & E1 & Hr1 & He1 & Hnew & Hold & Hbal & Hcr & Hl1 & Il1 & Rl1 & Hn1 & In1 & Rn1).
  assert (Hne : leaf <> nid) by (intros ->; done).
  destruct (relink_right_ok _ _ (set_bp b1 t) a1 (pg_right (a_page a leaf)) nid Hr1) as (b2 & a2 & E2 & Hr2 & He2).
  { rewrite (ev_cap _ _ _ _ He1). simpl. lia. }
  { destruct Hright as [|Hri]; [by left|right]. destruct (decide (pg_right (a_page a leaf) = leaf)) as [->|Hrl].
    - destruct (in_use_evolves _ _ _ _ leaf He1 Huse). split; [done|]. left. by eexists.
    - eapply node_in_evolves; [exact He1|apply not_two; [done|]|done].
      intros Heq. apply Hold. rewrite <- Heq. destruct Hri as [(? & ? & _) _]. by split. }
  { destruct Hnew as [Hy _]. pose proof (ev_num _ _ _ _ He1). unfold is_page_id. lia. }
  pose proof (ev_same _ _ _ _ He2 leaf (not_elem_of_nil _)) as Sl. pose proof (ev_same _ _ _ _ He2 nid (not_elem_of_nil _)) as Sn.
  destruct (two_dirty leaf nid) as [D1 D2].
  destruct (insert_in_half _ _ (set_bp b2 t) a2 leaf i nid i' cells m c key value Hr2)
    as (b3 & a3 & l & r & E3 & Hr3 & He3 & Hl3 & Ll3 & Hr3' & Lr3 & Hcut & Hls & Hrs); try done.
  { by right; left. }
  { by left. }
  { apply (node_sorted _ _ Hn). }
  { by apply (sn_leaf _ _ Sl). }
  { by rewrite (sn_id _ _ Sl). }
  { by apply (sn_leaf _ _ Sn). }
  { by rewrite (sn_id _ _ Sn). }
  destruct (unpin_both (set_bp b3 t) a3 leaf i nid i' Hr3) as (b4 & E4 & Hr4).
  rewrite (same_node_links _ _ Sl) in Ll3. rewrite (same_node_links _ _ Sn) in Lr3.
  unfold links in Ll3, Lr3. injection Ll3 as Il3 _ Rl3. injection Lr3 as In3 _ Rn3.
  exists nid, c, m, b4, a3, l, r. rewrite Il3, Rl3, In3, Rn3. split_and!; try done.
  - unfold insert_split. rewrite E1. mstep E2. mstep E3. rewrite <- bind_assoc. by mstep E4.
  - exact (evolves_trans _ 1 0 _ _ _ (evolves_relinked _ _ _ _ _ He1 He2) He3).
  - eapply in_use_evolves; [exact He3|]. by eapply in_use_evolves.
  - apply Hbal.
Qed.

(** A leaf without room is split, and its halves go into the parent. *)
Lemma insert_split_ok t a n kvs pids key value i path b leaf lo hi lcells kb ka pb pa b1 p1 :
  tree_inv t a n kvs pids -> found t a n kvs pids key i path b leaf lo hi lcells kb ka pb pa ->
  (3 <= a_cap a)%nat -> a_num a + Z.of_nat n + 2 < 2 ^ 31 -> kv_small (key, value) ->
  leaf_fits key value lcells = false ->
  pool_rep {[leaf]} [(leaf, i)] b1 (a_set_page leaf p1 a) ->
  node p1 (remove_key key lcells) -> compacted p1 (remove_key key lcells) -> links p1 = links (a_page a leaf) ->
  exists t' a' n' pids', insert_split i leaf key value path (set_bp b1 t) = (Ok tt, t') /\
    tree_inv t' a' n' (upsert key value kvs) pids' /\
    a_cap a' = a_cap a /\ a_num a <= a_num a' <= a_num a + Z.of_nat n + 2.
Proof.
  intros Hi Fd Hc Hnum Hkv Hfit Hr1 N1 C1 L1. pose proof Hi as [Ht Hpages Hsmall].
  pose proof Fd as [_ Hx Hid Hn _ _ Hkvs Hpids Hb Ha].
  assert (Hlp : leaf ∈ pids) by (rewrite Hpids, elem_of_app, elem_of_cons; tauto).
  assert (Huse : in_use_page a leaf) by by apply (tr_pids _ _ _ _ _ Ht).
  set (cells := remove_key key lcells) in *. set (a1 := a_set_page leaf p1 a) in *.
  assert (P1 : a_page a1 leaf = p1) by (simpl; by rewrite fn_lookup_insert).
  assert (He1 : evolves [leaf] 0 a a1) by (apply evolves_set_page; by left).
  assert (Hsub : forall x, x ∈ cells -> x ∈ lcells) by (intros x; apply remove_key_elem).
  assert (Hup : upsert key value cells = upsert key value lcells) by apply upsert_remove, (node_sorted _ _ Hn).
  assert (Hidl : pg_id p1 = leaf) by (rewrite (links_id _ _ L1); exact Hid).
  assert (Ro : pg_right p1 = pg_right (a_page a leaf)) by (unfold links in L1; by injection L1).
  rewrite <- P1 in N1, C1, Hidl, Ro.
  destruct (insert_split_pages (set_bp b1 t) a1 leaf i cells key value path Hr1)
    as (nid & c & m & b2 & a2 & l & r & E2 & Hr2 & He2 & Hnew & Hold & Hm & Hcm & Hl & Il & Rl & Hrt & In & Rn & Hcut & Hls & Hrs);
    try done; [simpl; lia| | | |].
  { rewrite Hkvs, !Forall_app in Hsmall. destruct Hsmall as (_ & Hsm & _). rewrite Forall_forall in *. auto. }
  { apply bool_decide_eq_false_1 in Hfit. rewrite <- Hup in Hfit. pose proof (occupied_upsert_le key value cells) as Hle.
    rewrite zlen_enc_leaf in Hle. unfold kv_small in Hkv. cbn [fst snd] in Hkv. lia. }
  { rewrite Ro. destruct (leaf_chain_right_in _ _ _ Hlp (node_type _ _ Hn) (proj2 Hpages)) as [|Hri]; [by left|right].
    destruct (decide (pg_right (a_page a leaf) = leaf)) as [->|Hrl].
    - split; [split; [apply Huse|split; [apply Huse|done]]|left; by eexists].
    - eapply node_in_evolves; [exact He1|by intros ?%list_elem_of_singleton|].
      eapply subtree_node_in; [apply (tr_tree _ _ _ _ _ Ht)|by apply (tr_pids _ _ _ _ _ Ht)|done]. }
  assert (Hold' : ~ in_use_page a nid) by (intros Hy; by apply Hold, (in_use_evolves _ _ _ _ _ He1)).
  pose proof (evolves_left _ _ _ _ _ _ _ He1 He2) as He. cbn in He.
  assert (Hh : halves (set_bp b2 t) a2 n 0 leaf nid lo hi c.1 path kb ka pb pa l r [leaf] [nid]).
  { eapply (leaf_halves t a n kvs pids key value i path b leaf lo hi lcells kb ka pb pa cells c.1 c.2 nid);
      try done; [apply (node_sorted _ _ N1)|exists m; by destruct c|by rewrite Rn|by rewrite Hcut]. }
  destruct (insert_into_parent_ok _ _ _ _ _ _ _ _ _ _ _ _ _ _ _ _ _ _ Hh) as (t' & a' & n' & pids' & E' & Hi' & Hc' & Hn').
  exists t', a', n', pids'. pose proof (context_length _ _ _ _ _ _ _ _ _ _ _ _ Hx) as Hlen. unfold zlen in Hn'.
  split; [rewrite E2; exact E'|]. split; [|split].
  - rewrite Hkvs, (upsert_mid key kb ka Hb Ha), <- Hup, <- Hcut. exact Hi'.
  - rewrite Hc'. apply (ev_cap _ _ _ _ He).
  - pose proof (ev_num _ _ _ _ He). lia.
Qed.

(** A leaf of the tree rewritten in place. *)
Lemma found_update_inv t a n kvs pids key i path b leaf lo hi lcells kb ka pb pa b' p' lcells' :
  tree_inv t a n kvs pids -> found t a n kvs pids key i path b leaf lo hi lcells kb ka pb pa ->
  pool_rep ∅ [] b' (a_set_page leaf p' a) -> meta p' = meta (a_page a leaf) -> node p' lcells' ->
  keys_in lo hi lcells' -> Forall kv_small lcells' ->
  tree_inv (set_bp b' t) (a_set_page leaf p' a) n (kb ++ lcells' ++ ka) pids.
Proof.
  intros [Ht Hpages Hsmall] Fd Hr Mt N Hk Hs. pose proof Fd as [_ _ Hid _ _ _ Hkvs Hpids _ _].
  apply meta_links in Mt. split.
  - eapply found_update; [exact Ht|exact Fd|exact Hr|by rewrite (links_id _ _ Mt)|exact N|exact Hk].
  - assert (Hlp : leaf ∈ pids) by (rewrite Hpids, elem_of_app, elem_of_cons; tauto).
    eapply (pages_evolve [leaf] 0); [apply evolves_set_page; by left|exact Hpages|].
    intros j ->%list_elem_of_singleton _. cbn [a_page a_set_page]. rewrite fn_lookup_insert.
    split; [left; by eexists|]. pose proof Fd as [_ _ _ Hn _ _ _ _ _ _].
    split; [by rewrite (node_type _ _ N), (node_type _ _ Hn)|]. unfold links in Mt. by injection Mt.
  - rewrite Hkvs, !Forall_app in Hsmall. rewrite !Forall_app. tauto.
Qed.

Lemma tree_height t a n kvs pids :
  tree_inv t a n kvs pids -> 2 ^ Z.of_nat n <= zlen pids < a_num a.
Proof.
  intros [Ht Hpages _]. split.
  - eapply subtree_pages; [apply (tr_tree _ _ _ _ _ Ht)|exact (proj1 Hpages)].
  - pose proof (tr_size _ _ _ _ _ Ht). unfold zlen. lia.
Qed.

(** [insert] of a small entry into any tree. *)
Lemma insert_tree_ok t a n kvs pids key value :
  tree_inv t a n kvs pids -> (3 <= a_cap a)%nat -> a_num a + 33 < 2 ^ 31 -> kv_small (key, value) ->
  exists t' a' n' pids', insert key value t = (Ok tt, t') /\
    tree_inv t' a' n' (upsert key value kvs) pids' /\
    a_cap a' = a_cap a /\ a_num a <= a_num a' <= a_num a + 33.
Proof.
  intros Hi Hc Hnum Hkv. pose proof Hi as [Ht _ Hsmall].
  assert (Hn : Z.of_nat n < 31).
  { pose proof (tree_height _ _ _ _ _ Hi). apply (Z.pow_lt_mono_r_iff 2); lia. }
  assert (Hsize : leaf_cell_size (zlen key) (zlen value) + 2 <= NODE_USABLE_SIZE).
  { unfold kv_small in Hkv. cbn [fst snd] in Hkv. klia. }
  destruct (find_leaf_ok t a n kvs pids key Ht ltac:(lia))
    as (i & path & b & leaf & lo & hi & lcells & kb & ka & pb & pa & E & Fd).
  pose proof Fd as [Hr _ Hid Hnode Hk Hrange Hkvs _ Hb Ha].
  destruct (leaf_fits key value lcells) eqn:Hfit.
  - destruct (insert_room_step _ _ _ _ _ _ _ _ _ _ _ _ _ _ _ _ _ _ Hsize E Fd Hfit) as (b' & p' & E' & Hr' & N & Mt).
    eexists _, (a_set_page leaf p' a), n, pids. split; [exact E'|]. split; [|split; [done|simpl; lia]].
    rewrite Hkvs, (upsert_mid key kb ka Hb Ha). rewrite Hkvs, !Forall_app in Hsmall.
    eapply found_update_inv; [exact Hi|exact Fd|exact Hr'|exact Mt|exact N|by apply keys_in_upsert|].
    apply Forall_upsert; [done|apply Hsmall].
  - assert (Hin : (leaf, i) ∈ [(leaf, i)]) by by left.
    destruct (insert_leaf_cell_ok _ lcells key value Hnode) as (p1 & E1 & Mt & N1 & C1). rewrite Hfit in E1, N1, C1.
    apply meta_links in Mt. pose proof (pool_rep_widen _ _ _ _ _ _ Hr Hin) as Hr0. rewrite union_empty_l_L in Hr0.
    destruct (at_page_dirty {[leaf]} _ (set_bp b t) a leaf i _ _ p1 Hr0 ltac:(by apply elem_of_singleton) Hin E1)
      as (b1 & E2 & Hr1); [by rewrite (links_id _ _ Mt)|apply (holds_length _ _ (node_holds _ _ N1))|].
    destruct (insert_split_ok _ _ _ _ _ _ _ _ _ _ _ _ _ _ _ _ _ _ b1 p1 Hi Fd Hc ltac:(lia) Hkv Hfit Hr1 N1
      (C1 (or_introl eq_refl)) Mt) as (t' & a' & n' & pids' & E' & Hi' & Hc' & Hn').
    exists t', a', n', pids'. split; [|split; [exact Hi'|split; [done|lia]]].
    unfold insert. rewrite (proj2 (Z.ltb_ge _ _)) by lia. mstep E. cbn [fst snd].
    mstep (ask_leaf_id _ _ (set_bp b t) a leaf i lcells Hr Hin Hnode Hid).
    mstep (make_node_tree _ _ (set_bp b t) a leaf i lcells Hr Hin Hnode).
    mstep E2. exact E'.
Qed.

(** ** The tree as a map *)

(** The tree holds the map [m], and three pages fit in its pool. *)
Definition tree_map t (m : gmap bytes bytes) : Prop :=
  exists a n kvs pids, tree_inv t a n kvs pids /\ kv_map kvs = m /\ (3 <= a_cap a)%nat.

Definition tree_pages t : Z := num_pages (dm (pool_fl (bp_ t))).

Lemma tree_pages_num t a n kvs pids : tree_inv t a n kvs pids -> tree_pages t = a_num a.
Proof. intros Hi. apply pool_num, (tr_pool _ _ _ _ _ (ti_rep _ _ _ _ _ Hi)). Qed.

Lemma tree_map_insert t m key value :
  tree_map t m -> tree_pages t + 33 < 2 ^ 31 -> kv_small (key, value) ->
  exists t', insert key value t = (Ok tt, t') /\ tree_map t' (<[key := value]> m) /\
    tree_pages t <= tree_pages t' <= tree_pages t + 33.
Proof.
  intros (a & n & kvs & pids & Hi & <- & Hc) Hn Hkv. rewrite (tree_pages_num _ _ _ _ _ Hi) in *.
  destruct (insert_tree_ok t a n kvs pids key value Hi Hc Hn Hkv) as (t' & a' & n' & pids' & E & Hi' & Hc' & Hn').
  exists t'. split; [exact E|]. rewrite (tree_pages_num _ _ _ _ _ Hi'). split; [|exact Hn'].
  exists a', n', (upsert key value kvs), pids'. split; [done|]. split; [|lia].
  eapply kv_map_upsert, tr_sorted, (ti_rep _ _ _ _ _ Hi).
Qed.

Lemma tree_map_get t m key :
  tree_map t m -> exists t', get key t = (Ok (m !! key), t') /\ tree_map t' m.
Proof.
  intros (a & n & kvs & pids & [Ht Hpages Hsmall] & <- & Hc).
  destruct (get_ok t a n kvs pids key Ht ltac:(lia)) as (t' & E & Ht'). exists t'. split; [exact E|].
  by exists a, n, kvs, pids.
Qed.

Lemma tree_map_inserts (es : list kv) t m :
  tree_map t m -> Forall kv_small es -> tree_pages t + 33 * zlen es < 2 ^ 31 ->
  exists t', for_each es (fun e => insert e.1 e.2) t = (Ok tt, t') /\
    tree_map t' (foldl (fun m e => <[e.1 := e.2]> m) m es).
Proof.
  revert t m. induction es as [|[k v] es IH]; intros t m Ht Hs Hn; [by exists t|].
  apply Forall_cons in Hs as [Hkv Hs]. rewrite zlen_cons in Hn. pose proof (zlen_nonneg es).
  destruct (tree_map_insert t m k v Ht ltac:(lia) Hkv) as (t1 & E1 & Ht1 & Hn1).
  destruct (IH t1 _ Ht1 Hs ltac:(lia)) as (t' & E & Ht'). exists t'. split; [|exact Ht'].
  cbn [for_each fst snd]. by mstep E1.
Qed.

(** As many pages as the path has nodes could be on both sides of each. *)
Lemma tree_map_depth t m key i path t' :
  tree_map t m -> find_leaf key t = (Ok (i, path), t') -> 2 ^ zlen path < tree_pages t.
Proof.
  intros (a & n & kvs & pids & Hi & _ & Hc) E. rewrite (tree_pages_num _ _ _ _ _ Hi).
  pose proof (tree_height _ _ _ _ _ Hi) as Hh.
  destruct (find_leaf_ok t a n kvs pids key (ti_rep _ _ _ _ _ Hi) ltac:(lia))
    as (i' & path' & b & leaf & lo & hi & lcells & kb & ka & pb & pa & E' & Fd).
  assert (path = path') as -> by congruence.
  pose proof (context_length _ _ _ _ _ _ _ _ _ _ _ _ (fd_ctx _ _ _ _ _ _ _ _ _ _ _ _ _ _ _ _ _ Fd)).
  replace (zlen path') with (Z.of_nat n) by (unfold zlen; lia). lia.
Qed.
End insert.
