(* ===== verification/TreeRemove.v ===== *)
(** * When [remove] deletes

    [remove] is deletion as long as the leaf of the key does not underflow, is
    the root, or is settled by its neighbours ([settles]).  [can_remove] decides
    that, with the steps of [remove] itself: it depends on the pages of the
    tree only, so lookups do not change it. *)

From stdpp Require Import functions.
From S2P Require Import Prelude.
From S2P Require Import Buffers.
From S2P Require Import Page.
From S2P Require Import Node.
From S2P Require Import NodeSlots.
From S2P Require Import KeyOrder.
From S2P Require Import NodeCells.
From S2P Require Import NodeKinds.
From S2P Require Import NodeOps.
From S2P Require Import NodeInsert.
From S2P Require Import NodeMerge.
From S2P Require Import DiskManager.
From S2P Require Import FreeList.
From S2P Require Import BufferPool.
From S2P Require Import PoolSpec.
From S2P Require Import PoolOps.
From S2P Require Import BTree.
From S2P Require Import Tree.
From S2P Require Import TreeNav.
From S2P Require Import TreeFrame.
From S2P Require Import TreeSplit.
From S2P Require Import TreeOps.
From S2P Require Import TreeUpdate.
From S2P Require Import TreeParent.
From S2P Require Import TreeBorrow.
From S2P Require Import TreeLend.
From S2P Require Import TreeFix.
From S2P Require Import TreeInsert.

(** [remove], as far as it ends in the leaf or is settled after it. *)
Definition removes {F : Type} `{PosixFile F} (key : bytes) : M (BTree F) bool :=
  let* fl := find_leaf key in
  let leaf := fl.1 in
  let* leaf_id := ask leaf page_id in
  do* make_node leaf in
  let* slot := ask leaf (lower_bound key) in
  let* found := ask leaf (slot_has slot key) in
  if negb found then ret true
  else
    do* at_page leaf (remove_cell slot) in
    let* low := ask leaf underflow in
    let* t := getS in
    do* unpin leaf_id true in
    if low && negb (leaf_id =? root_page_id_ t) then settles leaf_id fl.2 else ret true.

Definition can_remove {F : Type} `{PosixFile F} (key : bytes) (t : BTree F) : bool :=
  is_yes (removes key t).1.

Section remove.
Context {F : Type} `{ReliableFile F}.
Implicit Types (t : BTree F) (a : APool) (key : bytes) (m : gmap bytes bytes).

(** What is not there can be removed. *)
Lemma can_remove_absent t a h kvs pids key i path b leaf lo hi lcells kb ka pb pa :
  find_leaf key t = (Ok (i, path), set_bp b t) ->
  found t a h kvs pids key i path b leaf lo hi lcells kb ka pb pa ->
  kv_map kvs !! key = None -> can_remove key t = true.
Proof.
  intros E Fd Hkey. pose proof Fd as [Hr _ Hid Hn _ _ Hkvs _ Hb Ha].
  pose proof (leaf_has kvs lcells kb ka key (node_sorted _ _ Hn) Hkvs Hb Ha) as Hhas.
  rewrite Hkey, bool_decide_eq_false_2 in Hhas by by intros [? ?].
  unfold can_remove, removes. mstep E. cbn [fst].
  rewrite (leaf_prefix t b a leaf i lcells key (fun leaf_id slot found =>
    if negb found then ret true
    else
      do* at_page i (remove_cell slot) in
      let* low := ask i underflow in
      let* t := getS in
      do* unpin leaf_id true in
      if low && negb (leaf_id =? root_page_id_ t) then settles leaf_id path else ret true) Hr Hn Hid).
  by rewrite Hhas.
Qed.

(** The common part of [remove] and [removes] for a key that is there. *)
Lemma removal_step t a h kvs pids key i path b leaf lo hi lcells kb ka pb pa :
  is_Some (kv_map kvs !! key) -> find_leaf key t = (Ok (i, path), set_bp b t) ->
  found t a h kvs pids key i path b leaf lo hi lcells kb ka pb pa ->
  exists p' b', remove_cell (Z.of_nat (lb_index fst key lcells)) (a_page a leaf) = (Ok tt, p') /\
    node p' (remove_key key lcells) /\ meta p' = meta (a_page a leaf) /\
    pool_rep ∅ [] b' (a_set_page leaf p' a) /\
    forall low, underflow p' = Ok low ->
      let needs_fix := low && negb (leaf =? root_page_id_ t) in
      remove key t = (do* (if needs_fix then fix_underflow leaf path else ret tt) in ret true) (set_bp b' t) /\
      removes key t = (if needs_fix then settles leaf path else ret true) (set_bp b' t).
Proof.
  intros Hkey E1 Fd. pose proof Fd as [Hr1 _ Hid Hn _ _ Hkvs _ Hb Ha].
  assert (Hin : (leaf, i) ∈ [(leaf, i)]) by by left. pose proof (node_sorted _ _ Hn) as Hs.
  pose proof (leaf_has kvs lcells kb ka key Hs Hkvs Hb Ha) as Hhas.
  rewrite (bool_decide_eq_true_2 (is_Some _) Hkey) in Hhas. set (j := lb_index fst key lcells) in *.
  destruct (lcells !! j) as [[k v]|] eqn:Hj; [|done]. apply bool_decide_eq_true_1 in Hhas. simpl in Hhas. subst k.
  destruct (node_remove _ lcells j Hn (lookup_lt_Some _ _ _ Hj)) as (p' & E & N & _ & Mt).
  assert (Hid' : pg_id p' = leaf) by (unfold meta in Mt; congruence).
  destruct (at_page_tree ∅ _ (set_bp b t) a leaf i (remove_cell (Z.of_nat j)) _ p' Hr1 Hin E Hid'
    (holds_length _ _ (node_holds _ _ N))) as (b1 & E2 & Hr2).
  destruct (unpin_tree _ _ [] (set_bp b1 (set_bp b t)) _ leaf i true Hr2) as (b2 & E3 & Hr3); [done..|].
  exists p', b2. split; [exact E|]. split; [by rewrite (remove_key_present key lcells j (key, v) Hs Hj eq_refl)|].
  split; [exact Mt|]. split; [by rewrite (clean_one leaf)|]. intros low Eu. cbv zeta.
  assert (El : ask i underflow (set_bp b1 (set_bp b t)) = (Ok low, set_bp b1 (set_bp b t))).
  { eapply ask_tree; [exact Hr2|exact Hin|]. cbn [a_page a_set_page]. by rewrite fn_lookup_insert. }
  split; [unfold remove|unfold removes]; mstep E1; cbn [fst]; rewrite (leaf_prefix t b a leaf i lcells key _ Hr1 Hn Hid);
    fold j; rewrite Hj; cbn [fst]; rewrite bool_decide_eq_true_2 by done; cbn [negb]; mstep E2; mstep El;
    rewrite (bind_ok _ _ _ (set_bp b1 (set_bp b t)) (set_bp b1 (set_bp b t))) by done; cbv zeta; by mstep E3.
Qed.

(** The tree without the key, before [fix_underflow]. *)
Lemma removed_inv t a n kvs pids key i path b leaf lo hi lcells kb ka pb pa b' p' :
  tree_inv t a n kvs pids -> found t a n kvs pids key i path b leaf lo hi lcells kb ka pb pa ->
  pool_rep ∅ [] b' (a_set_page leaf p' a) -> node p' (remove_key key lcells) -> meta p' = meta (a_page a leaf) ->
  tree_inv (set_bp b' t) (a_set_page leaf p' a) n (remove_key key kvs) pids.
Proof.
  intros Hi Fd Hr N Mt. pose proof Fd as [_ _ _ _ Hk _ Hkvs _ Hb Ha].
  pose proof (ti_small _ _ _ _ _ Hi) as Hsm. rewrite Hkvs, !Forall_app in Hsm. destruct Hsm as (_ & Hsm & _).
  rewrite Hkvs, (remove_mid key kb ka Hb Ha).
  eapply found_update_inv; [exact Hi|exact Fd|exact Hr|exact Mt|exact N|by apply keys_in_remove|].
  rewrite Forall_forall in *. intros x Hx. by apply Hsm, (remove_key_elem key).
Qed.

(** The same for the context of the leaf. *)
Lemma removed_context t a n kvs pids key i path b leaf lo hi lcells kb ka pb pa p' :
  tree_inv t a n kvs pids -> found t a n kvs pids key i path b leaf lo hi lcells kb ka pb pa ->
  node p' (remove_key key lcells) -> meta p' = meta (a_page a leaf) ->
  let a' := a_set_page leaf p' a in
  context (a_page a') n (root_page_id_ t) 0 leaf lo hi path kb ka pb pa /\
  subtree (a_page a') 0 leaf lo hi (remove_key key lcells) [leaf].
Proof.
  intros Hi Fd N Mt a'. pose proof Fd as [_ Hx Hid _ Hk _ _ Hpids _ _].
  pose proof (tr_nodup _ _ _ _ _ (ti_rep _ _ _ _ _ Hi)) as Hnd. rewrite Hpids in Hnd.
  apply NoDup_app in Hnd as (_ & Hnb & [Hna _]%NoDup_cons). split.
  - eapply context_frame; [exact Hx|]. intros j Hj. unfold a'. cbn [a_page a_set_page]. rewrite fn_lookup_insert_ne; [done|].
    intros ->. apply elem_of_app in Hj as [Hj|Hj]; [|done]. apply (Hnb _ Hj). by left.
  - unfold a'. cbn [subtree a_page a_set_page]. rewrite fn_lookup_insert.
    split; [unfold meta in Mt; congruence|]. split; [exact N|]. split; [by apply keys_in_remove|done].
Qed.

(** What is left to do does not depend on the cached pages: the leaf is left
    as it is, or settled. *)
Lemma removed_outcome t0 a n kvs pids key i path b leaf lo hi lcells kb ka pb pa b' p' (fix_it : bool) :
  tree_inv t0 a n kvs pids -> found t0 a n kvs pids key i path b leaf lo hi lcells kb ka pb pa ->
  pool_rep ∅ [] b' (a_set_page leaf p' a) -> node p' (remove_key key lcells) -> meta p' = meta (a_page a leaf) ->
  (3 <= a_cap a)%nat -> (fix_it = true -> underflow p' = Ok true) ->
  exists yes, forall t, tree_inv t (a_set_page leaf p' a) n (remove_key key kvs) pids ->
    outcome yes ((if fix_it then settles leaf path else ret true) t) (a_set_page leaf p' a) (remove_key key kvs).
Proof.
  intros Hi Fd Hr N Mt Hc Hu. destruct fix_it.
  - pose proof (removed_inv _ _ _ _ _ _ _ _ _ _ _ _ _ _ _ _ _ _ _ Hi Fd Hr N Mt) as Hi1.
    destruct (removed_context _ _ _ _ _ _ _ _ _ _ _ _ _ _ _ _ _ _ Hi Fd N Mt) as [Hx Hl].
    pose proof Fd as [_ _ _ _ _ _ Hkvs Hpids Hb Ha].
    apply (settles_ok (set_bp b' t0) _ n _ pids leaf path lo hi kb ka pb pa _ Hi1 Hc Hx Hl); [|exact Hpids|].
    + by rewrite Hkvs, (remove_mid key kb ka Hb Ha).
    + cbn [a_page a_set_page]. rewrite fn_lookup_insert. by apply Hu.
  - exists true. intros t Ht. by exists t, (a_set_page leaf p' a), n, pids.
Qed.

(** [can_remove] depends on the pages alone, and where it holds [remove] is
    deletion. *)
Definition removal t a kvs key (yes : bool) : Prop :=
  can_remove key t = yes /\
  (yes = true -> exists t' a' n' pids', remove key t = (Ok (bool_decide (is_Some (kv_map kvs !! key))), t') /\
    tree_inv t' a' n' (remove_key key kvs) pids' /\ (3 <= a_cap a')%nat /\ a_num a' = a_num a).

Lemma removal_present t0 a n kvs pids key :
  tree_inv t0 a n kvs pids -> (3 <= a_cap a)%nat -> is_Some (kv_map kvs !! key) ->
  exists yes, forall t, tree_inv t a n kvs pids -> removal t a kvs key yes.
Proof.
  intros Hi0 Hc Hkey. destruct (find_leaf_same t0 a n kvs pids key (ti_rep _ _ _ _ _ Hi0) ltac:(lia))
    as (path & leaf & lo & hi & lcells & kb & ka & pb & pa & Hf).
  destruct (Hf t0 (ti_rep _ _ _ _ _ Hi0)) as (i0 & b0 & E0 & F0).
  destruct (removal_step _ _ _ _ _ _ _ _ _ _ _ _ _ _ _ _ _ Hkey E0 F0) as (p' & b0' & Ep & N & Mt & Hr0 & _).
  pose proof (underflow_holds _ _ N) as Eu. set (low := Z.ltb _ _) in Eu.
  destruct (removed_outcome _ _ _ _ _ _ _ _ _ _ _ _ _ _ _ _ _ b0' p' (low && negb (leaf =? root_page_id_ t0))
    Hi0 F0 Hr0 N Mt Hc) as [yes Hy]; [by intros [Hlow _]%andb_true_iff; rewrite Eu, Hlow|].
  exists yes. intros t Ht. destruct (Hf t (ti_rep _ _ _ _ _ Ht)) as (i & b & E & Fd).
  destruct (removal_step _ _ _ _ _ _ _ _ _ _ _ _ _ _ _ _ _ Hkey E Fd) as (p2 & b' & Ep2 & N2 & Mt2 & Hr & Hstep).
  assert (p2 = p') as -> by congruence. destruct (Hstep low Eu) as [Erem Ecan]. clear Hstep.
  assert (Hroot : root_page_id_ t = root_page_id_ t0).
  { rewrite <- (tr_root _ _ _ _ _ (ti_rep _ _ _ _ _ Ht)). apply (tr_root _ _ _ _ _ (ti_rep _ _ _ _ _ Hi0)). }
  specialize (Hy (set_bp b' t) (removed_inv _ _ _ _ _ _ _ _ _ _ _ _ _ _ _ _ _ _ _ Ht Fd Hr N Mt)). rewrite <- Hroot in Hy.
  unfold removal, can_remove. rewrite Erem, Ecan, (bool_decide_eq_true_2 _ Hkey).
  destruct yes; [|split; [exact Hy|done]]. destruct Hy as (t' & a2 & n2 & pids2 & E2 & Hrest). rewrite E2.
  split; [done|]. intros _. exists t', a2, n2, pids2. split; [|exact Hrest].
  destruct (low && negb (leaf =? root_page_id_ t)).
  - by mstep (settles_fix _ _ _ _ E2).
  - injection E2 as <-. done.
Qed.

Lemma remove_outcome t0 a n kvs pids key :
  tree_inv t0 a n kvs pids -> (3 <= a_cap a)%nat ->
  exists yes, forall t, tree_inv t a n kvs pids -> removal t a kvs key yes.
Proof.
  intros Hi0 Hc. destruct (decide (is_Some (kv_map kvs !! key))) as [Hkey|Hkey]; [by eapply removal_present|].
  destruct (find_leaf_same t0 a n kvs pids key (ti_rep _ _ _ _ _ Hi0) ltac:(lia))
    as (path & leaf & lo & hi & lcells & kb & ka & pb & pa & Hf).
  exists true. intros t Ht. destruct (Hf t (ti_rep _ _ _ _ _ Ht)) as (i & b & E & Fd).
  apply eq_None_not_Some in Hkey. split; [by eapply can_remove_absent|]. intros _.
  destruct (remove_absent_ok t a n kvs pids key (ti_rep _ _ _ _ _ Ht) ltac:(lia) Hkey) as (t' & Er & Ht').
  exists t', a, n, pids. rewrite Hkey, bool_decide_eq_false_2 by by intros [? ?]. split; [exact Er|].
  rewrite remove_key_absent by (by apply not_elem_of_list_to_map). split; [|done]. destruct Ht. by split.
Qed.

(** ** The tree as a map *)

Lemma tree_map_remove t m key :
  tree_map t m -> can_remove key t = true ->
  exists t', remove key t = (Ok (bool_decide (is_Some (m !! key))), t') /\ tree_map t' (delete key m) /\
    tree_pages t' = tree_pages t.
Proof.
  intros (a & n & kvs & pids & Hi & <- & Hc) Hcan. destruct (remove_outcome t a n kvs pids key Hi Hc) as [yes Hy].
  destruct (Hy t Hi) as [Ey Hrem]. rewrite Hcan in Ey. destruct (Hrem (eq_sym Ey)) as (t' & a' & n' & pids' & E & Hi' & Hc' & Hn').
  exists t'. split; [exact E|]. rewrite (tree_pages_num _ _ _ _ _ Hi), (tree_pages_num _ _ _ _ _ Hi'). split; [|done].
  exists a', n', (remove_key key kvs), pids'. split; [done|]. split; [|exact Hc'].
  eapply kv_map_remove_key, tr_sorted, (ti_rep _ _ _ _ _ Hi).
Qed.

(** A lookup, and what it leaves alone. *)
Lemma tree_map_lookup t m key :
  tree_map t m -> exists t', get key t = (Ok (m !! key), t') /\ tree_map t' m /\
    tree_pages t' = tree_pages t /\ forall k, can_remove k t' = can_remove k t.
Proof.
  intros (a & n & kvs & pids & Hi & <- & Hc). pose proof Hi as [Ht Hpages Hsmall].
  destruct (get_ok t a n kvs pids key Ht ltac:(lia)) as (t' & E & Ht'). exists t'. split; [exact E|].
  assert (Hi' : tree_inv t' a n kvs pids) by by split.
  split; [by exists a, n, kvs, pids|]. rewrite (tree_pages_num _ _ _ _ _ Hi), (tree_pages_num _ _ _ _ _ Hi').
  split; [done|]. intros k. destruct (remove_outcome t a n kvs pids k Hi Hc) as [yes Hy].
  by rewrite (proj1 (Hy t' Hi')), (proj1 (Hy t Hi)).
Qed.
End remove.
