(* ===== verification/Store.v ===== *)
(** * The key-value store under the transactions

    What recovery and the transactions use of the B+Tree: the class [KVStore]
    lists the operations, [KVLaws] what they promise in terms of a finite map,
    for the updates that the store can do ([kv_can]).  [TreeStore] gives the
    B+Tree as an instance; [map_store], a map kept as it is, is another. *)

From S2P Require Import Prelude.

(** [kv_get] is [BTree::get], [kv_insert] [BTree::insert], [kv_remove]
    [BTree::remove]; [kv_sync] is [BufferPool::flush_all] followed by
    [DiskManager::flush]. *)
Class KVStore (S : Type) : Type := {
  kv_get : bytes -> M S (option bytes);
  kv_insert : bytes -> bytes -> M S unit;
  kv_remove : bytes -> M S bool;
  kv_sync : M S unit;
}.

Abbreviation kvmap := (gmap bytes bytes).

(** A key and its new value, [None] when it is removed. *)
Abbreviation update := (bytes * option bytes)%type.

(** A lookup changes nothing that a later call could notice. *)
Class KVLaws (S : Type) `{KVStore S} : Type := {
  kv_rep : S -> kvmap -> Prop;
  kv_can : S -> update -> bool;
  kv_get_ok : forall s m k, kv_rep s m ->
    exists s', kv_get k s = (Ok (m !! k), s') /\ kv_rep s' m /\ forall u, kv_can s' u = kv_can s u;
  kv_insert_ok : forall s m k v, kv_rep s m -> kv_can s (k, Some v) = true ->
    exists s', kv_insert k v s = (Ok tt, s') /\ kv_rep s' (<[k := v]> m);
  kv_remove_ok : forall s m k, kv_rep s m -> kv_can s (k, None) = true ->
    exists s', kv_remove k s = (Ok (bool_decide (is_Some (m !! k))), s') /\ kv_rep s' (delete k m);
  kv_sync_ok : forall s m, kv_rep s m -> exists s', kv_sync s = (Ok tt, s') /\ kv_rep s' m;
}.

(** ** A store that is a map *)

Definition map_store : Type := kvmap.

#[export] Instance map_kv : KVStore map_store := {|
  kv_get k m := (Ok (m !! k), m);
  kv_insert k v m := (Ok tt, <[k := v]> m);
  kv_remove k m := (Ok (bool_decide (is_Some (m !! k))), delete k m);
  kv_sync m := (Ok tt, m);
|}.

#[export, refine] Instance map_laws : KVLaws map_store := {|
  kv_rep s m := s = m;
  kv_can _ _ := true;
|}.
Proof.
  - intros s m k ->. by exists m.
  - intros s m k v -> _. by eexists.
  - intros s m k -> _. by eexists.
  - intros s m ->. by eexists.
Defined.

(** ** Sequences of updates *)

Definition apply_update (u : update) (m : kvmap) : kvmap :=
  match u.2 with
  | Some v => <[u.1 := v]> m
  | None => delete u.1 m
  end.

Definition apply_updates (us : list update) (m : kvmap) : kvmap := fold_left (fun m u => apply_update u m) us m.

Section updates.
Context {S : Type} `{KVLaws S}.
Implicit Types (s : S) (m : kvmap) (us : list update).

(** One update of the store. *)
Definition do_update (u : update) : M S unit :=
  match u.2 with
  | Some v => kv_insert u.1 v
  | None => do* kv_remove u.1 in ret tt
  end.

Lemma do_update_ok s m (u : update) :
  kv_rep s m -> kv_can s u = true ->
  exists s', do_update u s = (Ok tt, s') /\ kv_rep s' (apply_update u m).
Proof.
  intros Hr Hc. destruct u as [k [v|]]; unfold do_update, apply_update in *; cbn [fst snd] in *.
  - by apply kv_insert_ok.
  - destruct (kv_remove_ok s m k Hr Hc) as (s' & E & Hr'). exists s'. split; [by mstep E|done].
Qed.

(** A store represents one map. *)
Lemma kv_rep_unique s m m' : kv_rep s m -> kv_rep s m' -> m = m'.
Proof.
  intros H1 H2. apply map_eq. intros k. destruct (kv_get_ok s m k H1) as (s1 & E1 & _).
  destruct (kv_get_ok s m' k H2) as (s2 & E2 & _). congruence.
Qed.

(** Every update can be done when its turn comes. *)
Fixpoint can_all us s : bool :=
  match us with
  | [] => true
  | u :: us' => kv_can s u && can_all us' (do_update u s).2
  end.

Lemma do_updates_ok s m us :
  kv_rep s m -> can_all us s = true ->
  exists s', for_each us do_update s = (Ok tt, s') /\ kv_rep s' (apply_updates us m).
Proof.
  revert s m. induction us as [|u us IH]; intros s m Hr Hc; [by exists s|].
  cbn [can_all] in Hc. apply andb_true_iff in Hc as [Hc1 Hc2].
  destruct (do_update_ok s m u Hr Hc1) as (s1 & E1 & Hr1). rewrite E1 in Hc2.
  destruct (IH s1 _ Hr1 Hc2) as (s' & E & Hr'). exists s'. split; [|done].
  cbn [for_each]. by mstep E1.
Qed.

Lemma for_each_app_inv us1 us2 s s2 :
  for_each (us1 ++ us2) do_update s = (Ok tt, s2) ->
  exists s1, for_each us1 do_update s = (Ok tt, s1) /\ for_each us2 do_update s1 = (Ok tt, s2).
Proof.
  revert s. induction us1 as [|u us1 IH]; intros s E; [by exists s|].
  cbn [for_each app] in *. unfold bind in *. destruct (do_update u s) as [[[]|e] s1]; [by apply IH|done].
Qed.
End updates.

Lemma apply_updates_app us1 us2 m :
  apply_updates (us1 ++ us2) m = apply_updates us2 (apply_updates us1 m).
Proof. apply fold_left_app. Qed.

Lemma apply_updates_cons u us m : apply_updates (u :: us) m = apply_updates us (apply_update u m).
Proof. done. Qed.

Lemma lookup_apply_update (u : update) m k :
  apply_update u m !! k = if decide (u.1 = k) then u.2 else m !! k.
Proof.
  destruct u as [k' [v|]]; unfold apply_update; cbn [fst snd]; case_decide; subst.
  - apply lookup_insert_eq.
  - by apply lookup_insert_ne.
  - apply lookup_delete_eq.
  - by apply lookup_delete_ne.
Qed.

(** The last update of a key decides. *)
Fixpoint last_update (k : bytes) (us : list update) : option (option bytes) :=
  match us with
  | [] => None
  | u :: us' =>
      match last_update k us' with
      | Some r => Some r
      | None => if decide (u.1 = k) then Some u.2 else None
      end
  end.

Lemma lookup_apply_updates us m k :
  apply_updates us m !! k = match last_update k us with Some r => r | None => m !! k end.
Proof.
  revert m. induction us as [|u us IH]; intros m; [done|].
  rewrite apply_updates_cons, IH. cbn [last_update]. destruct (last_update k us); [done|].
  rewrite lookup_apply_update. by case_decide.
Qed.

Lemma last_update_None us k : last_update k us = None <-> k ∉ us.*1.
Proof.
  induction us as [|u us IH]; cbn [last_update fmap list_fmap]; [split; [intros _; apply not_elem_of_nil|done]|].
  rewrite not_elem_of_cons. destruct (last_update k us) as [r|].
  - split; [done|]. intros [_ Hk]. by apply IH in Hk.
  - case_decide; subst.
    + split; [done|]. by intros [? _].
    + split; [|done]. intros _. split; [done|]. by apply IH.
Qed.

Lemma last_update_app us1 us2 k :
  last_update k (us1 ++ us2) =
    match last_update k us2 with Some r => Some r | None => last_update k us1 end.
Proof.
  induction us1 as [|u us1 IH]; cbn [last_update app]; [by destruct (last_update k us2)|].
  rewrite IH. by destruct (last_update k us2).
Qed.

Lemma last_update_elem k (us : list update) r : last_update k us = Some r -> (k, r) ∈ us.
Proof.
  induction us as [|[k' r'] us IH]; cbn [last_update fst snd]; [done|].
  destruct (last_update k us) as [r0|]; [intros E; right; by apply IH|].
  case_decide; [|done]. intros [= ->]. subst. by left.
Qed.

(** A map can do everything. *)
Lemma map_can_all (us : list update) (m : map_store) : can_all us m = true.
Proof. revert m. by induction us as [|u us IH]; intros m; [|apply IH]. Qed.
