(* ===== verification/TreeStore.v ===== *)
(** * The B+Tree as the store of the database

    The operations of [KVStore] are those of the tree and the pool.  The laws
    hold for trees of any height, for the insertions of entries that take at
    most a quarter of a page while there are page numbers left, and for the
    removals of [can_remove]; below, what can be said of whole sequences of
    updates without running them. *)

From S2P Require Import Prelude.
From S2P Require Import Buffers.
From S2P Require Import Page.
From S2P Require Import Node.
From S2P Require Import NodeSlots.
From S2P Require Import KeyOrder.
From S2P Require Import NodeCells.
From S2P Require Import NodeKinds.
From S2P Require Import NodeOps.
From S2P Require Import NodeInsert.
From S2P Require Import DiskManager.
From S2P Require Import FreeList.
From S2P Require Import BufferPool.
From S2P Require Import PoolSpec.
From S2P Require Import PoolOps.
From S2P Require Import BTree.
From S2P Require Import Tree.
From S2P Require Import TreeNav.
From S2P Require Import TreeOps.
From S2P Require Import TreeFrame.
From S2P Require Import TreeSplit.
From S2P Require Import TreeUpdate.
From S2P Require Import TreeParent.
From S2P Require Import TreeInsert.
From S2P Require Import TreeRemove.
From S2P Require Import Store.

(** [db_.pool().flush_all(); db_.dm().flush();] *)
Definition sync {F : Type} `{PosixFile F} : M (BTree F) unit :=
  do* on_bp flush_all in on_bp (on_fl (on_dm DiskManager.flush)).

#[export] Instance tree_kv {F : Type} `{PosixFile F} : KVStore (BTree F) := {|
  kv_get := get;
  kv_insert := insert;
  kv_remove := BTree.remove;
  kv_sync := sync;
|}.

(** ** What the tree can do *)

Definition small_entry (k v : bytes) : bool := leaf_cell_size (zlen k) (zlen v) + 2 <=? 1010.

Lemma small_entry_iff (k v : bytes) : small_entry k v = true <-> kv_small (k, v).
Proof. apply Z.leb_le. Qed.

Definition tree_can {F : Type} `{PosixFile F} (t : BTree F) (u : update) : bool :=
  match u.2 with
  | Some v => small_entry u.1 v && (tree_pages t + 33 <? 2 ^ 31)
  | None => can_remove u.1 t
  end.

Section store.
Context {F : Type} `{ReliableFile F}.
Implicit Types (t : BTree F) (m : kvmap) (k v : bytes).

Lemma tree_get_law t m k : tree_map t m ->
  exists t', get k t = (Ok (m !! k), t') /\ tree_map t' m /\ forall u, tree_can t' u = tree_can t u.
Proof.
  intros Ht. destruct (tree_map_lookup t m k Ht) as (t' & E & Ht' & Hp & Hc). exists t'.
  split; [exact E|]. split; [exact Ht'|]. intros [k' [v|]]; unfold tree_can; cbn [fst snd]; [by rewrite Hp|apply Hc].
Qed.

Lemma tree_insert_law t m k v : tree_map t m -> tree_can t (k, Some v) = true ->
  exists t', insert k v t = (Ok tt, t') /\ tree_map t' (<[k := v]> m).
Proof.
  intros Ht [Hs%small_entry_iff Hp%Z.ltb_lt]%andb_true_iff.
  destruct (tree_map_insert t m k v Ht Hp Hs) as (t' & E & Ht' & _). by exists t'.
Qed.

Lemma tree_remove_law t m k : tree_map t m -> tree_can t (k, None) = true ->
  exists t', BTree.remove k t = (Ok (bool_decide (is_Some (m !! k))), t') /\ tree_map t' (delete k m).
Proof.
  intros Ht Hc. destruct (tree_map_remove t m k Ht Hc) as (t' & E & Ht' & _). by exists t'.
Qed.

(** Flushing the file under the pool changes no page. *)
Lemma pool_flush_ok D L b a :
  pool_rep D L b a ->
  exists b', on_fl (on_dm DiskManager.flush) b = (Ok tt, b') /\ pool_rep D L b' a /\
    forall j, bp_disk b' j = bp_disk b j.
Proof.
  intros Hr. pose proof (inv_fl D b (pr_inv _ _ _ _ Hr)) as ([Hd Hp Hm Hi] & Hc & Hids).
  destruct (flush_ok (dm (pool_fl b)) Hd) as (d' & E & N & D' & Sd).
  set (fl' := mkFL d' (free_pages_ (pool_fl b))). exists (set_fl fl' b).
  assert (P0 : page0 fl' = page0 (pool_fl b)) by (unfold page0; simpl; apply Sd).
  pose proof (pr_num _ _ _ _ Hr) as Hn. unfold bp_num in Hn.
  split; [apply on_fl_eq; by apply on_dm_eq|]. split; [|intros j; unfold bp_disk; simpl; apply Sd].
  eapply pool_rep_ext; [apply (rep_set_fl D L b a fl' (a_page a) Hr)|done|..].
  - unfold fl_synced. rewrite P0. split; [|by split]. split; simpl; [done|lia|done|done].
  - simpl. lia.
  - intros j Hj. split; [|done]. left. simpl. apply Sd.
  - simpl. intros j Hj. lia.
  - simpl. rewrite (pr_list _ _ _ _ Hr). apply (pr_nodup _ _ _ _ Hr).
  - simpl. intros id. rewrite (pr_list _ _ _ _ Hr), N, Hn. apply (pr_free _ _ _ _ Hr).
  - simpl. by rewrite N.
  - simpl. symmetry. apply (pr_list _ _ _ _ Hr).
  - simpl. rewrite P0. symmetry. apply (pr_root _ _ _ _ Hr).
  - done.
Qed.

(** After [sync] every page is on disk as the pool has it. *)
Lemma sync_ok t a :
  pool_rep ∅ [] (bp_ t) a ->
  exists b', sync t = (Ok tt, set_bp b' t) /\ pool_rep ∅ [] b' a /\
    forall j, 0 < j < a_num a -> bp_disk b' j = a_page a j.
Proof.
  intros Hr. destruct (flush_all_ok [] (bp_ t) a Hr) as (b1 & E1 & Hr1 & Hd1).
  destruct (pool_flush_ok ∅ [] b1 a Hr1) as (b2 & E2 & Hr2 & Hd2).
  exists b2. split; [|split; [done|]].
  - unfold sync. mstep (on_bp_eq flush_all t b1 (Ok tt) E1).
    by rewrite (on_bp_eq _ (set_bp b1 t) b2 (Ok tt) E2).
  - intros j Hj. rewrite Hd2. by apply Hd1.
Qed.

Lemma tree_inv_pool t a h kvs pids b' :
  tree_inv t a h kvs pids -> pool_rep ∅ [] b' a -> tree_inv (set_bp b' t) a h kvs pids.
Proof. intros [Ht Hp Hs] Hb. split; [by apply tree_rep_pool|done|done]. Qed.

Lemma tree_sync_law t m : tree_map t m -> exists t', sync t = (Ok tt, t') /\ tree_map t' m.
Proof.
  intros (a & h & kvs & pids & Hi & Hm & Hc).
  destruct (sync_ok t a (tr_pool _ _ _ _ _ (ti_rep _ _ _ _ _ Hi))) as (b' & E & Hr' & _).
  exists (set_bp b' t). split; [done|]. exists a, h, kvs, pids. split; [by apply tree_inv_pool|done].
Qed.
End store.

#[export] Instance tree_laws {F : Type} `{ReliableFile F} : KVLaws (BTree F) := {|
  kv_rep := tree_map;
  kv_can := tree_can;
  kv_get_ok := tree_get_law;
  kv_insert_ok := tree_insert_law;
  kv_remove_ok := tree_remove_law;
  kv_sync_ok := tree_sync_law;
|}.

(** ** Sequences of updates *)

Section sequences.
Context {F : Type} `{ReliableFile F}.
Implicit Types (t : BTree F) (m : kvmap) (us : list update).

Definition small_insert (u : update) : Prop := exists v, u.2 = Some v /\ kv_small (u.1, v).

(** Insertions of small entries, while there are page numbers. *)
Lemma inserts_can t m us :
  tree_map t m -> Forall small_insert us -> tree_pages t + 33 * zlen us < 2 ^ 31 -> can_all us t = true.
Proof.
  revert t m. induction us as [|[k o] us IH]; intros t m Ht Hs Hn; [done|].
  apply Forall_cons in Hs as [(v & Hv & Hkv) Hs]. cbn [fst snd] in Hv, Hkv. subst o.
  rewrite zlen_cons in Hn. pose proof (zlen_nonneg us).
  destruct (tree_map_insert t m k v Ht ltac:(lia) Hkv) as (t' & E & Ht' & Hp).
  cbn [can_all]. apply andb_true_iff. split.
  - apply andb_true_iff. split; [by apply small_entry_iff|apply Z.ltb_lt; cbn [fst snd]; lia].
  - change ((do_update (k, Some v) t).2) with (insert k v t).2. rewrite E. apply (IH t' _ Ht' Hs). simpl. lia.
Qed.
End sequences.
