(* ===== verification/LogManager.v ===== *)
(** * The write-ahead log ([src/src/wal/wal_defs.h], [log_manager.h], [log_manager.cpp])

    The file is reached through the calls of [PosixFile] and [ftruncate].  The
    mutex of the class makes each method one step.  The loops over the file
    have the number of its bytes as fuel: every turn moves at least a header
    on.  [off_t] is 64 bits wide and holds every offset of a real file, so
    offsets are not wrapped. *)

From S2P Require Import Prelude.
From S2P Require Import Buffers.
From S2P Require Import DiskManager.

Inductive WalRecordType : Type :=
| INVALID | BEGIN | WRITE | COMMIT | ABORT
| UNKNOWN (raw : Z). (* the other values of the underlying [uint32_t] *)

#[export] Instance WalRecordType_eq_dec : EqDecision WalRecordType.
Proof. solve_decision. Defined.

Definition WalRecordType_to_Z (ty : WalRecordType) : Z :=
  match ty with INVALID => 0 | BEGIN => 1 | WRITE => 2 | COMMIT => 3 | ABORT => 4 | UNKNOWN raw => raw end.
Definition WalRecordType_of_Z (z : Z) : WalRecordType :=
  if z =? 0 then INVALID else if z =? 1 then BEGIN else if z =? 2 then WRITE
  else if z =? 3 then COMMIT else if z =? 4 then ABORT else UNKNOWN z.

Record WalRecordHeader : Type := mkHeader {
  hdr_lsn : Z;
  hdr_txn_id : Z;
  hdr_type : WalRecordType;
  hdr_key_len : Z;
  hdr_before_len : Z;
  hdr_after_len : Z;
}.

Definition WAL_HEADER_SIZE : Z := 32.

(** The packed struct as bytes. *)
Definition enc_header (h : WalRecordHeader) : bytes :=
  le_enc 8 (hdr_lsn h) ++ le_enc 8 (hdr_txn_id h) ++ le_enc 4 (WalRecordType_to_Z (hdr_type h)) ++
  le_enc 4 (hdr_key_len h) ++ le_enc 4 (hdr_before_len h) ++ le_enc 4 (hdr_after_len h).
Definition dec_header (bs : bytes) : WalRecordHeader :=
  mkHeader (get_s 8 0 bs) (get_s 8 8 bs) (WalRecordType_of_Z (get_u 4 16 bs))
    (get_u 4 20 bs) (get_u 4 24 bs) (get_u 4 28 bs).

Record WalRecord : Type := mkRecord {
  lsn : Z;
  txn_id : Z;
  type : WalRecordType;
  key : bytes;
  before_val : bytes;
  after_val : bytes;
  before_exists : bool;
}.

#[export] Instance WalRecord_eq_dec : EqDecision WalRecord.
Proof. solve_decision. Defined.

Definition set_lsn (n : Z) (r : WalRecord) : WalRecord :=
  mkRecord n (txn_id r) (type r) (key r) (before_val r) (after_val r) (before_exists r).

(** A record with no payload, as [begin_txn], [append_commit] and
    [append_abort] fill it in. *)
Definition control_record (txn : Z) (ty : WalRecordType) : WalRecord :=
  mkRecord 0 txn ty [] [] [] false.

Definition header_of (r : WalRecord) : WalRecordHeader :=
  mkHeader (lsn r) (txn_id r) (type r)
    (wrap 32 (zlen (key r))) (wrap 32 (zlen (before_val r))) (wrap 32 (zlen (after_val r))).

(** The contiguous buffer of [append_record_locked]. *)
Definition serialize (r : WalRecord) : bytes :=
  enc_header (header_of r) ++ key r ++ before_val r ++ after_val r.

Class TruncFile (F : Type) : Type := { ftruncate : Z -> F -> Z * F }.

Record LogManager (F : Type) : Type := mkLM { log_fd : F; next_lsn_ : Z; next_txn_id_ : Z }.
Arguments mkLM {F} log_fd next_lsn_ next_txn_id_.
Arguments log_fd {F} l.
Arguments next_lsn_ {F} l.
Arguments next_txn_id_ {F} l.

Section ops.
Context {F : Type} `{PosixFile F, TruncFile F}.

Definition set_log_fd (f : F) (l : LogManager F) : LogManager F := mkLM f (next_lsn_ l) (next_txn_id_ l).
Definition set_next_lsn (n : Z) (l : LogManager F) : LogManager F := mkLM (log_fd l) n (next_txn_id_ l).
Definition set_next_txn_id (n : Z) (l : LogManager F) : LogManager F := mkLM (log_fd l) (next_lsn_ l) n.

(** [pread(fd_, &hdr, sizeof(hdr), offset)]; [None] when the loop breaks: an
    error, the end of the file, a truncated header or a zeroed tail. *)
Definition read_header (offset : Z) (f : F) : option WalRecordHeader :=
  match pread WAL_HEADER_SIZE offset f with
  | None => None
  | Some bs =>
      if zlen bs <? WAL_HEADER_SIZE then None
      else
        let hdr := dec_header bs in
        if bool_decide (hdr_type hdr = INVALID) then None else Some hdr
  end.

(** The loop of [scan_for_max_ids]: the largest LSN and transaction id. *)
Fixpoint scan_loop (fuel : nat) (offset max_lsn max_txn_id : Z) (f : F) : result (Z * Z) :=
  match read_header offset f with
  | None => Ok (max_lsn, max_txn_id)
  | Some hdr =>
      match fuel with
      | O => Err OutOfFuel
      | S fuel' =>
          scan_loop fuel'
            (offset + WAL_HEADER_SIZE + hdr_key_len hdr + hdr_before_len hdr + hdr_after_len hdr)
            (if max_lsn <? hdr_lsn hdr then hdr_lsn hdr else max_lsn)
            (if max_txn_id <? hdr_txn_id hdr then hdr_txn_id hdr else max_txn_id) f
      end
  end.

Definition log_fuel (f : F) : nat := Z.to_nat (lseek_end f).

Definition scan_for_max_ids : M (LogManager F) unit :=
  let* l := getS in
  let* m := query (fun _ => scan_loop (log_fuel (log_fd l)) 0 0 0 (log_fd l)) in
  do* (if 0 <? m.1 then modifyS (set_next_lsn (swrap 64 (m.1 + 1))) else ret tt) in
  if 0 <? m.2 then modifyS (set_next_txn_id (swrap 64 (m.2 + 1))) else ret tt.

(** The constructor, given what [open] returned. *)
Definition LogManager_ctor (opened : option F) : result (LogManager F) :=
  match opened with
  | None => Err StdSystemError
  | Some f =>
      let '(r, l) := scan_for_max_ids (mkLM f 1 1) in
      do? r in Ok l
  end.

Definition append_record_locked (rec : WalRecord) : M (LogManager F) Z :=
  let* l := getS in
  let rec := set_lsn (next_lsn_ l) rec in
  do* modifyS (set_next_lsn (swrap 64 (next_lsn_ l + 1))) in
  let buf := serialize rec in
  let end_ := lseek_end (log_fd l) in
  if end_ <? 0 then throw StdSystemError
  else
    let '(n, f) := pwrite buf end_ (log_fd l) in
    do* modifyS (set_log_fd f) in
    if n <? 0 then throw StdSystemError
    else if negb (n =? zlen buf) then throw StdRuntimeError
    else ret (lsn rec).

(** The new transaction id, the LSN goes unused in the source. *)
Definition begin_txn : M (LogManager F) (Z * Z) :=
  let* l := getS in
  let out_txn_id := next_txn_id_ l in
  do* modifyS (set_next_txn_id (swrap 64 (out_txn_id + 1))) in
  let* n := append_record_locked (control_record out_txn_id BEGIN) in
  ret (out_txn_id, n).

Definition append_write (txn : Z) (k : bytes) (before_exists : bool) (before_val after_val : bytes)
  : M (LogManager F) Z :=
  append_record_locked
    (mkRecord 0 txn WRITE k (if before_exists then before_val else []) after_val before_exists).

Definition append_commit (txn : Z) : M (LogManager F) Z := append_record_locked (control_record txn COMMIT).
Definition append_abort (txn : Z) : M (LogManager F) Z := append_record_locked (control_record txn ABORT).

Definition flush : M (LogManager F) unit :=
  fun l =>
    let '(r, f) := fsync (log_fd l) in
    (if r <? 0 then Err StdSystemError else Ok tt, set_log_fd f l).

(** A field of the payload; [len = 0]: nothing is read. *)
Definition read_field (len offset : Z) (f : F) : result bytes :=
  if 0 <? len then
    match pread len offset f with
    | None => Err StdRuntimeError
    | Some bs => if zlen bs =? len then Ok bs else Err StdRuntimeError
    end
  else Ok [].

(** The loop of [read_all]. *)
Fixpoint read_loop (fuel : nat) (offset : Z) (out_records : list WalRecord) (f : F)
  : result (list WalRecord) :=
  match read_header offset f with
  | None => Ok out_records
  | Some hdr =>
      match fuel with
      | O => Err OutOfFuel
      | S fuel' =>
          let off1 := offset + WAL_HEADER_SIZE in
          let? k := read_field (hdr_key_len hdr) off1 f in
          let off2 := off1 + hdr_key_len hdr in
          let? bv := read_field (hdr_before_len hdr) off2 f in
          let off3 := off2 + hdr_before_len hdr in
          let? av := read_field (hdr_after_len hdr) off3 f in
          let rec := mkRecord (hdr_lsn hdr) (hdr_txn_id hdr) (hdr_type hdr) k bv av
                       (0 <? hdr_before_len hdr) in
          read_loop fuel' (off3 + hdr_after_len hdr) (out_records ++ [rec]) f
      end
  end.

Definition read_all (l : LogManager F) : result (list WalRecord) :=
  read_loop (log_fuel (log_fd l)) 0 [] (log_fd l).

Definition truncate : M (LogManager F) unit :=
  fun l =>
    let '(r, f) := ftruncate 0 (log_fd l) in
    let l' := set_log_fd f l in
    if r <? 0 then (Err StdSystemError, l') else (Ok tt, mkLM f 1 1).
End ops.
