(* ===== verification/LogRep.v ===== *)
(** * What the log file holds

    [log_rep l rs]: the file is the serialization of the records [rs], whose
    LSNs are 1, 2, ..., and the counters follow the last of them.  Appending
    and truncating keep it; reading the file back and reopening it recover
    the records (up to [before_exists], which the format has no field for)
    and the counters. *)

From S2P Require Import Prelude.
From S2P Require Import Buffers.
From S2P Require Import DiskManager.
From S2P Require Import LogManager.

(** A medium that neither fails nor runs out of space, with reads that are
    short at the end of the file only, and its truncation. *)
Class ReliableLog (F : Type) `{ReliableFile F, TruncFile F} : Type := {
  pread_eof : forall (f : F) (n off : Z),
    0 <= off -> 0 <= n -> pread n off f = Some (rd off n (content f));
  ftruncate_reliable : forall f : F, exists f', ftruncate 0 f = (0, f') /\ content f' = [];
}.

#[export] Instance mem_trunc : TruncFile MemFile := {| ftruncate n f := (0, take (Z.to_nat n) f) |}.

#[export] Instance mem_log : ReliableLog MemFile.
Proof.
  split.
  - done.
  - intros f. by exists [].
Defined.

(** ** Headers *)

Lemma WalRecordType_of_to_Z (ty : WalRecordType) :
  (forall z, ty <> UNKNOWN z) -> WalRecordType_of_Z (WalRecordType_to_Z ty) = ty.
Proof. intros Hk. destruct ty as [| | | | |z]; try done. by destruct (Hk z). Qed.

Lemma zlen_enc_header h : zlen (enc_header h) = WAL_HEADER_SIZE.
Proof. unfold enc_header. rewrite !zlen_app, !zlen_le_enc. done. Qed.

Record hdr_ok (h : WalRecordHeader) : Prop := {
  ho_lsn : - 2 ^ 63 <= hdr_lsn h < 2 ^ 63;
  ho_txn : - 2 ^ 63 <= hdr_txn_id h < 2 ^ 63;
  ho_type : forall z, hdr_type h <> UNKNOWN z;
  ho_key : 0 <= hdr_key_len h < 2 ^ 32;
  ho_before : 0 <= hdr_before_len h < 2 ^ 32;
  ho_after : 0 <= hdr_after_len h < 2 ^ 32;
}.

(** A field of a sequence of encoded integers. *)
Lemma get_u_at (pre post : bytes) (n : nat) (off z : Z) :
  off = zlen pre -> 0 <= z < 256 ^ Z.of_nat n ->
  get_u (Z.of_nat n) off (pre ++ le_enc n z ++ post) = z.
Proof.
  intros -> Hz. unfold get_u. rewrite rd_app_r by lia. rewrite Z.sub_diag.
  rewrite rd_app_l by by rewrite zlen_le_enc. rewrite le_dec_enc. by apply Z.mod_small.
Qed.

Lemma get_s_at (pre post : bytes) (n : nat) (off z : Z) :
  off = zlen pre -> (0 < n)%nat -> - 2 ^ (8 * Z.of_nat n - 1) <= z < 2 ^ (8 * Z.of_nat n - 1) ->
  get_s (Z.of_nat n) off (pre ++ le_enc n z ++ post) = z.
Proof.
  intros -> Hn Hz. unfold get_s. rewrite rd_app_r by lia. rewrite Z.sub_diag.
  rewrite rd_app_l by by rewrite zlen_le_enc. rewrite le_dec_enc.
  replace (256 ^ Z.of_nat n) with (2 ^ (8 * Z.of_nat n)) by by rewrite Z.pow_mul_r by lia.
  rewrite swrap_mod. apply swrap_small; lia.
Qed.

Lemma dec_enc_header h : hdr_ok h -> dec_header (enc_header h) = h.
Proof.
  intros [H1 H2 H3 H4 H5 H6]. destruct h as [a b ty kl bl al]. cbn in *. unfold dec_header, enc_header.
  cbn [hdr_lsn hdr_txn_id hdr_type hdr_key_len hdr_before_len hdr_after_len].
  set (ea := le_enc 8 a). set (eb := le_enc 8 b). set (et := le_enc 4 (WalRecordType_to_Z ty)).
  set (ek := le_enc 4 kl). set (ebl := le_enc 4 bl). set (eal := le_enc 4 al).
  assert (L8 : zlen ea = 8) by apply zlen_le_enc. assert (L16 : zlen (ea ++ eb) = 16)
    by (rewrite zlen_app, L8; unfold eb; by rewrite zlen_le_enc).
  assert (L20 : zlen ((ea ++ eb) ++ et) = 20) by (rewrite zlen_app, L16; unfold et; by rewrite zlen_le_enc).
  assert (L24 : zlen (((ea ++ eb) ++ et) ++ ek) = 24) by (rewrite zlen_app, L20; unfold ek; by rewrite zlen_le_enc).
  assert (L28 : zlen ((((ea ++ eb) ++ et) ++ ek) ++ ebl) = 28)
    by (rewrite zlen_app, L24; unfold ebl; by rewrite zlen_le_enc).
  f_equal.
  - apply (get_s_at [] _ 8); [done|lia|done].
  - apply (get_s_at ea _ 8); [done|lia|done].
  - rewrite (app_assoc ea). change 4 with (Z.of_nat 4). unfold et at 1.
    rewrite (get_u_at (ea ++ eb) _ 4); [by apply WalRecordType_of_to_Z|done|].
    destruct ty as [| | | | |z]; cbn; try lia. by destruct (H3 z).
  - rewrite !(app_assoc ea), (app_assoc (ea ++ eb)). by apply (get_u_at _ _ 4).
  - rewrite !(app_assoc ea), (app_assoc (ea ++ eb)), (app_assoc ((ea ++ eb) ++ et)).
    by apply (get_u_at _ _ 4).
  - rewrite !(app_assoc ea), (app_assoc (ea ++ eb)), (app_assoc ((ea ++ eb) ++ et)).
    rewrite (app_assoc (((ea ++ eb) ++ et) ++ ek)). rewrite <- (app_nil_r eal).
    by apply (get_u_at _ _ 4).
Qed.

(** ** Records *)

Record rec_ok (r : WalRecord) : Prop := {
  ro_lsn : 0 < lsn r < 2 ^ 63;
  ro_txn : 0 < txn_id r < 2 ^ 63;
  ro_type : forall z, type r <> UNKNOWN z;
  ro_valid : type r <> INVALID;
  ro_key : zlen (key r) < 2 ^ 32;
  ro_before : zlen (before_val r) < 2 ^ 32;
  ro_after : zlen (after_val r) < 2 ^ 32;
}.

(** What a reader sees of a record: [before_exists] is gone and guessed from
    the before image. *)
Definition as_read (r : WalRecord) : WalRecord :=
  mkRecord (lsn r) (txn_id r) (type r) (key r) (before_val r) (after_val r) (0 <? zlen (before_val r)).

Definition payload (r : WalRecord) : bytes := key r ++ before_val r ++ after_val r.
Lemma as_read_all rs : Forall (fun r => as_read r = r) rs -> as_read <$> rs = rs.
Proof. induction 1 as [|r rs Hr _ IH]; [done|]. by rewrite fmap_cons, Hr, IH. Qed.

Definition log_bytes (rs : list WalRecord) : bytes := concat (serialize <$> rs).

Lemma header_of_ok r : rec_ok r -> hdr_ok (header_of r) /\
  hdr_key_len (header_of r) = zlen (key r) /\ hdr_before_len (header_of r) = zlen (before_val r) /\
  hdr_after_len (header_of r) = zlen (after_val r).
Proof.
  intros []. pose proof (zlen_nonneg (key r)). pose proof (zlen_nonneg (before_val r)).
  pose proof (zlen_nonneg (after_val r)). unfold header_of, wrap.
  rewrite !Z.mod_small by lia. split; [|done]. split; cbn; try lia; done.
Qed.

Lemma zlen_serialize r : zlen (serialize r) = WAL_HEADER_SIZE + zlen (payload r).
Proof. unfold serialize. rewrite zlen_app, zlen_enc_header. done. Qed.

Lemma log_bytes_app rs1 rs2 : log_bytes (rs1 ++ rs2) = log_bytes rs1 ++ log_bytes rs2.
Proof. unfold log_bytes. by rewrite fmap_app, concat_app. Qed.

Lemma log_bytes_snoc rs r : log_bytes (rs ++ [r]) = log_bytes rs ++ serialize r.
Proof. rewrite log_bytes_app. unfold log_bytes at 2. cbn. by rewrite app_nil_r. Qed.

Lemma log_bytes_length rs : (length rs <= length (log_bytes rs))%nat.
Proof.
  induction rs as [|r rs IH]; [done|]. change (log_bytes (r :: rs)) with (serialize r ++ log_bytes rs).
  rewrite length_app. cbn [length]. pose proof (zlen_serialize r) as Hl. pose proof (zlen_nonneg (payload r)).
  unfold zlen, WAL_HEADER_SIZE in *. lia.
Qed.

(** ** Reading at an offset *)

Section read.
Context {F : Type} `{ReliableLog F}.
Implicit Types (f : F) (pre rest : bytes) (r : WalRecord) (rs : list WalRecord).

(** Where the loops stop: no complete header, or a zero type. *)
Definition log_end rest : Prop :=
  zlen rest < WAL_HEADER_SIZE \/ hdr_type (dec_header (rd 0 WAL_HEADER_SIZE rest)) = INVALID.

Lemma rd_at f pre rest n :
  content f = pre ++ rest -> 0 <= n -> pread n (zlen pre) f = Some (rd 0 n rest).
Proof.
  intros Hc Hn. rewrite pread_eof by (apply zlen_nonneg || done). rewrite Hc, rd_app_r by lia.
  by rewrite Z.sub_diag.
Qed.

Lemma zlen_rd_le n (l : bytes) : 0 <= n -> zlen (rd 0 n l) = Z.min n (zlen l).
Proof. intros Hn. unfold rd, zlen. rewrite length_take, length_drop. change (Z.to_nat 0) with O. lia. Qed.

Lemma read_header_end f pre rest :
  content f = pre ++ rest -> log_end rest -> read_header (zlen pre) f = None.
Proof.
  intros Hc He. unfold read_header. rewrite (rd_at f pre rest) by done.
  rewrite zlen_rd_le by done. destruct (Z.ltb_spec (Z.min WAL_HEADER_SIZE (zlen rest)) WAL_HEADER_SIZE); [done|].
  destruct He as [He|He]; [lia|]. by rewrite bool_decide_eq_true_2.
Qed.

Lemma read_header_ok f pre rest r :
  content f = pre ++ enc_header (header_of r) ++ rest -> rec_ok r ->
  read_header (zlen pre) f = Some (header_of r).
Proof.
  intros Hc Hr. unfold read_header. rewrite (rd_at f pre (enc_header (header_of r) ++ rest)) by done.
  rewrite rd_app_l by by rewrite zlen_enc_header.
  rewrite zlen_enc_header, Z.ltb_irrefl. cbv zeta. rewrite dec_enc_header by by apply header_of_ok.
  rewrite bool_decide_eq_false_2; [done|]. apply (ro_valid r Hr).
Qed.

Lemma read_field_ok f pre fld rest n off :
  content f = pre ++ fld ++ rest -> n = zlen fld -> off = zlen pre -> read_field n off f = Ok fld.
Proof.
  intros Hc -> ->. unfold read_field. destruct (Z.ltb_spec 0 (zlen fld)) as [Hp|Hp].
  - rewrite (rd_at f pre (fld ++ rest)) by (done || lia). rewrite rd_app_l by done. by rewrite Z.eqb_refl.
  - destruct fld as [|x fld]; [done|]. rewrite zlen_cons in Hp. pose proof (zlen_nonneg fld). lia.
Qed.

Lemma read_field_short f pre rest n :
  content f = pre ++ rest -> zlen rest < n -> read_field n (zlen pre) f = Err StdRuntimeError.
Proof.
  intros Hc Hn. pose proof (zlen_nonneg rest). unfold read_field. rewrite (proj2 (Z.ltb_lt _ _)) by lia.
  rewrite (rd_at f pre rest) by (done || lia). rewrite zlen_rd_le by lia.
  by rewrite (proj2 (Z.eqb_neq _ _)) by lia.
Qed.

(** One turn of each loop over a complete record. *)
Lemma read_loop_record fuel f pre rest out r :
  content f = pre ++ serialize r ++ rest -> rec_ok r ->
  read_loop (S fuel) (zlen pre) out f =
  read_loop fuel (zlen (pre ++ serialize r)) (out ++ [as_read r]) f.
Proof.
  intros Hc Hr. destruct (header_of_ok r Hr) as (_ & Ek & Eb & Ea).
  assert (Hc' : content f = pre ++ enc_header (header_of r) ++ key r ++ before_val r ++ after_val r ++ rest)
    by (rewrite Hc; unfold serialize; by rewrite <- !app_assoc).
  cbn [read_loop]. rewrite (read_header_ok f pre _ r Hc' Hr). cbv zeta. rewrite Ek, Eb, Ea.
  pose proof (zlen_enc_header (header_of r)) as Lh.
  rewrite (result_bind_ok _ _ (key r)).
  2:{ eapply (read_field_ok f (pre ++ enc_header (header_of r))); [by rewrite Hc', <- !app_assoc|done|].
      rewrite zlen_app. lia. }
  rewrite (result_bind_ok _ _ (before_val r)).
  2:{ eapply (read_field_ok f (pre ++ enc_header (header_of r) ++ key r));
        [by rewrite Hc', <- !app_assoc|done|]. rewrite !zlen_app. lia. }
  rewrite (result_bind_ok _ _ (after_val r)).
  2:{ eapply (read_field_ok f (pre ++ enc_header (header_of r) ++ key r ++ before_val r));
        [by rewrite Hc', <- !app_assoc|done|]. rewrite !zlen_app. lia. }
  f_equal. rewrite !zlen_app, zlen_serialize. unfold payload. rewrite !zlen_app. lia.
Qed.

Lemma scan_loop_record fuel f pre rest ml mt r :
  content f = pre ++ serialize r ++ rest -> rec_ok r ->
  scan_loop (S fuel) (zlen pre) ml mt f =
  scan_loop fuel (zlen (pre ++ serialize r)) (Z.max ml (lsn r)) (Z.max mt (txn_id r)) f.
Proof.
  intros Hc Hr. destruct (header_of_ok r Hr) as (_ & Ek & Eb & Ea).
  assert (Hc' : content f = pre ++ enc_header (header_of r) ++ payload r ++ rest)
    by (rewrite Hc; unfold serialize, payload; by rewrite <- !app_assoc).
  cbn [scan_loop]. rewrite (read_header_ok f pre _ r Hc' Hr). rewrite Ek, Eb, Ea.
  cbn [header_of hdr_lsn hdr_txn_id]. f_equal.
  - rewrite zlen_app, zlen_serialize. unfold payload. rewrite !zlen_app. lia.
  - destruct (Z.ltb_spec ml (lsn r)); lia.
  - destruct (Z.ltb_spec mt (txn_id r)); lia.
Qed.

(** The loops over the records of a log. *)
Lemma read_loop_records f rs rest fuel pre out :
  content f = pre ++ log_bytes rs ++ rest -> Forall rec_ok rs ->
  read_loop (length rs + fuel) (zlen pre) out f =
  read_loop fuel (zlen (pre ++ log_bytes rs)) (out ++ (as_read <$> rs)) f.
Proof.
  revert pre out. induction rs as [|r rs IH]; intros pre out Hc Hrs.
  - unfold log_bytes. cbn. by rewrite !app_nil_r.
  - apply Forall_cons in Hrs as [Hr Hrs].
    change (log_bytes (r :: rs)) with (serialize r ++ log_bytes rs) in *.
    rewrite <- app_assoc in Hc. cbn [length Nat.add].
    rewrite (read_loop_record _ f pre _ out r Hc Hr).
    rewrite IH; [|by rewrite Hc, <- app_assoc|done].
    rewrite <- !app_assoc. done.
Qed.

Definition max_over (g : WalRecord -> Z) (z : Z) rs : Z := fold_left (fun m r => Z.max m (g r)) rs z.

Lemma scan_loop_records f rs rest fuel pre ml mt :
  content f = pre ++ log_bytes rs ++ rest -> Forall rec_ok rs ->
  scan_loop (length rs + fuel) (zlen pre) ml mt f =
  scan_loop fuel (zlen (pre ++ log_bytes rs)) (max_over lsn ml rs) (max_over txn_id mt rs) f.
Proof.
  revert pre ml mt. induction rs as [|r rs IH]; intros pre ml mt Hc Hrs.
  - unfold log_bytes. cbn. by rewrite !app_nil_r.
  - apply Forall_cons in Hrs as [Hr Hrs].
    change (log_bytes (r :: rs)) with (serialize r ++ log_bytes rs) in *.
    rewrite <- app_assoc in Hc. cbn [length Nat.add].
    rewrite (scan_loop_record _ f pre _ ml mt r Hc Hr).
    rewrite IH; [|by rewrite Hc, <- app_assoc|done].
    rewrite <- !app_assoc. done.
Qed.

Lemma fuel_split f rs rest :
  content f = log_bytes rs ++ rest -> exists k, log_fuel f = (length rs + k)%nat /\ (length rest <= k)%nat.
Proof.
  intros Hc. exists (log_fuel f - length rs)%nat. unfold log_fuel. rewrite lseek_end_reliable, Hc.
  pose proof (log_bytes_length rs). unfold zlen. rewrite length_app. lia.
Qed.

Lemma stop_read fuel f pre rest out :
  content f = pre ++ rest -> log_end rest -> read_loop fuel (zlen pre) out f = Ok out.
Proof. intros Hc He. destruct fuel; cbn [read_loop]; by rewrite (read_header_end f pre rest Hc He). Qed.

Lemma stop_scan fuel f pre rest ml mt :
  content f = pre ++ rest -> log_end rest -> scan_loop fuel (zlen pre) ml mt f = Ok (ml, mt).
Proof. intros Hc He. destruct fuel; cbn [scan_loop]; by rewrite (read_header_end f pre rest Hc He). Qed.

(** The records before a clean or torn end. *)
Lemma read_all_ok (l : LogManager F) rs rest :
  content (log_fd l) = log_bytes rs ++ rest -> Forall rec_ok rs -> log_end rest ->
  read_all l = Ok (as_read <$> rs).
Proof.
  intros Hc Hrs He. unfold read_all. destruct (fuel_split _ rs rest Hc) as (k & -> & _).
  change 0 with (zlen (@nil byte)). rewrite (read_loop_records _ rs rest k [] []) by done. cbn [app].
  eapply stop_read; [exact Hc|done].
Qed.

Lemma scan_ok f rs rest :
  content f = log_bytes rs ++ rest -> Forall rec_ok rs -> log_end rest ->
  scan_loop (log_fuel f) 0 0 0 f = Ok (max_over lsn 0 rs, max_over txn_id 0 rs).
Proof.
  intros Hc Hrs He. destruct (fuel_split _ rs rest Hc) as (k & -> & _).
  change (scan_loop (length rs + k) 0) with (scan_loop (length rs + k) (zlen (@nil byte))).
  rewrite (scan_loop_records _ rs rest k [] 0 0) by done. eapply stop_scan; [exact Hc|done].
Qed.
End read.

(** ** The log as a list of records *)

Section rep.
Context {F : Type} `{ReliableLog F}.
Implicit Types (l : LogManager F) (rs : list WalRecord) (r : WalRecord) (t : Z).

Definition max_txn rs : Z := max_over txn_id 0 rs.

Record log_core l rs : Prop := {
  lc_content : content (log_fd l) = log_bytes rs;
  lc_ok : Forall rec_ok rs;
  lc_lsns : forall i r, rs !! i = Some r -> lsn r = Z.of_nat i + 1;
  lc_next_lsn : next_lsn_ l = zlen rs + 1;
}.

Record log_rep l rs : Prop := {
  lr_core : log_core l rs;
  lr_next_txn : next_txn_id_ l = max_txn rs + 1;
}.

Lemma max_over_app (g : WalRecord -> Z) z rs1 rs2 :
  max_over g z (rs1 ++ rs2) = max_over g (max_over g z rs1) rs2.
Proof. apply fold_left_app. Qed.

Lemma max_over_cons (g : WalRecord -> Z) z r rs : max_over g z (r :: rs) = max_over g (Z.max z (g r)) rs.
Proof. done. Qed.

Lemma max_over_base (g : WalRecord -> Z) z rs : z <= max_over g z rs.
Proof.
  revert z. induction rs as [|r rs IH]; intros z; [done|]. rewrite max_over_cons.
  specialize (IH (Z.max z (g r))). lia.
Qed.

Lemma max_over_le (g : WalRecord -> Z) z rs r : r ∈ rs -> g r <= max_over g z rs.
Proof.
  revert z. induction rs as [|r' rs IH]; intros z Hr; [by apply not_elem_of_nil in Hr|].
  rewrite max_over_cons. apply elem_of_cons in Hr as [->|Hr]; [|by apply IH].
  pose proof (max_over_base g (Z.max z (g r')) rs). lia.
Qed.

Lemma max_txn_snoc rs r : max_txn (rs ++ [r]) = Z.max (max_txn rs) (txn_id r).
Proof. unfold max_txn. by rewrite max_over_app. Qed.

(** The LSNs being consecutive, the last one is the largest. *)
Lemma max_lsn rs :
  (forall i r, rs !! i = Some r -> lsn r = Z.of_nat i + 1) -> max_over lsn 0 rs = zlen rs.
Proof.
  induction rs as [|r rs IH] using rev_ind; intros Hl; [done|].
  rewrite max_over_app, IH.
  - assert (lsn r = Z.of_nat (length rs) + 1) as E.
    { apply Hl. rewrite lookup_app_r by lia. by rewrite Nat.sub_diag. }
    cbn. rewrite zlen_app, zlen_cons, zlen_nil. unfold zlen. lia.
  - intros i r' Hi. apply Hl. by apply lookup_app_l_Some.
Qed.

Lemma max_txn_nonneg rs : 0 <= max_txn rs.
Proof.
  unfold max_txn. assert (Hz : forall z, 0 <= z -> 0 <= max_over txn_id z rs); [|by apply Hz].
  induction rs as [|r rs IH]; intros z Hz; cbn; [done|]. apply IH. lia.
Qed.

Lemma log_end_nil : log_end [].
Proof. left. done. Qed.

Lemma wr_end (bs c : bytes) : wr (zlen c) bs c = c ++ bs.
Proof.
  unfold wr, zlen. rewrite Nat2Z.id, firstn_all, drop_ge by lia. by rewrite app_nil_r.
Qed.

(** An append, given that the record has a valid transaction and fits. *)
Lemma append_core l rs r :
  log_core l rs -> rec_ok (set_lsn (zlen rs + 1) r) -> zlen rs + 2 < 2 ^ 63 ->
  exists l', append_record_locked r l = (Ok (zlen rs + 1), l') /\
    log_core l' (rs ++ [set_lsn (zlen rs + 1) r]) /\ next_txn_id_ l' = next_txn_id_ l.
Proof.
  intros [Hc Hok Hl Hn] Hr Hb. unfold append_record_locked.
  mstep (eq_refl : getS l = (Ok l, l)). rewrite Hn. set (r' := set_lsn (zlen rs + 1) r) in *.
  set (l1 := set_next_lsn (swrap 64 (zlen rs + 1 + 1)) l).
  mstep (eq_refl : modifyS (set_next_lsn (swrap 64 (zlen rs + 1 + 1))) l = (Ok tt, l1)). cbv zeta.
  rewrite lseek_end_reliable. rewrite (proj2 (Z.ltb_ge _ _)) by apply zlen_nonneg.
  destruct (pwrite_reliable (log_fd l) (serialize r') (zlen (content (log_fd l)))) as (f & E & C).
  { pose proof (zlen_nonneg (content (log_fd l))). lia. }
  rewrite E. pose proof (zlen_nonneg (serialize r')).
  rewrite (bind_ok _ _ l1 (set_log_fd f l1) tt) by done.
  rewrite (proj2 (Z.ltb_ge _ _)) by lia. rewrite Z.eqb_refl. cbn [negb].
  exists (set_log_fd f l1). split; [done|]. split; [|done].
  split; cbn [set_log_fd set_next_lsn l1 log_fd next_lsn_ next_txn_id_].
  - rewrite C, wr_end, log_bytes_snoc. by rewrite Hc.
  - apply Forall_app. split; [done|]. by apply Forall_singleton.
  - intros i r0 [Hi|[Hi Hr0]]%lookup_app_Some; [by apply Hl|].
    apply list_lookup_singleton_Some in Hr0 as [Hi0 <-]. unfold r', zlen. cbn [lsn set_lsn]. lia.
  - rewrite zlen_app, zlen_cons, zlen_nil. pose proof (zlen_nonneg rs).
    change (2 ^ 63) with 9223372036854775808 in Hb. rewrite swrap_small; lia.
Qed.

Lemma append_ok l rs r :
  log_rep l rs -> rec_ok (set_lsn (zlen rs + 1) r) -> txn_id r <= max_txn rs ->
  zlen rs + 2 < 2 ^ 63 ->
  exists l', append_record_locked r l = (Ok (zlen rs + 1), l') /\
    log_rep l' (rs ++ [set_lsn (zlen rs + 1) r]).
Proof.
  intros [Hc Ht] Hr Hm Hb. destruct (append_core l rs r Hc Hr Hb) as (l' & E & Hc' & Ht').
  exists l'. split; [done|]. split; [done|]. rewrite max_txn_snoc, Ht', Ht. cbn [txn_id set_lsn]. lia.
Qed.

(** The constructor on an existing log, possibly with a torn tail. *)
Lemma reopen_ok f rs rest :
  content f = log_bytes rs ++ rest -> Forall rec_ok rs -> log_end rest ->
  (forall i r, rs !! i = Some r -> lsn r = Z.of_nat i + 1) -> zlen rs + 1 < 2 ^ 63 ->
  max_txn rs + 1 < 2 ^ 63 ->
  LogManager_ctor (Some f) = Ok (mkLM f (zlen rs + 1) (max_txn rs + 1)).
Proof.
  intros Hc Hok He Hl Hb Hbt. unfold LogManager_ctor, scan_for_max_ids.
  mstep (eq_refl : getS (mkLM f 1 1) = (Ok (mkLM f 1 1), mkLM f 1 1)). cbn [log_fd].
  rewrite (bind_query _ _ (mkLM f 1 1) _ (scan_ok f rs rest Hc Hok He)). cbn [fst snd].
  rewrite (max_lsn rs Hl). fold (max_txn rs). pose proof (max_txn_nonneg rs). pose proof (zlen_nonneg rs).
  rewrite !swrap_small by lia.
  destruct (Z.ltb_spec 0 (zlen rs)), (Z.ltb_spec 0 (max_txn rs));
    unfold bind, modifyS, set_next_lsn, set_next_txn_id, ret; cbn; do 2 f_equal; lia.
Qed.

Lemma log_rep_read l rs : log_rep l rs -> read_all l = Ok (as_read <$> rs).
Proof.
  intros Hr. apply (read_all_ok l rs []); [|apply (lc_ok l rs (lr_core l rs Hr))|apply log_end_nil].
  by rewrite app_nil_r, (lc_content l rs (lr_core l rs Hr)).
Qed.

Lemma rec_ok_bounds rs r : Forall rec_ok rs -> r ∈ rs -> 0 < txn_id r < 2 ^ 63.
Proof. intros Hok Hr. rewrite Forall_forall in Hok. apply (ro_txn r), Hok, Hr. Qed.

Lemma control_ok n t ty :
  0 < n < 2 ^ 63 -> 0 < t < 2 ^ 63 -> (forall z, ty <> UNKNOWN z) -> ty <> INVALID ->
  rec_ok (set_lsn n (control_record t ty)).
Proof. intros Hn Ht Hk Hi. split; done. Qed.

(** A new transaction gets an id that the log does not have yet. *)
Lemma begin_ok l rs :
  log_rep l rs -> zlen rs + 2 < 2 ^ 63 -> max_txn rs + 2 < 2 ^ 63 ->
  exists l', begin_txn l = (Ok (max_txn rs + 1, zlen rs + 1), l') /\
    log_rep l' (rs ++ [set_lsn (zlen rs + 1) (control_record (max_txn rs + 1) BEGIN)]) /\
    forall r, r ∈ rs -> txn_id r <> max_txn rs + 1.
Proof.
  intros [Hc Ht] Hb Hbt. unfold begin_txn. mstep (eq_refl : getS l = (Ok l, l)). rewrite Ht. cbv zeta.
  pose proof (max_txn_nonneg rs). pose proof (zlen_nonneg rs).
  change (2 ^ 63) with 9223372036854775808 in *. rewrite swrap_small by lia.
  set (l1 := set_next_txn_id (max_txn rs + 1 + 1) l).
  mstep (eq_refl : modifyS (set_next_txn_id (max_txn rs + 1 + 1)) l = (Ok tt, l1)).
  destruct (append_core l1 rs (control_record (max_txn rs + 1) BEGIN)) as (l2 & E2 & Hc2 & Ht2).
  - by destruct Hc.
  - apply control_ok; (lia || done).
  - done.
  - mstep E2. exists l2. split; [done|]. split; [split; [done|]|].
    + rewrite max_txn_snoc, Ht2. cbn. lia.
    + intros r Hr Heq. pose proof (max_over_le txn_id 0 rs r Hr) as Hle.
      fold (max_txn rs) in Hle. lia.
Qed.

Lemma truncate_ok l : exists l', truncate l = (Ok tt, l') /\ log_rep l' [].
Proof.
  destruct (ftruncate_reliable (log_fd l)) as (f & E & C). exists (mkLM f 1 1). unfold truncate. rewrite E.
  split; [done|]. split; [|done]. split; [done|constructor| |done]. intros i r Hi. by rewrite lookup_nil in Hi.
Qed.

Lemma log_flush_ok l rs : log_rep l rs -> exists l', flush l = (Ok tt, l') /\ log_rep l' rs.
Proof.
  intros [[Hc Hok Hl Hn] Ht]. destruct (fsync_reliable (log_fd l)) as (f & E & C).
  exists (set_log_fd f l). unfold flush. rewrite E. split; [done|].
  split; [split; [by rewrite <- Hc|done..]|done].
Qed.

(** ** Torn appends *)

(** The part of an append that a crash leaves: the first [n] bytes. *)
Lemma torn_header r n :
  (n < Z.to_nat WAL_HEADER_SIZE)%nat -> log_end (take n (serialize r)).
Proof. intros Hn. left. unfold zlen. rewrite length_take. unfold WAL_HEADER_SIZE in *. lia. Qed.

Lemma take_app_case {A} n (a b : list A) :
  ((n < length a)%nat /\ take n (a ++ b) = take n a) \/
  ((length a <= n)%nat /\ take n (a ++ b) = a ++ take (n - length a) b).
Proof.
  destruct (decide (n < length a)%nat).
  - left. split; [done|]. by rewrite take_app_le by lia.
  - right. split; [lia|]. by rewrite take_app_ge by lia.
Qed.

Lemma zlen_take_lt {A} n (a : list A) : (n < length a)%nat -> zlen (take n a) < zlen a.
Proof. intros Hn. unfold zlen. rewrite length_take. lia. Qed.

(** A payload cut short makes the read of one of its fields fail. *)
Lemma torn_fields {A} f pre r n (k : bytes -> bytes -> bytes -> result A) :
  content f = pre ++ take n (payload r) -> (n < length (payload r))%nat ->
  (let? kk := read_field (zlen (key r)) (zlen pre) f in
   let? bv := read_field (zlen (before_val r)) (zlen pre + zlen (key r)) f in
   let? av := read_field (zlen (after_val r)) (zlen pre + zlen (key r) + zlen (before_val r)) f in
   k kk bv av) = Err StdRuntimeError.
Proof.
  intros Hc Hn. unfold payload in *.
  destruct (take_app_case n (key r) (before_val r ++ after_val r)) as [[Hk E]|[Hk E]]; rewrite E in Hc.
  { by rewrite (read_field_short f pre _ _ Hc) by by apply zlen_take_lt. }
  rewrite (result_bind_ok _ _ (key r)) by by eapply read_field_ok.
  rewrite app_assoc in Hc. rewrite !length_app in Hn. rewrite <- zlen_app.
  destruct (take_app_case (n - length (key r)) (before_val r) (after_val r)) as [[Hb E']|[Hb E']];
    rewrite E' in Hc.
  { by rewrite (read_field_short f _ _ _ Hc) by by apply zlen_take_lt. }
  rewrite (result_bind_ok _ _ (before_val r)) by by eapply read_field_ok.
  rewrite app_assoc in Hc. rewrite <- zlen_app.
  rewrite (read_field_short f _ _ _ Hc); [done|]. apply zlen_take_lt. lia.
Qed.

Lemma torn_payload l rs r n :
  content (log_fd l) = log_bytes rs ++ take n (serialize r) -> Forall rec_ok rs -> rec_ok r ->
  (Z.to_nat WAL_HEADER_SIZE <= n < length (serialize r))%nat ->
  read_all l = Err StdRuntimeError.
Proof.
  intros Hc Hrs Hr Hn. destruct (header_of_ok r Hr) as (_ & Ek & Eb & Ea).
  pose proof (zlen_enc_header (header_of r)) as Lh. pose proof (zlen_serialize r) as Lz. unfold zlen in Lh, Lz.
  unfold read_all. destruct (fuel_split (log_fd l) rs _ Hc) as (k & -> & Hk).
  change 0 with (zlen (@nil byte)). rewrite (read_loop_records _ rs _ k [] []) by done. cbn [app].
  destruct k as [|k]; [rewrite length_take in Hk; unfold WAL_HEADER_SIZE in Hn; lia|].
  destruct (take_app_case n (enc_header (header_of r)) (payload r)) as [[? _]|[_ E]]; [lia|].
  unfold serialize in Hc. change (key r ++ before_val r ++ after_val r) with (payload r) in Hc.
  rewrite E in Hc. cbn [read_loop].
  rewrite (read_header_ok (log_fd l) _ _ r Hc Hr). cbv zeta. rewrite Ek, Eb, Ea.
  rewrite app_assoc in Hc. rewrite <- (zlen_enc_header (header_of r)), <- zlen_app.
  eapply (torn_fields (log_fd l) _ r _ _ Hc). unfold payload in *. lia.
Qed.

(** ** The loops end *)

(** A header is there only when its bytes are, and its lengths are not
    negative: a turn of a loop moves on by 32 bytes at least. *)
Lemma read_header_inside f off hdr :
  0 <= off -> read_header off f = Some hdr ->
  off + WAL_HEADER_SIZE <= zlen (content f) /\
  0 <= hdr_key_len hdr /\ 0 <= hdr_before_len hdr /\ 0 <= hdr_after_len hdr.
Proof.
  intros Ho. unfold read_header. rewrite pread_eof by done.
  destruct (Z.ltb_spec (zlen (rd off WAL_HEADER_SIZE (content f))) WAL_HEADER_SIZE) as [?|Hl]; [done|].
  cbv zeta. case_bool_decide; [done|]. intros [= <-].
  split; [|split; [|split]; by apply get_u_range].
  unfold rd, zlen, WAL_HEADER_SIZE in *. rewrite length_take, length_drop in Hl. lia.
Qed.

Lemma read_field_no_fuel n off f : read_field n off f <> Err OutOfFuel.
Proof. unfold read_field. repeat case_match; done. Qed.

Lemma read_loop_ends fuel off out f :
  0 <= off -> zlen (content f) - off <= Z.of_nat fuel -> read_loop fuel off out f <> Err OutOfFuel.
Proof.
  revert off out. induction fuel as [|fuel IH]; intros off out Ho Hf; cbn [read_loop];
    destruct (read_header off f) as [hdr|] eqn:Eh; try done;
    destruct (read_header_inside f off hdr Ho Eh) as (Hin & Hk & Hb & Ha);
    unfold WAL_HEADER_SIZE in *; [lia|].
  cbv zeta. pose proof (read_field_no_fuel (hdr_key_len hdr) (off + 32) f) as Nk.
  destruct (read_field _ (off + 32) f) as [kk|e]; cbn [result_bind]; [|congruence].
  pose proof (read_field_no_fuel (hdr_before_len hdr) (off + 32 + hdr_key_len hdr) f) as Nb.
  destruct (read_field _ (off + 32 + hdr_key_len hdr) f) as [bv|e]; cbn [result_bind]; [|congruence].
  pose proof (read_field_no_fuel (hdr_after_len hdr) (off + 32 + hdr_key_len hdr + hdr_before_len hdr) f) as Na.
  destruct (read_field _ (off + 32 + hdr_key_len hdr + hdr_before_len hdr) f) as [av|e];
    cbn [result_bind]; [|congruence].
  apply IH; lia.
Qed.

Lemma scan_loop_ends fuel off ml mt f :
  0 <= off -> zlen (content f) - off <= Z.of_nat fuel -> exists m, scan_loop fuel off ml mt f = Ok m.
Proof.
  revert off ml mt. induction fuel as [|fuel IH]; intros off ml mt Ho Hf; cbn [scan_loop];
    destruct (read_header off f) as [hdr|] eqn:Eh; try (by eexists);
    destruct (read_header_inside f off hdr Ho Eh) as (Hin & Hk & Hb & Ha);
    unfold WAL_HEADER_SIZE in *; [lia|].
  apply IH; lia.
Qed.

(** The constructor returns whatever the file holds. *)
Lemma ctor_total f : exists a b, LogManager_ctor (Some f) = Ok (mkLM f a b).
Proof.
  unfold LogManager_ctor, scan_for_max_ids. mstep (eq_refl : getS (mkLM f 1 1) = (Ok (mkLM f 1 1), mkLM f 1 1)).
  cbn [log_fd]. destruct (scan_loop_ends (log_fuel f) 0 0 0 f) as [m E]; [done|..].
  { unfold log_fuel. rewrite lseek_end_reliable. pose proof (zlen_nonneg (content f)). lia. }
  rewrite (bind_query _ _ (mkLM f 1 1) m) by exact E. destruct (0 <? m.1), (0 <? m.2); by do 2 eexists.
Qed.
End rep.
