(* ===== verification/Recovery.v ===== *)
(** * Crash recovery ([src/src/wal/recovery_manager.h], [recovery_manager.cpp])

    [recover] reads the log and runs the three phases on the store.  Redo and
    undo are sequences of updates, [redo_updates] and [undo_updates], and on a
    store that keeps its promises they do exactly these. *)

From S2P Require Import Prelude.
From S2P Require Import DiskManager.
From S2P Require Import Store.
From S2P Require Import LogManager.
From S2P Require Import LogRep.

Implicit Types (records : list WalRecord) (r : WalRecord).

(** Phase 1: the transactions that neither committed nor aborted. *)
Definition analysis records : gset Z :=
  fold_left (fun active r =>
    match type r with
    | BEGIN => {[txn_id r]} ∪ active
    | COMMIT | ABORT => active ∖ {[txn_id r]}
    | _ => active
    end) records ∅.

(** The set of the transactions that have a record of type [ty]. *)
Definition collect_ids (ty : WalRecordType) records : gset Z :=
  fold_left (fun ids r => if bool_decide (type r = ty) then {[txn_id r]} ∪ ids else ids) records ∅.

Section ops.
Context {S : Type} `{KVStore S}.

(** The body of the second loop of [redo]. *)
Definition redo_record (aborted : gset Z) r : M S unit :=
  if negb (bool_decide (type r = WRITE)) then ret tt
  else if bool_decide (txn_id r ∈ aborted) then ret tt
  else if bool_decide (after_val r = []) then do* kv_remove (key r) in ret tt
  else kv_insert (key r) (after_val r).

Definition redo records : M S unit :=
  (* the set of the committed transactions is computed and not used *)
  let aborted := collect_ids ABORT records in
  for_each records (redo_record aborted).

(** The body of the loop of [undo]. *)
Definition undo_record (losers : gset Z) r : M S unit :=
  if negb (bool_decide (type r = WRITE)) then ret tt
  else if negb (bool_decide (txn_id r ∈ losers)) then ret tt
  else if negb (before_exists r) then do* kv_remove (key r) in ret tt
  else kv_insert (key r) (before_val r).

Definition undo records (losers : gset Z) : M S unit :=
  if bool_decide (losers = ∅) then ret tt else for_each (reverse records) (undo_record losers).

(** The number of transactions rolled back, as an [int]. *)
Definition recover {F : Type} `{PosixFile F} : M (LogManager F * S) Z :=
  let* records := query (fun ls => read_all ls.1) in
  match records with
  | [] => ret 0
  | _ :: _ =>
      let losers := analysis records in
      do* zoom snd (fun s ls => (ls.1, s)) (redo records) in
      do* zoom snd (fun s ls => (ls.1, s)) (undo records losers) in
      ret (swrap 32 (Z.of_nat (size losers)))
  end.
End ops.

(** ** The updates of the phases *)

(** What a WRITE record says the key is after and was before. *)
Definition after_image r : option bytes := if bool_decide (after_val r = []) then None else Some (after_val r).
Definition before_image r : option bytes := if before_exists r then Some (before_val r) else None.

(** The WRITE records of the transactions in [P], as updates. *)
Definition updates_of (P : Z -> bool) (image : WalRecord -> option bytes) records : list update :=
  (fun r => (key r, image r)) <$> filter (fun r => type r = WRITE /\ P (txn_id r) = true) records.

Definition redo_updates records : list update :=
  updates_of (fun t => negb (bool_decide (t ∈ collect_ids ABORT records))) after_image records.

Definition undo_updates records (losers : gset Z) : list update :=
  updates_of (fun t => bool_decide (t ∈ losers)) before_image (reverse records).

Definition recovery_updates records : list update :=
  redo_updates records ++ undo_updates records (analysis records).

Section spec.
Context {S : Type} `{KVLaws S}.
Implicit Types (s : S) (m : kvmap).

(** A loop over records that does one update for each of those it keeps. *)
Lemma for_each_updates (body : WalRecord -> M S unit) (P : Z -> bool) (image : WalRecord -> option bytes)
    records s :
  (forall r, type r = WRITE -> P (txn_id r) = true -> body r = do_update (key r, image r)) ->
  (forall r, ~ (type r = WRITE /\ P (txn_id r) = true) -> body r = ret tt) ->
  for_each records body s = for_each (updates_of P image records) do_update s.
Proof.
  intros Hyes Hno. revert s. induction records as [|r records IH]; intros s; [done|].
  unfold updates_of in *. rewrite filter_cons. destruct (decide _) as [[Ht HP]|Hn]; cbn [fmap list_fmap for_each].
  - rewrite Hyes by done. unfold bind.
    destruct (do_update (key r, image r) s) as [[u|e] s']; [exact (IH s')|done].
  - rewrite Hno by done. exact (IH s).
Qed.

Lemma redo_eq records s : redo records s = for_each (redo_updates records) do_update s.
Proof.
  unfold redo, redo_updates. apply for_each_updates; intros r.
  - intros Ht HP. unfold redo_record, do_update, after_image. rewrite (bool_decide_eq_true_2 (type r = WRITE)) by done.
    cbn [negb fst snd]. apply negb_true_iff in HP. rewrite HP. by destruct (after_val r).
  - intros Hn. unfold redo_record. destruct (bool_decide (type r = WRITE)) eqn:Ht; [|done]. cbn [negb].
    destruct (bool_decide (txn_id r ∈ collect_ids ABORT records)) eqn:Ha; [done|]. exfalso. apply Hn.
    by apply bool_decide_eq_true_1 in Ht.
Qed.

Lemma undo_eq records losers s : undo records losers s = for_each (undo_updates records losers) do_update s.
Proof.
  unfold undo, undo_updates. case_bool_decide as Hl.
  - subst losers. rewrite <- (for_each_updates (fun _ => ret tt)); [|intros r _ Hr%bool_decide_eq_true_1; by apply not_elem_of_empty in Hr|done].
    by induction (reverse records).
  - apply for_each_updates; intros r.
    + intros Ht HP. unfold undo_record, do_update, before_image.
      rewrite (bool_decide_eq_true_2 (type r = WRITE)) by done. cbn [negb fst snd]. rewrite HP. cbn [negb].
      by destruct (before_exists r).
    + intros Hn. unfold undo_record. destruct (bool_decide (type r = WRITE)) eqn:Ht; [|done]. cbn [negb].
      destruct (bool_decide (txn_id r ∈ losers)) eqn:Ha; [|done]. exfalso. apply Hn.
      by apply bool_decide_eq_true_1 in Ht.
Qed.

(** Recovery does the redo updates, then the undo updates. *)
Lemma recover_updates_ok {F : Type} `{PosixFile F} (l : LogManager F) s m records :
  read_all l = Ok records -> kv_rep s m -> can_all (recovery_updates records) s = true ->
  Z.of_nat (size (analysis records)) < 2 ^ 31 ->
  exists s', recover (l, s) = (Ok (Z.of_nat (size (analysis records))), (l, s')) /\
    kv_rep s' (apply_updates (recovery_updates records) m).
Proof.
  intros Hl Hr Hc Hsz. destruct (do_updates_ok s m _ Hr Hc) as (s2 & E & Hr2).
  exists s2. split; [|done]. unfold recovery_updates in E.
  destruct (for_each_app_inv _ _ s s2 E) as (s1 & E1 & E2).
  unfold recover. rewrite (bind_query _ _ (l, s) records Hl).
  destruct records as [|r records].
  - change (ret tt s = (Ok tt, s1)) in E1. change (ret tt s1 = (Ok tt, s2)) in E2.
    injection E1 as <-. injection E2 as <-. done.
  - cbv zeta. rewrite <- redo_eq in E1. rewrite <- undo_eq in E2.
    mstep (zoom_eq snd (fun s ls => (ls.1, s)) (redo (r :: records)) (l, s) s1 (Ok tt) E1).
    mstep (zoom_eq snd (fun s ls => (ls.1, s)) (undo (r :: records) (analysis (r :: records))) (l, s1) s2 (Ok tt) E2).
    unfold ret. do 2 f_equal. apply swrap_small; lia.
Qed.
End spec.
