(* ===== verification/History.v ===== *)
(** * Histories of transactions

    [hist base rs cur act]: from the map [base], transactions that hold
    exclusive locks on what they write have written the log [rs] and reached
    the map [cur]; [act] gives the active transactions and, for each, the keys
    it wrote with their value before.  This is what the log records promise to
    recovery: [recovered] shows that redo and undo bring any map that a crash
    can leave to [committed_map], the effect of the committed transactions. *)

From S2P Require Import Prelude.
From S2P Require Import DiskManager.
From S2P Require Import Store.
From S2P Require Import LogManager.
From S2P Require Import LogRep.
From S2P Require Import Recovery.

Abbreviation write_set := (gmap bytes (option bytes)).

Implicit Types (base cur m : kvmap) (rs : list WalRecord) (r : WalRecord) (t : Z) (k : bytes)
  (ws : write_set) (act : gmap Z write_set) (P Q : Z -> bool) (image : WalRecord -> option bytes).

(** The keys of a write set get their values before the transaction. *)
Definition restore ws cur : kvmap := apply_updates (map_to_list ws) cur.

Inductive hist base : list WalRecord -> kvmap -> gmap Z write_set -> Prop :=
| hist_nil : hist base [] base ∅
| hist_begin rs cur act r :
    hist base rs cur act -> type r = BEGIN ->
    (forall r', r' ∈ rs -> txn_id r' <> txn_id r) ->
    hist base (rs ++ [r]) cur (<[txn_id r := ∅]> act)
| hist_write rs cur act ws r :
    hist base rs cur act -> type r = WRITE -> act !! txn_id r = Some ws ->
    (forall t ws', act !! t = Some ws' -> t <> txn_id r -> ws' !! key r = None) ->
    before_image r = default (cur !! key r) (ws !! key r) ->
    hist base (rs ++ [r]) (apply_update (key r, after_image r) cur)
      (<[txn_id r := <[key r := before_image r]> ws]> act)
| hist_commit rs cur act ws r :
    hist base rs cur act -> type r = COMMIT -> act !! txn_id r = Some ws ->
    hist base (rs ++ [r]) cur (delete (txn_id r) act)
| hist_abort rs cur act ws r :
    hist base rs cur act -> type r = ABORT -> act !! txn_id r = Some ws ->
    hist base (rs ++ [r]) (restore ws cur) (delete (txn_id r) act).

(** The writes of the committed transactions, in the order of the log. *)
Definition committed rs t : bool := bool_decide (t ∈ collect_ids COMMIT rs).
Definition committed_map base rs : kvmap := apply_updates (updates_of (committed rs) after_image rs) base.

(** ** Updates of a log, key by key *)

Lemma updates_of_app P image rs1 rs2 :
  updates_of P image (rs1 ++ rs2) = updates_of P image rs1 ++ updates_of P image rs2.
Proof. unfold updates_of. by rewrite filter_app, fmap_app. Qed.

(** The update that a record makes of [k]. *)
Definition update_at P image k r : option (option bytes) :=
  if decide ((type r = WRITE /\ P (txn_id r) = true) /\ key r = k) then Some (image r) else None.

Lemma last_update_one P image k r : last_update k (updates_of P image [r]) = update_at P image k r.
Proof.
  unfold updates_of, update_at. rewrite filter_cons, filter_nil.
  destruct (decide (type r = WRITE /\ P (txn_id r) = true)) as [Hr|Hr]; cbn [fmap list_fmap last_update fst snd].
  - destruct (decide (key r = k)) as [Hk|Hk]; [by rewrite decide_True|rewrite decide_False; [done|tauto]].
  - rewrite decide_False; [done|tauto].
Qed.

Lemma last_update_snoc P image k rs r :
  last_update k (updates_of P image (rs ++ [r])) =
    match update_at P image k r with
    | Some v => Some v
    | None => last_update k (updates_of P image rs)
    end.
Proof. by rewrite updates_of_app, last_update_app, last_update_one. Qed.

Lemma last_undo_snoc P image k rs r :
  last_update k (updates_of P image (reverse (rs ++ [r]))) =
    match last_update k (updates_of P image (reverse rs)) with
    | Some v => Some v
    | None => update_at P image k r
    end.
Proof. by rewrite reverse_snoc, <- (app_nil_l (reverse rs)), app_comm_cons, updates_of_app, last_update_app, last_update_one. Qed.

(** Only the records on [k] matter. *)
Lemma last_update_ext P Q image k rs :
  (forall r, r ∈ rs -> type r = WRITE -> key r = k -> P (txn_id r) = Q (txn_id r)) ->
  last_update k (updates_of P image rs) = last_update k (updates_of Q image rs).
Proof.
  induction rs as [|r rs IH] using rev_ind; intros HPQ; [done|].
  rewrite !last_update_snoc, IH by (intros; apply HPQ; [by apply elem_of_app; left|done..]).
  assert (E : update_at P image k r = update_at Q image k r); [|by rewrite E].
  unfold update_at. destruct (decide (type r = WRITE /\ key r = k)) as [[Ht Hk]|Hn].
  - rewrite (HPQ r); [done|apply elem_of_app; right; by left|done|done].
  - rewrite !decide_False; [done|tauto|tauto].
Qed.

Lemma last_update_none P image k rs :
  (forall r, r ∈ rs -> type r = WRITE -> P (txn_id r) = true -> key r <> k) ->
  last_update k (updates_of P image rs) = None.
Proof.
  intros HP. apply last_update_None. unfold updates_of. intros Hk.
  apply list_elem_of_fmap in Hk as ([k' v] & -> & Hu).
  apply list_elem_of_fmap in Hu as (r & [= -> ->] & Hr).
  apply list_elem_of_filter in Hr as [[Ht HPt] Hr]. by eapply HP.
Qed.

Lemma lookup_restore ws cur k : restore ws cur !! k = default (cur !! k) (ws !! k).
Proof.
  unfold restore. rewrite lookup_apply_updates.
  destruct (last_update k (map_to_list ws)) as [b|] eqn:E.
  - assert (Hin : (k, b) ∈ map_to_list ws).
    { clear -E. induction (map_to_list ws) as [|[k' b'] l IH]; [done|]. cbn [last_update fst snd] in E.
      destruct (last_update k l); [right; apply IH; congruence|].
      case_decide; [|done]. subst. injection E as ->. left. }
    apply elem_of_map_to_list in Hin. by rewrite Hin.
  - apply last_update_None in E. destruct (ws !! k) as [b|] eqn:Hb; [|done].
    exfalso. apply E, list_elem_of_fmap. exists (k, b). split; [done|]. by apply elem_of_map_to_list.
Qed.

(** ** The sets that analysis collects *)

Lemma collect_ids_snoc ty rs r :
  collect_ids ty (rs ++ [r]) = if bool_decide (type r = ty) then {[txn_id r]} ∪ collect_ids ty rs
                               else collect_ids ty rs.
Proof. unfold collect_ids. by rewrite fold_left_app. Qed.

Lemma analysis_snoc rs r :
  analysis (rs ++ [r]) =
    match type r with
    | BEGIN => {[txn_id r]} ∪ analysis rs
    | COMMIT | ABORT => analysis rs ∖ {[txn_id r]}
    | _ => analysis rs
    end.
Proof. unfold analysis. by rewrite fold_left_app. Qed.

(** ** The invariant *)

Section invariant.
Context (base : kvmap).

(** [k] is written by an active transaction. *)
Definition owned act k : Prop := exists t ws, act !! t = Some ws /\ is_Some (ws !! k).

Record hist_inv rs cur act : Prop := {
  hi_active : analysis rs = dom act;
  hi_status : forall r, r ∈ rs -> txn_id r ∈ dom act \/ txn_id r ∈ collect_ids COMMIT rs \/
    txn_id r ∈ collect_ids ABORT rs;
  hi_committed : forall t, t ∈ collect_ids COMMIT rs -> act !! t = None /\ t ∉ collect_ids ABORT rs;
  hi_aborted : forall t, t ∈ collect_ids ABORT rs -> act !! t = None;
  hi_seen : forall t, is_Some (act !! t) -> exists r, r ∈ rs /\ txn_id r = t;
  hi_excl : forall t t' ws ws' k, act !! t = Some ws -> act !! t' = Some ws' ->
    is_Some (ws !! k) -> is_Some (ws' !! k) -> t = t';
  hi_writes : forall r ws, r ∈ rs -> type r = WRITE -> act !! txn_id r = Some ws -> is_Some (ws !! key r);
  hi_last : forall t ws k P, act !! t = Some ws -> is_Some (ws !! k) -> P t = true ->
    last_update k (updates_of P after_image rs) = Some (cur !! k);
  hi_first : forall t ws k b P, act !! t = Some ws -> ws !! k = Some b -> P t = true ->
    (forall t', P t' = true -> is_Some (act !! t')) ->
    last_update k (updates_of P before_image (reverse rs)) = Some b;
  hi_before : forall t ws k b, act !! t = Some ws -> ws !! k = Some b -> committed_map base rs !! k = b;
  hi_free : forall k, ~ owned act k -> cur !! k = committed_map base rs !! k;
}.

Lemma hist_inv_nil : hist_inv [] base ∅.
Proof.
  split; try done; intros; try by rewrite lookup_empty in *.
  by apply not_elem_of_nil in H.
Qed.

Lemma committed_iff rs t : committed rs t = true <-> t ∈ collect_ids COMMIT rs.
Proof. unfold committed. apply bool_decide_eq_true. Qed.

(** An active transaction that writes [k] is the only one. *)
Lemma writers_of_owned rs cur act t ws k r :
  hist_inv rs cur act -> act !! t = Some ws -> is_Some (ws !! k) ->
  r ∈ rs -> type r = WRITE -> key r = k -> is_Some (act !! txn_id r) -> txn_id r = t.
Proof.
  intros Hi Ht Hk Hr Hw <- [ws' Hws']. eapply (hi_excl _ _ _ Hi); [done|done| |done].
  by eapply (hi_writes _ _ _ Hi).
Qed.

(** A record that is no WRITE, and that commits nobody, adds no update. *)
Lemma update_at_other P image k r : type r <> WRITE -> update_at P image k r = None.
Proof. intros Ht. unfold update_at. rewrite decide_False; [done|tauto]. Qed.

Lemma committed_map_snoc rs r k :
  type r <> COMMIT -> (type r = WRITE -> txn_id r ∉ collect_ids COMMIT rs) ->
  committed_map base (rs ++ [r]) !! k = committed_map base rs !! k.
Proof.
  intros Hc Hw. unfold committed_map. rewrite !lookup_apply_updates, last_update_snoc.
  assert (E : committed (rs ++ [r]) = committed rs).
  { unfold committed. by rewrite collect_ids_snoc, bool_decide_eq_false_2. }
  rewrite E. destruct (decide (type r = WRITE)) as [Ht|Ht]; [|by rewrite update_at_other].
  unfold update_at. rewrite decide_False; [done|].
  intros [[_ Hp%committed_iff] _]. by apply Hw.
Qed.

(** A commit makes the writes of the transaction count. *)
Lemma committed_map_commit rs cur act r ws k :
  hist_inv rs cur act -> type r = COMMIT -> act !! txn_id r = Some ws ->
  committed_map base (rs ++ [r]) !! k =
    if decide (is_Some (ws !! k)) then cur !! k else committed_map base rs !! k.
Proof.
  intros Hi Hc Ht. unfold committed_map. rewrite !lookup_apply_updates, last_update_snoc.
  rewrite update_at_other by congruence.
  assert (E : forall t, committed (rs ++ [r]) t = bool_decide (t = txn_id r) || committed rs t).
  { intros t. unfold committed. rewrite collect_ids_snoc, (bool_decide_eq_true_2 (type r = COMMIT)) by done.
    rewrite <- bool_decide_or. apply bool_decide_ext. by rewrite elem_of_union, elem_of_singleton. }
  case_decide as Hk.
  - rewrite (hi_last _ _ _ Hi (txn_id r) ws k); [done|done|done|].
    rewrite E. by rewrite bool_decide_eq_true_2.
  - rewrite (last_update_ext (committed (rs ++ [r])) (committed rs)); [done|].
    intros r' Hr' Hw Hk'. rewrite E. rewrite bool_decide_eq_false_2; [done|].
    intros Heq. apply Hk. rewrite <- Hk'. apply (hi_writes _ _ _ Hi r' ws Hr' Hw). by rewrite Heq.
Qed.

(** What the active transactions look like after a step. *)
Lemma fresh_inactive rs cur act r :
  hist_inv rs cur act -> (forall r', r' ∈ rs -> txn_id r' <> txn_id r) -> act !! txn_id r = None.
Proof.
  intros Hi Hf. destruct (act !! txn_id r) eqn:E; [|done].
  destruct (hi_seen _ _ _ Hi (txn_id r)) as (r' & Hr' & Heq); [by rewrite E|]. by destruct (Hf r').
Qed.

Lemma collected_seen ty rs t : t ∈ collect_ids ty rs -> exists r, r ∈ rs /\ txn_id r = t.
Proof.
  induction rs as [|r rs IH] using rev_ind; [intros Ht; by apply elem_of_empty in Ht|].
  rewrite collect_ids_snoc. case_bool_decide.
  - intros [->%elem_of_singleton|Ht]%elem_of_union.
    + exists r. split; [apply elem_of_app; right; by left|done].
    + destruct (IH Ht) as (r' & ? & ?). exists r'. split; [apply elem_of_app; by left|done].
  - intros Ht. destruct (IH Ht) as (r' & ? & ?). exists r'. split; [apply elem_of_app; by left|done].
Qed.

Lemma last_update_skip P image k rs r :
  type r <> WRITE -> last_update k (updates_of P image (rs ++ [r])) = last_update k (updates_of P image rs).
Proof. intros Ht. by rewrite last_update_snoc, update_at_other. Qed.

Lemma last_undo_skip P image k rs r :
  type r <> WRITE ->
  last_update k (updates_of P image (reverse (rs ++ [r]))) = last_update k (updates_of P image (reverse rs)).
Proof. intros Ht. rewrite last_undo_snoc, update_at_other by done. by case_match. Qed.

Lemma hist_inv_begin rs cur act r :
  hist_inv rs cur act -> type r = BEGIN -> (forall r', r' ∈ rs -> txn_id r' <> txn_id r) ->
  hist_inv (rs ++ [r]) cur (<[txn_id r := ∅]> act).
Proof.
  intros Hi Hty Hf. pose proof (fresh_inactive rs cur act r Hi Hf) as Hin.
  assert (Hw : type r <> WRITE) by congruence.
  assert (Hcol : forall ty, ty <> BEGIN -> collect_ids ty (rs ++ [r]) = collect_ids ty rs).
  { intros ty Hne. by rewrite collect_ids_snoc, bool_decide_eq_false_2 by congruence. }
  assert (Hno : forall ty, txn_id r ∉ collect_ids ty rs).
  { intros ty (r' & Hr' & Heq)%collected_seen. by destruct (Hf r'). }
  assert (Hold : forall t ws k, <[txn_id r := ∅]> act !! t = Some ws -> is_Some (ws !! k) -> act !! t = Some ws).
  { intros t ws k [[<- <-]|[_ Ht]]%lookup_insert_Some Hk; [|done]. by destruct Hk. }
  assert (Hmap : forall k, committed_map base (rs ++ [r]) !! k = committed_map base rs !! k)
    by (intros k; apply committed_map_snoc; congruence).
  split.
  - by rewrite analysis_snoc, Hty, (hi_active _ _ _ Hi), dom_insert_L.
  - intros r' [Hr'| ->%list_elem_of_singleton]%elem_of_app; rewrite dom_insert_L, !Hcol by done.
    + destruct (hi_status _ _ _ Hi r' Hr') as [?|[?|?]]; [left; by apply elem_of_union_r|tauto..].
    + left. apply elem_of_union_l. by apply elem_of_singleton.
  - intros t. rewrite !Hcol by done. intros Ht. destruct (hi_committed _ _ _ Hi t Ht) as [Ha Hb].
    rewrite lookup_insert_ne; [done|]. intros <-. by eapply Hno.
  - intros t. rewrite !Hcol by done. intros Ht.
    rewrite lookup_insert_ne; [by apply (hi_aborted _ _ _ Hi)|]. intros <-. by eapply Hno.
  - intros t [ws [[<- _]|[_ Ht]]%lookup_insert_Some].
    + exists r. split; [apply elem_of_app; right; by left|done].
    + destruct (hi_seen _ _ _ Hi t) as (r' & ? & ?); [by rewrite Ht|].
      exists r'. split; [apply elem_of_app; by left|done].
  - intros t t' ws ws' k Ht Ht' Hk Hk'. eapply (hi_excl _ _ _ Hi); eauto.
  - intros r' ws [Hr'| ->%list_elem_of_singleton]%elem_of_app Hw' Ht; [|done].
    rewrite lookup_insert_ne in Ht by (intros E; by destruct (Hf r')). by eapply (hi_writes _ _ _ Hi).
  - intros t ws k P Ht Hk HP. rewrite last_update_skip by done. eapply (hi_last _ _ _ Hi); eauto.
  - intros t ws k b P Ht Hk HP Hsub. rewrite last_undo_skip by done.
    assert (Ht' : act !! t = Some ws) by (apply (Hold t ws k); [done|by rewrite Hk]).
    rewrite (last_update_ext P (fun t' => P t' && bool_decide (is_Some (act !! t')))).
    + eapply (hi_first _ _ _ Hi t ws k b); [done|done| |].
      * rewrite HP, Ht'. by rewrite bool_decide_eq_true_2.
      * intros t' [_ Ha%bool_decide_eq_true_1]%andb_true_iff. done.
    + intros r' Hr' _ _. rewrite elem_of_reverse in Hr'. destruct (P (txn_id r')) eqn:E; [|done].
      symmetry. apply bool_decide_eq_true_2. specialize (Hsub _ E).
      by rewrite lookup_insert_ne in Hsub by (intros E'; by destruct (Hf r')).
  - intros t ws k b Ht Hk. rewrite Hmap. eapply (hi_before _ _ _ Hi); [|done].
    apply (Hold t ws k); [done|by rewrite Hk].
  - intros k Hk. rewrite Hmap. apply (hi_free _ _ _ Hi). intros (t & ws & Ht & Hk'). apply Hk.
    exists t, ws. split; [|done]. rewrite lookup_insert_ne by congruence. done.
Qed.

Section write.
Context (rs : list WalRecord) (cur : kvmap) (act : gmap Z write_set) (ws : write_set) (r : WalRecord).
Hypothesis Hi : hist_inv rs cur act.
Hypothesis Hty : type r = WRITE.
Hypothesis Ht : act !! txn_id r = Some ws.
Hypothesis Hlock : forall t ws', act !! t = Some ws' -> t <> txn_id r -> ws' !! key r = None.
Hypothesis Hbefore : before_image r = default (cur !! key r) (ws !! key r).

Let ws' : write_set := <[key r := before_image r]> ws.
Let act' : gmap Z write_set := <[txn_id r := ws']> act.

Lemma write_active t : is_Some (act' !! t) <-> is_Some (act !! t).
Proof.
  unfold act'. destruct (decide (t = txn_id r)) as [->|Hne]; [|by rewrite lookup_insert_ne].
  rewrite lookup_insert_eq, Ht. done.
Qed.

(** Who owns what after the write. *)
Lemma write_owner t ws1 k b :
  act' !! t = Some ws1 -> ws1 !! k = Some b ->
  (t = txn_id r /\ k = key r /\ b = before_image r) \/
  (k <> key r /\ exists ws0, act !! t = Some ws0 /\ ws0 !! k = Some b).
Proof.
  intros [[<- <-]|[Hne Ht1]]%lookup_insert_Some Hk.
  - apply lookup_insert_Some in Hk as [[<- <-]|[Hne Hk]]; [by left|]. right. split; [done|]. by exists ws.
  - right. split; [|by exists ws1]. intros ->. by rewrite (Hlock t ws1 Ht1) in Hk.
Qed.

Lemma write_cur k : apply_update (key r, after_image r) cur !! k = if decide (key r = k) then after_image r else cur !! k.
Proof. apply lookup_apply_update. Qed.

Lemma write_committed_map k : committed_map base (rs ++ [r]) !! k = committed_map base rs !! k.
Proof.
  apply committed_map_snoc; [congruence|]. intros _ Hc. destruct (hi_committed _ _ _ Hi _ Hc). congruence.
Qed.

(** The before image is the committed value. *)
Lemma write_before : committed_map base rs !! key r = before_image r.
Proof.
  rewrite Hbefore. destruct (ws !! key r) as [b|] eqn:Hk; cbn.
  - by apply (hi_before _ _ _ Hi (txn_id r) ws).
  - symmetry. apply (hi_free _ _ _ Hi). intros (t & ws1 & Ht1 & Hk1).
    destruct (decide (t = txn_id r)) as [->|Hne].
    + rewrite Ht in Ht1. injection Ht1 as <-. rewrite Hk in Hk1. by destruct Hk1.
    + rewrite (Hlock t ws1) in Hk1 by done. by destruct Hk1.
Qed.

Lemma write_first_own P :
  P (txn_id r) = true -> (forall t', P t' = true -> is_Some (act !! t')) ->
  last_update (key r) (updates_of P before_image (reverse (rs ++ [r]))) = Some (before_image r).
Proof.
  intros HP Hsub. rewrite last_undo_snoc.
  assert (Hat : update_at P before_image (key r) r = Some (before_image r)) by (by apply decide_True).
  destruct (ws !! key r) as [b|] eqn:Hk.
  - rewrite (hi_first _ _ _ Hi (txn_id r) ws (key r) b) by done. by rewrite Hbefore.
  - rewrite last_update_none, Hat; [done|]. intros r' Hr' Hw HP' Hk'. rewrite elem_of_reverse in Hr'.
    destruct (Hsub _ HP') as [ws1 Ht1].
    pose proof (hi_writes _ _ _ Hi r' ws1 Hr' Hw Ht1) as Hk1. rewrite Hk' in Hk1.
    destruct (decide (txn_id r' = txn_id r)) as [E|Hne].
    + rewrite E, Ht in Ht1. injection Ht1 as <-. rewrite Hk in Hk1. by destruct Hk1.
    + rewrite (Hlock _ ws1) in Hk1 by done. by destruct Hk1.
Qed.

Lemma hist_inv_write : hist_inv (rs ++ [r]) (apply_update (key r, after_image r) cur) act'.
Proof.
  assert (Hcol : forall ty, ty <> WRITE -> collect_ids ty (rs ++ [r]) = collect_ids ty rs).
  { intros ty Hne. by rewrite collect_ids_snoc, bool_decide_eq_false_2 by congruence. }
  assert (Hdom : dom act' = dom act).
  { unfold act'. apply dom_insert_lookup_L. by rewrite Ht. }
  assert (Hnone : forall t, act !! t = None -> act' !! t = None).
  { intros t Hn. apply eq_None_not_Some. rewrite write_active, Hn. by intros [? ?]. }
  split.
  - by rewrite analysis_snoc, Hty, Hdom, (hi_active _ _ _ Hi).
  - intros r' [Hr'| ->%list_elem_of_singleton]%elem_of_app; rewrite Hdom, !Hcol by done.
    + by apply (hi_status _ _ _ Hi).
    + left. by apply elem_of_dom_2 in Ht.
  - intros t. rewrite !Hcol by done. intros [? ?]%(hi_committed _ _ _ Hi). split; [by apply Hnone|done].
  - intros t. rewrite !Hcol by done. intros ?%(hi_aborted _ _ _ Hi). by apply Hnone.
  - intros t Hs. apply write_active, (hi_seen _ _ _ Hi) in Hs as (r' & ? & ?).
    exists r'. split; [apply elem_of_app; by left|done].
  - intros t1 t2 ws1 ws2 k Ht1 Ht2 [b1 Hk1] [b2 Hk2].
    destruct (write_owner t1 ws1 k b1 Ht1 Hk1) as [(-> & -> & _)|(Hne & ws3 & Ht3 & Hk3)],
      (write_owner t2 ws2 _ b2 Ht2 Hk2) as [(-> & E & _)|(Hne' & ws4 & Ht4 & Hk4)]; try done.
    eapply (hi_excl _ _ _ Hi); eauto.
  - intros r' ws1 [Hr'| ->%list_elem_of_singleton]%elem_of_app Hw; unfold act'.
    + intros [[E <-]|[_ Ht1]]%lookup_insert_Some; [|by eapply (hi_writes _ _ _ Hi)].
      unfold ws'. apply lookup_insert_is_Some'. right.
      apply (hi_writes _ _ _ Hi r' ws Hr' Hw). by rewrite <- E.
    + rewrite lookup_insert_eq. intros [= <-]. unfold ws'. by rewrite lookup_insert_eq.
  - intros t ws1 k P Ht1 [b Hk1] HP. rewrite last_update_snoc, write_cur. unfold update_at.
    destruct (write_owner t ws1 k b Ht1 Hk1) as [(-> & -> & _)|(Hne & ws0 & Ht0 & Hk0)].
    + by rewrite !decide_True.
    + rewrite decide_False by (intros [_ ?]; congruence). rewrite decide_False by congruence.
      by apply (hi_last _ _ _ Hi t ws0).
  - intros t ws1 k b P Ht1 Hk1 HP Hsub.
    assert (Hsub' : forall t', P t' = true -> is_Some (act !! t')) by (intros t' HP'; by apply write_active, Hsub).
    destruct (write_owner t ws1 k b Ht1 Hk1) as [(-> & -> & ->)|(Hne & ws0 & Ht0 & Hk0)].
    + by apply write_first_own.
    + rewrite last_undo_snoc. by rewrite (hi_first _ _ _ Hi t ws0 k b).
  - intros t ws1 k b Ht1 Hk1. rewrite write_committed_map.
    destruct (write_owner t ws1 k b Ht1 Hk1) as [(-> & -> & ->)|(Hne & ws0 & Ht0 & Hk0)].
    + apply write_before.
    + by apply (hi_before _ _ _ Hi t ws0).
  - intros k Hk. rewrite write_committed_map, write_cur, decide_False.
    + apply (hi_free _ _ _ Hi). intros (t & ws1 & Ht1 & Hk1). apply Hk.
      destruct (decide (t = txn_id r)) as [->|Hne].
      * exists (txn_id r), ws'. unfold act'. rewrite lookup_insert_eq. split; [done|].
        rewrite Ht in Ht1. injection Ht1 as <-. unfold ws'. apply lookup_insert_is_Some'. by right.
      * exists t, ws1. unfold act'. by rewrite lookup_insert_ne.
    + intros <-. apply Hk. exists (txn_id r), ws'. unfold act', ws'. by rewrite !lookup_insert_eq.
Qed.
End write.

(** A transaction ends: [ty] is COMMIT or ABORT, and the map is [cur'], the
    same outside the keys of the transaction. *)
Section finish.
Context (rs : list WalRecord) (cur cur' : kvmap) (act : gmap Z write_set) (ws : write_set) (r : WalRecord).
Hypothesis Hi : hist_inv rs cur act.
Hypothesis Hty : type r = COMMIT \/ type r = ABORT.
Hypothesis Ht : act !! txn_id r = Some ws.
Hypothesis Hcur : forall k, ws !! k = None -> cur' !! k = cur !! k.
Hypothesis Hown : forall k, is_Some (ws !! k) -> cur' !! k = committed_map base (rs ++ [r]) !! k.
Hypothesis Hrest : forall k, ws !! k = None -> committed_map base (rs ++ [r]) !! k = committed_map base rs !! k.

Lemma finish_old t ws1 : delete (txn_id r) act !! t = Some ws1 -> act !! t = Some ws1 /\ t <> txn_id r.
Proof. intros [? ?]%lookup_delete_Some. by split. Qed.

Lemma finish_apart t ws1 k : delete (txn_id r) act !! t = Some ws1 -> is_Some (ws1 !! k) -> ws !! k = None.
Proof.
  intros [Ht1 Hne]%finish_old Hk. apply eq_None_not_Some. intros Hk'. apply Hne.
  by eapply (hi_excl _ _ _ Hi).
Qed.

Lemma finish_collect ty t :
  t ∈ collect_ids ty (rs ++ [r]) -> (t = txn_id r /\ ty = type r) \/ t ∈ collect_ids ty rs.
Proof.
  rewrite collect_ids_snoc. case_bool_decide as E; [|by right].
  intros [->%elem_of_singleton|?]%elem_of_union; [by left|by right].
Qed.

Lemma finish_collect_mono ty t : t ∈ collect_ids ty rs -> t ∈ collect_ids ty (rs ++ [r]).
Proof. intros Hin. rewrite collect_ids_snoc. case_bool_decide; [by apply elem_of_union_r|done]. Qed.

Lemma hist_inv_finish : hist_inv (rs ++ [r]) cur' (delete (txn_id r) act).
Proof.
  assert (Hw : type r <> WRITE) by (destruct Hty; congruence).
  assert (Hne : forall ty t, t ∈ collect_ids ty rs -> ty = COMMIT \/ ty = ABORT -> t <> txn_id r).
  { intros ty t Hin [->| ->] ->.
    - destruct (hi_committed _ _ _ Hi _ Hin). congruence.
    - pose proof (hi_aborted _ _ _ Hi _ Hin). congruence. }
  split.
  - rewrite analysis_snoc, dom_delete_L, (hi_active _ _ _ Hi). by destruct Hty as [-> | ->].
  - assert (Hself : txn_id r ∈ collect_ids (type r) (rs ++ [r])).
    { rewrite collect_ids_snoc, bool_decide_eq_true_2 by done. apply elem_of_union_l. by apply elem_of_singleton. }
    intros r' [Hr'| ->%list_elem_of_singleton]%elem_of_app.
    + destruct (decide (txn_id r' = txn_id r)) as [->|Hn]; [destruct Hty as [E|E]; rewrite E in Hself; tauto|].
      destruct (hi_status _ _ _ Hi r' Hr') as [?|[?|?]].
      * left. rewrite dom_delete_L. apply elem_of_difference. split; [done|]. by rewrite elem_of_singleton.
      * right; left. by apply finish_collect_mono.
      * right; right. by apply finish_collect_mono.
    + destruct Hty as [E|E]; rewrite E in Hself; tauto.
  - intros t [[-> E]|Hin]%finish_collect.
    + split; [apply lookup_delete_eq|]. intros [[_ E']|Hin]%finish_collect; [congruence|].
      by apply (Hne ABORT) in Hin; [|right].
    + destruct (hi_committed _ _ _ Hi t Hin) as [Ha Hb]. split; [by apply lookup_delete_None; right|].
      intros [[-> _]|?]%finish_collect; [|done]. by apply (Hne COMMIT) in Hin; [|left].
  - intros t [[-> E]|Hin]%finish_collect; [apply lookup_delete_eq|].
    apply lookup_delete_None. right. by apply (hi_aborted _ _ _ Hi).
  - intros t [ws1 [Ht1 _]%finish_old]. destruct (hi_seen _ _ _ Hi t) as (r' & ? & ?); [by rewrite Ht1|].
    exists r'. split; [apply elem_of_app; by left|done].
  - intros t t' ws1 ws2 k [Ht1 _]%finish_old [Ht2 _]%finish_old. by apply (hi_excl _ _ _ Hi).
  - intros r' ws1 [Hr'| ->%list_elem_of_singleton]%elem_of_app Hw' Ht1; [|done].
    apply finish_old in Ht1 as [Ht1 _]. by apply (hi_writes _ _ _ Hi).
  - intros t ws1 k P Ht1 Hk HP. rewrite last_update_skip by done.
    rewrite (Hcur k) by by eapply finish_apart. apply finish_old in Ht1 as [Ht1 _].
    by apply (hi_last _ _ _ Hi t ws1).
  - intros t ws1 k b P [Ht1 _]%finish_old Hk HP Hsub. rewrite last_undo_skip by done.
    apply (hi_first _ _ _ Hi t ws1 k b); [done..|]. intros t' HP'. destruct (Hsub t' HP') as [ws2 Ht2].
    apply finish_old in Ht2 as [Ht2 _]. by rewrite Ht2.
  - intros t ws1 k b Ht1 Hk. rewrite Hrest by (eapply finish_apart; [done|by rewrite Hk]).
    apply finish_old in Ht1 as [Ht1 _]. by apply (hi_before _ _ _ Hi t ws1).
  - intros k Hk. destruct (ws !! k) as [b|] eqn:Hb; [apply Hown; by rewrite Hb|].
    rewrite Hcur, Hrest by done. apply (hi_free _ _ _ Hi). intros (t & ws1 & Ht1 & Hk1). apply Hk.
    exists t, ws1. split; [|done]. apply lookup_delete_Some. split; [|done]. intros <-.
    rewrite Ht in Ht1. injection Ht1 as <-. rewrite Hb in Hk1. by destruct Hk1.
Qed.
End finish.

Lemma hist_inv_commit rs cur act ws r :
  hist_inv rs cur act -> type r = COMMIT -> act !! txn_id r = Some ws ->
  hist_inv (rs ++ [r]) cur (delete (txn_id r) act).
Proof.
  intros Hi Hty Ht. pose proof (fun k => committed_map_commit rs cur act r ws k Hi Hty Ht) as Hm.
  apply (hist_inv_finish rs cur cur act ws r); [done|by left|done|done| |].
  - intros k Hk. by rewrite Hm, decide_True.
  - intros k Hk. rewrite Hm, decide_False; [done|]. rewrite Hk. by intros [? ?].
Qed.

Lemma hist_inv_abort rs cur act ws r :
  hist_inv rs cur act -> type r = ABORT -> act !! txn_id r = Some ws ->
  hist_inv (rs ++ [r]) (restore ws cur) (delete (txn_id r) act).
Proof.
  intros Hi Hty Ht.
  assert (Hm : forall k, committed_map base (rs ++ [r]) !! k = committed_map base rs !! k)
    by (intros k; apply committed_map_snoc; congruence).
  apply (hist_inv_finish rs cur (restore ws cur) act ws r); [done|by right|done| | |done].
  - intros k Hk. by rewrite lookup_restore, Hk.
  - intros k [b Hk]. rewrite lookup_restore, Hk, Hm. cbn. symmetry. by eapply (hi_before _ _ _ Hi).
Qed.

Lemma hist_invariant rs cur act : hist base rs cur act -> hist_inv rs cur act.
Proof.
  induction 1 as [|rs cur act r Hh IH Hty Hf|rs cur act ws r Hh IH Hty Ht Hl Hb|rs cur act ws r Hh IH Hty Ht
    |rs cur act ws r Hh IH Hty Ht].
  - apply hist_inv_nil.
  - by apply hist_inv_begin.
  - by apply hist_inv_write.
  - by eapply hist_inv_commit.
  - by eapply hist_inv_abort.
Qed.
End invariant.

(** ** What recovery makes of a crash *)

(** The maps a crash may leave on disk: a key that only aborted transactions
    wrote has its old value again; nothing is said of the others. *)
Definition crash_map base rs m : Prop :=
  forall k, (forall r, r ∈ rs -> type r = WRITE -> txn_id r ∉ collect_ids ABORT rs -> key r <> k) ->
    m !! k = base !! k.

Lemma owned_dec act k : Decision (owned act k).
Proof. exact (decide (map_Exists (fun _ ws => is_Some (ws !! k)) act)). Defined.

(** Recovery's last update of a key gives its committed value; a key that it
    does not touch still has the value of [base]. *)
Lemma last_update_recovery base rs cur act k :
  hist base rs cur act ->
  match last_update k (recovery_updates rs) with
  | Some v => v = committed_map base rs !! k
  | None => committed_map base rs !! k = base !! k /\
      forall r, r ∈ rs -> type r = WRITE -> txn_id r ∉ collect_ids ABORT rs -> key r <> k
  end.
Proof.
  intros Hi%hist_invariant. unfold recovery_updates, undo_updates. rewrite last_update_app.
  rewrite (hi_active _ _ _ _ Hi). destruct (owned_dec act k) as [(t & ws & Ht & b & Hk)|Hno].
  - rewrite (hi_first _ _ _ _ Hi t ws k b).
    + symmetry. by apply (hi_before _ _ _ _ Hi t ws).
    + done.
    + done.
    + apply bool_decide_eq_true_2. by apply elem_of_dom_2 in Ht.
    + intros t' Ht'%bool_decide_eq_true_1. by apply elem_of_dom.
  - assert (Hfree : forall r, r ∈ rs -> type r = WRITE -> key r = k -> act !! txn_id r = None).
    { intros r Hr Hw Hkr. destruct (act !! txn_id r) as [ws|] eqn:E; [|done]. exfalso. apply Hno.
      exists (txn_id r), ws. split; [done|]. rewrite <- Hkr. by apply (hi_writes _ _ _ _ Hi). }
    rewrite (last_update_none _ before_image k (reverse rs)).
    2:{ intros r Hr Hw Hact%bool_decide_eq_true_1 Hkr. rewrite elem_of_reverse in Hr.
        apply elem_of_dom in Hact. rewrite (Hfree r) in Hact by done. by destruct Hact. }
    unfold redo_updates, committed_map. rewrite lookup_apply_updates.
    rewrite (last_update_ext _ (committed rs)).
    + destruct (last_update k _) as [v|] eqn:E; [done|]. split; [done|].
      intros r Hr Hw Hab Hkr. apply last_update_None in E. apply E. apply list_elem_of_fmap.
      exists (key r, after_image r). split; [done|]. apply list_elem_of_fmap. exists r. split; [done|].
      apply list_elem_of_filter. split; [|done]. split; [done|]. apply committed_iff.
      destruct (hi_status _ _ _ _ Hi r Hr) as [Ha|[Hc|?]]; [|done|done].
      apply elem_of_dom in Ha. rewrite (Hfree r) in Ha by done. by destruct Ha.
    + intros r Hr Hw Hkr. unfold committed. rewrite <- bool_decide_not. apply bool_decide_ext. split.
      * intros Hab. destruct (hi_status _ _ _ _ Hi r Hr) as [Ha|[Hc|?]]; [|done|done].
        apply elem_of_dom in Ha. rewrite (Hfree r) in Ha by done. by destruct Ha.
      * intros Hc. by apply (hi_committed _ _ _ _ Hi).
Qed.

(** Redo and undo bring every such map to the committed one. *)
Lemma recovered base rs cur act m :
  hist base rs cur act -> crash_map base rs m ->
  apply_updates (recovery_updates rs) m = committed_map base rs.
Proof.
  intros Hh Hm. apply map_eq. intros k. rewrite lookup_apply_updates.
  pose proof (last_update_recovery base rs cur act k Hh) as Hk.
  destruct (last_update k (recovery_updates rs)) as [v|]; [done|].
  destruct Hk as [-> Hk]. apply Hm. intros r Hr Hw Hab. by apply Hk.
Qed.

(** The current map is the committed one but for the keys that active
    transactions wrote. *)
Lemma current_committed base rs cur act k :
  hist base rs cur act -> ~ owned act k -> cur !! k = committed_map base rs !! k.
Proof. intros Hh%hist_invariant. apply (hi_free _ _ _ _ Hh). Qed.

Lemma quiescent base rs cur : hist base rs cur ∅ -> cur = committed_map base rs.
Proof.
  intros Hh. apply map_eq. intros k. apply (current_committed base rs cur ∅ k Hh).
  intros (t & ws & Ht & _). by rewrite lookup_empty in Ht.
Qed.

Lemma prefix_snoc_case {A} (l l' : list A) (x : A) :
  l' `prefix_of` l ++ [x] -> l' = l ++ [x] \/ l' `prefix_of` l.
Proof.
  intros [l2 E]. destruct l2 as [|y l2 _] using rev_ind; [left; by rewrite app_nil_r in E|].
  rewrite app_assoc in E. apply app_inj_tail in E as [E _]. right. by exists l2.
Qed.

(** A prefix of a history is one: what a crash keeps of an unflushed log. *)
Lemma hist_prefix base rs cur act rs' :
  hist base rs cur act -> rs' `prefix_of` rs -> exists cur' act', hist base rs' cur' act'.
Proof.
  intros Hh. revert rs'. induction Hh as [|rs cur act r Hh IH Hty Hf|rs cur act ws r Hh IH Hty Ht Hl Hb
    |rs cur act ws r Hh IH Hty Ht|rs cur act ws r Hh IH Hty Ht]; intros rs' Hp.
  { apply prefix_nil_inv in Hp as ->. eexists _, _. constructor. }
  all: apply prefix_snoc_case in Hp as [->|Hp]; [|by apply IH]; eexists _, _.
  - by apply (hist_begin base rs cur act r).
  - by apply (hist_write base rs cur act ws r).
  - by apply (hist_commit base rs cur act ws r).
  - by apply (hist_abort base rs cur act ws r).
Qed.
