(* ===== verification/LockManager.v ===== *)
(** * Key locks ([src/src/txn/lock_manager.h], [lock_manager.cpp])

    The methods run under [mu_], so each is one transition of the lock table;
    [lock] gives the mutex up in [cv_.wait_until] and is cut there: the list
    of its [wake]s says what the other threads did during each wait and
    whether the wait ended by a notification or by the deadline. *)

From S2P Require Import Prelude.

Definition INVALID_TXN_ID : Z := -1.

Definition DEFAULT_TIMEOUT_MS : Z := 200.

Inductive LockMode : Type := SHARED | EXCLUSIVE.

#[export] Instance LockMode_eq_dec : EqDecision LockMode.
Proof. solve_decision. Defined.

Record LockState : Type := mkLockState { shared_holders : gset Z; exclusive_holder : Z }.

#[export] Instance LockState_eq_dec : EqDecision LockState.
Proof. solve_decision. Defined.

Definition new_LockState : LockState := mkLockState ∅ INVALID_TXN_ID.

Record LockManager : Type := mkLockManager {
  lock_table_ : gmap bytes LockState;
  txn_locks_ : gmap Z (list bytes);
  timeout_ms_ : Z;
}.

Definition LockManager_ctor (timeout_ms : Z) : LockManager := mkLockManager ∅ ∅ timeout_ms.

Definition set_lock_table (tbl : gmap bytes LockState) (l : LockManager) : LockManager :=
  mkLockManager tbl (txn_locks_ l) (timeout_ms_ l).
Definition set_txn_locks (tl : gmap Z (list bytes)) (l : LockManager) : LockManager :=
  mkLockManager (lock_table_ l) tl (timeout_ms_ l).

Definition can_grant (ls : LockState) (txn_id : Z) (mode : LockMode) : bool :=
  match mode with
  | SHARED =>
      if exclusive_holder ls =? INVALID_TXN_ID then true else exclusive_holder ls =? txn_id
  | EXCLUSIVE =>
      if negb (exclusive_holder ls =? INVALID_TXN_ID) then exclusive_holder ls =? txn_id
      else if bool_decide (shared_holders ls = ∅) then true
      else (Z.of_nat (size (shared_holders ls)) =? 1) && bool_decide (txn_id ∈ shared_holders ls)
  end.

(** [lock_table_[key]]: a new entry when there is none. *)
Definition lock_state (key : bytes) : M LockManager LockState :=
  let* l := getS in
  match lock_table_ l !! key with
  | Some ls => ret ls
  | None =>
      do* modifyS (set_lock_table (<[key := new_LockState]> (lock_table_ l))) in
      ret new_LockState
  end.

Definition set_lock_state (key : bytes) (ls : LockState) : M LockManager unit :=
  modifyS (fun l => set_lock_table (<[key := ls]> (lock_table_ l)) l).

Definition is_free (ls : LockState) : bool :=
  bool_decide (shared_holders ls = ∅) && (exclusive_holder ls =? INVALID_TXN_ID).

(** The deadline has passed: an entry that nobody holds goes, and [throw]. *)
Definition timed_out (key : bytes) : M LockManager unit :=
  do* modifyS (fun l =>
    match lock_table_ l !! key with
    | Some ls => if is_free ls then set_lock_table (delete key (lock_table_ l)) l else l
    | None => l
    end) in
  throw DeadlockException.

(** The lock is granted: record it. *)
Definition record_lock (txn_id : Z) (key : bytes) (mode : LockMode) : M LockManager unit :=
  let push := modifyS (fun l => set_txn_locks
    (<[txn_id := default [] (txn_locks_ l !! txn_id) ++ [key]]> (txn_locks_ l)) l) in
  let* ls := lock_state key in
  match mode with
  | SHARED =>
      if exclusive_holder ls =? txn_id then ret tt
      else
        do* set_lock_state key (mkLockState ({[txn_id]} ∪ shared_holders ls) (exclusive_holder ls)) in
        push
  | EXCLUSIVE =>
      do* set_lock_state key (mkLockState (shared_holders ls ∖ {[txn_id]}) txn_id) in
      push
  end.

Inductive wake : Type :=
| Notified (others : LockManager -> LockManager)
| TimedOut (others : LockManager -> LockManager).

(** The [while (true)] of [lock]; [false]: still waiting after these wakes. *)
Fixpoint lock_loop (txn_id : Z) (key : bytes) (mode : LockMode) (ws : list wake) : M LockManager bool :=
  let* ls := lock_state key in
  if can_grant ls txn_id mode then ret true
  else
    match ws with
    | [] => ret false
    | Notified others :: ws' => do* modifyS others in lock_loop txn_id key mode ws'
    | TimedOut others :: _ => do* modifyS others in do* timed_out key in ret false
    end.

Definition lock (txn_id : Z) (key : bytes) (mode : LockMode) (ws : list wake) : M LockManager bool :=
  let* granted := lock_loop txn_id key mode ws in
  if granted then do* record_lock txn_id key mode in ret true else ret false.

(** The body of the loop of [release_all]. *)
Definition release_key (txn_id : Z) (tbl : gmap bytes LockState) (key : bytes) : gmap bytes LockState :=
  match tbl !! key with
  | None => tbl
  | Some ls =>
      let ls' := mkLockState (shared_holders ls ∖ {[txn_id]})
        (if exclusive_holder ls =? txn_id then INVALID_TXN_ID else exclusive_holder ls) in
      if is_free ls' then delete key tbl else <[key := ls']> tbl
  end.

Definition release_all (txn_id : Z) : M LockManager unit :=
  modifyS (fun l =>
    match txn_locks_ l !! txn_id with
    | None => l
    | Some keys => mkLockManager (fold_left (release_key txn_id) keys (lock_table_ l))
                     (delete txn_id (txn_locks_ l)) (timeout_ms_ l)
    end).

Definition holds_lock (txn_id : Z) (key : bytes) (l : LockManager) : bool :=
  match lock_table_ l !! key with
  | None => false
  | Some ls => bool_decide (txn_id ∈ shared_holders ls) || (exclusive_holder ls =? txn_id)
  end.

Definition holds_exclusive (txn_id : Z) (key : bytes) (l : LockManager) : bool :=
  match lock_table_ l !! key with
  | None => false
  | Some ls => exclusive_holder ls =? txn_id
  end.

(** ** The lock table as a relation *)

(** [holds l t k m]: transaction [t] has a lock on [k], of mode [m]. *)
Definition holds_mode (l : LockManager) (t : Z) (k : bytes) (m : LockMode) : Prop :=
  exists ls, lock_table_ l !! k = Some ls /\
    match m with
    | SHARED => t ∈ shared_holders ls
    | EXCLUSIVE => exclusive_holder ls = t /\ t <> INVALID_TXN_ID
    end.

(** The compatibility matrix of the header. *)
Definition compatible (m m' : LockMode) : bool :=
  match m, m' with SHARED, SHARED => true | _, _ => false end.

(** No other transaction has a lock that conflicts with [m]. *)
Definition grantable (l : LockManager) (t : Z) (k : bytes) (m : LockMode) : Prop :=
  forall t' m', holds_mode l t' k m' -> t' = t \/ compatible m m' = true.

Record lm_inv (l : LockManager) : Prop := {
  lm_alone : forall k ls, lock_table_ l !! k = Some ls ->
    exclusive_holder ls <> INVALID_TXN_ID -> shared_holders ls = ∅;
  lm_used : forall k ls, lock_table_ l !! k = Some ls -> is_free ls = false;
  lm_valid : forall k ls, lock_table_ l !! k = Some ls -> INVALID_TXN_ID ∉ shared_holders ls;
  lm_listed : forall t k m, holds_mode l t k m -> k ∈ default [] (txn_locks_ l !! t);
}.

Lemma is_free_true ls : is_free ls = true <-> ls = new_LockState.
Proof.
  unfold is_free. destruct ls as [sh ex]. cbn. rewrite andb_true_iff, bool_decide_eq_true, Z.eqb_eq.
  split; [by intros [-> ->]|]. unfold new_LockState. intros E. by injection E as -> ->.
Qed.

Lemma lm_inv_init n : lm_inv (LockManager_ctor n).
Proof.
  split; cbn; try (intros k ls Hk; by rewrite lookup_empty in Hk).
  intros t k m (ls & Hk & _). cbn in Hk. by rewrite lookup_empty in Hk.
Qed.

(** [can_grant] decides [grantable]. *)
Lemma can_grant_ok l t k m :
  lm_inv l -> t <> INVALID_TXN_ID ->
  can_grant (default new_LockState (lock_table_ l !! k)) t m = true <-> grantable l t k m.
Proof.
  intros Hi Ht. unfold grantable, holds_mode.
  destruct (lock_table_ l !! k) as [[sh ex]|] eqn:Hk; cbn [default from_option id].
  2:{ split; [|by destruct m]. intros _ t' m' (ls & ? & _). done. }
  pose proof (lm_alone l Hi k _ Hk) as Halone. cbn in Halone.
  destruct m; cbn [can_grant exclusive_holder shared_holders].
  - destruct (Z.eqb_spec ex INVALID_TXN_ID) as [->|Hex].
    + split; [|done]. intros _ t' [] (ls & [= <-] & Hm); [by right|]. cbn in Hm. by destruct Hm.
    + rewrite Z.eqb_eq. split.
      * intros -> t' [] (ls & [= <-] & Hm); [by right|]. left. cbn in Hm. by destruct Hm.
      * intros Hg. destruct (Hg ex EXCLUSIVE) as [|Hc]; [by eexists|done|done].
  - destruct (Z.eqb_spec ex INVALID_TXN_ID) as [->|Hex]; cbn [negb].
    + case_bool_decide as Hsh; [|rewrite andb_true_iff, Z.eqb_eq, bool_decide_eq_true].
      * split; [|done]. intros _ t' [] (ls & [= <-] & Hm); cbn in Hm.
        -- rewrite Hsh in Hm. by apply elem_of_empty in Hm.
        -- by destruct Hm.
      * split.
        -- intros [Hs Hin] t' [] (ls & [= <-] & Hm); cbn in Hm; [|by destruct Hm].
           left. assert (Hs1 : size sh = 1%nat) by lia. apply size_1_elem_of in Hs1 as [x Hx].
           rewrite Hx in Hm, Hin. apply elem_of_singleton in Hm, Hin. congruence.
        -- intros Hg. assert (Hall : forall x, x ∈ sh -> x = t).
           { intros x Hx. destruct (Hg x SHARED) as [|Hc]; [by eexists|done|done]. }
           destruct (set_choose_L sh Hsh) as [x Hx]. pose proof (Hall x Hx) as ->.
           split; [|done]. assert (Heq : sh = {[t]}).
           { apply leibniz_equiv. intros y. rewrite elem_of_singleton.
             split; [by apply Hall|by intros ->]. }
           by rewrite Heq, size_singleton.
    + rewrite Z.eqb_eq. split.
      * intros -> t' [] (ls & [= <-] & Hm); cbn in Hm.
        -- rewrite (Halone Hex) in Hm. by apply elem_of_empty in Hm.
        -- left. by destruct Hm.
      * intros Hg. destruct (Hg ex EXCLUSIVE) as [|Hc]; [by eexists|done|done].
Qed.

(** ** Acquiring *)

Lemma set_lock_table_twice tbl tbl' l : set_lock_table tbl (set_lock_table tbl' l) = set_lock_table tbl l.
Proof. done. Qed.

(** The state after [lock_state key]: the entry is there. *)
Definition with_entry (k : bytes) (l : LockManager) : LockManager :=
  set_lock_table (<[k := default new_LockState (lock_table_ l !! k)]> (lock_table_ l)) l.

Lemma with_entry_present k l ls : lock_table_ l !! k = Some ls -> with_entry k l = l.
Proof. intros Hk. unfold with_entry. rewrite Hk. cbn. rewrite insert_id by done. by destruct l. Qed.

Lemma lock_state_ok k l :
  lock_state k l = (Ok (default new_LockState (lock_table_ l !! k)), with_entry k l).
Proof.
  unfold lock_state, bind, getS. destruct (lock_table_ l !! k) as [ls|] eqn:Hk.
  - by rewrite (with_entry_present k l ls Hk).
  - unfold with_entry. rewrite Hk. done.
Qed.

(** A refused request finds the entry in the table. *)
Lemma refused_entry l t k m :
  can_grant (default new_LockState (lock_table_ l !! k)) t m = false -> with_entry k l = l.
Proof.
  destruct (lock_table_ l !! k) as [ls|] eqn:Hk; [intros _; by eapply with_entry_present|].
  cbn. by destruct m.
Qed.

(** What the table says after a grant. *)
Definition granted_state (ls : LockState) (t : Z) (m : LockMode) : LockState :=
  match m with
  | SHARED => if exclusive_holder ls =? t then ls
              else mkLockState ({[t]} ∪ shared_holders ls) (exclusive_holder ls)
  | EXCLUSIVE => mkLockState (shared_holders ls ∖ {[t]}) t
  end.

Lemma record_lock_ok l t k m :
  exists tl, record_lock t k m (with_entry k l) =
    (Ok tt, mkLockManager
       (<[k := granted_state (default new_LockState (lock_table_ l !! k)) t m]> (lock_table_ l))
       tl (timeout_ms_ l)) /\
    (forall t', t' <> t -> tl !! t' = txn_locks_ l !! t') /\
    (forall x, x ∈ default [] (txn_locks_ l !! t) -> x ∈ default [] (tl !! t)) /\
    ((m = SHARED /\ exclusive_holder (default new_LockState (lock_table_ l !! k)) = t) \/
     k ∈ default [] (tl !! t)).
Proof.
  set (ls := default new_LockState (lock_table_ l !! k)).
  assert (E : lock_state k (with_entry k l) = (Ok ls, with_entry k l)).
  { assert (Hk : lock_table_ (with_entry k l) !! k = Some ls) by apply lookup_insert_eq.
    rewrite lock_state_ok, Hk. by rewrite (with_entry_present _ _ ls Hk). }
  unfold record_lock. mstep E.
  assert (Hpush : forall ls' : LockState, exists tl,
    (do* set_lock_state k ls' in modifyS (fun l => set_txn_locks
       (<[t := default [] (txn_locks_ l !! t) ++ [k]]> (txn_locks_ l)) l)) (with_entry k l) =
    (Ok tt, mkLockManager (<[k := ls']> (lock_table_ l)) tl (timeout_ms_ l)) /\
    (forall t', t' <> t -> tl !! t' = txn_locks_ l !! t') /\
    (forall x, x ∈ default [] (txn_locks_ l !! t) -> x ∈ default [] (tl !! t)) /\
    k ∈ default [] (tl !! t)).
  { intros ls'. exists (<[t := default [] (txn_locks_ l !! t) ++ [k]]> (txn_locks_ l)).
    split; [|split; [|split]].
    - unfold bind, set_lock_state, modifyS, with_entry, set_txn_locks, set_lock_table. cbn.
      by rewrite insert_insert_eq.
    - intros t' Ht'. by rewrite lookup_insert_ne.
    - intros x Hx. rewrite lookup_insert_eq. cbn. apply elem_of_app. by left.
    - rewrite lookup_insert_eq. cbn. apply elem_of_app. right. by left. }
  unfold granted_state. destruct m.
  - destruct (Z.eqb_spec (exclusive_holder ls) t) as [Hx|Hx].
    + exists (txn_locks_ l). split; [by destruct l|]. split; [done|]. split; [done|]. left. by split.
    + destruct (Hpush (mkLockState ({[t]} ∪ shared_holders ls) (exclusive_holder ls)))
        as (tl & E' & H1 & H2 & H3). exists tl. split; [exact E'|]. split; [done|]. split; [done|by right].
  - destruct (Hpush (mkLockState (shared_holders ls ∖ {[t]}) t)) as (tl & E' & H1 & H2 & H3).
    exists tl. split; [exact E'|]. split; [done|]. split; [done|by right].
Qed.

(** [t] may use [k] in mode [m]: it has that mode or the stronger one. *)
Definition has_mode (l : LockManager) (t : Z) (k : bytes) (m : LockMode) : Prop :=
  holds_mode l t k m \/ holds_mode l t k EXCLUSIVE.

(** What the invariant says of one entry. *)
Record ls_ok (ls : LockState) : Prop := {
  ls_alone : exclusive_holder ls <> INVALID_TXN_ID -> shared_holders ls = ∅;
  ls_valid : INVALID_TXN_ID ∉ shared_holders ls;
}.

Lemma entry_ok l k : lm_inv l -> ls_ok (default new_LockState (lock_table_ l !! k)).
Proof.
  intros Hi. destruct (lock_table_ l !! k) as [ls|] eqn:E; cbn [default from_option id].
  - split; [by apply (lm_alone l Hi k)|by apply (lm_valid l Hi k)].
  - split; [done|apply not_elem_of_empty].
Qed.

(** An exclusive grant finds no other shared holder. *)
Lemma exclusive_alone ls t :
  ls_ok ls -> can_grant ls t EXCLUSIVE = true -> shared_holders ls ∖ {[t]} = ∅.
Proof.
  intros [Hal _] Hg. cbn [can_grant] in Hg. apply leibniz_equiv. intros x.
  rewrite elem_of_difference, elem_of_singleton, elem_of_empty. split; [|done]. intros [Hx Hxt].
  destruct (Z.eqb_spec (exclusive_holder ls) INVALID_TXN_ID) as [He|He]; cbn [negb] in Hg.
  - case_bool_decide as Hsh; [rewrite Hsh in Hx; by apply elem_of_empty in Hx|].
    apply andb_true_iff in Hg as [Hs%Z.eqb_eq Hin%bool_decide_eq_true_1].
    assert (Hs1 : size (shared_holders ls) = 1%nat) by lia. apply size_1_elem_of in Hs1 as [y Hy].
    rewrite Hy in Hx, Hin. apply elem_of_singleton in Hx, Hin. congruence.
  - rewrite (Hal He) in Hx. by apply elem_of_empty in Hx.
Qed.

Lemma granted_state_ok ls t m :
  ls_ok ls -> t <> INVALID_TXN_ID -> can_grant ls t m = true ->
  ls_ok (granted_state ls t m) /\ is_free (granted_state ls t m) = false.
Proof.
  intros Hls Ht Hg. destruct m; cbn [granted_state].
  - cbn [can_grant] in Hg. destruct (Z.eqb_spec (exclusive_holder ls) t) as [Hx|Hx].
    + split; [done|]. apply not_true_is_false. intros Hf%is_free_true. rewrite Hf in Hx. by apply Ht.
    + destruct (Z.eqb_spec (exclusive_holder ls) INVALID_TXN_ID) as [He|He]; [|done].
      split; [split; cbn|].
      * done.
      * rewrite elem_of_union, elem_of_singleton.
        intros [?|?]; [congruence|]. by apply (ls_valid ls Hls).
      * apply not_true_is_false. intros Hf%is_free_true. injection Hf as Hf _.
        assert (Hin : t ∈ {[t]} ∪ shared_holders ls)
          by (apply elem_of_union; left; by apply elem_of_singleton).
        rewrite Hf in Hin. by apply elem_of_empty in Hin.
  - pose proof (exclusive_alone ls t Hls Hg) as Hsh. split; [split; cbn|].
    + done.
    + rewrite Hsh. apply not_elem_of_empty.
    + apply not_true_is_false. intros Hf%is_free_true. injection Hf as _ Hf. by apply Ht.
Qed.

(** The locks on one entry. *)
Definition ls_holds (ls : LockState) (t : Z) (m : LockMode) : Prop :=
  match m with
  | SHARED => t ∈ shared_holders ls
  | EXCLUSIVE => exclusive_holder ls = t /\ t <> INVALID_TXN_ID
  end.

Lemma holds_entry l t k m :
  holds_mode l t k m <-> ls_holds (default new_LockState (lock_table_ l !! k)) t m.
Proof.
  unfold holds_mode. destruct (lock_table_ l !! k) as [ls|]; cbn [default from_option id].
  - split; [by intros (ls' & [= <-] & Hm)|]. intros Hm. by exists ls.
  - split; [by intros (ls' & ? & _)|]. destruct m; cbn.
    + intros Hx. by apply elem_of_empty in Hx.
    + by intros [<- ?].
Qed.

(** A grant takes a lock from nobody else, and gives none to anybody else. *)
Lemma granted_others ls t m t' m' :
  ls_ok ls -> t <> INVALID_TXN_ID -> can_grant ls t m = true -> t' <> t ->
  ls_holds (granted_state ls t m) t' m' <-> ls_holds ls t' m'.
Proof.
  intros Hls Ht Hg Hne. destruct m; cbn [granted_state].
  - destruct (Z.eqb_spec (exclusive_holder ls) t); [done|]. destruct m'; cbn; [|done].
    rewrite elem_of_union, elem_of_singleton. tauto.
  - pose proof (exclusive_alone ls t Hls Hg) as Hsh. destruct m'; cbn [ls_holds shared_holders exclusive_holder].
    + rewrite elem_of_difference, elem_of_singleton. tauto.
    + split; [intros [-> _]; done|]. intros [<- Hx]. exfalso. cbn [can_grant] in Hg.
      destruct (Z.eqb_spec (exclusive_holder ls) INVALID_TXN_ID); [done|]. cbn [negb] in Hg.
      apply Z.eqb_eq in Hg. congruence.
Qed.

Lemma granted_holds ls t m :
  t <> INVALID_TXN_ID ->
  ls_holds (granted_state ls t m) t m \/ ls_holds (granted_state ls t m) t EXCLUSIVE.
Proof.
  intros Ht. destruct m; cbn [granted_state]; [|right; by split].
  destruct (Z.eqb_spec (exclusive_holder ls) t) as [<-|]; [right; by split|].
  left. cbn. apply elem_of_union. left. by apply elem_of_singleton.
Qed.

Section granted.
Context (l : LockManager) (t : Z) (k : bytes) (m : LockMode) (tl : gmap Z (list bytes)).
Let ls := default new_LockState (lock_table_ l !! k).
Let l' := mkLockManager (<[k := granted_state ls t m]> (lock_table_ l)) tl (timeout_ms_ l).
Hypothesis Hi : lm_inv l.
Hypothesis Ht : t <> INVALID_TXN_ID.
Hypothesis Hg : can_grant ls t m = true.

Lemma granted_frame t' k' m' :
  t' <> t \/ k' <> k -> holds_mode l' t' k' m' <-> holds_mode l t' k' m'.
Proof.
  intros Hne. rewrite !holds_entry. unfold l'. cbn [lock_table_].
  destruct (decide (k' = k)) as [->|Hk]; [|by rewrite lookup_insert_ne].
  rewrite lookup_insert_eq. cbn [default from_option id].
  destruct Hne as [Hne|]; [|done]. by apply granted_others; [apply entry_ok| | |].
Qed.

Lemma granted_has : has_mode l' t k m.
Proof.
  unfold has_mode. rewrite !holds_entry. unfold l'. cbn [lock_table_]. rewrite lookup_insert_eq.
  by apply granted_holds.
Qed.

(** A grant does not weaken a lock. *)
Lemma granted_exclusive t' k' : holds_mode l t' k' EXCLUSIVE -> holds_mode l' t' k' EXCLUSIVE.
Proof.
  intros Hx. destruct (decide (t' <> t \/ k' <> k)) as [Hne|He]; [by apply granted_frame|].
  assert (t' = t) as -> by (destruct (decide (t' = t)); tauto).
  assert (k' = k) as -> by (destruct (decide (k' = k)); tauto).
  rewrite holds_entry in Hx |- *. fold ls in Hx. unfold l'. cbn [lock_table_]. rewrite lookup_insert_eq.
  cbn [default from_option id]. destruct m; cbn [granted_state]; [|by split].
  by rewrite (proj2 (Z.eqb_eq _ _) (proj1 Hx)).
Qed.

Lemma granted_inv :
  (forall t', t' <> t -> tl !! t' = txn_locks_ l !! t') ->
  (forall x, x ∈ default [] (txn_locks_ l !! t) -> x ∈ default [] (tl !! t)) ->
  (m = SHARED /\ exclusive_holder ls = t) \/ k ∈ default [] (tl !! t) ->
  lm_inv l'.
Proof.
  intros Htl1 Htl2 Hk.
  destruct (granted_state_ok ls t m (entry_ok l k Hi) Ht Hg) as [[G1 G2] G3].
  split; unfold l'; cbn [lock_table_ txn_locks_].
  1-3: intros k' ls' [[-> <-]|[Hne Hl]]%lookup_insert_Some; [done|].
  - by apply (lm_alone l Hi k').
  - by apply (lm_used l Hi k').
  - by apply (lm_valid l Hi k').
  - intros t' k' m' Hm.
    assert (Hold : holds_mode l t' k' m' -> k' ∈ default [] (tl !! t')).
    { intros Hh%(lm_listed l Hi). destruct (decide (t' = t)) as [->|Hne]; [by apply Htl2|].
      by rewrite Htl1. }
    destruct (decide (t' = t /\ k' = k)) as [[-> ->]|Hne].
    + destruct Hk as [[Hms Hx]|Hk]; [|done]. apply Hold.
      rewrite holds_entry in Hm |- *. unfold l' in Hm. cbn [lock_table_] in Hm.
      rewrite lookup_insert_eq in Hm. cbn [default from_option id] in Hm.
      subst m. cbn [granted_state] in Hm. by rewrite Hx, Z.eqb_refl in Hm.
    + apply Hold, granted_frame; [|done]. destruct (decide (t' = t)); [right|by left].
      intros ->. by apply Hne.
Qed.
End granted.

(** ** The whole request *)

(** A request that is granted at once. *)
Lemma lock_granted l t k m ws :
  lm_inv l -> t <> INVALID_TXN_ID -> grantable l t k m ->
  exists l', lock t k m ws l = (Ok true, l') /\ lm_inv l' /\ has_mode l' t k m /\
    (forall t' k' m', t' <> t \/ k' <> k -> holds_mode l' t' k' m' <-> holds_mode l t' k' m') /\
    (forall t' k', holds_mode l t' k' EXCLUSIVE -> holds_mode l' t' k' EXCLUSIVE).
Proof.
  intros Hi Ht Hg. apply (can_grant_ok l t k m Hi Ht) in Hg.
  destruct (record_lock_ok l t k m) as (tl & E & H1 & H2 & H3).
  eexists. split; [|split; [by apply (granted_inv l t k m tl)|]].
  - unfold lock. rewrite (bind_ok _ _ l (with_entry k l) true); [by mstep E|].
    unfold lock_loop. destruct ws; mstep (lock_state_ok k l); by rewrite Hg.
  - split; [by apply granted_has|]. split; [intros t' k' m'; by apply granted_frame|].
    intros t' k'. by apply granted_exclusive.
Qed.

(** A lock that can be granted is not waited for. *)
Lemma lock_at_once l t k m ws ws' :
  lm_inv l -> t <> INVALID_TXN_ID -> grantable l t k m -> lock t k m ws l = lock t k m ws' l.
Proof.
  intros Hi Ht Hg. apply (can_grant_ok l t k m Hi Ht) in Hg.
  assert (Hl : forall ws0, lock_loop t k m ws0 l = (Ok true, with_entry k l)).
  { intros ws0. destruct ws0; unfold lock_loop; mstep (lock_state_ok k l); by rewrite Hg. }
  unfold lock, bind. by rewrite !Hl.
Qed.

(** One that is not: nothing changes but what the others do meanwhile. *)
Lemma lock_waits l t k m ws :
  lm_inv l -> t <> INVALID_TXN_ID -> ~ grantable l t k m ->
  lock t k m ws l =
    match ws with
    | [] => (Ok false, l)
    | Notified others :: ws' => lock t k m ws' (others l)
    | TimedOut others :: _ =>
        (Err DeadlockException,
         let l' := others l in
         match lock_table_ l' !! k with
         | Some ls => if is_free ls then set_lock_table (delete k (lock_table_ l')) l' else l'
         | None => l'
         end)
    end.
Proof.
  intros Hi Ht Hg.
  assert (Hc : can_grant (default new_LockState (lock_table_ l !! k)) t m = false).
  { apply not_true_is_false. by rewrite can_grant_ok. }
  pose proof (lock_state_ok k l) as E. rewrite (refused_entry l t k m Hc) in E.
  unfold lock. destruct ws as [|[others|others] ws]; cbn [lock_loop]; rewrite bind_assoc;
    mstep E; rewrite Hc; done.
Qed.

(** The clean-up after a timeout has nothing to clean. *)
Lemma lock_times_out l t k m others ws :
  lm_inv l -> t <> INVALID_TXN_ID -> ~ grantable l t k m -> lm_inv (others l) ->
  lock t k m (TimedOut others :: ws) l = (Err DeadlockException, others l).
Proof.
  intros Hi Ht Hg Ho. rewrite (lock_waits l t k m _ Hi Ht Hg). cbv zeta.
  destruct (lock_table_ (others l) !! k) as [ls|] eqn:E; [|done].
  by rewrite (lm_used _ Ho k ls E).
Qed.

(** ** Releasing *)

Definition released (t : Z) (ls : LockState) : LockState :=
  mkLockState (shared_holders ls ∖ {[t]})
    (if exclusive_holder ls =? t then INVALID_TXN_ID else exclusive_holder ls).

Lemma released_new t : released t new_LockState = new_LockState.
Proof.
  unfold released, new_LockState. cbn. f_equal; [by apply leibniz_equiv; intros x; rewrite elem_of_difference, elem_of_empty; tauto|].
  by case_match.
Qed.

Lemma released_twice t ls : released t (released t ls) = released t ls.
Proof.
  unfold released. cbn. f_equal.
  - apply leibniz_equiv. intros x. rewrite !elem_of_difference. tauto.
  - destruct (exclusive_holder ls =? t) eqn:E; [by case_match|by rewrite E].
Qed.

Lemma release_key_view t tbl key k :
  default new_LockState (release_key t tbl key !! k) =
    if decide (k = key) then released t (default new_LockState (tbl !! k))
    else default new_LockState (tbl !! k).
Proof.
  unfold release_key. case_decide as Hk.
  - subst k. destruct (tbl !! key) as [ls|] eqn:E; cbn [default from_option id]; cbv zeta.
    + fold (released t ls). destruct (is_free (released t ls)) eqn:Ef.
      * rewrite lookup_delete_eq. cbn. symmetry. by apply is_free_true.
      * by rewrite lookup_insert_eq.
    + rewrite E. cbn. by rewrite released_new.
  - destruct (tbl !! key) as [ls|]; [|done]. cbv zeta.
    destruct (is_free _); [by rewrite lookup_delete_ne|by rewrite lookup_insert_ne].
Qed.

Lemma release_keys_view t keys tbl k :
  default new_LockState (fold_left (release_key t) keys tbl !! k) =
    if decide (k ∈ keys) then released t (default new_LockState (tbl !! k))
    else default new_LockState (tbl !! k).
Proof.
  revert tbl. induction keys as [|key keys IH]; intros tbl; cbn [fold_left].
  - by rewrite decide_False by apply not_elem_of_nil.
  - rewrite IH, release_key_view.
    destruct (decide (k ∈ keys)) as [Hk|Hk], (decide (k = key)) as [->|Hne].
    + rewrite released_twice. by rewrite decide_True by (by left).
    + by rewrite decide_True by (by right).
    + by rewrite decide_True by (by left).
    + rewrite decide_False; [done|]. by intros [?|?]%elem_of_cons.
Qed.

Lemma release_keys_used t keys tbl :
  (forall k ls, tbl !! k = Some ls -> is_free ls = false) ->
  forall k ls, fold_left (release_key t) keys tbl !! k = Some ls -> is_free ls = false.
Proof.
  revert tbl. induction keys as [|key keys IH]; intros tbl Hu; cbn [fold_left]; [done|].
  apply IH. intros k ls. unfold release_key. destruct (tbl !! key) as [ls0|] eqn:E; [|by apply Hu].
  cbv zeta. fold (released t ls0). destruct (is_free (released t ls0)) eqn:Ef.
  - intros [_ Hk]%lookup_delete_Some. by apply (Hu k).
  - intros [[_ <-]|[_ Hk]]%lookup_insert_Some; [done|by apply (Hu k)].
Qed.

Lemma released_holds t ls t' m : ls_holds (released t ls) t' m <-> ls_holds ls t' m /\ t' <> t.
Proof.
  destruct m; cbn.
  - rewrite elem_of_difference, elem_of_singleton. done.
  - destruct (Z.eqb_spec (exclusive_holder ls) t) as [He|He].
    + split; [by intros [<- ?]|]. intros [[<- _] Hne]. done.
    + split; [|tauto]. intros [<- ?]. done.
Qed.

(** [release_all] takes every lock of the transaction and no other. *)
Lemma release_all_ok l t :
  lm_inv l ->
  exists l', release_all t l = (Ok tt, l') /\ lm_inv l' /\
    forall t' k m, holds_mode l' t' k m <-> holds_mode l t' k m /\ t' <> t.
Proof.
  intros Hi. unfold release_all, modifyS. destruct (txn_locks_ l !! t) as [keys|] eqn:Ek.
  - eexists. split; [done|].
    assert (Hh : forall t' k m, holds_mode (mkLockManager (fold_left (release_key t) keys (lock_table_ l))
        (delete t (txn_locks_ l)) (timeout_ms_ l)) t' k m <-> holds_mode l t' k m /\ t' <> t).
    { intros t' k m. rewrite !holds_entry. cbn [lock_table_]. rewrite release_keys_view.
      case_decide as Hk; [apply released_holds|]. split; [|tauto]. intros Hm. split; [done|]. intros ->.
      apply holds_entry, (lm_listed l Hi) in Hm. by rewrite Ek in Hm. }
    split; [|exact Hh].
    assert (Hview : forall k ls, fold_left (release_key t) keys (lock_table_ l) !! k = Some ls ->
      ls_ok ls).
    { intros k ls Hl. pose proof (release_keys_view t keys (lock_table_ l) k) as Hv. rewrite Hl in Hv.
      cbn in Hv. pose proof (entry_ok l k Hi) as [Ha Hval]. case_decide; subst ls; [|by split].
      split; cbn.
      - destruct (Z.eqb_spec (exclusive_holder (default new_LockState (lock_table_ l !! k))) t); [done|].
        intros He. rewrite (Ha He). apply leibniz_equiv. intros x.
        rewrite elem_of_difference, elem_of_empty. tauto.
      - rewrite elem_of_difference. tauto. }
    split; cbn [lock_table_ txn_locks_].
    + intros k ls Hl. by apply (Hview k).
    + apply release_keys_used, (lm_used l Hi).
    + intros k ls Hl. by apply (Hview k).
    + intros t' k m [Hm Hne]%Hh. rewrite lookup_delete_ne by done. by apply (lm_listed l Hi) in Hm.
  - exists l. split; [done|]. split; [done|]. intros t' k m. split; [|tauto]. intros Hm. split; [done|].
    intros ->. apply (lm_listed l Hi) in Hm. rewrite Ek in Hm. by apply not_elem_of_nil in Hm.
Qed.

(** ** All schedules *)

(** What the threads can do to the table, one critical section at a time. *)
Inductive lm_step : LockManager -> LockManager -> Prop :=
| step_request l l' t k m r : t <> INVALID_TXN_ID -> lock t k m [] l = (Ok r, l') -> lm_step l l'
| step_timeout l l' t k m : t <> INVALID_TXN_ID ->
    lock t k m [TimedOut (fun x => x)] l = (Err DeadlockException, l') -> lm_step l l'
| step_release l l' t : release_all t l = (Ok tt, l') -> lm_step l l'.

Lemma grantable_dec l t k m : lm_inv l -> t <> INVALID_TXN_ID -> Decision (grantable l t k m).
Proof.
  intros Hi Ht. destruct (can_grant (default new_LockState (lock_table_ l !! k)) t m) eqn:E.
  - left. by apply can_grant_ok.
  - right. intros Hg. apply (can_grant_ok l t k m Hi Ht) in Hg. congruence.
Qed.

Lemma lm_step_inv l l' : lm_inv l -> lm_step l l' -> lm_inv l'.
Proof.
  intros Hi Hs. destruct Hs as [l l' t k m r Ht E|l l' t k m Ht E|l l' t E].
  - destruct (grantable_dec l t k m Hi Ht) as [Hg|Hg].
    + destruct (lock_granted l t k m [] Hi Ht Hg) as (l2 & E2 & Hi2 & _). congruence.
    + rewrite (lock_waits l t k m [] Hi Ht Hg) in E. congruence.
  - destruct (grantable_dec l t k m Hi Ht) as [Hg|Hg].
    + destruct (lock_granted l t k m [TimedOut (fun x => x)] Hi Ht Hg) as (l2 & E2 & _). congruence.
    + rewrite (lock_times_out l t k m _ [] Hi Ht Hg Hi) in E. congruence.
  - destruct (release_all_ok l t Hi) as (l2 & E2 & Hi2 & _). congruence.
Qed.

Lemma lm_steps_inv l l' : lm_inv l -> rtc lm_step l l' -> lm_inv l'.
Proof. intros Hi Hs. induction Hs; [done|]. eauto using lm_step_inv. Qed.

(** Two transactions with locks on one key both read. *)
Lemma inv_compatible l t1 t2 k m1 m2 :
  lm_inv l -> holds_mode l t1 k m1 -> holds_mode l t2 k m2 -> t1 <> t2 -> compatible m1 m2 = true.
Proof.
  intros Hi. rewrite !holds_entry. destruct (entry_ok l k Hi) as [Ha _]. intros H1 H2 Hne.
  destruct m1, m2; cbn in *; [done|..]; exfalso.
  - destruct H2 as [E Hv]. rewrite Ha in H1 by congruence. by apply elem_of_empty in H1.
  - destruct H1 as [E Hv]. rewrite Ha in H2 by congruence. by apply elem_of_empty in H2.
  - destruct H1 as [E1 _], H2 as [E2 _]. congruence.
Qed.
