(* ===== verification/Db.v ===== *)
(** * Databases and transactions ([src/src/db.h], [db.cpp])

    A [DB] is its store (the B+Tree with the pool and the disk manager below
    it), its log and its lock manager; a [Transaction] works on a database and
    its own fields, so its methods run in the state [DB * Transaction].

    [db_mu_] makes the access to the store one step.  A request for a lock
    that has to wait returns [None] or [false] and leaves everything as it
    was: it is made again when the thread is woken; [deadline] says that the
    wait ends by the timeout, with the exception. *)

From S2P Require Import Prelude.
From S2P Require Import DiskManager.
From S2P Require Import Store.
From S2P Require Import LogManager.
From S2P Require Import LockManager.

Record DB (S F : Type) : Type := mkDB { btree_ : S; log_ : LogManager F; lm_ : LockManager }.
Arguments mkDB {S F} btree_ log_ lm_.
Arguments btree_ {S F} d.
Arguments log_ {S F} d.
Arguments lm_ {S F} d.

Record WriteEntry : Type := mkEntry {
  we_before_exists : bool;
  we_before_val : bytes;
  we_after_val : bytes;
}.

Record Transaction : Type := mkTxn {
  txn_id_ : Z;
  done_ : bool;
  write_set_ : gmap bytes WriteEntry;
}.

Definition set_done (tx : Transaction) : Transaction := mkTxn (txn_id_ tx) true (write_set_ tx).
Definition set_entry (k : bytes) (e : WriteEntry) (tx : Transaction) : Transaction :=
  mkTxn (txn_id_ tx) (done_ tx) (<[k := e]> (write_set_ tx)).

Section ops.
Context {S F : Type} `{KVStore S, PosixFile F}.

Definition set_btree (s : S) (d : DB S F) : DB S F := mkDB s (log_ d) (lm_ d).
Definition set_log (l : LogManager F) (d : DB S F) : DB S F := mkDB (btree_ d) l (lm_ d).
Definition set_lm (l : LockManager) (d : DB S F) : DB S F := mkDB (btree_ d) (log_ d) l.

(** [log_->begin_txn(txn_id)] and the constructor of [Transaction]. *)
Definition Begin : M (DB S F) Transaction :=
  let* r := zoom log_ set_log begin_txn in
  ret (mkTxn r.1 false ∅).

(** [DB::Close], up to the log: [flush_all], [flush], [truncate]. *)
Definition Close `{TruncFile F} : M (DB S F) unit :=
  do* zoom btree_ set_btree kv_sync in
  zoom log_ set_log truncate.

(** ** Transactions *)

Abbreviation TxM := (M (DB S F * Transaction)).

Definition on_btree {A : Type} (m : M S A) : TxM A :=
  zoom (fun st => btree_ st.1) (fun s st => (set_btree s st.1, st.2)) m.
Definition on_log {A : Type} (m : M (LogManager F) A) : TxM A :=
  zoom (fun st => log_ st.1) (fun l st => (set_log l st.1, st.2)) m.
Definition on_locks {A : Type} (m : M LockManager A) : TxM A :=
  zoom (fun st => lm_ st.1) (fun l st => (set_lm l st.1, st.2)) m.
Definition on_txn (f : Transaction -> Transaction) : TxM unit := modifyS (fun st => (st.1, f st.2)).
Definition txn : TxM Transaction := fun st => (Ok st.2, st).

Definition get_locked (k : bytes) : TxM (option bytes) := on_btree (kv_get k).

Definition put_locked (k v : bytes) : TxM unit :=
  let* tx := txn in
  let* entry :=
    (match write_set_ tx !! k with
     | None =>
         let* existing := on_btree (kv_get k) in
         let we := mkEntry (bool_decide (is_Some existing)) (default [] existing) v in
         do* on_txn (set_entry k we) in
         ret we
     | Some e =>
         let e' := mkEntry (we_before_exists e) (we_before_val e) v in
         do* on_txn (set_entry k e') in
         ret e'
     end) in
  do* on_log (append_write (txn_id_ tx) k (we_before_exists entry) (we_before_val entry) v) in
  on_btree (kv_insert k v).

Definition delete_locked (k : bytes) : TxM unit :=
  let* existing := on_btree (kv_get k) in
  match existing with
  | None => ret tt
  | Some old =>
      let* tx := txn in
      let entry :=
        match write_set_ tx !! k with
        | None => mkEntry true old []
        | Some e => mkEntry (we_before_exists e) (we_before_val e) []
        end in
      do* on_txn (set_entry k entry) in
      do* on_log (append_write (txn_id_ tx) k (we_before_exists entry) (we_before_val entry) []) in
      do* on_btree (kv_remove k) in
      ret tt
  end.

(** The loop of [undo_all], in the order [entries] of the hash map. *)
Definition undo_all_in (entries : list (bytes * WriteEntry)) : TxM unit :=
  for_each entries (fun kw =>
    if negb (we_before_exists kw.2) then do* on_btree (kv_remove kw.1) in ret tt
    else on_btree (kv_insert kw.1 (we_before_val kw.2))).

Definition undo_all : TxM unit := let* tx := txn in undo_all_in (map_to_list (write_set_ tx)).

Definition check_open : TxM unit :=
  let* tx := txn in if done_ tx then throw StdRuntimeError else ret tt.

Definition acquire (k : bytes) (mode : LockMode) (deadline : bool) : TxM bool :=
  let* tx := txn in
  on_locks (lock (txn_id_ tx) k mode (if deadline then [TimedOut (fun l => l)] else [])).

Definition Get (k : bytes) (deadline : bool) : TxM (option (option bytes)) :=
  do* check_open in
  let* granted := acquire k SHARED deadline in
  if granted then let* v := get_locked k in ret (Some v) else ret None.

Definition Put (k v : bytes) (deadline : bool) : TxM bool :=
  do* check_open in
  let* granted := acquire k EXCLUSIVE deadline in
  if granted then do* put_locked k v in ret true else ret false.

Definition Delete (k : bytes) (deadline : bool) : TxM bool :=
  do* check_open in
  let* granted := acquire k EXCLUSIVE deadline in
  if granted then do* delete_locked k in ret true else ret false.

Definition Commit : TxM unit :=
  do* check_open in
  do* on_txn set_done in
  let* tx := txn in
  do* on_log (append_commit (txn_id_ tx)) in
  do* on_log flush in
  do* on_btree kv_sync in
  on_locks (release_all (txn_id_ tx)).

Definition Rollback : TxM unit :=
  do* check_open in
  do* on_txn set_done in
  do* undo_all in
  let* tx := txn in
  do* on_log (append_abort (txn_id_ tx)) in
  on_locks (release_all (txn_id_ tx)).

(** The destructor: [catch (...)] swallows what [Rollback] throws. *)
Definition Transaction_dtor : TxM unit :=
  let* tx := txn in
  if done_ tx then ret tt else try_catch Rollback (fun _ => ret tt).
End ops.
