(* ===== verification/Open.v ===== *)
(** * Opening a database ([DB::Open] of [src/src/db.cpp])

    [data] and [wal] are what [open] gave for the two files.  Creation of the
    tree, recovery and the truncation of the log run on the database whose
    members the constructors have built. *)

From S2P Require Import Prelude.
From S2P Require Import Page.
From S2P Require Import DiskManager.
From S2P Require Import FreeList.
From S2P Require Import BufferPool.
From S2P Require Import BTree.
From S2P Require Import Store.
From S2P Require Import TreeStore.
From S2P Require Import LogManager.
From S2P Require Import Recovery.
From S2P Require Import LockManager.
From S2P Require Import Db.

Section open.
Context {F : Type} `{PosixFile F, TruncFile F}.

Definition on_tree {A : Type} (m : M (BTree F) A) : M (DB (BTree F) F) A := zoom btree_ set_btree m.

(** [rm.recover(); bp_->flush_all(); dm_->flush(); log_->truncate();] *)
Definition recover_and_truncate : M (DB (BTree F) F) unit :=
  do* zoom (fun d => (log_ d, btree_ d)) (fun ls d => mkDB ls.2 ls.1 (lm_ d)) recover in
  do* on_tree sync in
  zoom log_ set_log truncate.

Definition open_tree : M (DB (BTree F) F) unit :=
  let* root := on_tree (on_bp (on_fl root_page_id)) in
  if root =? INVALID_PAGE_ID then on_tree create
  else
    do* modifyS (fun d => set_btree (BTree.open (bp_ (btree_ d)) root) d) in
    recover_and_truncate.

Definition Open (lock_timeout_ms : Z) (data wal : option F) : result (DB (BTree F) F) :=
  let? dm := DiskManager_ctor data in
  match load (mkFL dm []) with
  | (Err e, _) => Err e
  | (Ok _, fl) =>
      let? log := LogManager_ctor wal in
      match open_tree (mkDB (mkBTree (BufferPool_ctor fl) INVALID_PAGE_ID) log
                         (LockManager_ctor lock_timeout_ms)) with
      | (Err e, _) => Err e
      | (Ok _, db) => Ok db
      end
  end.

(** The two files of a database. *)
Definition data_of (d : DB (BTree F) F) : F := fd (dm (pool_fl (bp_ (btree_ d)))).
Definition wal_of (d : DB (BTree F) F) : F := log_fd (log_ d).
End open.
