(* ===== verification/DbRep.v ===== *)
(** * What a database with open transactions is

    [db_rep d txns base rs cur]: the log of [d] holds the records [rs], a
    history of the transactions [txns] from the map [base], the store holds
    the map [cur] that they reached, and every key that a transaction wrote is
    locked by it.  Each method of a transaction keeps it; with [History] this
    gives atomicity and isolation. *)

From S2P Require Import Prelude.
From S2P Require Import DiskManager.
From S2P Require Import Store.
From S2P Require Import LogManager.
From S2P Require Import LogRep.
From S2P Require Import Recovery.
From S2P Require Import History.
From S2P Require Import LockManager.
From S2P Require Import Db.

(** The values the log can tell apart from a deletion. *)
Definition val_ok (v : bytes) : Prop := v <> [] /\ zlen v < 2 ^ 32.
Definition key_ok (k : bytes) : Prop := zlen k < 2 ^ 32.

Definition entry_before (e : WriteEntry) : option bytes :=
  if we_before_exists e then Some (we_before_val e) else None.

Definition before_map (tx : Transaction) : write_set := entry_before <$> write_set_ tx.
Definition active (txns : gmap Z Transaction) : gmap Z write_set := before_map <$> txns.

Record entry_ok (e : WriteEntry) : Prop := {
  eo_some : we_before_exists e = true -> val_ok (we_before_val e);
  eo_none : we_before_exists e = false -> we_before_val e = [];
}.

Section rep.
Context {S F : Type} `{KVLaws S, ReliableLog F}.
Implicit Types (d : DB S F) (txns : gmap Z Transaction) (tx : Transaction) (t : Z) (k v : bytes)
  (base cur : kvmap) (rs : list WalRecord).

Record db_rep d txns base rs cur : Prop := {
  dr_log : log_rep (log_ d) rs;
  dr_store : kv_rep (btree_ d) cur;
  dr_hist : hist base rs cur (active txns);
  dr_read : Forall (fun r => as_read r = r) rs;
  dr_locks : lm_inv (lm_ d);
  dr_txn : forall t tx, txns !! t = Some tx -> txn_id_ tx = t /\ done_ tx = false;
  dr_owned : forall t tx k, txns !! t = Some tx -> is_Some (write_set_ tx !! k) ->
    holds_mode (lm_ d) t k EXCLUSIVE;
  dr_vals : map_Forall (fun _ v => val_ok v) cur;
  dr_entries : forall t tx k e, txns !! t = Some tx -> write_set_ tx !! k = Some e -> entry_ok e;
}.

(** ** Stepping *)

Lemma bind_on_btree {A B} (m : M S A) (f : A -> M (DB S F * Transaction) B) d tx a s' :
  m (btree_ d) = (Ok a, s') -> bind (on_btree m) f (d, tx) = f a (set_btree s' d, tx).
Proof. intros E. unfold bind, on_btree, zoom. cbn. by rewrite E. Qed.

Lemma bind_on_log {A B} (m : M (LogManager F) A) (f : A -> M (DB S F * Transaction) B) d tx a l' :
  m (log_ d) = (Ok a, l') -> bind (on_log m) f (d, tx) = f a (set_log l' d, tx).
Proof. intros E. unfold bind, on_log, zoom. cbn. by rewrite E. Qed.

Lemma bind_on_locks {A B} (m : M LockManager A) (f : A -> M (DB S F * Transaction) B) d tx a l' :
  m (lm_ d) = (Ok a, l') -> bind (on_locks m) f (d, tx) = f a (set_lm l' d, tx).
Proof. intros E. unfold bind, on_locks, zoom. cbn. by rewrite E. Qed.

Lemma on_btree_eq {A} (m : M S A) d tx r s' :
  m (btree_ d) = (r, s') -> on_btree (F := F) m (d, tx) = (r, (set_btree s' d, tx)).
Proof. intros E. unfold on_btree, zoom. cbn. by rewrite E. Qed.

Lemma on_locks_eq {A} (m : M LockManager A) d tx r l' :
  m (lm_ d) = (r, l') -> on_locks m (d, tx) = (r, (set_lm l' d, tx)).
Proof. intros E. unfold on_locks, zoom. cbn. by rewrite E. Qed.

(** ** Facts *)

Lemma active_lookup txns t : active txns !! t = before_map <$> txns !! t.
Proof. apply lookup_fmap. Qed.

Lemma active_insert txns t k e tx :
  active (<[t := set_entry k e tx]> txns) =
    <[t := <[k := entry_before e]> (before_map tx)]> (active txns).
Proof. unfold active, before_map. rewrite fmap_insert. cbn. by rewrite fmap_insert. Qed.

(** The transactions of a database have records, so valid ids. *)
Lemma txn_bounds d txns base rs cur t tx :
  db_rep d txns base rs cur -> txns !! t = Some tx -> 0 < t < 2 ^ 63 /\ t <= max_txn rs.
Proof.
  intros Hd Ht. destruct (hi_seen _ _ _ _ (hist_invariant _ _ _ _ (dr_hist _ _ _ _ _ Hd)) t) as (r & Hr & <-).
  { rewrite active_lookup, Ht. by eexists. }
  split; [|by apply max_over_le].
  eapply rec_ok_bounds; [|done]. apply (lc_ok _ _ (lr_core _ _ (dr_log _ _ _ _ _ Hd))).
Qed.

(** A record that the reader sees as it was written. *)
Lemma write_record_read n t k e v :
  entry_ok e ->
  let r := set_lsn n (mkRecord 0 t WRITE k (if we_before_exists e then we_before_val e else []) v
                        (we_before_exists e)) in
  as_read r = r /\ before_image r = entry_before e /\
  after_image r = if bool_decide (v = []) then None else Some v.
Proof.
  intros [Hs Hn] r. unfold r, as_read, before_image, after_image, entry_before. cbn.
  destruct (we_before_exists e) eqn:E; [|done]. destruct (Hs eq_refl) as [Hne _]. split; [|done].
  unfold set_lsn. cbn. f_equal. apply Z.ltb_lt. destruct (we_before_val e) as [|x l]; [done|].
  rewrite zlen_cons. pose proof (zlen_nonneg l). lia.
Qed.

Definition write_of t (r : WalRecord) : Prop := type r = WRITE /\ txn_id r = t.

(** The log takes the record of a write, which continues the history. *)
Lemma log_write_ok d txns base rs cur t tx k e v :
  db_rep d txns base rs cur -> txns !! t = Some tx -> holds_mode (lm_ d) t k EXCLUSIVE ->
  entry_ok e -> entry_before e = default (cur !! k) (before_map tx !! k) ->
  key_ok k -> zlen v < 2 ^ 32 -> zlen rs + 2 < 2 ^ 63 ->
  exists l' r, append_write t k (we_before_exists e) (we_before_val e) v (log_ d) = (Ok (zlen rs + 1), l') /\
    log_rep l' (rs ++ [r]) /\ as_read r = r /\ write_of t r /\
    hist base (rs ++ [r]) (apply_update (k, if bool_decide (v = []) then None else Some v) cur)
      (active (<[t := set_entry k e tx]> txns)).
Proof.
  intros Hd Ht Hx He Hb Hk Hv Hn. destruct (txn_bounds _ _ _ _ _ _ _ Hd Ht) as [Hpos Hmax].
  destruct (write_record_read (zlen rs + 1) t k e v He) as (Hread & Hbi & Hai).
  set (r := set_lsn _ _) in *. unfold append_write.
  destruct (append_ok (log_ d) rs (mkRecord 0 t WRITE k (if we_before_exists e then we_before_val e else []) v
    (we_before_exists e)) (dr_log _ _ _ _ _ Hd)) as (l' & E & Hl'); [|done|done|].
  - split; cbn; try done; [|].
    + pose proof (zlen_nonneg rs). lia.
    + destruct (we_before_exists e) eqn:Ex; [|done]. by apply (eo_some e He).
  - exists l', r. split; [exact E|]. split; [exact Hl'|]. split; [done|]. split; [done|].
    rewrite active_insert, <- Hai, <- Hbi.
    change k with (key r) at 1. change k with (key r) at 1. change t with (txn_id r).
    apply (hist_write base rs cur (active txns) (before_map tx) r).
    + apply (dr_hist _ _ _ _ _ Hd).
    + done.
    + cbn. by rewrite active_lookup, Ht.
    + intros t' ws' Ht' Hne. rewrite active_lookup in Ht'.
      destruct (txns !! t') as [tx'|] eqn:Etx; [|done]. injection Ht' as <-.
      unfold before_map. rewrite lookup_fmap. apply fmap_None, eq_None_not_Some. intros Hs.
      pose proof (dr_owned _ _ _ _ _ Hd t' tx' k Etx Hs) as Hx'.
      pose proof (inv_compatible _ _ _ _ _ _ (dr_locks _ _ _ _ _ Hd) Hx Hx') as Hc.
      assert (Hne' : t <> t') by (intros ->; by apply Hne). by specialize (Hc Hne').
    + by rewrite Hbi.
Qed.

(** ** Changes of the parts *)

(** The store read, nothing else touched. *)
Lemma dr_set_btree d txns base rs cur s' :
  db_rep d txns base rs cur -> kv_rep s' cur -> db_rep (set_btree s' d) txns base rs cur.
Proof. intros [] Hs. by split. Qed.

(** A new lock table, in which the transactions keep their locks. *)
Lemma dr_set_lm d txns base rs cur l' :
  db_rep d txns base rs cur -> lm_inv l' ->
  (forall t tx k, txns !! t = Some tx -> holds_mode (lm_ d) t k EXCLUSIVE -> holds_mode l' t k EXCLUSIVE) ->
  db_rep (set_lm l' d) txns base rs cur.
Proof. intros [Dlog Dstore Dhist Dread Dlocks Dtxn Downed Dvals Dentries] Hl Hm. split; try done. intros t tx k Ht Hk. eapply Hm; [done|]. by eapply Downed. Qed.

(** [entry] replaces the entry of a key that the transaction has locked, and
    the store changes accordingly. *)
Lemma dr_write d txns base rs cur t tx k e v s' l' r :
  db_rep d txns base rs cur -> txns !! t = Some tx -> holds_mode (lm_ d) t k EXCLUSIVE ->
  entry_ok e -> log_rep l' (rs ++ [r]) -> as_read r = r ->
  let cur' := apply_update (k, if bool_decide (v = []) then None else Some v) cur in
  hist base (rs ++ [r]) cur' (active (<[t := set_entry k e tx]> txns)) ->
  kv_rep s' cur' -> (v = [] \/ val_ok v) ->
  db_rep (mkDB s' l' (lm_ d)) (<[t := set_entry k e tx]> txns) base (rs ++ [r]) cur'.
Proof.
  intros Hd Ht Hx He Hl Hr cur' Hh Hs Hv. destruct Hd as [Dlog Dstore Dhist Dread Dlocks Dtxn Downed Dvals Dentries]. split; cbn [log_ btree_ lm_]; try done.
  - apply Forall_app. split; [done|]. by apply Forall_singleton.
  - intros t1 tx1 [[<- <-]|[_ Ht1]]%lookup_insert_Some; [|by apply Dtxn]. by apply (Dtxn t tx).
  - intros t1 tx1 k1 [[<- <-]|[_ Ht1]]%lookup_insert_Some Hk1; [|by eapply Downed].
    cbn in Hk1. apply lookup_insert_is_Some' in Hk1 as [<-|Hk1]; [done|]. by eapply Downed.
  - unfold cur', apply_update. cbn [fst snd]. case_bool_decide as E.
    + by apply map_Forall_delete.
    + apply map_Forall_insert_2; [|done]. by destruct Hv.
  - intros t1 tx1 k1 e1 [[<- <-]|[_ Ht1]]%lookup_insert_Some Hk1; [|by eapply Dentries].
    cbn in Hk1. apply lookup_insert_Some in Hk1 as [[<- <-]|[_ Hk1]]; [done|]. by eapply Dentries.
Qed.

(** ** Put and Delete under the lock *)

(** The entry that a write of [k] leaves in the write set. *)
Definition write_entry cur tx k v : WriteEntry :=
  match write_set_ tx !! k with
  | None => mkEntry (bool_decide (is_Some (cur !! k))) (default [] (cur !! k)) v
  | Some e => mkEntry (we_before_exists e) (we_before_val e) v
  end.

Lemma write_entry_ok d txns base rs cur t tx k v :
  db_rep d txns base rs cur -> txns !! t = Some tx ->
  entry_ok (write_entry cur tx k v) /\
  entry_before (write_entry cur tx k v) = default (cur !! k) (before_map tx !! k).
Proof.
  intros Hd Ht. unfold write_entry, before_map. rewrite lookup_fmap.
  destruct (write_set_ tx !! k) as [e|] eqn:Ee; cbn [fmap option_fmap option_map default from_option id].
  - destruct (dr_entries _ _ _ _ _ Hd t tx k e Ht Ee). by split.
  - destruct (cur !! k) as [v0|] eqn:Ev; cbn.
    + split; [|done]. split; [|done]. intros _.
      by apply (dr_vals _ _ _ _ _ Hd k v0).
    + by split.
Qed.

Lemma put_locked_ok d txns base rs cur t tx k v :
  db_rep d txns base rs cur -> txns !! t = Some tx -> holds_mode (lm_ d) t k EXCLUSIVE ->
  key_ok k -> val_ok v -> kv_can (btree_ d) (k, Some v) = true -> zlen rs + 2 < 2 ^ 63 ->
  exists d' r, put_locked k v (d, tx) = (Ok tt, (d', set_entry k (write_entry cur tx k v) tx)) /\
    db_rep d' (<[t := set_entry k (write_entry cur tx k v) tx]> txns) base (rs ++ [r]) (<[k := v]> cur) /\
    lm_ d' = lm_ d /\ write_of t r.
Proof.
  intros Hd Ht Hx Hk Hv Hf Hn. destruct (write_entry_ok _ _ _ _ _ _ _ k v Hd Ht) as [He Hb].
  assert (Hget : exists d0, db_rep d0 txns base rs cur /\ lm_ d0 = lm_ d /\
    kv_can (btree_ d0) (k, Some v) = true /\ forall B (K : WriteEntry -> M _ B),
    bind (match write_set_ tx !! k with
     | None =>
         let* existing := on_btree (kv_get k) in
         let we := mkEntry (bool_decide (is_Some existing)) (default [] existing) v in
         do* on_txn (set_entry k we) in ret we
     | Some e =>
         let e' := mkEntry (we_before_exists e) (we_before_val e) v in
         do* on_txn (set_entry k e') in ret e'
     end) K (d, tx) = K (write_entry cur tx k v) (d0, set_entry k (write_entry cur tx k v) tx)).
  { unfold write_entry. destruct (write_set_ tx !! k) as [e|] eqn:Ee.
    - exists d. by split_and!.
    - destruct (kv_get_ok _ _ k (dr_store _ _ _ _ _ Hd)) as (s0 & E0 & Hr0 & Hc0).
      exists (set_btree s0 d). split; [by apply dr_set_btree|]. split; [done|]. cbn [btree_ set_btree].
      split; [by rewrite Hc0|]. intros B K.
      rewrite bind_assoc. by rewrite (bind_on_btree _ _ _ _ _ _ E0). }
  destruct Hget as (d0 & Hd0 & Hlm & Hf0 & Eg). set (e := write_entry cur tx k v) in *.
  rewrite <- Hlm in Hx. destruct Hv as [Hne Hlen].
  destruct (log_write_ok d0 txns base rs cur t tx k e v Hd0 Ht Hx He Hb Hk Hlen Hn)
    as (l' & r & El & Hl & Hr & Hw & Hh).
  rewrite (bool_decide_eq_false_2 _ Hne) in Hh. change (apply_update (k, Some v) cur) with (<[k := v]> cur) in Hh.
  destruct (kv_insert_ok _ _ k v (dr_store _ _ _ _ _ Hd0) Hf0) as (s' & Es & Hs).
  exists (mkDB s' l' (lm_ d0)), r. split; [|split; [clear Hw|done]].
  - unfold put_locked. mstep (eq_refl : txn (d, tx) = (Ok tx, (d, tx))). rewrite Eg.
    rewrite (proj1 (dr_txn _ _ _ _ _ Hd t tx Ht)).
    rewrite (bind_on_log _ _ d0 _ _ _ El). by apply (on_btree_eq _ (set_log l' d0)).
  - pose proof (dr_write d0 txns base rs cur t tx k e v s' l' r Hd0 Ht Hx He Hl Hr) as Hw.
    rewrite (bool_decide_eq_false_2 _ Hne) in Hw. apply Hw; [done|done|by right].
Qed.

(** A delete of an absent key writes nothing. *)
Definition delete_entry cur tx k : Transaction :=
  match cur !! k with Some _ => set_entry k (write_entry cur tx k []) tx | None => tx end.
Definition delete_log cur t k rs rs' : Prop :=
  match cur !! k with Some _ => exists r, rs' = rs ++ [r] /\ write_of t r | None => rs' = rs end.

Lemma delete_locked_ok d txns base rs cur t tx k :
  db_rep d txns base rs cur -> txns !! t = Some tx -> holds_mode (lm_ d) t k EXCLUSIVE ->
  key_ok k -> kv_can (btree_ d) (k, None) = true -> zlen rs + 2 < 2 ^ 63 ->
  exists d' rs', delete_locked k (d, tx) = (Ok tt, (d', delete_entry cur tx k)) /\
    db_rep d' (<[t := delete_entry cur tx k]> txns) base rs' (delete k cur) /\ lm_ d' = lm_ d /\
    delete_log cur t k rs rs'.
Proof.
  intros Hd Ht Hx Hk Hc Hn. destruct (kv_get_ok _ _ k (dr_store _ _ _ _ _ Hd)) as (s0 & E0 & Hr0 & Hc0).
  rewrite <- Hc0 in Hc. set (d0 := set_btree s0 d). pose proof (dr_set_btree _ _ _ _ _ _ Hd Hr0 : db_rep d0 txns base rs cur) as Hd0.
  unfold delete_locked, delete_entry, delete_log. rewrite (bind_on_btree _ _ d _ _ _ E0). fold d0.
  destruct (cur !! k) as [v0|] eqn:Ev.
  2:{ exists d0, rs. split; [done|]. rewrite insert_id, delete_id by done. by split. }
  destruct (write_entry_ok _ _ _ _ _ _ _ k [] Hd0 Ht) as [He Hb]. set (e := write_entry cur tx k []) in *.
  destruct (log_write_ok d0 txns base rs cur t tx k e [] Hd0 Ht Hx He Hb Hk) as (l' & r & El & Hl & Hr & Hw & Hh);
    [done|done|].
  destruct (kv_remove_ok _ _ k (dr_store _ _ _ _ _ Hd0) Hc) as (s' & Es & Hs).
  exists (mkDB s' l' (lm_ d0)), (rs ++ [r]).
  split; [|split; [|split; [done|by exists r]]].
  - mstep (eq_refl : txn (d0, tx) = (Ok tx, (d0, tx))). cbv zeta.
    assert (Ee : match write_set_ tx !! k with
      | Some e0 => mkEntry (we_before_exists e0) (we_before_val e0) []
      | None => mkEntry true v0 [] end = e).
    { unfold e, write_entry. destruct (write_set_ tx !! k); [done|]. rewrite Ev. cbn.
      done. }
    rewrite Ee, (proj1 (dr_txn _ _ _ _ _ Hd t tx Ht)).
    rewrite (bind_ok _ _ (d0, tx) (d0, set_entry k e tx) tt) by done.
    rewrite (bind_on_log _ _ d0 _ _ _ El). by rewrite (bind_on_btree _ _ (set_log l' d0) _ _ _ Es).
  - apply (dr_write d0 txns base rs cur t tx k e [] s' l' r); try done. by left.
Qed.

(** ** The methods *)

Lemma check_open_ok d tx {B} (K : unit -> M (DB S F * Transaction) B) :
  done_ tx = false -> bind check_open K (d, tx) = K tt (d, tx).
Proof. intros E. unfold check_open, bind, txn. cbn. by rewrite E. Qed.

(** The three answers to a request for a lock. *)
Lemma acquire_granted d txns base rs cur t tx k m (dl : bool) :
  db_rep d txns base rs cur -> txns !! t = Some tx -> grantable (lm_ d) t k m ->
  exists l', acquire k m dl (d, tx) = (Ok true, (set_lm l' d, tx)) /\
    db_rep (set_lm l' d) txns base rs cur /\ has_mode l' t k m /\
    forall t' k' m', t' <> t \/ k' <> k -> holds_mode l' t' k' m' <-> holds_mode (lm_ d) t' k' m'.
Proof.
  intros Hd Ht Hg. destruct (txn_bounds _ _ _ _ _ _ _ Hd Ht) as [Hpos _].
  assert (Hv : t <> INVALID_TXN_ID) by (unfold INVALID_TXN_ID; lia).
  destruct (lock_granted (lm_ d) t k m (if dl then [TimedOut (fun l => l)] else []) (dr_locks _ _ _ _ _ Hd) Hv Hg)
    as (l' & E & Hi & Hh & Hf & Hx).
  exists l'. split; [|split; [|by split]].
  - unfold acquire. mstep (eq_refl : txn (d, tx) = (Ok tx, (d, tx))).
    rewrite (proj1 (dr_txn _ _ _ _ _ Hd t tx Ht)). by apply on_locks_eq.
  - apply dr_set_lm; [done|done|]. intros t' tx' k' _ Hm. by apply Hx.
Qed.

(** What was locked stays locked. *)
Definition locks_kept (l l' : LockManager) : Prop :=
  forall t k, has_mode l t k SHARED -> has_mode l' t k SHARED.

Lemma grant_keeps l l' t k m :
  has_mode l' t k m ->
  (forall t' k' m', t' <> t \/ k' <> k -> holds_mode l' t' k' m' <-> holds_mode l t' k' m') -> locks_kept l l'.
Proof.
  intros Hm Hf t' k' Hs. destruct (decide (t' = t /\ k' = k)) as [[-> ->]|Hne].
  - destruct m; [done|]. right. by destruct Hm.
  - unfold has_mode in *. assert (t' <> t \/ k' <> k) by (destruct (decide (t' = t)); tauto).
    by rewrite !Hf.
Qed.

Lemma acquire_waits d txns base rs cur t tx k m :
  db_rep d txns base rs cur -> txns !! t = Some tx -> ~ grantable (lm_ d) t k m ->
  acquire k m false (d, tx) = (Ok false, (d, tx)).
Proof.
  intros Hd Ht Hg. destruct (txn_bounds _ _ _ _ _ _ _ Hd Ht) as [Hpos _].
  assert (Hv : t <> INVALID_TXN_ID) by (unfold INVALID_TXN_ID; lia).
  unfold acquire. mstep (eq_refl : txn (d, tx) = (Ok tx, (d, tx))).
  rewrite (proj1 (dr_txn _ _ _ _ _ Hd t tx Ht)). rewrite (on_locks_eq _ d tx (Ok false) (lm_ d)); [by destruct d|].
  apply (lock_waits (lm_ d) t k m [] (dr_locks _ _ _ _ _ Hd) Hv Hg).
Qed.

Lemma acquire_times_out d txns base rs cur t tx k m :
  db_rep d txns base rs cur -> txns !! t = Some tx -> ~ grantable (lm_ d) t k m ->
  acquire k m true (d, tx) = (Err DeadlockException, (d, tx)).
Proof.
  intros Hd Ht Hg. destruct (txn_bounds _ _ _ _ _ _ _ Hd Ht) as [Hpos _].
  assert (Hv : t <> INVALID_TXN_ID) by (unfold INVALID_TXN_ID; lia).
  unfold acquire. mstep (eq_refl : txn (d, tx) = (Ok tx, (d, tx))).
  rewrite (proj1 (dr_txn _ _ _ _ _ Hd t tx Ht)).
  rewrite (on_locks_eq _ d tx (Err DeadlockException) (lm_ d)); [by destruct d|].
  by apply (lock_times_out (lm_ d) t k m (fun l => l) [] (dr_locks _ _ _ _ _ Hd) Hv Hg), Hd.
Qed.

Lemma Put_ok d txns base rs cur t tx k v (dl : bool) :
  db_rep d txns base rs cur -> txns !! t = Some tx -> grantable (lm_ d) t k EXCLUSIVE ->
  key_ok k -> val_ok v -> kv_can (btree_ d) (k, Some v) = true -> zlen rs + 2 < 2 ^ 63 ->
  exists d' r, let tx' := set_entry k (write_entry cur tx k v) tx in
    Put k v dl (d, tx) = (Ok true, (d', tx')) /\
    db_rep d' (<[t := tx']> txns) base (rs ++ [r]) (<[k := v]> cur) /\ write_of t r /\
    locks_kept (lm_ d) (lm_ d') /\ holds_mode (lm_ d') t k EXCLUSIVE.
Proof.
  intros Hd Ht Hg Hk Hv Hf Hn.
  destruct (acquire_granted d txns base rs cur t tx k EXCLUSIVE dl Hd Ht Hg) as (l' & E & Hd1 & Hh & Hfr).
  pose proof (grant_keeps _ _ _ _ _ Hh Hfr) as Hkeep.
  assert (Hx : holds_mode (lm_ (set_lm l' d)) t k EXCLUSIVE) by by destruct Hh.
  destruct (put_locked_ok _ _ _ _ _ t tx k v Hd1 Ht Hx Hk Hv Hf Hn) as (d' & r & E' & Hd' & Hlm & Hw).
  exists d', r. cbv zeta. split; [|rewrite Hlm; by split_and!].
  unfold Put. rewrite (check_open_ok d tx) by by eapply (dr_txn _ _ _ _ _ Hd). mstep E. by mstep E'.
Qed.

Lemma Delete_ok d txns base rs cur t tx k (dl : bool) :
  db_rep d txns base rs cur -> txns !! t = Some tx -> grantable (lm_ d) t k EXCLUSIVE ->
  key_ok k -> kv_can (btree_ d) (k, None) = true -> zlen rs + 2 < 2 ^ 63 ->
  exists d' rs', let tx' := delete_entry cur tx k in
    Delete k dl (d, tx) = (Ok true, (d', tx')) /\
    db_rep d' (<[t := tx']> txns) base rs' (delete k cur) /\ delete_log cur t k rs rs' /\
    locks_kept (lm_ d) (lm_ d') /\ holds_mode (lm_ d') t k EXCLUSIVE.
Proof.
  intros Hd Ht Hg Hk Hf Hn.
  destruct (acquire_granted d txns base rs cur t tx k EXCLUSIVE dl Hd Ht Hg) as (l' & E & Hd1 & Hh & Hfr).
  pose proof (grant_keeps _ _ _ _ _ Hh Hfr) as Hkeep.
  assert (Hx : holds_mode (lm_ (set_lm l' d)) t k EXCLUSIVE) by by destruct Hh.
  destruct (delete_locked_ok _ _ _ _ _ t tx k Hd1 Ht Hx Hk Hf Hn) as (d' & rs' & E' & Hd' & Hlm & Hw).
  exists d', rs'. cbv zeta. split; [|rewrite Hlm; by split_and!].
  unfold Delete. rewrite (check_open_ok d tx) by by eapply (dr_txn _ _ _ _ _ Hd). mstep E. by mstep E'.
Qed.

Lemma Get_ok d txns base rs cur t tx k (dl : bool) :
  db_rep d txns base rs cur -> txns !! t = Some tx -> grantable (lm_ d) t k SHARED ->
  exists d', Get k dl (d, tx) = (Ok (Some (cur !! k)), (d', tx)) /\ db_rep d' txns base rs cur /\
    has_mode (lm_ d') t k SHARED /\ locks_kept (lm_ d) (lm_ d').
Proof.
  intros Hd Ht Hg.
  destruct (acquire_granted d txns base rs cur t tx k SHARED dl Hd Ht Hg) as (l' & E & Hd1 & Hh & Hfr).
  pose proof (grant_keeps _ _ _ _ _ Hh Hfr) as Hkeep.
  destruct (kv_get_ok _ _ k (dr_store _ _ _ _ _ Hd1)) as (s' & Es & Hs & _).
  exists (set_btree s' (set_lm l' d)). split; [|split; [by apply dr_set_btree|done]].
  unfold Get. rewrite (check_open_ok d tx) by by eapply (dr_txn _ _ _ _ _ Hd). mstep E.
  unfold get_locked. by rewrite (bind_on_btree _ _ _ _ _ _ Es).
Qed.

(** The log reads back as its history. *)
Lemma db_rep_read d txns base rs cur : db_rep d txns base rs cur -> read_all (log_ d) = Ok rs.
Proof.
  intros Hd. rewrite (log_rep_read _ _ (dr_log _ _ _ _ _ Hd)). by rewrite (as_read_all rs (dr_read _ _ _ _ _ Hd)).
Qed.

(** A database that no transaction has used yet. *)
Lemma db_rep_fresh (s : S) (l : LogManager F) n base :
  kv_rep s base -> log_rep l [] -> map_Forall (fun _ v => val_ok v) base ->
  db_rep (mkDB s l (LockManager_ctor n)) ∅ base [] base.
Proof.
  intros Hs Hl Hv. split; [exact Hl|exact Hs| |constructor|apply lm_inv_init| | |exact Hv|].
  - unfold active. rewrite fmap_empty. constructor.
  - by intros t tx ?%lookup_empty_Some.
  - by intros t tx k ?%lookup_empty_Some.
  - by intros t tx k e ?%lookup_empty_Some.
Qed.
End rep.

(** Committed values come from the log or from before it. *)
Lemma committed_vals base rs :
  Forall rec_ok rs -> map_Forall (fun _ v => val_ok v) base ->
  map_Forall (fun _ v => val_ok v) (committed_map base rs).
Proof.
  intros Hrs Hb k v. unfold committed_map. rewrite lookup_apply_updates.
  destruct (last_update k _) as [r|] eqn:E; [|apply Hb]. intros ->. apply last_update_elem in E.
  apply list_elem_of_fmap in E as (r & E & [_ Hr]%list_elem_of_filter).
  unfold after_image in E. case_bool_decide as Hv; [done|]. injection E as _ ->. split; [done|].
  rewrite Forall_forall in Hrs. apply (ro_after _ (Hrs r Hr)).
Qed.
