(* ===== verification/DbSteps.v ===== *)
(** * The life of a transaction, and all interleavings

    [Begin], [Commit] and [Rollback] keep [db_rep] too, so every state that
    the calls of concurrent transactions can reach ([sys_step]) is one. *)

From S2P Require Import Prelude.
From S2P Require Import DiskManager.
From S2P Require Import Store.
From S2P Require Import LogManager.
From S2P Require Import LogRep.
From S2P Require Import Recovery.
From S2P Require Import History.
From S2P Require Import LockManager.
From S2P Require Import Db.
From S2P Require Import DbRep.

Section steps.
Context {S F : Type} `{KVLaws S, ReliableLog F}.
Implicit Types (d : DB S F) (txns : gmap Z Transaction) (tx : Transaction) (t : Z) (k v : bytes)
  (base cur : kvmap) (rs : list WalRecord).

Lemma Begin_ok d txns base rs cur :
  db_rep d txns base rs cur -> zlen rs + 2 < 2 ^ 63 -> max_txn rs + 2 < 2 ^ 63 ->
  exists d' r, let t := max_txn rs + 1 in
    Begin d = (Ok (mkTxn t false ∅), d') /\ txns !! t = None /\ lm_ d' = lm_ d /\ type r = BEGIN /\
    db_rep d' (<[t := mkTxn t false ∅]> txns) base (rs ++ [r]) cur.
Proof.
  intros Hd Hn Hm. destruct (begin_ok _ _ (dr_log _ _ _ _ _ Hd) Hn Hm) as (l' & E & Hl & Hfresh).
  set (r := set_lsn _ _) in Hl. exists (set_log l' d), r. cbv zeta. set (t := max_txn rs + 1) in *.
  assert (Hnew : txns !! t = None).
  { destruct (txns !! t) as [tx|] eqn:Et; [|done]. destruct (txn_bounds _ _ _ _ _ _ _ Hd Et). lia. }
  split; [|split; [done|split; [done|split; [done|]]]].
  - unfold Begin. by rewrite (bind_ok _ _ d (set_log l' d) (t, zlen rs + 1)) by by apply (zoom_eq log_ set_log).
  - destruct Hd as [Dlog Dstore Dhist Dread Dlocks Dtxn Downed Dvals Dentries]. split; cbn [log_ btree_ lm_ set_log]; try done.
    + unfold active. rewrite fmap_insert. unfold before_map at 1. cbn. rewrite fmap_empty.
      by apply (hist_begin base rs cur (active txns) r).
    + apply Forall_app. split; [done|]. by apply Forall_singleton.
    + intros t1 tx1 [[<- <-]|[_ Ht1]]%lookup_insert_Some; [done|by eapply Dtxn].
    + intros t1 tx1 k [[<- <-]|[_ Ht1]]%lookup_insert_Some Hk; [by destruct Hk|by eapply Downed].
    + intros t1 tx1 k e [[<- <-]|[_ Ht1]]%lookup_insert_Some Hk; [done|by eapply Dentries].
Qed.

(** The end of a transaction: its record is in the log, its locks go. *)
Lemma dr_finish d txns base rs cur t tx s' l' lm' r cur' :
  db_rep d txns base rs cur -> txns !! t = Some tx ->
  log_rep l' (rs ++ [r]) -> as_read r = r -> hist base (rs ++ [r]) cur' (delete t (active txns)) ->
  kv_rep s' cur' -> lm_inv lm' ->
  (forall t' k m, holds_mode lm' t' k m <-> holds_mode (lm_ d) t' k m /\ t' <> t) ->
  map_Forall (fun _ v => val_ok v) cur' ->
  db_rep (mkDB s' l' lm') (delete t txns) base (rs ++ [r]) cur'.
Proof.
  intros Hd Ht Hl Hr Hh Hs Hi Hm Hv. destruct Hd as [Dlog Dstore Dhist Dread Dlocks Dtxn Downed Dvals Dentries]. split; cbn [log_ btree_ lm_]; try done.
  - unfold active in *. by rewrite fmap_delete.
  - apply Forall_app. split; [done|]. by apply Forall_singleton.
  - intros t1 tx1 [_ Ht1]%lookup_delete_Some. by eapply Dtxn.
  - intros t1 tx1 k [Hne Ht1]%lookup_delete_Some Hk. apply Hm. split; [by eapply Downed|congruence].
  - intros t1 tx1 k e [_ Ht1]%lookup_delete_Some. by eapply Dentries.
Qed.

Lemma control_read n t ty : as_read (set_lsn n (control_record t ty)) = set_lsn n (control_record t ty).
Proof. done. Qed.

(** The record that ends a transaction. *)
Lemma append_end d txns base rs cur t tx ty :
  db_rep d txns base rs cur -> txns !! t = Some tx -> ty = COMMIT \/ ty = ABORT -> zlen rs + 2 < 2 ^ 63 ->
  exists l', append_record_locked (control_record t ty) (log_ d) = (Ok (zlen rs + 1), l') /\
    log_rep l' (rs ++ [set_lsn (zlen rs + 1) (control_record t ty)]).
Proof.
  intros Hd Ht Hty Hn. destruct (txn_bounds _ _ _ _ _ _ _ Hd Ht) as [Hpos Hmax].
  apply (append_ok (log_ d) rs); [apply (dr_log _ _ _ _ _ Hd)| |done|done].
  pose proof (zlen_nonneg rs). apply control_ok; [lia|done| |]; by destruct Hty as [-> | ->].
Qed.

Lemma Commit_ok d txns base rs cur t tx :
  db_rep d txns base rs cur -> txns !! t = Some tx -> zlen rs + 2 < 2 ^ 63 ->
  exists d' r, Commit (d, tx) = (Ok tt, (d', set_done tx)) /\ type r = COMMIT /\ txn_id r = t /\
    db_rep d' (delete t txns) base (rs ++ [r]) cur /\
    (forall t' k m, holds_mode (lm_ d') t' k m <-> holds_mode (lm_ d) t' k m /\ t' <> t) /\
    btree_ d' = (kv_sync (btree_ d)).2.
Proof.
  intros Hd Ht Hn. destruct (dr_txn _ _ _ _ _ Hd t tx Ht) as [Hid Hdone].
  destruct (append_end d txns base rs cur t tx COMMIT Hd Ht (or_introl eq_refl) Hn) as (l1 & E1 & Hl1).
  set (r := set_lsn (zlen rs + 1) (control_record t COMMIT)) in *.
  destruct (log_flush_ok l1 _ Hl1) as (l2 & E2 & Hl2).
  destruct (kv_sync_ok _ _ (dr_store _ _ _ _ _ Hd)) as (s' & E3 & Hs).
  destruct (release_all_ok (lm_ d) t (dr_locks _ _ _ _ _ Hd)) as (lm' & E4 & Hi & Hm).
  exists (mkDB s' l2 lm'), r. split; [|split; [done|split; [done|split; [|split; [done|by rewrite E3]]]]].
  - unfold Commit. rewrite (check_open_ok d tx _ Hdone).
    rewrite (bind_ok _ _ (d, tx) (d, set_done tx) tt) by done.
    mstep (eq_refl : txn (d, set_done tx) = (Ok (set_done tx), (d, set_done tx))). cbn [txn_id_ set_done].
    rewrite Hid. unfold append_commit. rewrite (bind_on_log _ _ d _ _ _ E1).
    rewrite (bind_on_log _ _ (set_log l1 d) _ _ _ E2).
    rewrite (bind_on_btree _ _ (set_log l2 (set_log l1 d)) _ _ _ E3).
    by apply (on_locks_eq _ (set_btree s' (set_log l2 (set_log l1 d)))).
  - apply (dr_finish d txns base rs cur t tx s' l2 lm' r cur); try done; [|apply (dr_vals _ _ _ _ _ Hd)].
    change t with (txn_id r). apply (hist_commit base rs cur (active txns) (before_map tx)); [apply Hd|done|].
    cbn. by rewrite active_lookup, Ht.
Qed.

(** ** Rollback *)

(** The undo writes of a transaction, in some order of its write set. *)
Definition undo_list (entries : list (bytes * WriteEntry)) : list update :=
  (fun kw => (kw.1, entry_before kw.2)) <$> entries.

Lemma undo_all_in_ok d tx entries s' :
  for_each (undo_list entries) do_update (btree_ d) = (Ok tt, s') ->
  undo_all_in entries (d, tx) = (Ok tt, (set_btree s' d, tx)).
Proof.
  revert d. induction entries as [|[k e] entries IH]; intros d E.
  - change (ret tt (btree_ d) = (Ok tt, s')) in E. injection E as <-. by destruct d.
  - unfold undo_list in E. cbn [fmap list_fmap for_each fst snd] in E.
    unfold bind in E at 1. destruct (do_update (k, entry_before e) (btree_ d)) as [[[]|x] s1] eqn:E1; [|done].
    unfold undo_all_in. cbn [for_each fst snd].
    assert (Hone : (if negb (we_before_exists e) then do* on_btree (kv_remove k) in ret tt
                    else on_btree (kv_insert k (we_before_val e))) (d, tx) = (Ok tt, (set_btree s1 d, tx))).
    { unfold do_update, entry_before in E1. cbn [fst snd] in E1. destruct (we_before_exists e); cbn [negb].
      - by apply on_btree_eq.
      - unfold bind in E1. destruct (kv_remove k (btree_ d)) as [[b|x] s2] eqn:E2; [|done].
        injection E1 as <-. by rewrite (bind_on_btree _ _ d _ _ _ E2). }
    rewrite (bind_ok _ _ _ _ _ Hone). by apply (IH (set_btree s1 d)).
Qed.

Lemma undo_list_map tx entries cur :
  entries ≡ₚ map_to_list (write_set_ tx) -> apply_updates (undo_list entries) cur = restore (before_map tx) cur.
Proof.
  intros Hp. apply map_eq. intros k. rewrite lookup_restore, lookup_apply_updates.
  unfold before_map. rewrite lookup_fmap.
  assert (Hin : forall b, (k, b) ∈ undo_list entries <-> exists e, write_set_ tx !! k = Some e /\ entry_before e = b).
  { intros b. unfold undo_list. rewrite list_elem_of_fmap. split.
    - intros ([k' e] & [= <- ->] & Hke). rewrite Hp in Hke. apply elem_of_map_to_list in Hke. by exists e.
    - intros (e & He & <-). exists (k, e). split; [done|]. rewrite Hp. by apply elem_of_map_to_list. }
  assert (Hlast : forall us b, last_update k us = Some b -> (k, b) ∈ us).
  { clear. induction us as [|[k' b'] us IH]; intros b E; [done|]. cbn [last_update fst snd] in E.
    destruct (last_update k us); [right; apply IH; congruence|].
    case_decide; [|done]. subst. injection E as ->. left. }
  destruct (last_update k (undo_list entries)) as [b|] eqn:E.
  - apply Hlast, Hin in E as (e & -> & <-). done.
  - apply last_update_None in E. destruct (write_set_ tx !! k) as [e|] eqn:He; [|done]. exfalso. apply E.
    apply list_elem_of_fmap. exists (k, entry_before e). split; [done|]. apply Hin. by exists e.
Qed.

(** The store can undo what the transaction wrote. *)
Definition can_undo d tx : bool := can_all (undo_list (map_to_list (write_set_ tx))) (btree_ d).

Lemma Rollback_ok d txns base rs cur t tx :
  db_rep d txns base rs cur -> txns !! t = Some tx -> can_undo d tx = true -> zlen rs + 2 < 2 ^ 63 ->
  exists d' r, Rollback (d, tx) = (Ok tt, (d', set_done tx)) /\ type r = ABORT /\ txn_id r = t /\
    db_rep d' (delete t txns) base (rs ++ [r]) (restore (before_map tx) cur) /\
    forall t' k m, holds_mode (lm_ d') t' k m <-> holds_mode (lm_ d) t' k m /\ t' <> t.
Proof.
  intros Hd Ht Hf Hn. destruct (dr_txn _ _ _ _ _ Hd t tx Ht) as [Hid Hdone].
  destruct (do_updates_ok _ _ _ (dr_store _ _ _ _ _ Hd) Hf) as (s' & Es & Hs).
  rewrite (undo_list_map tx _ cur (Permutation_refl _)) in Hs.
  destruct (append_end d txns base rs cur t tx ABORT Hd Ht (or_intror eq_refl) Hn) as (l1 & E1 & Hl1).
  set (r := set_lsn (zlen rs + 1) (control_record t ABORT)) in *.
  destruct (release_all_ok (lm_ d) t (dr_locks _ _ _ _ _ Hd)) as (lm' & E4 & Hi & Hm).
  exists (mkDB s' l1 lm'), r. split; [|split; [done|split; [done|split; [|done]]]].
  - unfold Rollback. rewrite (check_open_ok d tx _ Hdone).
    rewrite (bind_ok _ _ (d, tx) (d, set_done tx) tt) by done.
    rewrite (bind_ok _ _ (d, set_done tx) (set_btree s' d, set_done tx) tt).
    2:{ unfold undo_all. mstep (eq_refl : txn (d, set_done tx) = (Ok (set_done tx), (d, set_done tx))).
        by apply undo_all_in_ok. }
    mstep (eq_refl : txn (set_btree s' d, set_done tx) = (Ok (set_done tx), (set_btree s' d, set_done tx))).
    cbn [txn_id_ set_done]. rewrite Hid. unfold append_abort.
    rewrite (bind_on_log _ _ (set_btree s' d) _ _ _ E1).
    by apply (on_locks_eq _ (set_log l1 (set_btree s' d))).
  - apply (dr_finish d txns base rs cur t tx s' l1 lm' r); try done.
    + change t with (txn_id r). apply (hist_abort base rs cur (active txns) (before_map tx)); [apply Hd|done|].
      cbn. by rewrite active_lookup, Ht.
    + intros k v. rewrite lookup_restore. unfold before_map. rewrite lookup_fmap.
      destruct (write_set_ tx !! k) as [e|] eqn:He; cbn; [|apply (dr_vals _ _ _ _ _ Hd)].
      unfold entry_before. destruct (we_before_exists e) eqn:Ex; [|done]. intros [= <-].
      by apply (eo_some e (dr_entries _ _ _ _ _ Hd t tx k e Ht He)).
Qed.

(** ** Interleavings *)

(** Room for one more record. *)
Definition log_room d : Prop := next_lsn_ (log_ d) + 1 < 2 ^ 63 /\ next_txn_id_ (log_ d) + 1 < 2 ^ 63.

(** One call of one of the open transactions, whatever it answers; a thread
    that was granted a lock may be interrupted before it goes on
    ([sys_acquire]). *)
Inductive sys_step : DB S F * gmap Z Transaction -> DB S F * gmap Z Transaction -> Prop :=
| sys_begin d txns d' tx :
    log_room d -> Begin d = (Ok tx, d') -> sys_step (d, txns) (d', <[txn_id_ tx := tx]> txns)
| sys_acquire d txns t tx k m dl r d' tx' :
    txns !! t = Some tx -> acquire k m dl (d, tx) = (r, (d', tx')) -> sys_step (d, txns) (d', <[t := tx']> txns)
| sys_get d txns t tx k dl r d' tx' :
    txns !! t = Some tx -> Get k dl (d, tx) = (r, (d', tx')) -> sys_step (d, txns) (d', <[t := tx']> txns)
| sys_put d txns t tx k v dl r d' tx' :
    txns !! t = Some tx -> log_room d -> key_ok k -> val_ok v -> kv_can (btree_ d) (k, Some v) = true ->
    Put k v dl (d, tx) = (r, (d', tx')) -> sys_step (d, txns) (d', <[t := tx']> txns)
| sys_delete d txns t tx k dl r d' tx' :
    txns !! t = Some tx -> log_room d -> key_ok k -> kv_can (btree_ d) (k, None) = true ->
    Delete k dl (d, tx) = (r, (d', tx')) -> sys_step (d, txns) (d', <[t := tx']> txns)
| sys_commit d txns t tx r d' tx' :
    txns !! t = Some tx -> log_room d -> Commit (d, tx) = (r, (d', tx')) ->
    sys_step (d, txns) (d', delete t txns)
| sys_rollback d txns t tx r d' tx' :
    txns !! t = Some tx -> log_room d -> can_undo d tx = true ->
    Rollback (d, tx) = (r, (d', tx')) -> sys_step (d, txns) (d', delete t txns).

Lemma log_room_lsn d txns base rs cur :
  db_rep d txns base rs cur -> log_room d -> zlen rs + 2 < 2 ^ 63 /\ max_txn rs + 2 < 2 ^ 63.
Proof.
  intros Hd [Hr1 Hr2]. destruct (dr_log _ _ _ _ _ Hd) as [[_ _ _ Hn] Ht]. rewrite Hn in Hr1. rewrite Ht in Hr2. lia.
Qed.

(** A request that is not granted leaves the system as it was. *)
Lemma refused_stays d txns base rs cur t tx k m dl {A} (K : bool -> M (DB S F * Transaction) A) r d' tx' :
  db_rep d txns base rs cur -> txns !! t = Some tx -> ~ grantable (lm_ d) t k m ->
  bind (acquire k m dl) K (d, tx) = (r, (d', tx')) ->
  (forall st, exists r0, K false st = (r0, st)) -> d' = d /\ tx' = tx.
Proof.
  intros Hd Ht Hg E HK. destruct dl.
  - rewrite (bind_err _ _ _ _ _ (acquire_times_out d txns base rs cur t tx k m Hd Ht Hg)) in E. by simplify_eq.
  - rewrite (bind_ok _ _ _ _ _ (acquire_waits d txns base rs cur t tx k m Hd Ht Hg)) in E.
    destruct (HK (d, tx)) as [r0 E0]. rewrite E0 in E. by simplify_eq.
Qed.

Lemma txn_valid d txns base rs cur t tx : db_rep d txns base rs cur -> txns !! t = Some tx -> t <> INVALID_TXN_ID.
Proof. intros Hd Ht. destruct (txn_bounds _ _ _ _ _ _ _ Hd Ht) as [? _]. unfold INVALID_TXN_ID. lia. Qed.

(** What the reachable states have in common. *)
Definition sys_ok base (sys : DB S F * gmap Z Transaction) : Prop :=
  exists rs cur, db_rep sys.1 sys.2 base rs cur.

Lemma sys_ok_same base d txns rs cur t tx :
  db_rep d txns base rs cur -> txns !! t = Some tx -> sys_ok base (d, <[t := tx]> txns).
Proof. intros Hd Ht. exists rs, cur. by rewrite insert_id. Qed.

Lemma sys_step_acquire base d txns t tx k m dl r d' tx' :
  sys_ok base (d, txns) -> txns !! t = Some tx -> acquire k m dl (d, tx) = (r, (d', tx')) ->
  sys_ok base (d', <[t := tx']> txns).
Proof.
  intros (rs & cur & Hd) Ht E. cbn in Hd.
  destruct (grantable_dec (lm_ d) t k m (dr_locks _ _ _ _ _ Hd) (txn_valid _ _ _ _ _ _ _ Hd Ht)) as [Hg|Hg].
  - destruct (acquire_granted d txns base rs cur t tx k m dl Hd Ht Hg) as (l' & E' & Hd' & _).
    rewrite E' in E. simplify_eq. by eapply sys_ok_same.
  - destruct dl.
    + rewrite (acquire_times_out d txns base rs cur t tx k m Hd Ht Hg) in E. simplify_eq. by eapply sys_ok_same.
    + rewrite (acquire_waits d txns base rs cur t tx k m Hd Ht Hg) in E. simplify_eq. by eapply sys_ok_same.
Qed.

Lemma sys_step_get base d txns t tx k dl r d' tx' :
  sys_ok base (d, txns) -> txns !! t = Some tx -> Get k dl (d, tx) = (r, (d', tx')) ->
  sys_ok base (d', <[t := tx']> txns).
Proof.
  intros (rs & cur & Hd) Ht E. cbn in Hd.
  destruct (grantable_dec (lm_ d) t k SHARED (dr_locks _ _ _ _ _ Hd) (txn_valid _ _ _ _ _ _ _ Hd Ht)) as [Hg|Hg].
  - destruct (Get_ok d txns base rs cur t tx k dl Hd Ht Hg) as (d1 & E' & Hd' & _).
    rewrite E' in E. simplify_eq. by eapply sys_ok_same.
  - unfold Get in E. rewrite (check_open_ok d tx) in E by by eapply (dr_txn _ _ _ _ _ Hd).
    destruct (refused_stays d txns base rs cur t tx k SHARED dl _ r d' tx' Hd Ht Hg E) as [-> ->];
      [intros st; by eexists|by eapply sys_ok_same].
Qed.

Lemma sys_step_put base d txns t tx k v dl r d' tx' :
  sys_ok base (d, txns) -> txns !! t = Some tx -> log_room d -> key_ok k -> val_ok v -> kv_can (btree_ d) (k, Some v) = true ->
  Put k v dl (d, tx) = (r, (d', tx')) -> sys_ok base (d', <[t := tx']> txns).
Proof.
  intros (rs & cur & Hd) Ht Hroom Hk Hv Hf E. cbn in Hd.
  destruct (grantable_dec (lm_ d) t k EXCLUSIVE (dr_locks _ _ _ _ _ Hd) (txn_valid _ _ _ _ _ _ _ Hd Ht)) as [Hg|Hg].
  - destruct (log_room_lsn _ _ _ _ _ Hd Hroom) as [Hn _].
    destruct (Put_ok d txns base rs cur t tx k v dl Hd Ht Hg Hk Hv Hf Hn)
      as (d1 & r1 & E' & Hd' & _). cbv zeta in E'.
    rewrite E' in E. simplify_eq. by eexists _, _.
  - unfold Put in E. rewrite (check_open_ok d tx) in E by by eapply (dr_txn _ _ _ _ _ Hd).
    destruct (refused_stays d txns base rs cur t tx k EXCLUSIVE dl _ r d' tx' Hd Ht Hg E) as [-> ->];
      [intros st; by eexists|by eapply sys_ok_same].
Qed.

Lemma sys_step_delete base d txns t tx k dl r d' tx' :
  sys_ok base (d, txns) -> txns !! t = Some tx -> log_room d -> key_ok k ->
  kv_can (btree_ d) (k, None) = true -> Delete k dl (d, tx) = (r, (d', tx')) -> sys_ok base (d', <[t := tx']> txns).
Proof.
  intros (rs & cur & Hd) Ht Hroom Hk Hf E. cbn in Hd.
  destruct (grantable_dec (lm_ d) t k EXCLUSIVE (dr_locks _ _ _ _ _ Hd) (txn_valid _ _ _ _ _ _ _ Hd Ht)) as [Hg|Hg].
  - destruct (log_room_lsn _ _ _ _ _ Hd Hroom) as [Hn _].
    destruct (Delete_ok d txns base rs cur t tx k dl Hd Ht Hg Hk Hf Hn) as (d1 & rs1 & E' & Hd' & _). cbv zeta in E'.
    rewrite E' in E. simplify_eq. by eexists _, _.
  - unfold Delete in E. rewrite (check_open_ok d tx) in E by by eapply (dr_txn _ _ _ _ _ Hd).
    destruct (refused_stays d txns base rs cur t tx k EXCLUSIVE dl _ r d' tx' Hd Ht Hg E) as [-> ->];
      [intros st; by eexists|by eapply sys_ok_same].
Qed.

Lemma sys_step_ok base sys sys' : sys_ok base sys -> sys_step sys sys' -> sys_ok base sys'.
Proof.
  intros Hs Hstep. destruct Hstep as [d txns d' tx Hroom E|d txns t tx k m dl r d' tx' Ht E
    |d txns t tx k dl r d' tx' Ht E|d txns t tx k v dl r d' tx' Ht Hroom Hk Hv Hf E
    |d txns t tx k dl r d' tx' Ht Hroom Hk Hf E|d txns t tx r d' tx' Ht Hroom E|d txns t tx r d' tx' Ht Hroom Hf E].
  - destruct Hs as (rs & cur & Hd). destruct (log_room_lsn _ _ _ _ _ Hd Hroom) as [Hn Hm].
    destruct (Begin_ok d txns base rs cur Hd Hn Hm) as (d1 & r & E1 & _ & _ & _ & Hd1).
    rewrite E1 in E. simplify_eq. by eexists _, _.
  - by eapply sys_step_acquire.
  - by eapply sys_step_get.
  - by eapply sys_step_put.
  - by eapply sys_step_delete.
  - destruct Hs as (rs & cur & Hd). destruct (log_room_lsn _ _ _ _ _ Hd Hroom) as [Hn Hm].
    destruct (Commit_ok d txns base rs cur t tx Hd Ht Hn) as (d1 & r1 & E1 & _ & _ & Hd1 & _).
    rewrite E1 in E. simplify_eq. by eexists _, _.
  - destruct Hs as (rs & cur & Hd). destruct (log_room_lsn _ _ _ _ _ Hd Hroom) as [Hn Hm].
    destruct (Rollback_ok d txns base rs cur t tx Hd Ht Hf Hn)
      as (d1 & r1 & E1 & _ & _ & Hd1 & _).
    rewrite E1 in E. simplify_eq. by eexists _, _.
Qed.

Lemma sys_steps_ok base sys sys' : sys_ok base sys -> rtc sys_step sys sys' -> sys_ok base sys'.
Proof. intros Hs Hsteps. induction Hsteps; [done|]. eauto using sys_step_ok. Qed.

(** ** Steps of a transaction that is alone *)

Lemma begin_alone d tx :
  log_room d -> (Begin d).1 = Ok tx -> sys_step (d, ∅) ((Begin d).2, {[txn_id_ tx := tx]}).
Proof.
  intros Hr E. apply (sys_begin d ∅ (Begin d).2 tx Hr). rewrite <- E. apply surjective_pairing.
Qed.

Lemma put_alone d t tx k v (dl : bool) :
  log_room d -> key_ok k -> val_ok v -> kv_can (btree_ d) (k, Some v) = true ->
  let st := (Put k v dl (d, tx)).2 in sys_step (d, {[t := tx]}) (st.1, {[t := st.2]}).
Proof.
  intros Hr Hk Hv Hf st. rewrite <- (insert_singleton_eq t st.2 tx).
  apply (sys_put d {[t := tx]} t tx k v dl (Put k v dl (d, tx)).1); [apply lookup_singleton_eq|done..|].
  unfold st. by destruct (Put _ _ _ _) as [r [d' tx']].
Qed.

Lemma commit_alone d t tx : log_room d -> sys_step (d, {[t := tx]}) ((Commit (d, tx)).2.1, ∅).
Proof.
  intros Hr. rewrite <- (delete_singleton_eq t tx).
  apply (sys_commit d {[t := tx]} t tx (Commit (d, tx)).1 _ (Commit (d, tx)).2.2);
    [apply lookup_singleton_eq|done|]. by destruct (Commit (d, tx)) as [r [d' tx']].
Qed.

(** Writes in a row, as long as there is room for them. *)
Definition has_room d : bool := (next_lsn_ (log_ d) + 1 <? 2 ^ 63) && (next_txn_id_ (log_ d) + 1 <? 2 ^ 63).

Lemma has_room_ok d : has_room d = true -> log_room d.
Proof. unfold has_room. by rewrite andb_true_iff, !Z.ltb_lt. Qed.

Fixpoint put_all (es : list (bytes * bytes)) (st : DB S F * Transaction) : option (DB S F * Transaction) :=
  match es with
  | [] => Some st
  | (k, v) :: es' =>
      if has_room st.1 && (zlen k <? 2 ^ 32) && bool_decide (v <> []) && (zlen v <? 2 ^ 32) &&
         kv_can (btree_ st.1) (k, Some v)
      then put_all es' (Put k v false st).2
      else None
  end.

Lemma put_all_steps es st st' t :
  put_all es st = Some st' -> rtc sys_step (st.1, {[t := st.2]}) (st'.1, {[t := st'.2]}).
Proof.
  revert st. induction es as [|[k v] es IH]; intros [d tx] E; cbn [put_all fst snd] in E; [by injection E as <-|].
  destruct (_ && _) eqn:Hok; [|done]. rewrite !andb_true_iff, !Z.ltb_lt, bool_decide_eq_true in Hok.
  destruct Hok as ((((Hr & Hk) & Hne) & Hv) & Hc).
  eapply rtc_l; [|by apply IH]. apply (put_alone d t tx k v false); [by apply has_room_ok|done|by split|done].
Qed.

(** Its whole life: writes, and a commit. *)
Lemma write_and_commit d1 d2 tx1 es d3 tx2 d4 :
  has_room d1 = true -> Begin d1 = (Ok tx1, d2) -> put_all es (d2, tx1) = Some (d3, tx2) ->
  has_room d3 = true -> (Commit (d3, tx2)).2.1 = d4 -> rtc sys_step (d1, ∅) (d4, ∅).
Proof.
  intros R1 E1 E2 R3 <-. apply has_room_ok in R1, R3.
  pose proof (begin_alone d1 tx1 R1 ltac:(by rewrite E1)) as S1. rewrite E1 in S1.
  apply (rtc_l _ _ _ _ S1). etrans; [exact (put_all_steps es _ _ (txn_id_ tx1) E2)|].
  apply rtc_once. exact (commit_alone d3 (txn_id_ tx1) tx2 R3).
Qed.
End steps.
