(* ===== verification/OpenRep.v ===== *)
(** * The database that [Open] returns

    [data_file f m]: the file [f] is a database whose tree holds the map [m].  [Open] turns it and the log beside it into a database
    without transactions, and makes the result of recovery durable before it
    throws the log away. *)

From stdpp Require Import functions.
From S2P Require Import Prelude.
From S2P Require Import Buffers.
From S2P Require Import Page.
From S2P Require Import Node.
From S2P Require Import NodeSlots.
From S2P Require Import KeyOrder.
From S2P Require Import NodeCells.
From S2P Require Import NodeKinds.
From S2P Require Import NodeOps.
From S2P Require Import DiskManager.
From S2P Require Import FreeList.
From S2P Require Import BufferPool.
From S2P Require Import PoolSpec.
From S2P Require Import PoolOps.
From S2P Require Import BTree.
From S2P Require Import Tree.
From S2P Require Import TreeNav.
From S2P Require Import TreeFrame.
From S2P Require Import TreeChain.
From S2P Require Import TreeSplit.
From S2P Require Import TreeUpdate.
From S2P Require Import TreeParent.
From S2P Require Import TreeInsert.
From S2P Require Import Store.
From S2P Require Import TreeStore.
From S2P Require Import LogManager.
From S2P Require Import LogRep.
From S2P Require Import Recovery.
From S2P Require Import History.
From S2P Require Import LockManager.
From S2P Require Import Db.
From S2P Require Import DbRep.
From S2P Require Import Open.

Section create.
Context {F : Type} `{ReliableFile F}.
Implicit Types (t : BTree F) (a : APool).

(** A tree that is one leaf. *)
Lemma leaf_tree t a (kvs : list kv) root :
  pool_rep ∅ [] (bp_ t) a -> a_root a = root -> root_page_id_ t = root ->
  0 < root < a_num a -> root ∉ a_free a -> pg_id (a_page a root) = root -> node (a_page a root) kvs ->
  tree_rep t a 0 kvs [root].
Proof.
  intros Hr E1 E2 Hrange Hfree Hid Hn. split; [exact Hr| |apply NoDup_singleton| |by rewrite E1, E2].
  - rewrite E2. cbn [subtree]. split; [exact Hid|]. split; [exact Hn|]. split; [by intros k _|done].
  - intros j ->%list_elem_of_singleton. by split.
Qed.

(** The first page of a new tree: an empty leaf, named by the root slot. *)
Lemma create_ok t a :
  pool_rep ∅ [] (bp_ t) a -> (0 < a_cap a)%nat -> a_num a + 1 < 2 ^ 31 ->
  exists t' a', create t = (Ok tt, t') /\ tree_inv t' a' 0 [] [root_page_id_ t'] /\
    a_cap a' = a_cap a /\ a_num a' <= a_num a + 1.
Proof.
  intros Hr Hc Hn. destruct (new_page_tree ∅ [] t a Hr Hc Hn)
    as (i & root & b1 & a1 & E1 & Hr1 & He1 & [Hrange Hfree] & _ & Hpid & _).
  assert (Hinv : is_page_id INVALID_PAGE_ID) by by split.
  set (D := ∅ ∪ {[root]} : gset Z) in *. assert (HD : root ∈ D) by (apply elem_of_union; right; by apply elem_of_singleton).
  destruct (init_node_ok (A := kv) D _ (set_bp b1 t) a1 root i (init_leaf root INVALID_PAGE_ID) BTREE_LEAF
    INVALID_PAGE_ID Hr1 HD ltac:(by left) (init_leaf_ok _ _ _ Hpid Hinv)) as (b2 & q & E2 & Hr2 & N & _ & Mt).
  unfold meta, fresh_meta in Mt. injection Mt as Iq _ _ Rq _ _.
  destruct (unpin_tree _ _ [] (set_bp b2 (set_bp b1 t)) _ root i true Hr2) as (b3 & E3 & Hr3); [done..|].
  cbn iota in Hr3. unfold D in Hr3. rewrite <- (clean_one root) in Hr3.
  destruct (set_root_tree (set_bp b3 t) _ root Hr3 Hpid) as (b4 & E4 & Hr4).
  set (a2 := a_set_page root q a1) in *.
  assert (P2 : a_page a2 root = q) by (simpl; by rewrite fn_lookup_insert). rewrite <- P2 in N, Iq, Rq.
  exists (set_bp b4 (set_root root (set_bp b3 t))), (a_set_root root a2). split; [|split; [split|split]].
  - unfold create. mstep E1. mstep E2. mstep E3. exact E4.
  - by apply leaf_tree.
  - split; [intros j ->%list_elem_of_singleton; left; by exists []|].
    apply (leaf_chain_single (a_page a2) root); [apply N|exact Rq].
  - constructor.
  - apply (ev_cap _ _ _ _ He1).
  - apply (ev_num _ _ _ _ He1).
Qed.
End create.

(** ** A database file *)

Definition file_pages (bs : bytes) : Z := zlen bs / PAGE_SIZE.
Definition file_page (bs : bytes) (pid : Z) : Page := rd (pid * PAGE_SIZE) PAGE_SIZE bs.

Definition file_root (bs : bytes) : Z := p0_root (file_page bs 0).

(** The tree in the pages of a file. *)
Record file_tree (bs : bytes) (h : nat) (kvs : list kv) (pids : list Z) : Prop := {
  ft_tree : subtree (file_page bs) h (file_root bs) None None kvs pids;
  ft_nodup : NoDup pids;
  ft_pids : forall j, j ∈ pids -> 0 < j < file_pages bs /\ j ∉ p0_ids (file_page bs 0);
  ft_pages : pages_ok (file_page bs) pids;
  ft_small : Forall kv_small kvs;
}.

Record data_file (bs : bytes) (m : kvmap) : Prop := {
  df_size : 0 < file_pages bs < 2 ^ 31;
  df_count : p0_count (file_page bs 0) <= MAX_FREE_PAGES;
  df_nodup : NoDup (p0_ids (file_page bs 0));
  df_ids : forall id, id ∈ p0_ids (file_page bs 0) -> 0 < id < file_pages bs;
  df_tree : exists h kvs pids, file_tree bs h kvs pids /\ kv_map kvs = m;
}.

Lemma df_root (bs : bytes) (m : kvmap) : data_file bs m -> 0 < file_root bs < file_pages bs.
Proof. intros [_ _ _ _ (h & kvs & pids & Ht & _)]. apply (ft_pids _ _ _ _ Ht). eapply subtree_root, Ht. Qed.

Lemma zlen_p0_ids (p : Page) : zlen (p0_ids p) = p0_count p.
Proof.
  unfold p0_ids, zlen. rewrite length_dec_ids. unfold p0_count.
  pose proof (get_u_range 4 (data 0) p). lia.
Qed.

(** Reading a file is not to be evaluated. *)
#[local] Opaque rd p0_root p0_ids p0_count pg_id load BufferPool_ctor.

Section files.
Context {F : Type} `{ReliableLog F}.
Implicit Types (f g : F) (t : BTree F) (a : APool) (m : kvmap).

Definition dm_of_file f : DiskManager F := mkDM f (file_pages (content f)).

Lemma DiskManager_ctor_ok f :
  file_pages (content f) < 2 ^ 31 -> DiskManager_ctor (Some f) = Ok (dm_of_file f) /\ dm_ok (dm_of_file f).
Proof.
  intros Hs. unfold DiskManager_ctor, dm_of_file. rewrite lseek_end_reliable. unfold file_pages in *.
  pose proof (zlen_nonneg (content f)) as Hz. rewrite (proj2 (Z.ltb_ge _ _)) by done.
  pose proof (Z.div_pos _ PAGE_SIZE Hz ltac:(done)). rewrite swrap_small by lia.
  split; [done|]. split; cbn; [done|]. rewrite Z.mul_comm. by apply Z.mul_div_le.
Qed.

(** The members of the database after the constructors, and page 0. *)
Definition fl_of_file f : FreeList F := mkFL (dm_of_file f) (p0_ids (file_page (content f) 0)).

Lemma fl_of_file_ok f m :
  data_file (content f) m ->
  load (mkFL (dm_of_file f) []) = (Ok tt, fl_of_file f) /\ fl_synced (fl_of_file f).
Proof.
  intros Hf. pose proof (df_size _ _ Hf) as Hs. pose proof (df_count _ _ Hf) as Hc.
  destruct (DiskManager_ctor_ok f) as [_ Hd]; [lia|].
  split; [apply (load_ok (mkFL (dm_of_file f) [])); [exact Hd|exact (proj1 Hs)|exact Hc]|].
  split; [|by split]. split; [exact Hd|exact (proj1 Hs)| |].
  - cbn [free_pages_ fl_of_file]. by rewrite zlen_p0_ids.
  - apply Forall_forall. intros id Hin. pose proof (df_ids _ _ Hf id Hin). unfold is_page_id. lia.
Qed.

(** The tree that [BTree::open] finds there. *)
Definition opened_tree f : BTree F := mkBTree (BufferPool_ctor (fl_of_file f)) (file_root (content f)).

Lemma open_file f m :
  data_file (content f) m ->
  let b := BufferPool_ctor (fl_of_file f) in
  on_fl root_page_id b = (Ok (file_root (content f)), b) /\ tree_map (opened_tree f) m.
Proof.
  intros Hf b. destruct (fl_of_file_ok f m Hf) as [_ Hsync].
  pose proof (BufferPool_ctor_ok (fl_of_file f) Hsync (df_nodup _ _ Hf) (df_ids _ _ Hf)) as Hr.
  destruct (df_tree _ _ Hf) as (h & kvs & pids & [Htree Hnd Hpids Hpages Hsmall] & Hm).
  split; [exact (root_page_id_rep _ _ _ _ Hr)|].
  exists (a_init (fl_of_file f)), h, kvs, pids. split; [|split; [exact Hm|vm_compute; lia]].
  split; [split|exact Hpages|exact Hsmall]; [exact Hr|exact Htree|exact Hnd|exact Hpids|reflexivity].
Qed.

(** Once every page is on disk, the file is the database. *)
Lemma synced_file t a h (kvs : list kv) pids :
  tree_inv t a h kvs pids ->
  (forall j, 0 < j < a_num a -> bp_disk (bp_ t) j = a_page a j) ->
  let bs := content (fd (dm (pool_fl (bp_ t)))) in
  file_pages bs < 2 ^ 31 -> data_file bs (kv_map kvs).
Proof.
  intros [[Hr Htree Hnd Hpids Hroot] Hpages Hsmall] Hdisk bs Hsize.
  destruct (inv_fl _ _ (pr_inv _ _ _ _ Hr)) as (Hok & Hc & Hids).
  pose proof (pr_num _ _ _ _ Hr) as Hnum. unfold bp_num in Hnum.
  pose proof (dm_size _ (fl_dm _ Hok)) as Hsz. fold bs in Hsz. rewrite Hnum in Hsz.
  assert (Hle : a_num a <= file_pages bs) by (apply Z.div_le_lower_bound; [done|lia]).
  assert (Eids : p0_ids (file_page bs 0) = a_free a) by (rewrite <- (pr_list _ _ _ _ Hr); exact Hids).
  assert (Eroot : file_root bs = root_page_id_ t) by (rewrite <- Hroot, <- (pr_root _ _ _ _ Hr); done).
  assert (Epage : forall j, j ∈ pids -> file_page bs j = a_page a j)
    by (intros j Hj; apply (Hdisk j), Hpids, Hj).
  pose proof (proj1 (Hpids _ (subtree_root _ _ _ _ _ _ _ Htree))) as Hrange.
  split; rewrite ?Eids; try done.
  - lia.
  - apply (pr_nodup _ _ _ _ Hr).
  - intros id Hin. destruct (pr_free _ _ _ _ Hr id Hin). lia.
  - exists h, kvs, pids. split; [|done]. split; rewrite ?Eids, ?Eroot; try done.
    + eapply subtree_frame; [exact Htree|]. intros j Hj. by rewrite Epage.
    + intros j Hj. destruct (Hpids j Hj). split; [lia|done].
    + destruct Hpages as [Hp Hchain]. split; [intros j Hj; rewrite Epage by done; by apply Hp|].
      eapply leaf_chain_same; [|exact Hchain]. intros j Hj. by rewrite Epage.
Qed.

Lemma sync_file t m :
  tree_map t m ->
  exists t', sync t = (Ok tt, t') /\ tree_map t' m /\
    let bs := content (fd (dm (pool_fl (bp_ t')))) in file_pages bs < 2 ^ 31 -> data_file bs m.
Proof.
  intros (a & h & kvs & pids & Hi & Hm & Hc).
  destruct (sync_ok t a (tr_pool _ _ _ _ _ (ti_rep _ _ _ _ _ Hi))) as (b' & E & Hr' & Hd).
  pose proof (tree_inv_pool t a h kvs pids b' Hi Hr') as Ht.
  exists (set_bp b' t). split; [exact E|]. split; [by exists a, h, kvs, pids|].
  rewrite <- Hm. exact (synced_file (set_bp b' t) a h kvs pids Ht Hd).
Qed.

(** ** The calls of [Open] *)

Implicit Types (d : DB (BTree F) F).

Lemma on_tree_eq {A} (m : M (BTree F) A) d r t' : m (btree_ d) = (r, t') -> on_tree m d = (r, set_btree t' d).
Proof. intros E. by apply (zoom_eq btree_ set_btree). Qed.

Lemma recover_and_truncate_ok d m z l' t' :
  recover (log_ d, btree_ d) = (Ok z, (l', t')) -> tree_map t' m ->
  exists d', recover_and_truncate d = (Ok tt, d') /\ tree_map (btree_ d') m /\ log_rep (log_ d') [] /\
    lm_ d' = lm_ d /\
    (file_pages (content (data_of d')) < 2 ^ 31 -> data_file (content (data_of d')) m).
Proof.
  intros E Ht. destruct (sync_file t' m Ht) as (t2 & E2 & Ht2 & Hf). set (d1 := mkDB t' l' (lm_ d)).
  destruct (truncate_ok l') as (l2 & E3 & Hl2). exists (mkDB t2 l2 (lm_ d)).
  split; [|by split_and!]. unfold recover_and_truncate.
  rewrite (bind_ok _ _ d d1 z) by (unfold zoom; by rewrite E).
  rewrite (bind_ok _ _ d1 (set_btree t2 d1) tt) by (by apply on_tree_eq).
  by rewrite (zoom_eq log_ set_log truncate _ l2 (Ok tt)).
Qed.

(** The constructors up to the tree. *)
Lemma Open_eq n f g fl log :
  file_pages (content f) < 2 ^ 31 -> load (mkFL (dm_of_file f) []) = (Ok tt, fl) ->
  LogManager_ctor (Some g) = Ok log ->
  Open n (Some f) (Some g) =
    match open_tree (mkDB (mkBTree (BufferPool_ctor fl) INVALID_PAGE_ID) log (LockManager_ctor n)) with
    | (Ok _, d) => Ok d
    | (Err e, _) => Err e
    end.
Proof.
  intros Hs El Eg. unfold Open. destruct (DiskManager_ctor_ok f Hs) as [Ed _]. mstep Ed. rewrite El. by mstep Eg.
Qed.

Lemma Open_existing n f g log m m' z :
  data_file (content f) m -> LogManager_ctor (Some g) = Ok log ->
  (tree_map (opened_tree f) m -> exists t', recover (log, opened_tree f) = (Ok z, (log, t')) /\ tree_map t' m') ->
  exists d, Open n (Some f) (Some g) = Ok d /\ tree_map (btree_ d) m' /\ log_rep (log_ d) [] /\
    lm_ d = LockManager_ctor n /\
    (file_pages (content (data_of d)) < 2 ^ 31 -> data_file (content (data_of d)) m').
Proof.
  intros Hf Eg Hrec. pose proof (df_size _ _ Hf) as Hs. pose proof (df_root _ _ Hf) as Hroot.
  destruct (fl_of_file_ok f m Hf) as [El _]. destruct (open_file f m Hf) as [Er Ht].
  destruct (Hrec Ht) as (t' & E & Ht').
  set (d1 := mkDB (mkBTree (BufferPool_ctor (fl_of_file f)) (file_root (content f))) log (LockManager_ctor n)).
  destruct (recover_and_truncate_ok d1 m' z log t' E Ht') as (d & E2 & Hd).
  exists d. split; [|exact Hd]. rewrite (Open_eq n f g _ log (proj2 Hs) El Eg).
  unfold open_tree. set (d0 := mkDB (mkBTree _ INVALID_PAGE_ID) log _).
  rewrite (bind_ok _ _ d0 d0 (file_root (content f))) by
    (apply (on_tree_eq _ d0 _ (btree_ d0)); exact (on_bp_eq _ (btree_ d0) _ _ Er)).
  rewrite (proj2 (Z.eqb_neq _ _)) by (unfold INVALID_PAGE_ID; lia).
  by rewrite (bind_ok _ _ d0 d1 tt), E2.
Qed.

Lemma ctor_empty g : content g = [] -> LogManager_ctor (Some g) = Ok (mkLM g 1 1).
Proof.
  intros Hg. apply (reopen_ok g [] []); [done|constructor|by left| |done|done].
  intros i r Hi. by rewrite lookup_nil in Hi.
Qed.

(** A new file: page 0 and the root leaf are made. *)
Lemma Open_new n f g log :
  content f = [] -> LogManager_ctor (Some g) = Ok log ->
  exists d, Open n (Some f) (Some g) = Ok d /\ tree_map (btree_ d) ∅ /\ log_ d = log /\ lm_ d = LockManager_ctor n /\
    tree_pages (btree_ d) <= 2.
Proof.
  intros Hf Eg. assert (Hs : file_pages (content f) = 0) by (by rewrite Hf).
  destruct (DiskManager_ctor_ok f) as [_ Hd]; [lia|].
  destruct (load_empty (mkFL (dm_of_file f) []) Hd Hs eq_refl) as (fl & El & Hsync & Hfree & Hn & Hroot).
  assert (Hb : pool_rep ∅ [] (BufferPool_ctor fl) (a_init fl)).
  { apply BufferPool_ctor_ok; [exact Hsync|rewrite Hfree; constructor|].
    rewrite Hfree. intros id Hin. by apply not_elem_of_nil in Hin. }
  set (t0 := mkBTree (BufferPool_ctor fl) INVALID_PAGE_ID).
  assert (Hnum : a_num (a_init fl) = 1) by exact Hn.
  destruct (create_ok t0 (a_init fl) Hb (Nat.lt_0_succ _)) as (t' & a' & Ec & Hi & Hc' & Hn'); [lia|].
  assert (Hcap : (3 <= a_cap a')%nat) by (rewrite Hc'; vm_compute; lia).
  exists (mkDB t' log (LockManager_ctor n)). split; [|split; [|split; [done|split; [done|]]]].
  2: { by exists a', 0%nat, [], [root_page_id_ t']. }
  2: { cbn [btree_]. rewrite (tree_pages_num _ _ _ _ _ Hi). lia. }
  rewrite (Open_eq n f g fl log ltac:(lia) El Eg). unfold open_tree. set (d0 := mkDB t0 log (LockManager_ctor n)).
  assert (Er : on_tree (on_bp (on_fl root_page_id)) d0 = (Ok INVALID_PAGE_ID, d0)).
  { apply (on_tree_eq _ d0 _ t0), (on_bp_eq _ t0 (bp_ t0)). rewrite <- Hroot. exact (root_page_id_rep _ _ _ _ Hb). }
  mstep Er. rewrite Z.eqb_refl. by rewrite (on_tree_eq create d0 (Ok tt) t' Ec).
Qed.
End files.
