(* ===== verification/ClientHandler.v ===== *)
(** * Client sessions ([src/src/server/protocol.h], [client_handler.h],
    [client_handler.cpp] under [src/server])

    A [ClientHandler] has a connection, the shared database and a slot for one
    transaction.  The connection is reached through [read], [write] and
    [close], which are parameters.  The other threads are an oracle: what they
    do to the database before a request is served and each time a request has
    to wait for a lock. *)

From Stdlib Require Import Strings.String.
From S2P Require Import Prelude.
From S2P Require Import DiskManager.
From S2P Require Import Store.
From S2P Require Import LogManager.
From S2P Require Import LockManager.
From S2P Require Import Db.

(** ** Protocol *)

Definition OP_BEGIN : Z := 1.
Definition OP_GET : Z := 2.
Definition OP_PUT : Z := 3.
Definition OP_DELETE : Z := 4.
Definition OP_COMMIT : Z := 5.
Definition OP_ROLLBACK : Z := 6.

Definition STATUS_OK : Z := 0.
Definition STATUS_NOT_FOUND : Z := 1.
Definition STATUS_ERROR : Z := 2.
Definition STATUS_DEADLOCK : Z := 3.

(** ** Connections *)

(** [read(fd, buf, n)]: what it returns and the bytes it put into [buf];
    [write(fd, buf, n)]: what it returns. *)
Class Socket (K : Type) : Type := {
  sock_read : Z -> K -> Z * bytes * K;
  sock_write : bytes -> K -> Z * K;
  sock_close : K -> K;
}.

Section io.
Context {K : Type} `{Socket K}.

(** [None] is [false]: what has been read is not used then.  A round reads at
    least one byte, so [n] rounds are enough. *)
Fixpoint read_exact_loop (fuel : nat) (remaining : Z) (buf : bytes) : M K (option bytes) :=
  fun k =>
    if 0 <? remaining then
      match fuel with
      | O => (Err OutOfFuel, k)
      | S fuel' =>
          let '(r, bs, k') := sock_read remaining k in
          if r <=? 0 then (Ok None, k') else read_exact_loop fuel' (remaining - r) (buf ++ bs) k'
      end
    else (Ok (Some buf), k).

Definition read_exact (n : Z) : M K (option bytes) := read_exact_loop (Z.to_nat n) n [].

Fixpoint write_exact_loop (fuel : nat) (buf : bytes) : M K bool :=
  fun k =>
    if 0 <? zlen buf then
      match fuel with
      | O => (Err OutOfFuel, k)
      | S fuel' =>
          let '(w, k') := sock_write buf k in
          if w <=? 0 then (Ok false, k') else write_exact_loop fuel' (drop (Z.to_nat w) buf) k'
      end
    else (Ok true, k).

Definition write_exact (buf : bytes) : M K bool := write_exact_loop (Z.to_nat (zlen buf)) buf.

Definition read_string : M K (option bytes) :=
  let* net_len := read_exact 2 in
  match net_len with
  | None => ret None
  | Some bs =>
      let len := be_dec bs in
      if 0 <? len then read_exact len else ret (Some [])
  end.

(** ** Responses *)

Definition send_response (status : Z) (payload : bytes) : M K unit :=
  do* write_exact [byte_of_Z status] in
  do* write_exact (be_enc 4 (zlen payload)) in
  if 0 <? zlen payload then do* write_exact payload in ret tt else ret tt.

Definition send_ok : M K unit := send_response STATUS_OK [].
Definition send_ok_value (value : bytes) : M K unit :=
  send_response STATUS_OK (be_enc 2 (zlen value) ++ value).
Definition send_not_found : M K unit := send_response STATUS_NOT_FOUND [].
(** The message with its final zero. *)
Definition send_error (msg : bytes) : M K unit := send_response STATUS_ERROR (msg ++ [Byte.x00]).
Definition send_deadlock : M K unit := send_response STATUS_DEADLOCK [].
End io.

(** ** Handlers *)

Record ClientHandler (K S F : Type) : Type := mkHandler {
  conn_fd_ : K;
  db_ : DB S F;
  txn_ : option Transaction;
}.
Arguments mkHandler {K S F} conn_fd_ db_ txn_.
Arguments conn_fd_ {K S F} c.
Arguments db_ {K S F} c.
Arguments txn_ {K S F} c.

(** What the other threads do to the database: before a request is served,
    and one after the other while it waits for a lock, until the deadline. *)
Record Others (D : Type) : Type := mkOthers { before : D -> D; during : list (D -> D) }.
Arguments mkOthers {D} before during.
Arguments before {D} o.
Arguments during {D} o.

Section handlers.
Context {K S F : Type} `{Socket K, KVStore S, PosixFile F}.
(** [e.what()] of a caught exception. *)
Context (what : exn -> bytes).

Definition set_conn (k : K) (c : ClientHandler K S F) : ClientHandler K S F := mkHandler k (db_ c) (txn_ c).
Definition set_db (d : DB S F) (c : ClientHandler K S F) : ClientHandler K S F := mkHandler (conn_fd_ c) d (txn_ c).
Definition set_txn (tx : option Transaction) (c : ClientHandler K S F) : ClientHandler K S F :=
  mkHandler (conn_fd_ c) (db_ c) tx.

Abbreviation HM := (M (ClientHandler K S F)).

Definition on_conn {A : Type} (m : M K A) : HM A := zoom conn_fd_ set_conn m.

(** [txn_->m()] *)
Definition on_txn_ {A : Type} (m : M (DB S F * Transaction) A) : HM A :=
  fun c =>
    match txn_ c with
    | None => (Err OutOfBounds, c)
    | Some tx => let '(r, (d, tx')) := m (db_ c, tx) in (r, mkHandler (conn_fd_ c) d (Some tx'))
    end.

(** A call that may have to wait: it is tried again each time another thread
    has done something, and for the last time when the deadline has passed. *)
Fixpoint blocking {A : Type} (others : list (DB S F -> DB S F))
    (call : bool -> M (DB S F * Transaction) (option A)) : M (DB S F * Transaction) A :=
  match others with
  | [] =>
      let* r := call true in
      match r with Some a => ret a | None => throw OutOfFuel end
  | other :: others' =>
      let* r := call false in
      match r with
      | Some a => ret a
      | None => do* modifyS (fun st => (other st.1, st.2)) in blocking others' call
      end
  end.

(** [txn_.reset()]: the destructor of the transaction, if there is one. *)
Definition reset_txn : HM unit :=
  fun c =>
    match txn_ c with
    | None => (Ok tt, c)
    | Some _ => (do* on_txn_ Transaction_dtor in modifyS (set_txn None)) c
    end.

(** A call of the transaction and its response; [DeadlockException] also ends
    the transaction. *)
Definition answer {A : Type} (call : M (DB S F * Transaction) A) (respond : A -> M K unit) : HM unit :=
  try_catch (let* a := on_txn_ call in on_conn (respond a))
    (fun e => match e with
              | DeadlockException => do* reset_txn in on_conn send_deadlock
              | _ => on_conn (send_error (what e))
              end).

Definition no_txn_begin : bytes :=
  Eval compute in list_byte_of_string "no open transaction — send BEGIN first".
Definition no_txn : bytes := Eval compute in list_byte_of_string "no open transaction".
Definition already_open : bytes :=
  Eval compute in list_byte_of_string "transaction already open — COMMIT or ROLLBACK first".
Definition unknown_opcode : bytes := Eval compute in list_byte_of_string "unknown opcode".

Definition is_open (c : ClientHandler K S F) : bool := match txn_ c with Some _ => true | None => false end.

Definition handle_begin : HM unit :=
  let* c := getS in
  if is_open c then on_conn (send_error already_open)
  else
    let* tx := zoom db_ set_db Begin in
    do* modifyS (set_txn (Some tx)) in
    on_conn send_ok.

Definition handle_get (others : list (DB S F -> DB S F)) : HM unit :=
  let* c := getS in
  if negb (is_open c) then on_conn (send_error no_txn_begin)
  else
    let* key := on_conn read_string in
    match key with
    | None => ret tt
    | Some k =>
        answer (blocking others (Get k)) (fun v =>
          match v with Some x => send_ok_value x | None => send_not_found end)
    end.

(** [Put] and [Delete] answer [true] when they were done. *)
Definition when_done (m : M (DB S F * Transaction) bool) : M (DB S F * Transaction) (option unit) :=
  let* b := m in ret (if b : bool then Some tt else None).

Definition handle_put (others : list (DB S F -> DB S F)) : HM unit :=
  let* c := getS in
  if negb (is_open c) then on_conn (send_error no_txn)
  else
    let* key := on_conn read_string in
    match key with
    | None => ret tt
    | Some k =>
        let* value := on_conn read_string in
        match value with
        | None => ret tt
        | Some v => answer (blocking others (fun dl => when_done (Put k v dl))) (fun _ => send_ok)
        end
    end.

Definition handle_delete (others : list (DB S F -> DB S F)) : HM unit :=
  let* c := getS in
  if negb (is_open c) then on_conn (send_error no_txn)
  else
    let* key := on_conn read_string in
    match key with
    | None => ret tt
    | Some k => answer (blocking others (fun dl => when_done (Delete k dl))) (fun _ => send_ok)
    end.

Definition handle_commit : HM unit :=
  let* c := getS in
  if negb (is_open c) then on_conn (send_error no_txn)
  else
    try_catch (do* on_txn_ Commit in do* reset_txn in on_conn send_ok)
      (fun e => do* reset_txn in on_conn (send_error (what e))).

Definition handle_rollback : HM unit :=
  let* c := getS in
  if negb (is_open c) then on_conn (send_error no_txn)
  else
    do* try_catch (on_txn_ Rollback) (fun _ => ret tt) in
    do* reset_txn in
    on_conn send_ok.

Definition dispatch (opcode : Z) (others : list (DB S F -> DB S F)) : HM unit :=
  if opcode =? OP_BEGIN then handle_begin
  else if opcode =? OP_GET then handle_get others
  else if opcode =? OP_PUT then handle_put others
  else if opcode =? OP_DELETE then handle_delete others
  else if opcode =? OP_COMMIT then handle_commit
  else if opcode =? OP_ROLLBACK then handle_rollback
  else on_conn (send_error unknown_opcode).

(** After the loop: the client has gone. *)
Definition disconnect : HM unit :=
  let* c := getS in
  do* (if is_open c then
         do* try_catch (on_txn_ Rollback) (fun _ => ret tt) in reset_txn
       else ret tt) in
  on_conn (modifyS sock_close).

(** The loop reads a header or ends, so with as many rounds as there are
    bytes to come, and one, it ends by itself.  [others] has an entry for each
    request; the database is left alone after the last. *)
Fixpoint run (fuel : nat) (others : list (Others (DB S F))) : HM unit :=
  match fuel with
  | O => throw OutOfFuel
  | Datatypes.S fuel' =>
      let* opcode := on_conn (read_exact 1) in
      match opcode with
      | None => disconnect
      | Some op =>
          let* net_payload_len := on_conn (read_exact 4) in
          match net_payload_len with
          | None => disconnect
          | Some _ =>
              match others with
              | [] => do* dispatch (be_dec op) [] in run fuel' []
              | o :: others' =>
                  do* modifyS (fun c => set_db (before o (db_ c)) c) in
                  do* dispatch (be_dec op) (during o) in
                  run fuel' others'
              end
          end
      end
  end.
End handlers.
