(* ===== verification/SessionRep.v ===== *)
(** * Sessions as exchanges of messages

    [ReliableSocket] says what POSIX promises for a stream that the client has
    filled and that takes all answers: a call moves some of the bytes, at
    least one.  On such a stream the I/O loops do not depend on how it is cut,
    and a session of [run] is the exchange [serve_all] of requests for
    responses. *)

From S2P Require Import Prelude.
From S2P Require Import DiskManager.
From S2P Require Import Store.
From S2P Require Import LogManager.
From S2P Require Import LockManager.
From S2P Require Import Db.
From S2P Require Import ClientHandler.

Class ReliableSocket (K : Type) `{Socket K} : Type := {
  pending : K -> bytes;
  sent : K -> bytes;
  read_some : forall (k : K) (n : Z), 0 < n -> pending k <> [] ->
    exists (m : nat) k', sock_read n k = (Z.of_nat m, take m (pending k), k') /\
      (0 < m)%nat /\ Z.of_nat m <= n /\ (m <= length (pending k))%nat /\
      pending k' = drop m (pending k) /\ sent k' = sent k;
  read_eof : forall (k : K) (n : Z), 0 < n -> pending k = [] ->
    exists r bs k', sock_read n k = (r, bs, k') /\ r <= 0 /\ pending k' = [] /\ sent k' = sent k;
  write_some : forall (k : K) (bs : bytes), bs <> [] ->
    exists (m : nat) k', sock_write bs k = (Z.of_nat m, k') /\ (0 < m <= length bs)%nat /\
      pending k' = pending k /\ sent k' = sent k ++ take m bs;
  close_sent : forall k : K, sent (sock_close k) = sent k;
}.

(** A connection in memory that moves at most [ms_max + 1] bytes at a time. *)
Record MemSocket : Type := mkMS { ms_in : bytes; ms_out : bytes; ms_max : nat }.

#[export] Instance mem_socket : Socket MemSocket := {|
  sock_read n s :=
    let m := Nat.min (Nat.min (Z.to_nat n) (S (ms_max s))) (length (ms_in s)) in
    (Z.of_nat m, take m (ms_in s), mkMS (drop m (ms_in s)) (ms_out s) (ms_max s));
  sock_write bs s :=
    let m := Nat.min (S (ms_max s)) (length bs) in
    (Z.of_nat m, mkMS (ms_in s) (ms_out s ++ take m bs) (ms_max s));
  sock_close s := s;
|}.

#[export, refine] Instance mem_socket_reliable : ReliableSocket MemSocket := {|
  pending := ms_in;
  sent := ms_out;
|}.
Proof.
  - intros k n Hn Hp. set (m := Nat.min (Nat.min (Z.to_nat n) (S (ms_max k))) (length (ms_in k))).
    assert (0 < length (ms_in k))%nat by (destruct (ms_in k); [done|simpl; lia]).
    exists m. eexists. split; [done|]. split_and!; (done || lia).
  - intros k n Hn Hp. eexists _, _, _. split; [done|]. rewrite Hp. cbn. split_and!; [lia|by rewrite drop_nil|done].
  - intros k bs Hb. assert (0 < length bs)%nat by (destruct bs; [done|simpl; lia]).
    exists (Nat.min (S (ms_max k)) (length bs)). eexists. split; [done|]. split; [lia|done].
  - done.
Defined.

(** ** The I/O loops *)

Section io.
Context {K : Type} `{ReliableSocket K}.
Implicit Types (k : K) (bs : bytes).

Lemma read_exact_loop_ok fuel n buf pre rest k :
  pending k = pre ++ rest -> zlen pre = n -> n <= Z.of_nat fuel ->
  exists k', read_exact_loop fuel n buf k = (Ok (Some (buf ++ pre)), k') /\ pending k' = rest /\ sent k' = sent k.
Proof.
  revert n buf pre k. induction fuel as [|fuel IH]; intros n buf pre k Hp Hn Hf; cbn [read_exact_loop].
  all: destruct (Z.ltb_spec 0 n) as [Hpos|Hz].
  - lia.
  - destruct pre; [|rewrite zlen_cons in Hn; pose proof (zlen_nonneg pre); lia].
    exists k. by rewrite app_nil_r.
  - destruct (read_some k n Hpos) as (m & k1 & E & Hm1 & Hm2 & Hm3 & Hp1 & Hs1).
    { rewrite Hp. destruct pre; [rewrite zlen_nil in Hn; lia|done]. }
    rewrite E. rewrite (proj2 (Z.leb_gt _ _)) by lia.
    assert (Hm : (m <= length pre)%nat) by (unfold zlen in Hn; lia).
    rewrite Hp, take_app_le by done. rewrite Hp, drop_app_le in Hp1 by done.
    destruct (IH (n - Z.of_nat m) (buf ++ take m pre) (drop m pre) k1 Hp1) as (k' & E' & Hp' & Hs').
    + unfold zlen in *. rewrite length_drop. lia.
    + lia.
    + exists k'. rewrite E', <- app_assoc, take_drop. split; [done|]. split; [done|congruence].
  - destruct pre; [|rewrite zlen_cons in Hn; pose proof (zlen_nonneg pre); lia].
    exists k. by rewrite app_nil_r.
Qed.

Lemma read_exact_loop_short fuel n buf k :
  zlen (pending k) < n -> n <= Z.of_nat fuel ->
  exists k', read_exact_loop fuel n buf k = (Ok None, k') /\ pending k' = [] /\ sent k' = sent k.
Proof.
  revert n buf k. induction fuel as [|fuel IH]; intros n buf k Hp Hf; pose proof (zlen_nonneg (pending k));
    [lia|]. cbn [read_exact_loop]. rewrite (proj2 (Z.ltb_lt _ _)) by lia.
  destruct (decide (pending k = [])) as [E|Hne].
  - destruct (read_eof k n ltac:(lia) E) as (r & bs & k' & -> & Hr & Hp' & Hs'). exists k'.
    by rewrite (proj2 (Z.leb_le _ _)).
  - destruct (read_some k n ltac:(lia) Hne) as (m & k1 & -> & Hm1 & Hm2 & Hm3 & Hp1 & Hs1).
    rewrite (proj2 (Z.leb_gt _ _)) by lia.
    destruct (IH (n - Z.of_nat m) (buf ++ take m (pending k)) k1) as (k' & E' & Hp' & Hs').
    + rewrite Hp1. unfold zlen in *. rewrite length_drop. lia.
    + lia.
    + exists k'. rewrite E'. split; [done|]. split; [done|congruence].
Qed.

Lemma read_exact_ok k n pre rest :
  pending k = pre ++ rest -> zlen pre = n ->
  exists k', read_exact n k = (Ok (Some pre), k') /\ pending k' = rest /\ sent k' = sent k.
Proof.
  intros Hp Hn. apply (read_exact_loop_ok _ n [] pre rest k Hp Hn). pose proof (zlen_nonneg pre). lia.
Qed.

Lemma read_exact_short k n :
  zlen (pending k) < n ->
  exists k', read_exact n k = (Ok None, k') /\ pending k' = [] /\ sent k' = sent k.
Proof. intros Hn. apply read_exact_loop_short; [done|]. pose proof (zlen_nonneg (pending k)). lia. Qed.

Lemma write_exact_ok k bs :
  exists k', write_exact bs k = (Ok true, k') /\ pending k' = pending k /\ sent k' = sent k ++ bs.
Proof.
  unfold write_exact. assert (Hf : (length bs <= Z.to_nat (zlen bs))%nat) by (unfold zlen; lia).
  revert Hf. generalize (Z.to_nat (zlen bs)) as fuel. intros fuel. revert bs k.
  induction fuel as [|fuel IH]; intros bs k Hf; cbn [write_exact_loop].
  - destruct bs; [|simpl in Hf; lia]. exists k. by rewrite app_nil_r.
  - destruct bs as [|x bs]; [exists k; by rewrite app_nil_r|].
    rewrite (proj2 (Z.ltb_lt _ _)) by (unfold zlen; simpl; lia).
    destruct (write_some k (x :: bs) ltac:(done)) as (m & k1 & -> & Hm & Hp1 & Hs1).
    rewrite (proj2 (Z.leb_gt _ _)) by lia. rewrite Nat2Z.id.
    destruct (IH (drop m (x :: bs)) k1) as (k' & E' & Hp' & Hs').
    + rewrite length_drop. simpl in *. lia.
    + exists k'. split; [exact E'|]. split; [congruence|]. by rewrite Hs', Hs1, <- app_assoc, take_drop.
Qed.

(** A string on the wire. *)
Definition enc_string bs : bytes := be_enc 2 (zlen bs) ++ bs.

Lemma zlen_be_enc (n : nat) (z : Z) : zlen (be_enc n z) = Z.of_nat n.
Proof. unfold zlen. by rewrite length_be_enc. Qed.

Lemma read_string_ok k bs rest :
  pending k = enc_string bs ++ rest -> zlen bs < 2 ^ 16 ->
  exists k', read_string k = (Ok (Some bs), k') /\ pending k' = rest /\ sent k' = sent k.
Proof.
  intros Hp Hl. unfold enc_string in Hp. rewrite <- app_assoc in Hp. pose proof (zlen_nonneg bs).
  destruct (read_exact_ok k 2 _ _ Hp (zlen_be_enc 2 _)) as (k1 & E1 & Hp1 & Hs1).
  unfold read_string. mstep E1. rewrite be_dec_enc. change (256 ^ Z.of_nat 2) with (2 ^ 16).
  rewrite Z.mod_small by lia. destruct (Z.ltb_spec 0 (zlen bs)) as [Hpos|Hz].
  - destruct (read_exact_ok k1 (zlen bs) bs rest Hp1 eq_refl) as (k2 & E2 & Hp2 & Hs2).
    exists k2. split; [exact E2|]. split; [done|congruence].
  - destruct bs; [|rewrite zlen_cons in Hz; pose proof (zlen_nonneg bs); lia]. by exists k1.
Qed.
End io.

(** ** Messages *)

Inductive request : Type :=
| ReqBegin
| ReqGet (key : bytes)
| ReqPut (key value : bytes)
| ReqDelete (key : bytes)
| ReqCommit
| ReqRollback.

Inductive response : Type :=
| RespOk
| RespValue (value : bytes)
| RespNotFound
| RespError (msg : bytes)
| RespDeadlock.

Definition opcode_of (r : request) : Z :=
  match r with
  | ReqBegin => OP_BEGIN
  | ReqGet _ => OP_GET
  | ReqPut _ _ => OP_PUT
  | ReqDelete _ => OP_DELETE
  | ReqCommit => OP_COMMIT
  | ReqRollback => OP_ROLLBACK
  end.

Definition payload_of (r : request) : bytes :=
  match r with
  | ReqBegin | ReqCommit | ReqRollback => []
  | ReqGet k | ReqDelete k => enc_string k
  | ReqPut k v => enc_string k ++ enc_string v
  end.

Definition frame (opcode : Z) (payload : bytes) : bytes :=
  byte_of_Z opcode :: be_enc 4 (zlen payload) ++ payload.

Definition enc_request (r : request) : bytes := frame (opcode_of r) (payload_of r).

Definition enc_response (r : response) : bytes :=
  match r with
  | RespOk => frame STATUS_OK []
  | RespValue v => frame STATUS_OK (enc_string v)
  | RespNotFound => frame STATUS_NOT_FOUND []
  | RespError msg => frame STATUS_ERROR (msg ++ [Byte.x00])
  | RespDeadlock => frame STATUS_DEADLOCK []
  end.

Definition fits_wire (r : request) : Prop :=
  match r with
  | ReqBegin | ReqCommit | ReqRollback => True
  | ReqGet k | ReqDelete k => zlen k < 2 ^ 16
  | ReqPut k v => zlen k < 2 ^ 16 /\ zlen v < 2 ^ 16
  end.

Definition fits_wireb (r : request) : bool := forallb (fun x => zlen x <? 2 ^ 16)
  match r with ReqGet k | ReqDelete k => [k] | ReqPut k v => [k; v] | _ => [] end.

Lemma fits_wireb_ok r : fits_wireb r = true -> fits_wire r.
Proof.
  destruct r; cbn [fits_wireb forallb fits_wire]; rewrite ?andb_true_r, ?andb_true_iff, ?Z.ltb_lt; done.
Qed.

(** ** What a request does, without the wire *)

Section serve.
Context {S F : Type} `{KVStore S, PosixFile F}.
Context (what : exn -> bytes).

Abbreviation Sess := (DB S F * option Transaction)%type.

Definition on_slot {A : Type} (m : M (DB S F * Transaction) A) : M Sess A :=
  fun st =>
    match st.2 with
    | None => (Err OutOfBounds, st)
    | Some tx => let '(r, (d, tx')) := m (st.1, tx) in (r, (d, Some tx'))
    end.

Definition drop_txn : M Sess unit :=
  fun st =>
    match st.2 with
    | None => (Ok tt, st)
    | Some _ => (do* on_slot Transaction_dtor in modifyS (fun st => (st.1, None))) st
    end.

Definition reply {A : Type} (call : M (DB S F * Transaction) A) (f : A -> response) : M Sess response :=
  try_catch (let* a := on_slot call in ret (f a))
    (fun e => match e with
              | DeadlockException => do* drop_txn in ret RespDeadlock
              | _ => ret (RespError (what e))
              end).

(** A request with the slot open. *)
Definition serve_open (others : list (DB S F -> DB S F)) (r : request) : M Sess response :=
  match r with
  | ReqBegin => ret (RespError already_open)
  | ReqGet k =>
      reply (blocking others (Get k)) (fun v => match v with Some x => RespValue x | None => RespNotFound end)
  | ReqPut k v => reply (blocking others (fun dl => when_done (Put k v dl))) (fun _ => RespOk)
  | ReqDelete k => reply (blocking others (fun dl => when_done (Delete k dl))) (fun _ => RespOk)
  | ReqCommit =>
      try_catch (do* on_slot Commit in do* drop_txn in ret RespOk)
        (fun e => do* drop_txn in ret (RespError (what e)))
  | ReqRollback => do* try_catch (on_slot Rollback) (fun _ => ret tt) in do* drop_txn in ret RespOk
  end.

(** A request with the slot empty. *)
Definition serve_closed (r : request) : M Sess response :=
  match r with
  | ReqBegin =>
      let* tx := zoom fst (fun d st => (d, st.2)) Begin in
      do* modifyS (fun st => (st.1, Some tx)) in
      ret RespOk
  | ReqGet _ => ret (RespError no_txn_begin)
  | _ => ret (RespError no_txn)
  end.

Definition serve (others : list (DB S F -> DB S F)) (r : request) : M Sess response :=
  let* st := getS in match st.2 with Some _ => serve_open others r | None => serve_closed r end.

Definition next_others (others : list (Others (DB S F))) : Others (DB S F) :=
  match others with [] => mkOthers (fun d => d) [] | o :: _ => o end.

Fixpoint serve_all (others : list (Others (DB S F))) (reqs : list request) : M Sess (list response) :=
  match reqs with
  | [] => ret []
  | r :: reqs' =>
      let o := next_others others in
      do* modifyS (fun st => (before o st.1, st.2)) in
      let* x := serve (during o) r in
      let* xs := serve_all (tail others) reqs' in
      ret (x :: xs)
  end.

(** No request with a payload comes while the slot is empty. *)
Fixpoint in_sync (others : list (Others (DB S F))) (reqs : list request) (st : Sess) : Prop :=
  match reqs with
  | [] => True
  | r :: reqs' =>
      let o := next_others others in
      (payload_of r = [] \/ is_Some st.2) /\
      in_sync (tail others) reqs' (serve (during o) r (before o st.1, st.2)).2
  end.

Definition hang_up : M Sess unit :=
  let* st := getS in
  match st.2 with
  | Some _ => do* try_catch (on_slot Rollback) (fun _ => ret tt) in drop_txn
  | None => ret tt
  end.
End serve.

Section session.
Context {K S F : Type} `{ReliableSocket K, KVStore S, PosixFile F}.
Context (what : exn -> bytes).
Implicit Types (c : ClientHandler K S F) (k : K) (d : DB S F) (bs : bytes).

Abbreviation Sess := (DB S F * option Transaction)%type.

(** The handler of a session. *)
Definition handler k (st : Sess) : ClientHandler K S F := mkHandler k st.1 st.2.

Lemma zlen_frame op bs : zlen (frame op bs) = 5 + zlen bs.
Proof. unfold frame. rewrite zlen_cons, zlen_app, zlen_be_enc. lia. Qed.

Lemma send_response_ok k (status : Z) (payload : bytes) :
  exists k', send_response status payload k = (Ok tt, k') /\ pending k' = pending k /\
    sent k' = sent k ++ frame status payload.
Proof.
  destruct (write_exact_ok k [byte_of_Z status]) as (k1 & E1 & P1 & S1).
  destruct (write_exact_ok k1 (be_enc 4 (zlen payload))) as (k2 & E2 & P2 & S2).
  unfold send_response. mstep E1. mstep E2. destruct (Z.ltb_spec 0 (zlen payload)) as [Hp|Hp].
  - destruct (write_exact_ok k2 payload) as (k3 & E3 & P3 & S3). mstep E3. exists k3. split; [done|].
    split; [congruence|]. rewrite S3, S2, S1. unfold frame. by rewrite <- !app_assoc.
  - exists k2. split; [done|]. split; [congruence|]. rewrite S2, S1. unfold frame.
    destruct payload; [by rewrite app_nil_r, <- app_assoc|].
    rewrite zlen_cons in Hp. pose proof (zlen_nonneg payload). lia.
Qed.

(** What sends a response. *)
Definition sends (m : M K unit) (r : response) : Prop :=
  forall k, exists k', m k = (Ok tt, k') /\ pending k' = pending k /\ sent k' = sent k ++ enc_response r.

Lemma send_ok_ok : sends send_ok RespOk.
Proof. intros k. apply send_response_ok. Qed.
Lemma send_ok_value_ok bs : sends (send_ok_value bs) (RespValue bs).
Proof. intros k. apply send_response_ok. Qed.
Lemma send_not_found_ok : sends send_not_found RespNotFound.
Proof. intros k. apply send_response_ok. Qed.
Lemma send_error_ok bs : sends (send_error bs) (RespError bs).
Proof. intros k. apply send_response_ok. Qed.
Lemma send_deadlock_ok : sends send_deadlock RespDeadlock.
Proof. intros k. apply send_response_ok. Qed.

(** [m] does to the session what [m'] does and leaves the connection alone;
    [m] also sends what [m'] answers. *)
Definition simulates {A} (m : M (ClientHandler K S F) A) (m' : M Sess A) : Prop :=
  forall k st, m (handler k st) = ((m' st).1, handler k (m' st).2).

Definition answers (m : M (ClientHandler K S F) unit) (m' : M Sess response) : Prop :=
  forall k st x st', m' st = (Ok x, st') -> exists k', m (handler k st) = (Ok tt, handler k' st') /\
    pending k' = pending k /\ sent k' = sent k ++ enc_response x.

Lemma sim_on_txn {A} (m : M (DB S F * Transaction) A) : simulates (on_txn_ m) (on_slot m).
Proof.
  intros k [d [tx|]]; unfold on_txn_, on_slot, handler; cbn; [|done].
  by destruct (m (d, tx)) as [r [d' tx']].
Qed.

Lemma sim_bind {A B} (m : M (ClientHandler K S F) A) m' (f : A -> M (ClientHandler K S F) B) f' :
  simulates m m' -> (forall a, simulates (f a) (f' a)) -> simulates (bind m f) (bind m' f').
Proof. intros Hm Hf k st. unfold bind. rewrite Hm. destruct (m' st) as [[a|e] st']; cbn; [apply Hf|done]. Qed.

Lemma sim_try {A} (m : M (ClientHandler K S F) A) m' h h' :
  simulates m m' -> (forall e, simulates (h e) (h' e)) -> simulates (try_catch m h) (try_catch m' h').
Proof.
  intros Hm Hh k st. unfold try_catch. rewrite Hm. destruct (m' st) as [[a|e] st']; cbn; [done|].
  destruct (is_exception e); [apply Hh|done].
Qed.

Lemma sim_ret {A} (a : A) : simulates (ret a) (ret a).
Proof. done. Qed.

Lemma sim_reset : simulates reset_txn drop_txn.
Proof.
  intros k [d [tx|]]; unfold reset_txn, drop_txn; cbn [txn_ handler snd]; [|done].
  apply (sim_bind (on_txn_ Transaction_dtor) (on_slot Transaction_dtor) (fun _ => modifyS (set_txn None))
    (fun _ => modifyS (fun st => (st.1, None)))); [apply sim_on_txn|done].
Qed.

Lemma answers_send (m : M K unit) x : sends m x -> answers (on_conn m) (ret x).
Proof.
  intros Hm k st y st' E. injection E as <- <-. destruct (Hm k) as (k' & E & P). exists k'. split; [|done].
  exact (zoom_eq conn_fd_ set_conn m (handler k st) k' (Ok tt) E).
Qed.

Lemma answers_bind {A} (m : M (ClientHandler K S F) A) m' f f' :
  simulates m m' -> (forall a, answers (f a) (f' a)) -> answers (bind m f) (bind m' f').
Proof.
  intros Hm Hf k st x st' E. unfold bind in *. rewrite Hm. destruct (m' st) as [[a|e] st1]; cbn; [|done].
  by apply Hf.
Qed.

Lemma answers_try m m' h h' :
  (forall k st, match m' st with
                | (Ok _, _) => True
                | (Err e, st') => m (handler k st) = (Err e, handler k st')
                end) ->
  answers m m' -> (forall e, answers (h e) (h' e)) -> answers (try_catch m h) (try_catch m' h').
Proof.
  intros He Hm Hh k st x st' E. unfold try_catch in *. specialize (He k st).
  destruct (m' st) as [[a|e] st1] eqn:Em.
  - injection E as -> ->. destruct (Hm k st x st' Em) as (k' & E' & P). exists k'. by rewrite E'.
  - rewrite He. destruct (is_exception e); [|done]. by apply Hh.
Qed.

(** The step that a [try] block makes before it sends. *)
Lemma try_err {A} (m : M (ClientHandler K S F) A) m' (f : A -> M (ClientHandler K S F) unit) (g : A -> response) :
  simulates m m' -> forall k st, match (let* a := m' in ret (g a)) st with
    | (Ok _, _) => True
    | (Err e, st') => bind m f (handler k st) = (Err e, handler k st')
    end.
Proof. intros Hm k st. unfold bind. rewrite Hm. by destruct (m' st) as [[a|e] st']. Qed.

Lemma answer_ok {A} (call : M (DB S F * Transaction) A) respond g :
  (forall a, sends (respond a) (g a)) -> answers (answer what call respond) (reply what call g).
Proof.
  intros Hr. apply answers_try.
  - apply try_err, sim_on_txn.
  - apply answers_bind; [apply sim_on_txn|]. intros a. by apply answers_send.
  - intros e. destruct e; try (apply answers_send, send_error_ok).
    apply answers_bind; [apply sim_reset|]. intros _. apply answers_send, send_deadlock_ok.
Qed.

Lemma commit_answers :
  answers (try_catch (do* on_txn_ Commit in do* reset_txn in on_conn send_ok)
             (fun e => do* reset_txn in on_conn (send_error (what e))))
          (try_catch (do* on_slot Commit in do* drop_txn in ret RespOk)
             (fun e => do* drop_txn in ret (RespError (what e)))).
Proof.
  apply answers_try.
  - intros k st. unfold bind at 1 3. rewrite sim_on_txn. destruct (on_slot Commit st) as [[a|e] st1]; [|done].
    cbn [fst snd]. by apply (try_err reset_txn drop_txn (fun _ => on_conn send_ok) (fun _ => RespOk) sim_reset).
  - apply answers_bind; [apply sim_on_txn|]. intros _. apply answers_bind; [apply sim_reset|].
    intros _. apply answers_send, send_ok_ok.
  - intros e. apply answers_bind; [apply sim_reset|]. intros _. apply answers_send, send_error_ok.
Qed.

Lemma rollback_answers :
  answers (do* try_catch (on_txn_ Rollback) (fun _ => ret tt) in do* reset_txn in on_conn send_ok)
          (do* try_catch (on_slot Rollback) (fun _ => ret tt) in do* drop_txn in ret RespOk).
Proof.
  apply answers_bind; [apply sim_try; [apply sim_on_txn|by intros e]|]. intros _.
  apply answers_bind; [apply sim_reset|]. intros _. apply answers_send, send_ok_ok.
Qed.
End session.
