(* ===== verification/SessionRun.v ===== *)
(** * The request loop

    One round of [run] on the frame of a request: with the transaction open it
    reads the payload and answers, without one it answers and leaves the
    payload in the stream. *)

From S2P Require Import Prelude.
From S2P Require Import DiskManager.
From S2P Require Import Store.
From S2P Require Import LogManager.
From S2P Require Import LockManager.
From S2P Require Import Db.
From S2P Require Import ClientHandler.
From S2P Require Import SessionRep.

Section session.
Context {K S F : Type} `{ReliableSocket K, KVStore S, PosixFile F}.
Context (what : exn -> bytes).
Implicit Types (c : ClientHandler K S F) (k : K) (d : DB S F) (bs rest : bytes) (r : request)
  (o : list (DB S F -> DB S F)) (others : list (Others (DB S F))).

Abbreviation Sess := (DB S F * option Transaction)%type.
Implicit Types (st : Sess).

Lemma bind_on_conn {A B} (m : M K A) (f : A -> M (ClientHandler K S F) B) k k' st a :
  m k = (Ok a, k') -> bind (on_conn m) f (handler k st) = f a (handler k' st).
Proof. intros E. unfold bind, on_conn, zoom. cbn. by rewrite E. Qed.

(** An answer after the payload has been read. *)
Lemma answers_from (m : M (ClientHandler K S F) unit) m' k1 st x st' rest bs :
  answers m m' -> m' st = (Ok x, st') -> pending k1 = rest -> sent k1 = bs ->
  exists k', m (handler k1 st) = (Ok tt, handler k' st') /\ pending k' = rest /\ sent k' = bs ++ enc_response x.
Proof. intros Hm E <- <-. by apply Hm. Qed.

Lemma dispatch_open o r k d tx x st' rest :
  fits_wire r -> pending k = payload_of r ++ rest -> serve_open what o r (d, Some tx) = (Ok x, st') ->
  exists k', dispatch what (opcode_of r) o (handler k (d, Some tx)) = (Ok tt, handler k' st') /\
    pending k' = rest /\ sent k' = sent k ++ enc_response x.
Proof.
  set (st := (d, Some tx)). assert (Hg : @getS (ClientHandler K S F) (handler k st) = (Ok (handler k st), handler k st)) by done.
  destruct r as [|key|key val|key| |]; intros Hf Hp E; cbn [payload_of fits_wire] in *;
    unfold dispatch; cbn [opcode_of OP_BEGIN OP_GET OP_PUT OP_DELETE OP_COMMIT OP_ROLLBACK Z.eqb Pos.eqb].
  - unfold handle_begin. mstep Hg. cbn [is_open txn_ handler snd st].
    apply (answers_from _ (ret (RespError already_open)) k st x st'); [apply answers_send, send_error_ok|done..].
  - destruct (read_string_ok k key rest Hp Hf) as (k1 & E1 & P1 & S1).
    unfold handle_get. mstep Hg. cbn [is_open txn_ handler snd st negb].
    rewrite (bind_on_conn _ _ k k1 st _ E1).
    eapply answers_from; [|exact E|done|done]. apply answer_ok.
    intros [v|]; [apply send_ok_value_ok|apply send_not_found_ok].
  - destruct Hf as [Hk Hv]. rewrite <- app_assoc in Hp.
    destruct (read_string_ok k key _ Hp Hk) as (k1 & E1 & P1 & S1).
    destruct (read_string_ok k1 val rest P1 Hv) as (k2 & E2 & P2 & S2).
    unfold handle_put. mstep Hg. cbn [is_open txn_ handler snd st negb].
    rewrite (bind_on_conn _ _ k k1 st _ E1), (bind_on_conn _ _ k1 k2 st _ E2).
    eapply answers_from; [|exact E|done|congruence]. apply answer_ok. intros _. apply send_ok_ok.
  - destruct (read_string_ok k key rest Hp Hf) as (k1 & E1 & P1 & S1).
    unfold handle_delete. mstep Hg. cbn [is_open txn_ handler snd st negb].
    rewrite (bind_on_conn _ _ k k1 st _ E1).
    eapply answers_from; [|exact E|done|done]. apply answer_ok. intros _. apply send_ok_ok.
  - unfold handle_commit. mstep Hg. cbn [is_open txn_ handler snd st negb].
    eapply answers_from; [apply commit_answers|exact E|done|done].
  - unfold handle_rollback. mstep Hg. cbn [is_open txn_ handler snd st negb].
    eapply answers_from; [apply rollback_answers|exact E|done|done].
Qed.

(** Without a transaction nothing is read, whatever the payload. *)
Lemma dispatch_closed o r k d x st' :
  serve_closed r (d, None) = (Ok x, st') ->
  exists k', dispatch what (opcode_of r) o (handler k (d, None)) = (Ok tt, handler k' st') /\
    pending k' = pending k /\ sent k' = sent k ++ enc_response x.
Proof.
  set (st := (d, None)). assert (Hg : @getS (ClientHandler K S F) (handler k st) = (Ok (handler k st), handler k st)) by done.
  assert (Herr : forall msg, sends (send_error msg : M K unit) (RespError msg)) by (intros; apply send_error_ok).
  destruct r as [|key|key val|key| |]; intros E;
    unfold dispatch; cbn [opcode_of OP_BEGIN OP_GET OP_PUT OP_DELETE OP_COMMIT OP_ROLLBACK Z.eqb Pos.eqb];
    unfold handle_begin, handle_get, handle_put, handle_delete, handle_commit, handle_rollback; mstep Hg;
    cbn [is_open txn_ handler snd st negb];
    try (eapply answers_from; [apply answers_send, Herr|exact E|done|done]).
  eapply answers_from; [|exact E|done|done].
  apply answers_bind; [|intros tx; apply answers_bind; [done|intros _; apply answers_send, send_ok_ok]].
  intros k0 [d0 tx0]. unfold zoom. cbn. by destruct (Begin d0) as [r d1].
Qed.

Lemma dispatch_serve o r k st x st' rest :
  fits_wire r -> pending k = payload_of r ++ rest -> (payload_of r = [] \/ is_Some st.2) ->
  serve what o r st = (Ok x, st') ->
  exists k', dispatch what (opcode_of r) o (handler k st) = (Ok tt, handler k' st') /\
    pending k' = rest /\ sent k' = sent k ++ enc_response x.
Proof.
  destruct st as [d [tx|]]; intros Hf Hp Hsync E.
  - by apply (dispatch_open o r k d tx x st' rest).
  - destruct Hsync as [Hnil|[? ?]]; [|done]. rewrite Hnil in Hp. cbn [app] in Hp. rewrite <- Hp. by apply dispatch_closed.
Qed.

(** ** Headers *)

Lemma opcode_byte r : be_dec [byte_of_Z (opcode_of r)] = opcode_of r.
Proof. by destruct r. Qed.

(** One round of the loop, up to [dispatch]. *)
Lemma run_round fuel others r k st rest :
  pending k = frame (opcode_of r) (payload_of r) ++ rest ->
  exists k', pending k' = payload_of r ++ rest /\ sent k' = sent k /\
    run what (Datatypes.S fuel) others (handler k st) =
      (let o := next_others others in
       do* dispatch what (opcode_of r) (during o) in run what fuel (tail others))
        (handler k' (before (next_others others) st.1, st.2)).
Proof.
  unfold frame. intros Hp. rewrite <- app_comm_cons, <- app_assoc in Hp.
  destruct (read_exact_ok k 1 [byte_of_Z (opcode_of r)] _ Hp eq_refl) as (k1 & E1 & P1 & S1).
  destruct (read_exact_ok k1 4 _ _ P1 (zlen_be_enc 4 _)) as (k2 & E2 & P2 & S2).
  exists k2. split; [done|]. split; [congruence|]. cbn [run].
  rewrite (bind_on_conn _ _ k k1 st _ E1), (bind_on_conn _ _ k1 k2 st _ E2), opcode_byte.
  destruct others as [|o others]; [by destruct st|done].
Qed.

(** The client has gone, perhaps in the middle of a header. *)
Lemma run_end fuel others k st st' :
  zlen (pending k) < 5 -> hang_up st = (Ok tt, st') ->
  exists k', run what (Datatypes.S fuel) others (handler k st) = (Ok tt, handler (sock_close k') st') /\
    sent k' = sent k.
Proof.
  intros Hp E.
  assert (Hd : forall k1, disconnect (handler k1 st) = (Ok tt, handler (sock_close k1) st')).
  { intros k1. unfold disconnect. mstep (eq_refl : getS (handler k1 st) = (Ok (handler k1 st), handler k1 st)).
    destruct st as [d [tx|]]; unfold is_open; cbn [txn_ handler snd].
    - change ((do* try_catch (on_slot Rollback) (fun _ => ret tt) in drop_txn) (d, Some tx) = (Ok tt, st')) in E.
      assert (Hs : simulates (K := K) (do* try_catch (on_txn_ Rollback) (fun _ => ret tt) in reset_txn)
                     (do* try_catch (on_slot Rollback) (fun _ => ret tt) in drop_txn)).
      { apply sim_bind; [apply sim_try; [apply sim_on_txn|by intros e]|]. intros _. apply sim_reset. }
      specialize (Hs k1 (d, Some tx)). rewrite E in Hs. by mstep Hs.
    - by injection E as <-. }
  pose proof (zlen_nonneg (pending k)). destruct (decide (zlen (pending k) < 1)) as [Hlt|Hge].
  - destruct (read_exact_short k 1 Hlt) as (k1 & E1 & P1 & S1). exists k1. split; [|done].
    cbn [run]. rewrite (bind_on_conn _ _ k k1 st _ E1). apply Hd.
  - destruct (pending k) as [|b bs] eqn:Ep; [rewrite zlen_nil in Hge; lia|]. rewrite zlen_cons in Hp.
    destruct (read_exact_ok k 1 [b] bs Ep eq_refl) as (k1 & E1 & P1 & S1).
    destruct (read_exact_short k1 4) as (k2 & E2 & P2 & S2); [rewrite P1; lia|].
    exists k2. split; [|congruence]. cbn [run].
    rewrite (bind_on_conn _ _ k k1 st _ E1), (bind_on_conn _ _ k1 k2 st _ E2). apply Hd.
Qed.
End session.
