(* ===== verification/Serial.v ===== *)
(** * Serial transactions

    What a server of concurrent transactions promises, without logs, trees and
    lock tables: [spec_step], where a transaction reads and writes through its
    own updates of the committed map, no two open transactions touch a key
    that one of them writes, and a commit applies the updates.  [spec_serial]:
    the committed transactions, run one after the other in the order of their
    commits, give the answers that their clients got. *)

From S2P Require Import Prelude.
From S2P Require Import DiskManager.
From S2P Require Import Store.
From S2P Require Import LogManager.
From S2P Require Import Recovery.
From S2P Require Import History.
From S2P Require Import ClientHandler.
From S2P Require Import SessionRep.

#[export] Instance response_eq_dec : EqDecision response.
Proof. solve_decision. Defined.

(** ** One transaction *)

(** A request and its answer. *)
Abbreviation exchange := (request * response)%type.

(** One request of a transaction that has made the updates [ws] of [m]. *)
Definition call (m : kvmap) (ws : write_set) (r : request) : response * write_set :=
  match r with
  | ReqGet k => (match restore ws m !! k with Some v => RespValue v | None => RespNotFound end, ws)
  | ReqPut k v => (RespOk, <[k := Some v]> ws)
  | ReqDelete k => (RespOk, match restore ws m !! k with Some _ => <[k := None]> ws | None => ws end)
  | _ => (RespError already_open, ws)
  end.

Fixpoint calls (m : kvmap) (ws : write_set) (reqs : list request) : list response * write_set :=
  match reqs with
  | [] => ([], ws)
  | r :: reqs' =>
      let '(x, ws1) := call m ws r in
      let '(xs, ws2) := calls m ws1 reqs' in
      (x :: xs, ws2)
  end.

(** A whole transaction, if it gives the answers recorded. *)
Definition replay (m : kvmap) (tr : list exchange) : option kvmap :=
  let '(xs, ws) := calls m ∅ tr.*1 in
  if bool_decide (xs = tr.*2) then Some (restore ws m) else None.

(** Transactions one after the other. *)
Fixpoint serial (m : kvmap) (trs : list (list exchange)) : option kvmap :=
  match trs with
  | [] => Some m
  | tr :: trs' => replay m tr ≫= fun m' => serial m' trs'
  end.

(** The key that a request is about. *)
Definition key_of (r : request) : option bytes :=
  match r with ReqGet k | ReqPut k _ | ReqDelete k => Some k | _ => None end.
Definition touched (r : request) : gset bytes :=
  match key_of r with Some k => {[k]} | None => ∅ end.
Definition is_write (r : request) : bool :=
  match r with ReqPut _ _ | ReqDelete _ => true | _ => false end.

(** ** Many transactions *)

Record atx : Type := mkAtx { a_calls : list exchange; a_keys : gset bytes; a_writes : write_set }.

Record spec : Type := mkSpec {
  sp_map : kvmap;
  sp_open : gmap Z (option atx);
  sp_done : list (list exchange);
}.

Definition fill_slot (i : Z) (o : option atx) (s : spec) : spec :=
  mkSpec (sp_map s) (<[i := o]> (sp_open s)) (sp_done s).
Definition drop_slot (i : Z) (s : spec) : spec :=
  mkSpec (sp_map s) (delete i (sp_open s)) (sp_done s).

Inductive event : Type :=
| Connect (i : Z)
| Call (i : Z) (r : request) (x : response)
| HangUp (i : Z).

(** No other transaction has written [k]; none has touched it. *)
Definition unwritten (s : spec) (i : Z) (k : bytes) : Prop :=
  forall j tx, sp_open s !! j = Some (Some tx) -> j <> i -> a_writes tx !! k = None.
Definition untouched (s : spec) (i : Z) (k : bytes) : Prop :=
  forall j tx, sp_open s !! j = Some (Some tx) -> j <> i -> k ∉ a_keys tx.

Definition allowed (s : spec) (i : Z) (r : request) : Prop :=
  match r with
  | ReqGet k => unwritten s i k
  | ReqPut k _ | ReqDelete k => untouched s i k
  | ReqBegin => True
  | ReqCommit | ReqRollback => False
  end.

Inductive spec_step (s : spec) : event -> spec -> Prop :=
| spec_connect i : sp_open s !! i = None -> spec_step s (Connect i) (fill_slot i None s)
| spec_begin i :
    sp_open s !! i = Some None -> spec_step s (Call i ReqBegin RespOk) (fill_slot i (Some (mkAtx [] ∅ ∅)) s)
| spec_reject i r msg :
    sp_open s !! i = Some None -> r <> ReqBegin -> spec_step s (Call i r (RespError msg)) s
| spec_call i tx r x ws :
    sp_open s !! i = Some (Some tx) -> allowed s i r -> call (sp_map s) (a_writes tx) r = (x, ws) ->
    spec_step s (Call i r x) (fill_slot i (Some (mkAtx (a_calls tx ++ [(r, x)]) (touched r ∪ a_keys tx) ws)) s)
| spec_deadlock i tx r :
    sp_open s !! i = Some (Some tx) -> is_Some (key_of r) -> spec_step s (Call i r RespDeadlock) (fill_slot i None s)
| spec_commit i tx :
    sp_open s !! i = Some (Some tx) ->
    spec_step s (Call i ReqCommit RespOk)
      (mkSpec (restore (a_writes tx) (sp_map s)) (<[i := None]> (sp_open s)) (sp_done s ++ [a_calls tx]))
| spec_rollback i tx :
    sp_open s !! i = Some (Some tx) -> spec_step s (Call i ReqRollback RespOk) (fill_slot i None s)
| spec_hang_up i o :
    sp_open s !! i = Some o -> spec_step s (HangUp i) (drop_slot i s).

(** Runs of events, of any step relation. *)
Inductive runs {S : Type} (step : S -> event -> S -> Prop) : S -> list event -> S -> Prop :=
| runs_nil s : runs step s [] s
| runs_cons s e s' es s'' : step s e s' -> runs step s' es s'' -> runs step s (e :: es) s''.

Lemma runs_app {S : Type} (step : S -> event -> S -> Prop) s es1 s' es2 s'' :
  runs step s es1 s' -> runs step s' es2 s'' -> runs step s (es1 ++ es2) s''.
Proof. induction 1; [done|]. intros Hr. cbn. eapply runs_cons; [done|]. auto. Qed.

Lemma runs_one {S : Type} (step : S -> event -> S -> Prop) s e s' : runs step s [e] s' -> step s e s'.
Proof. inversion 1 as [|? ? s1 ? ? Hs Hr]; subst. by inversion Hr; subst. Qed.

(** ** Calls depend on the keys they touch *)

Lemma restore_agree ws m m' k : m !! k = m' !! k -> restore ws m !! k = restore ws m' !! k.
Proof. intros E. by rewrite !lookup_restore, E. Qed.

Lemma call_agree m m' ws r : (forall k, k ∈ touched r -> m !! k = m' !! k) -> call m ws r = call m' ws r.
Proof.
  unfold touched, call. intros E. destruct r as [|k|k v|k| |]; cbn [key_of] in E; try done;
    by rewrite (restore_agree ws m m' k (E k ltac:(set_solver))).
Qed.

Lemma calls_agree m m' ws reqs :
  (forall r k, r ∈ reqs -> k ∈ touched r -> m !! k = m' !! k) -> calls m ws reqs = calls m' ws reqs.
Proof.
  revert ws. induction reqs as [|r reqs IH]; intros ws E; cbn [calls]; [done|].
  rewrite (call_agree m m' ws r) by (intros k; apply E; by left).
  destruct (call m' ws r) as [x ws1]. rewrite IH; [done|]. intros r' k Hr'. apply E. by right.
Qed.

Lemma calls_app m ws reqs r :
  calls m ws (reqs ++ [r]) =
    let '(xs, ws1) := calls m ws reqs in let '(x, ws2) := call m ws1 r in (xs ++ [x], ws2).
Proof.
  revert ws. induction reqs as [|r0 reqs IH]; intros ws; cbn [calls app].
  - by destruct (call m ws r) as [x ws2].
  - destruct (call m ws r0) as [x0 ws1]. rewrite IH. destruct (calls m ws1 reqs) as [xs ws2].
    by destruct (call m ws2 r) as [x ws3].
Qed.

Lemma serial_app m trs tr : serial m (trs ++ [tr]) = serial m trs ≫= fun m' => replay m' tr.
Proof.
  revert m. induction trs as [|tr0 trs IH]; intros m; cbn [serial app mbind option_bind].
  - by destruct (replay m tr).
  - destruct (replay m tr0) as [m1|]; cbn; [apply IH|done].
Qed.

(** Only written keys change. *)
Lemma restore_other ws m k : ws !! k = None -> restore ws m !! k = m !! k.
Proof. intros E. by rewrite lookup_restore, E. Qed.

Lemma call_writes m ws r x ws' k :
  call m ws r = (x, ws') -> is_Some (ws' !! k) -> is_Some (ws !! k) \/ (is_write r = true /\ k ∈ touched r).
Proof.
  unfold call, touched. intros E Hk. destruct r as [|k0|k0 v|k0| |]; try (injection E as <- <-; by left).
  - injection E as <- <-. apply lookup_insert_is_Some' in Hk as [<-|Hk]; [right; set_solver|by left].
  - destruct (restore ws m !! k0); injection E as <- <-; [|by left].
    apply lookup_insert_is_Some' in Hk as [<-|Hk]; [right; set_solver|by left].
Qed.

(** ** The invariant *)

(** The calls of an open transaction, run on the committed map of now, give
    the answers that were given; what one writes no other has touched. *)
Record spec_inv (base : kvmap) (s : spec) : Prop := {
  si_serial : serial base (sp_done s) = Some (sp_map s);
  si_calls : forall i tx, sp_open s !! i = Some (Some tx) ->
    calls (sp_map s) ∅ (a_calls tx).*1 = ((a_calls tx).*2, a_writes tx);
  si_keys : forall i tx r, sp_open s !! i = Some (Some tx) -> r ∈ (a_calls tx).*1 -> touched r ⊆ a_keys tx;
  si_writes : forall i tx k, sp_open s !! i = Some (Some tx) -> is_Some (a_writes tx !! k) -> k ∈ a_keys tx;
  si_apart : forall i j tx tx' k, sp_open s !! i = Some (Some tx) -> sp_open s !! j = Some (Some tx') -> i <> j ->
    is_Some (a_writes tx !! k) -> k ∉ a_keys tx';
}.

Lemma spec_inv_init base : spec_inv base (mkSpec base ∅ []).
Proof. split; try done; intros *; by rewrite lookup_empty. Qed.

(** A slot that takes no transaction. *)
Lemma slot_other i o s j tx :
  sp_open (fill_slot i o s) !! j = Some (Some tx) -> (j = i /\ o = Some tx) \/ (j <> i /\ sp_open s !! j = Some (Some tx)).
Proof. cbn. intros [[<- ->]|[? ?]]%lookup_insert_Some; [by left|right; split; congruence]. Qed.

Lemma spec_inv_less base s s' :
  spec_inv base s -> sp_map s' = sp_map s -> sp_done s' = sp_done s ->
  (forall j tx, sp_open s' !! j = Some (Some tx) -> sp_open s !! j = Some (Some tx)) -> spec_inv base s'.
Proof.
  intros [Is Ic Ik Iw Ia] Hm Hd Ho. split; rewrite ?Hm, ?Hd; eauto.
Qed.

Lemma spec_inv_call base s i tx r x ws :
  spec_inv base s -> sp_open s !! i = Some (Some tx) -> allowed s i r ->
  call (sp_map s) (a_writes tx) r = (x, ws) ->
  spec_inv base (fill_slot i (Some (mkAtx (a_calls tx ++ [(r, x)]) (touched r ∪ a_keys tx) ws)) s).
Proof.
  intros [Is Ic Ik Iw Ia] Hi Hal E. set (tx' := mkAtx _ _ _).
  assert (Hwr : forall k, is_Some (ws !! k) -> is_Some (a_writes tx !! k) \/ untouched s i k).
  { intros k Hk. destruct (call_writes _ _ _ _ _ _ E Hk) as [?|[Hw Ht]]; [by left|right].
    unfold touched in Ht. destruct r; cbn in *; try done; by apply elem_of_singleton in Ht as ->. }
  assert (Htr : forall j txj k, sp_open s !! j = Some (Some txj) -> j <> i -> is_Some (a_writes txj !! k) ->
    k ∉ touched r).
  { intros j txj k Hj Hne Hk Ht. unfold touched in Ht.
    destruct r as [|k0|k0 v|k0| |]; cbn in *; try (by apply elem_of_empty in Ht); try done;
      apply elem_of_singleton in Ht as ->.
    - rewrite (Hal j txj Hj Hne) in Hk. by destruct Hk.
    - by apply (Hal j txj Hj Hne), (Iw j).
    - by apply (Hal j txj Hj Hne), (Iw j). }
  split; [exact Is| | | |].
  - intros j txj [[-> [= <-]]|[Hne Hj]]%slot_other; [|by apply (Ic j)]. unfold tx'. cbn [a_calls a_writes sp_map fill_slot].
    rewrite !fmap_app. cbn [fmap list_fmap fst snd]. rewrite calls_app, (Ic i tx Hi). by rewrite E.
  - intros j txj r' [[-> [= <-]]|[Hne Hj]]%slot_other; [|by apply (Ik j)]. unfold tx'. cbn [a_calls a_keys].
    rewrite fmap_app. intros [Hr'| ->%list_elem_of_singleton]%elem_of_app; [|set_solver].
    specialize (Ik i tx r' Hi Hr'). set_solver.
  - intros j txj k [[-> [= <-]]|[Hne Hj]]%slot_other Hk; [|by apply (Iw j)]. unfold tx' in *. cbn in *.
    destruct (call_writes _ _ _ _ _ _ E Hk) as [Hk'|[_ Ht]]; [|set_solver]. specialize (Iw i tx k Hi Hk'). set_solver.
  - intros j j' txj txj' k Hj Hj' Hne Hk.
    apply slot_other in Hj as [[-> [= <-]]|[Hnj Hj]]; apply slot_other in Hj' as [[-> [= <-]]|[Hnj' Hj']]; try done.
    + destruct (Hwr k Hk) as [Hk'|Hun]; [by apply (Ia i j' tx txj' k)|by apply (Hun j')].
    + unfold tx'. cbn [a_keys]. intros [Ht|Hkk]%elem_of_union; [by apply (Htr j txj k)|by apply (Ia j i txj tx k)].
    + by apply (Ia j j' txj txj' k).
Qed.

Lemma spec_inv_commit base s i tx :
  spec_inv base s -> sp_open s !! i = Some (Some tx) ->
  spec_inv base (mkSpec (restore (a_writes tx) (sp_map s)) (<[i := None]> (sp_open s)) (sp_done s ++ [a_calls tx])).
Proof.
  intros [Is Ic Ik Iw Ia] Hi.
  assert (Hold : forall j txj, <[i := None]> (sp_open s) !! j = Some (Some txj) -> j <> i /\ sp_open s !! j = Some (Some txj))
    by (intros j txj [[_ ?]|[? ?]]%lookup_insert_Some; [done|split; congruence]).
  split; cbn [sp_map sp_open sp_done].
  - rewrite serial_app, Is. cbn [mbind option_bind]. unfold replay. rewrite (Ic i tx Hi).
    by rewrite bool_decide_eq_true_2.
  - intros j txj [Hne Hj]%Hold. rewrite <- (Ic j txj Hj). apply calls_agree. intros r k Hr Hk.
    apply restore_other, eq_None_not_Some. intros Hw.
    apply (Ia i j tx txj k Hi Hj (not_eq_sym Hne) Hw). by apply (Ik j txj r Hj Hr).
  - intros j txj r [_ Hj]%Hold. by apply (Ik j).
  - intros j txj k [_ Hj]%Hold. by apply (Iw j).
  - intros j j' txj txj' k [_ Hj]%Hold [_ Hj']%Hold. by apply Ia.
Qed.

Lemma spec_inv_step base s e s' : spec_inv base s -> spec_step s e s' -> spec_inv base s'.
Proof.
  intros Hi Hs.
  destruct Hs as [i Hn|i Hn|i r msg Hn Hr|i tx r x ws Ht Hal E|i tx r Ht Hk|i tx Ht|i tx Ht|i o Ho].
  1,5,7: eapply spec_inv_less; [exact Hi|done|done|]; intros j tx0 [[_ ?]|[_ ?]]%slot_other; done.
  - destruct Hi as [Is Ic Ik Iw Ia]. split; [exact Is| | | |].
    + intros j tx [[-> [= <-]]|[_ Hj]]%slot_other; [done|by apply (Ic j)].
    + intros j tx r [[-> [= <-]]|[_ Hj]]%slot_other; [intros Hr; by apply not_elem_of_nil in Hr|by apply (Ik j)].
    + intros j tx k [[-> [= <-]]|[_ Hj]]%slot_other; [intros Hk; cbn in Hk; by destruct Hk|by apply (Iw j)].
    + intros j j' tx tx' k Hj Hj' Hne Hk.
      apply slot_other in Hj as [[-> [= <-]]|[_ Hj]]; [cbn in Hk; by destruct Hk|].
      apply slot_other in Hj' as [[-> [= <-]]|[_ Hj']]; [|by apply (Ia j j' tx tx' k)]. cbn. apply not_elem_of_empty.
  - done.
  - by apply spec_inv_call.
  - by apply spec_inv_commit.
  - eapply spec_inv_less; [exact Hi|done|done|]. cbn. by intros j tx [_ ?]%lookup_delete_Some.
Qed.

Lemma spec_serial base es s : runs spec_step (mkSpec base ∅ []) es s -> spec_inv base s.
Proof.
  pose proof (spec_inv_init base) as Hi. revert Hi. generalize (mkSpec base ∅ []) as s0.
  intros s0 Hi Hr. induction Hr; [done|]. eauto using spec_inv_step.
Qed.

(** ** What the clients see *)

(** The exchanges of the open transactions and those of the committed ones,
    oldest commit first. *)
Definition observe (ob : gmap Z (list exchange) * list (list exchange)) (e : event)
  : gmap Z (list exchange) * list (list exchange) :=
  match e with
  | Connect _ => ob
  | HangUp i | Call i ReqRollback RespOk | Call i _ RespDeadlock => (delete i ob.1, ob.2)
  | Call i ReqBegin RespOk => (<[i := []]> ob.1, ob.2)
  | Call i ReqCommit RespOk => (delete i ob.1, ob.2 ++ [default [] (ob.1 !! i)])
  | Call i r x => match ob.1 !! i with Some tr => (<[i := tr ++ [(r, x)]]> ob.1, ob.2) | None => ob end
  end.

Definition committed_of (es : list event) : list (list exchange) := (foldl observe (∅, []) es).2.

Definition open_calls (o : option (option atx)) : option (list exchange) :=
  match o with Some (Some tx) => Some (a_calls tx) | _ => None end.

Record obs_rel (s : spec) (ob : gmap Z (list exchange) * list (list exchange)) : Prop := {
  or_done : ob.2 = sp_done s;
  or_open : forall i, ob.1 !! i = open_calls (sp_open s !! i);
}.

(** Both sides change in slot [i] only. *)
Lemma obs_slot s ob i (o : option atx) tr dn m :
  obs_rel s ob -> open_calls (Some o) = tr ->
  obs_rel (mkSpec m (<[i := o]> (sp_open s)) dn)
    (match tr with Some l => <[i := l]> ob.1 | None => delete i ob.1 end, dn).
Proof.
  intros [_ Ho] <-. split; [done|]. intros j. cbn [fst sp_open].
  destruct (decide (j = i)) as [->|Hne].
  - rewrite lookup_insert_eq. destruct o; cbn; [by rewrite lookup_insert_eq|by rewrite lookup_delete_eq].
  - rewrite lookup_insert_ne by done. destruct o; cbn; [by rewrite lookup_insert_ne|by rewrite lookup_delete_ne].
Qed.

Lemma obs_step s e s' ob : obs_rel s ob -> spec_step s e s' -> obs_rel s' (observe ob e).
Proof.
  intros Hob Hs. pose proof Hob as [Hd Ho]. pose proof (or_open _ _ Hob) as Hi.
  destruct Hs as [i Hn|i Hn|i r msg Hn Hr|i tx r x ws Ht Hal E|i tx r Ht Hk|i tx Ht|i tx Ht|i o Ht];
    specialize (Hi i); rewrite ?Hn, ?Ht in Hi; cbn [open_calls] in Hi.
  - pose proof (obs_slot s ob i None None (sp_done s) (sp_map s) Hob eq_refl) as Hx. cbn in Hx.
    rewrite delete_id in Hx by done. cbn [observe]. destruct ob; cbn in *; by subst.
  - cbn [observe]. rewrite Hd. exact (obs_slot s ob i (Some _) _ (sp_done s) (sp_map s) Hob eq_refl).
  - assert (Eo : observe ob (Call i r (RespError msg)) = ob) by (destruct r; cbn [observe]; by rewrite ?Hi).
    by rewrite Eo.
  - assert (Eo : observe ob (Call i r x) = (<[i := a_calls tx ++ [(r, x)]]> ob.1, ob.2)).
    { destruct r as [|k|k v|k| |]; cbn in Hal, E; try done.
      - injection E as <- <-. cbn [observe]. by rewrite Hi.
      - injection E as <- <-. destruct (restore _ _ !! k); cbn [observe]; by rewrite Hi.
      - injection E as <- <-. cbn [observe]. by rewrite Hi.
      - injection E as <- <-. cbn [observe]. by rewrite Hi. }
    rewrite Eo, Hd. exact (obs_slot s ob i (Some _) _ (sp_done s) (sp_map s) Hob eq_refl).
  - assert (Eo : observe ob (Call i r RespDeadlock) = (delete i ob.1, ob.2)) by by destruct r.
    rewrite Eo, Hd. exact (obs_slot s ob i None _ (sp_done s) (sp_map s) Hob eq_refl).
  - cbn [observe]. rewrite Hd, Hi. cbn [default from_option id]. exact (obs_slot s ob i None _ _ _ Hob eq_refl).
  - cbn [observe]. rewrite Hd. exact (obs_slot s ob i None _ (sp_done s) (sp_map s) Hob eq_refl).
  - cbn [observe]. split; [done|]. intros j. cbn [fst sp_open drop_slot].
    destruct (decide (j = i)) as [->|Hne]; [by rewrite !lookup_delete_eq|by rewrite !lookup_delete_ne].
Qed.

Lemma obs_runs s es s' ob : obs_rel s ob -> runs spec_step s es s' -> obs_rel s' (foldl observe ob es).
Proof. intros Hob Hr. revert ob Hob. induction Hr; intros ob Hob; [done|]. cbn. eauto using obs_step. Qed.

(** What the clients saw committed, run serially, gives the map. *)
Lemma spec_observed base es s :
  runs spec_step (mkSpec base ∅ []) es s -> serial base (committed_of es) = Some (sp_map s).
Proof.
  intros Hr. assert (H0 : obs_rel (mkSpec base ∅ []) (∅, [])) by (split; [done|]; intros i; cbn; by rewrite !lookup_empty).
  unfold committed_of. rewrite (or_done _ _ (obs_runs _ _ _ _ H0 Hr)). apply (spec_serial base es s Hr).
Qed.

(** Only an acknowledged commit changes the map. *)
Definition commit_acked (e : event) : bool :=
  match e with Call _ ReqCommit RespOk => true | _ => false end.

Lemma spec_step_map s e s' : spec_step s e s' -> commit_acked e = false -> sp_map s' = sp_map s.
Proof. by destruct 1. Qed.
