(* ===== verification/Service.v ===== *)
(** * Many sessions on one database

    [Server::run] gives each connection a thread with a [ClientHandler] on the
    shared database.  [service_step]: a connection comes, a handler serves one
    request, or a client goes away; the mutexes of the database make each an
    atomic step, in any order.  A request that waits for a lock is a request
    that is served later ([blocking] tries again and again, and a refused
    attempt changes nothing), or that gets the answer DEADLOCK.
    [service_refines]: the steps are those of [spec_step]. *)

From S2P Require Import Prelude.
From S2P Require Import DiskManager.
From S2P Require Import Store.
From S2P Require Import LogManager.
From S2P Require Import LogRep.
From S2P Require Import Recovery.
From S2P Require Import History.
From S2P Require Import LockManager.
From S2P Require Import Db.
From S2P Require Import DbRep.
From S2P Require Import DbSteps.
From S2P Require Import ClientHandler.
From S2P Require Import SessionRep.
From S2P Require Import Serial.

Section service.
Context {S F : Type} `{KVLaws S, ReliableLog F}.
Context (what : exn -> bytes).
Implicit Types (d : DB S F) (txns : gmap Z Transaction) (tx : Transaction) (t i : Z) (k v : bytes)
  (base cur : kvmap) (rs : list WalRecord) (s : spec).

(** ** The steps *)

(** The lock that a request asks for, and whether it has to be refused. *)
Definition lock_of (q : request) : option (bytes * LockMode) :=
  match q with
  | ReqGet k => Some (k, SHARED)
  | ReqPut k _ | ReqDelete k => Some (k, EXCLUSIVE)
  | _ => None
  end.

Definition refused (l : LockManager) (t : Z) (q : request) : bool :=
  match lock_of q with
  | Some (k, m) => negb (can_grant (default new_LockState (lock_table_ l !! k)) t m)
  | None => false
  end.

(** There is room in the log, the request fits its frame, and the store can do
    what it leads to: a value that the log can hold, a removal, or the undo of
    the transaction when it is rolled back or refused. *)
Definition admissible d (otx : option Transaction) (q : request) : bool :=
  has_room d && fits_wireb q &&
  match otx with
  | None => true
  | Some tx =>
      if refused (lm_ d) (txn_id_ tx) q then can_undo d tx
      else
        match q with
        | ReqPut k v => bool_decide (v <> []) && kv_can (btree_ d) (k, Some v)
        | ReqDelete k => kv_can (btree_ d) (k, None)
        | ReqRollback => can_undo d tx
        | _ => true
        end
  end.

Abbreviation State := (DB S F * gmap Z (option Transaction))%type.

Inductive service_step : State -> event -> State -> Prop :=
| service_connect d slots i :
    slots !! i = None -> service_step (d, slots) (Connect i) (d, <[i := None]> slots)
| service_call d slots i otx r x d' otx' :
    slots !! i = Some otx -> admissible d otx r = true -> serve what [] r (d, otx) = (Ok x, (d', otx')) ->
    service_step (d, slots) (Call i r x) (d', <[i := otx']> slots)
| service_hang_up d slots i otx d' otx' :
    slots !! i = Some otx -> log_room d -> (forall tx, otx = Some tx -> can_undo d tx = true) ->
    hang_up (d, otx) = (Ok tt, (d', otx')) ->
    service_step (d, slots) (HangUp i) (d', delete i slots).

(** ** One request *)

(** Granted, refused or about the transaction itself: what [serve] answers
    and what becomes of the database. *)
Inductive outcome d txns base rs cur t tx : request -> response -> DB S F -> option Transaction -> Prop :=
| out_get k d' :
    grantable (lm_ d) t k SHARED -> db_rep d' txns base rs cur -> has_mode (lm_ d') t k SHARED ->
    locks_kept (lm_ d) (lm_ d') ->
    outcome d txns base rs cur t tx (ReqGet k)
      (match cur !! k with Some v => RespValue v | None => RespNotFound end) d' (Some tx)
| out_put k v d' r :
    let tx' := set_entry k (write_entry cur tx k v) tx in
    grantable (lm_ d) t k EXCLUSIVE -> db_rep d' (<[t := tx']> txns) base (rs ++ [r]) (<[k := v]> cur) ->
    write_of t r -> locks_kept (lm_ d) (lm_ d') -> holds_mode (lm_ d') t k EXCLUSIVE ->
    outcome d txns base rs cur t tx (ReqPut k v) RespOk d' (Some tx')
| out_delete k d' rs' :
    let tx' := delete_entry cur tx k in
    grantable (lm_ d) t k EXCLUSIVE -> db_rep d' (<[t := tx']> txns) base rs' (delete k cur) ->
    delete_log cur t k rs rs' -> locks_kept (lm_ d) (lm_ d') -> holds_mode (lm_ d') t k EXCLUSIVE ->
    outcome d txns base rs cur t tx (ReqDelete k) RespOk d' (Some tx')
| out_begin : outcome d txns base rs cur t tx ReqBegin (RespError already_open) d (Some tx)
| out_commit d' r :
    type r = COMMIT -> txn_id r = t -> db_rep d' (delete t txns) base (rs ++ [r]) cur ->
    (forall t' k m, holds_mode (lm_ d') t' k m <-> holds_mode (lm_ d) t' k m /\ t' <> t) ->
    outcome d txns base rs cur t tx ReqCommit RespOk d' None
| out_undo q x d' r :
    (q = ReqRollback /\ x = RespOk) \/ (is_Some (key_of q) /\ x = RespDeadlock) ->
    type r = ABORT -> db_rep d' (delete t txns) base (rs ++ [r]) (restore (before_map tx) cur) ->
    (forall t' k m, holds_mode (lm_ d') t' k m <-> holds_mode (lm_ d) t' k m /\ t' <> t) ->
    outcome d txns base rs cur t tx q x d' None.

Lemma drop_done d tx : done_ tx = true -> drop_txn (d, Some tx) = (Ok tt, (d, None)).
Proof. intros E. unfold drop_txn. cbn [snd]. unfold bind, on_slot, Transaction_dtor. cbn. by rewrite E. Qed.

Lemma drop_undo d tx d' tx' :
  done_ tx = false -> Rollback (d, tx) = (Ok tt, (d', tx')) -> drop_txn (d, Some tx) = (Ok tt, (d', None)).
Proof.
  intros E Er. unfold drop_txn. cbn [snd]. unfold bind at 1, on_slot. cbn [fst snd].
  unfold Transaction_dtor. mstep (eq_refl : txn (d, tx) = (Ok tx, (d, tx))). rewrite E.
  unfold try_catch. by rewrite Er.
Qed.

Lemma reply_ok {A} (c : M (DB S F * Transaction) A) (f : A -> response) d tx a d' tx' :
  c (d, tx) = (Ok a, (d', tx')) -> reply what c f (d, Some tx) = (Ok (f a), (d', Some tx')).
Proof. intros E. unfold reply, try_catch, bind, on_slot. cbn [fst snd]. by rewrite E. Qed.

Lemma reply_deadlock {A} (c : M (DB S F * Transaction) A) (f : A -> response) d tx d' :
  c (d, tx) = (Err DeadlockException, (d, tx)) -> drop_txn (d, Some tx) = (Ok tt, (d', None)) ->
  reply what c f (d, Some tx) = (Ok RespDeadlock, (d', None)).
Proof.
  intros E Ed. unfold reply, try_catch. unfold bind at 1, on_slot. cbn [fst snd]. rewrite E. cbn [is_exception].
  by mstep Ed.
Qed.

(** What [call true] answers is the last word. *)
Lemma blocking_last {A} (c : bool -> M (DB S F * Transaction) (option A)) st a st' :
  c true st = (Ok (Some a), st') -> blocking [] c st = (Ok a, st').
Proof. intros E. unfold blocking. by mstep E. Qed.

Lemma blocking_throws {A} (c : bool -> M (DB S F * Transaction) (option A)) st e st' :
  c true st = (Err e, st') -> blocking [] c st = (Err e, st').
Proof. intros E. unfold blocking. by apply bind_err. Qed.

Lemma when_done_ok (m : M (DB S F * Transaction) bool) st st' :
  m st = (Ok true, st') -> when_done m st = (Ok (Some tt), st').
Proof. intros E. unfold when_done. by mstep E. Qed.

Section one.
Context d txns base rs cur t tx (Hd : db_rep d txns base rs cur) (Ht : txns !! t = Some tx).

Lemma tx_open : done_ tx = false.
Proof. apply (dr_txn _ _ _ _ _ Hd t tx Ht). Qed.

Lemma tx_valid : t <> INVALID_TXN_ID.
Proof. by eapply txn_valid. Qed.

(** A refused request ends the transaction. *)
Lemma refused_ok {A} (c : M (DB S F * Transaction) A) f q :
  c (d, tx) = (Err DeadlockException, (d, tx)) -> is_Some (key_of q) ->
  log_room d -> can_undo d tx = true ->
  exists d', reply what c f (d, Some tx) = (Ok RespDeadlock, (d', None)) /\
    outcome d txns base rs cur t tx q RespDeadlock d' None.
Proof.
  intros E Hq Hroom Hu. destruct (log_room_lsn _ _ _ _ _ Hd Hroom) as [Hn _].
  destruct (Rollback_ok d txns base rs cur t tx Hd Ht Hu Hn)
    as (d' & r & Er & Hty & _ & Hd' & Hm).
  exists d'. split.
  - apply (reply_deadlock c f d tx d' E). by apply (drop_undo d tx d' (set_done tx) tx_open).
  - apply (out_undo _ _ _ _ _ _ _ _ _ d' r); [by right|done..].
Qed.

Lemma get_outcome k : log_room d -> (~ grantable (lm_ d) t k SHARED -> can_undo d tx = true) ->
  exists x d' otx', serve_open what [] (ReqGet k) (d, Some tx) = (Ok x, (d', otx')) /\
    outcome d txns base rs cur t tx (ReqGet k) x d' otx'.
Proof.
  intros Hroom Hu. destruct (grantable_dec (lm_ d) t k SHARED (dr_locks _ _ _ _ _ Hd) tx_valid) as [Hg|Hg].
  - destruct (Get_ok d txns base rs cur t tx k true Hd Ht Hg) as (d' & E & Hd' & Hm & Hk).
    eexists _, d', (Some tx). split; [|by apply out_get].
    apply (reply_ok _ (fun o => match o with Some x => RespValue x | None => RespNotFound end) d tx (cur !! k) d' tx).
    by apply blocking_last.
  - destruct (refused_ok (blocking [] (Get k)) (fun o => match o with Some x => RespValue x | None => RespNotFound end)
      (ReqGet k)) as (d' & E & Ho); [| |done|by apply Hu|by eexists _, d', None].
    + apply blocking_throws. unfold Get. rewrite (check_open_ok d tx _ tx_open).
      by apply bind_err, (acquire_times_out d txns base rs cur t).
    + by eexists.
Qed.

Lemma put_outcome k v : log_room d -> zlen k < 2 ^ 16 -> zlen v < 2 ^ 16 ->
  (~ grantable (lm_ d) t k EXCLUSIVE -> can_undo d tx = true) ->
  (grantable (lm_ d) t k EXCLUSIVE -> v <> [] /\ kv_can (btree_ d) (k, Some v) = true) ->
  exists x d' otx', serve_open what [] (ReqPut k v) (d, Some tx) = (Ok x, (d', otx')) /\
    outcome d txns base rs cur t tx (ReqPut k v) x d' otx'.
Proof.
  intros Hroom Hk Hv Hu Hf. destruct (log_room_lsn _ _ _ _ _ Hd Hroom) as [Hn _].
  destruct (grantable_dec (lm_ d) t k EXCLUSIVE (dr_locks _ _ _ _ _ Hd) tx_valid) as [Hg|Hg].
  - destruct (Hf Hg) as [Hne Hc].
    destruct (Put_ok d txns base rs cur t tx k v true Hd Ht Hg) as (d' & r & E & Hd' & Hw & Hkeep & Hx);
      [unfold key_ok; lia|split; [done|lia]|exact Hc|done|].
    eexists _, d', (Some _). split; [|by apply (out_put _ _ _ _ _ _ _ k v d' r)].
    refine (reply_ok _ (fun _ => RespOk) d tx tt d' _ _). by apply blocking_last, when_done_ok.
  - destruct (refused_ok (blocking [] (fun dl => when_done (Put k v dl))) (fun _ => RespOk) (ReqPut k v))
      as (d' & E & Ho); [| |done|by apply Hu|by eexists _, d', None].
    + apply blocking_throws. unfold when_done, Put. rewrite bind_assoc, (check_open_ok d tx _ tx_open), bind_assoc.
      by apply bind_err, (acquire_times_out d txns base rs cur t).
    + by eexists.
Qed.

Lemma delete_outcome k : log_room d -> zlen k < 2 ^ 16 ->
  (~ grantable (lm_ d) t k EXCLUSIVE -> can_undo d tx = true) ->
  (grantable (lm_ d) t k EXCLUSIVE -> kv_can (btree_ d) (k, None) = true) ->
  exists x d' otx', serve_open what [] (ReqDelete k) (d, Some tx) = (Ok x, (d', otx')) /\
    outcome d txns base rs cur t tx (ReqDelete k) x d' otx'.
Proof.
  intros Hroom Hk Hu Hf. destruct (log_room_lsn _ _ _ _ _ Hd Hroom) as [Hn _].
  destruct (grantable_dec (lm_ d) t k EXCLUSIVE (dr_locks _ _ _ _ _ Hd) tx_valid) as [Hg|Hg].
  - destruct (Delete_ok d txns base rs cur t tx k true Hd Ht Hg) as (d' & rs' & E & Hd' & Hw & Hkeep & Hx);
      [unfold key_ok; lia|by apply Hf|done|].
    eexists _, d', (Some _). split; [|by apply (out_delete _ _ _ _ _ _ _ k d' rs')].
    refine (reply_ok _ (fun _ => RespOk) d tx tt d' _ _). by apply blocking_last, when_done_ok.
  - destruct (refused_ok (blocking [] (fun dl => when_done (Delete k dl))) (fun _ => RespOk) (ReqDelete k))
      as (d' & E & Ho); [| |done|by apply Hu|by eexists _, d', None].
    + apply blocking_throws. unfold when_done, Delete. rewrite bind_assoc, (check_open_ok d tx _ tx_open), bind_assoc.
      by apply bind_err, (acquire_times_out d txns base rs cur t).
    + by eexists.
Qed.

Lemma commit_outcome : log_room d ->
  exists d', serve_open what [] ReqCommit (d, Some tx) = (Ok RespOk, (d', None)) /\
    outcome d txns base rs cur t tx ReqCommit RespOk d' None /\ btree_ d' = (kv_sync (btree_ d)).2.
Proof.
  intros Hroom. destruct (log_room_lsn _ _ _ _ _ Hd Hroom) as [Hn _].
  destruct (Commit_ok d txns base rs cur t tx Hd Ht Hn) as (d' & r & E & Hty & Hid & Hd' & Hm & Hsync).
  exists d'. split; [|split; [by apply (out_commit _ _ _ _ _ _ _ d' r)|done]].
  cbn [serve_open]. unfold try_catch.
  assert (E1 : on_slot Commit (d, Some tx) = (Ok tt, (d', Some (set_done tx)))) by (unfold on_slot; cbn [fst snd]; by rewrite E).
  rewrite (bind_ok _ _ _ _ _ E1). by rewrite (bind_ok _ _ _ _ _ (drop_done d' (set_done tx) eq_refl)).
Qed.

(** ROLLBACK, and a client that goes away. *)
Lemma rollback_slot : log_room d -> can_undo d tx = true ->
  exists d', (do* try_catch (on_slot Rollback) (fun _ => ret tt) in drop_txn) (d, Some tx) = (Ok tt, (d', None)) /\
    outcome d txns base rs cur t tx ReqRollback RespOk d' None.
Proof.
  intros Hroom Hu. destruct (log_room_lsn _ _ _ _ _ Hd Hroom) as [Hn _].
  destruct (Rollback_ok d txns base rs cur t tx Hd Ht Hu Hn)
    as (d' & r & E & Hty & _ & Hd' & Hm).
  exists d'. split; [|by apply (out_undo _ _ _ _ _ _ _ _ _ d' r); [left|..]].
  assert (E1 : try_catch (on_slot Rollback) (fun _ => ret tt) (d, Some tx) = (Ok tt, (d', Some (set_done tx))))
    by (unfold try_catch, on_slot; cbn [fst snd]; by rewrite E).
  rewrite (bind_ok _ _ _ _ _ E1). by apply drop_done.
Qed.

(** Whether the lock is refused. *)
Lemma refused_not q k m : lock_of q = Some (k, m) ->
  refused (lm_ d) (txn_id_ tx) q = true <-> ~ grantable (lm_ d) t k m.
Proof.
  intros Hq. unfold refused. rewrite Hq, (proj1 (dr_txn _ _ _ _ _ Hd t tx Ht)).
  rewrite <- (can_grant_ok (lm_ d) t k m (dr_locks _ _ _ _ _ Hd) tx_valid). by destruct (can_grant _ _ _).
Qed.

Lemma granted_not q k m : lock_of q = Some (k, m) -> grantable (lm_ d) t k m ->
  refused (lm_ d) (txn_id_ tx) q = false.
Proof. intros Hq Hg. apply not_true_is_false. intros Hr. by apply (refused_not q k m Hq) in Hr. Qed.

Lemma admissible_room otx q : admissible d otx q = true -> log_room d.
Proof. unfold admissible. rewrite !andb_true_iff. intros [[Hr _] _]. by apply has_room_ok. Qed.

Lemma admissible_open q : admissible d (Some tx) q = true ->
  log_room d /\ fits_wire q /\ (refused (lm_ d) (txn_id_ tx) q = true -> can_undo d tx = true) /\
  (refused (lm_ d) (txn_id_ tx) q = false ->
   match q with
   | ReqPut k v => v <> [] /\ kv_can (btree_ d) (k, Some v) = true
   | ReqDelete k => kv_can (btree_ d) (k, None) = true
   | ReqRollback => can_undo d tx = true
   | _ => True
   end).
Proof.
  unfold admissible. rewrite !andb_true_iff. intros [[Hr%has_room_ok Hw%fits_wireb_ok] Ha].
  split; [done|]. split; [done|]. destruct (refused _ _ _); [by split|]. split; [done|]. intros _.
  destruct q; try done. by rewrite andb_true_iff, bool_decide_eq_true in Ha.
Qed.

(** Every request that there is room for is answered. *)
Lemma open_outcome q : admissible d (Some tx) q = true ->
  exists x d' otx', serve what [] q (d, Some tx) = (Ok x, (d', otx')) /\
    outcome d txns base rs cur t tx q x d' otx'.
Proof.
  intros (Hroom & Hwire & Hu & Hv)%admissible_open.
  change (serve what [] q (d, Some tx)) with (serve_open what [] q (d, Some tx)).
  destruct q as [|k|k v|k| |].
  - eexists _, d, (Some tx). split; [done|]. apply out_begin.
  - apply get_outcome; [done|]. intros Hg. by apply Hu, (refused_not _ k SHARED).
  - destruct Hwire. apply put_outcome; [done..| |].
    + intros Hg. by apply Hu, (refused_not _ k EXCLUSIVE).
    + intros Hg. by apply Hv, (granted_not _ k EXCLUSIVE).
  - apply delete_outcome; [done..| |].
    + intros Hg. by apply Hu, (refused_not _ k EXCLUSIVE).
    + intros Hg. by apply Hv, (granted_not _ k EXCLUSIVE).
  - destruct (commit_outcome Hroom) as (d' & E & Ho & _). by eexists _, d', None.
  - destruct (rollback_slot Hroom ltac:(by apply Hv)) as (d' & E & Ho). eexists RespOk, d', None. split; [|exact Ho].
    cbn [serve_open]. rewrite <- bind_assoc. by mstep E.
Qed.

(** ** Waiting *)

Lemma bind_acquire_same {A} k m dl (K : bool -> M (DB S F * Transaction) A) :
  grantable (lm_ d) t k m -> bind (acquire k m dl) K (d, tx) = bind (acquire k m true) K (d, tx).
Proof.
  intros Hg. assert (E : acquire k m dl (d, tx) = acquire k m true (d, tx)); [|unfold bind; by rewrite E].
  assert (Ea : forall ws, bind txn (fun tx0 => on_locks (lock (txn_id_ tx0) k m ws)) (d, tx) =
    on_locks (lock t k m ws) (d, tx)).
  { intros ws. mstep (eq_refl : txn (d, tx) = (Ok tx, (d, tx))). by rewrite (proj1 (dr_txn _ _ _ _ _ Hd t tx Ht)). }
  unfold acquire. rewrite !Ea. unfold on_locks, zoom. cbn [fst].
  by rewrite (lock_at_once (lm_ d) t k m (if dl then _ else _) [TimedOut (fun l => l)] (dr_locks _ _ _ _ _ Hd) tx_valid Hg).
Qed.

(** [blocking] asks once when the lock is free, and else later. *)
Lemma blocking_granted {A} others (c : bool -> M (DB S F * Transaction) (option A)) a st' :
  c true (d, tx) = (Ok (Some a), st') -> c false (d, tx) = c true (d, tx) ->
  blocking others c (d, tx) = blocking [] c (d, tx).
Proof.
  intros E Es. rewrite (blocking_last c (d, tx) a st' E). destruct others as [|o others]; [by apply blocking_last|].
  cbn [blocking]. rewrite E in Es. by mstep Es.
Qed.

Lemma blocking_waits {A} o others (c : bool -> M (DB S F * Transaction) (option A)) :
  c false (d, tx) = (Ok None, (d, tx)) -> blocking (o :: others) c (d, tx) = blocking others c (o d, tx).
Proof. intros E. cbn [blocking]. by mstep E. Qed.

(** A handler whose lock is not granted serves the request again when another
    thread has run: a refused attempt changes nothing. *)
Lemma serve_waits q k m o others :
  lock_of q = Some (k, m) -> ~ grantable (lm_ d) t k m ->
  serve what (o :: others) q (d, Some tx) = serve what others q (o d, Some tx).
Proof.
  intros Hq Hg. pose proof (acquire_waits d txns base rs cur t tx k m Hd Ht Hg) as Ea.
  change (serve_open what (o :: others) q (d, Some tx) = serve_open what others q (o d, Some tx)).
  assert (Hreply : forall A (c : bool -> M (DB S F * Transaction) (option A)) f,
    c false (d, tx) = (Ok None, (d, tx)) ->
    reply what (blocking (o :: others) c) f (d, Some tx) = reply what (blocking others c) f (o d, Some tx)).
  { intros A c f E. unfold reply, try_catch, bind at 1 3, on_slot. cbn [fst snd]. by rewrite (blocking_waits o others c E). }
  destruct q as [|k0|k0 v|k0| |]; try done; injection Hq as <- <-; apply Hreply.
  - unfold Get. rewrite (check_open_ok d tx _ tx_open). by mstep Ea.
  - unfold when_done, Put. rewrite bind_assoc, (check_open_ok d tx _ tx_open), bind_assoc. by mstep Ea.
  - unfold when_done, Delete. rewrite bind_assoc, (check_open_ok d tx _ tx_open), bind_assoc. by mstep Ea.
Qed.

(** One whose lock is free serves it now, whatever the others would do. *)
Lemma serve_at_once q k m others :
  lock_of q = Some (k, m) -> grantable (lm_ d) t k m -> admissible d (Some tx) q = true ->
  serve what others q (d, Some tx) = serve what [] q (d, Some tx).
Proof.
  intros Hq Hg (Hroom & Hwire & _ & Hv)%admissible_open. specialize (Hv (granted_not q k m Hq Hg)).
  destruct (log_room_lsn _ _ _ _ _ Hd Hroom) as [Hn _].
  change (serve_open what others q (d, Some tx) = serve_open what [] q (d, Some tx)).
  assert (Hreply : forall A (c : bool -> M (DB S F * Transaction) (option A)) f a st',
    c true (d, tx) = (Ok (Some a), st') -> c false (d, tx) = c true (d, tx) ->
    reply what (blocking others c) f (d, Some tx) = reply what (blocking [] c) f (d, Some tx)).
  { intros A c f a st' E Es. unfold reply, try_catch, bind at 1 3, on_slot. cbn [fst snd].
    by rewrite (blocking_granted others c a st' E Es). }
  destruct q as [|k0|k0 v|k0| |]; try done; injection Hq as <- <-.
  - destruct (Get_ok d txns base rs cur t tx k0 true Hd Ht Hg) as (d' & E & _). eapply Hreply; [exact E|].
    unfold Get. rewrite !(check_open_ok d tx _ tx_open). by apply bind_acquire_same.
  - destruct Hwire, Hv as [Hne Hf].
    destruct (Put_ok d txns base rs cur t tx k0 v true Hd Ht Hg) as (d' & r & E & _);
      [unfold key_ok; lia|split; [done|lia]|exact Hf|done|].
    eapply Hreply; [by apply when_done_ok, E|]. unfold when_done, Put.
    rewrite !bind_assoc, !(check_open_ok d tx _ tx_open), !bind_assoc. by apply bind_acquire_same.
  - cbn [fits_wire] in Hwire. destruct (Delete_ok d txns base rs cur t tx k0 true Hd Ht Hg) as (d' & r & E & _);
      [unfold key_ok; lia|exact Hv|done|].
    eapply Hreply; [by apply when_done_ok, E|]. unfold when_done, Delete.
    rewrite !bind_assoc, !(check_open_ok d tx _ tx_open), !bind_assoc. by apply bind_acquire_same.
Qed.
End one.

(** Without a transaction only BEGIN does anything. *)
Lemma closed_outcome d txns base rs cur q :
  db_rep d txns base rs cur -> log_room d ->
  (q = ReqBegin /\ exists tx d' r, serve what [] q (d, None) = (Ok RespOk, (d', Some tx)) /\
     txns !! txn_id_ tx = None /\ write_set_ tx = ∅ /\ lm_ d' = lm_ d /\ type r = BEGIN /\
     db_rep d' (<[txn_id_ tx := tx]> txns) base (rs ++ [r]) cur) \/
  (q <> ReqBegin /\ exists msg, serve what [] q (d, None) = (Ok (RespError msg), (d, None))).
Proof.
  intros Hd Hroom. destruct (log_room_lsn _ _ _ _ _ Hd Hroom) as [Hn Hm].
  destruct q as [|k|k v|k| |]; [left|right; split; [done|by eexists]..]. split; [done|].
  destruct (Begin_ok d txns base rs cur Hd Hn Hm) as (d' & r & E & Hf & Hlm & Hty & Hd').
  exists (mkTxn (max_txn rs + 1) false ∅), d', r. split; [|by split_and!].
  unfold serve. mstep (eq_refl : @getS (DB S F * option Transaction) (d, None) = (Ok (d, None), (d, None))).
  cbn [snd serve_closed]. unfold bind, zoom. cbn [fst snd]. by rewrite E.
Qed.
End service.
