(* ===== verification/ServiceRep.v ===== *)
(** * The server refines serial transactions

    [service_rel]: the sessions on a database in the state [db_rep] are a
    state of [spec].  The committed map is that of the log, an open
    transaction has its updates in the store under exclusive locks, and a lock
    on every key it has touched.  Each step of the server is a step of the
    specification and adds at most one record to the log. *)

From S2P Require Import Prelude.
From S2P Require Import DiskManager.
From S2P Require Import Store.
From S2P Require Import LogManager.
From S2P Require Import LogRep.
From S2P Require Import Recovery.
From S2P Require Import History.
From S2P Require Import LockManager.
From S2P Require Import Db.
From S2P Require Import DbRep.
From S2P Require Import DbSteps.
From S2P Require Import ClientHandler.
From S2P Require Import SessionRep.
From S2P Require Import Serial.
From S2P Require Import Service.

Section rep.
Context {S F : Type} `{KVLaws S, ReliableLog F}.
Context (what : exn -> bytes).
Implicit Types (d : DB S F) (txns : gmap Z Transaction) (tx : Transaction) (t i j : Z) (k v : bytes)
  (base cur : kvmap) (rs : list WalRecord) (s : spec) (a : atx).

Abbreviation State := (DB S F * gmap Z (option Transaction))%type.

Record tx_rel d txns cur tx a : Prop := {
  tr_open : txns !! txn_id_ tx = Some tx;
  tr_writes : forall k, is_Some (write_set_ tx !! k) <-> is_Some (a_writes a !! k);
  tr_values : forall k o, a_writes a !! k = Some o -> cur !! k = o;
  tr_locks : forall k, k ∈ a_keys a -> has_mode (lm_ d) (txn_id_ tx) k SHARED;
}.

Definition slots_rel d txns cur : gmap Z (option Transaction) -> gmap Z (option atx) -> Prop :=
  map_Forall2 (fun _ => option_Forall2 (tx_rel d txns cur)).

Definition unique_ids (slots : gmap Z (option Transaction)) : Prop :=
  forall i j tx tx', slots !! i = Some (Some tx) -> slots !! j = Some (Some tx') ->
    txn_id_ tx = txn_id_ tx' -> i = j.

Record service_rel base (st : State) s txns rs cur : Prop := {
  sr_db : db_rep st.1 txns base rs cur;
  sr_map : sp_map s = committed_map base rs;
  sr_slots : slots_rel st.1 txns cur st.2 (sp_open s);
  sr_unique : unique_ids st.2;
}.

(** ** What the log says is committed *)

Lemma committed_write d txns base rs cur t tx r :
  db_rep d txns base rs cur -> txns !! t = Some tx -> write_of t r ->
  committed_map base (rs ++ [r]) = committed_map base rs.
Proof.
  intros Hd Ht [Hty Hid]. apply map_eq. intros k. apply committed_map_snoc; [congruence|]. intros _ Hc.
  destruct (hi_committed _ _ _ _ (hist_invariant _ _ _ _ (dr_hist _ _ _ _ _ Hd)) _ Hc) as [Hn _].
  by rewrite Hid, active_lookup, Ht in Hn.
Qed.

Lemma committed_control base rs r :
  type r = BEGIN \/ type r = ABORT -> committed_map base (rs ++ [r]) = committed_map base rs.
Proof.
  intros Hty. apply map_eq. intros k. apply committed_map_snoc; destruct Hty; congruence.
Qed.

Lemma committed_commit d txns base rs cur t tx a r :
  db_rep d txns base rs cur -> txns !! t = Some tx -> type r = COMMIT -> txn_id r = t ->
  (forall k, is_Some (write_set_ tx !! k) <-> is_Some (a_writes a !! k)) ->
  (forall k o, a_writes a !! k = Some o -> cur !! k = o) ->
  committed_map base (rs ++ [r]) = restore (a_writes a) (committed_map base rs).
Proof.
  intros Hd Ht Hty Hid Hw Hv. apply map_eq. intros k. rewrite lookup_restore.
  rewrite (committed_map_commit base rs cur (active txns) r (before_map tx) k
    (hist_invariant _ _ _ _ (dr_hist _ _ _ _ _ Hd)) Hty) by (by rewrite Hid, active_lookup, Ht).
  unfold before_map. rewrite lookup_fmap.
  assert (Hk : is_Some (entry_before <$> write_set_ tx !! k) <-> is_Some (a_writes a !! k)) by by rewrite fmap_is_Some.
  destruct (a_writes a !! k) as [o|] eqn:Eo; cbn [default from_option id].
  - rewrite decide_True by (by apply Hk). by apply Hv.
  - rewrite decide_False; [done|]. intros Hs. apply Hk in Hs. by destruct Hs.
Qed.

(** ** Slots *)

Lemma slots_step d txns cur d' txns' cur' slots op i otx o :
  slots_rel d txns cur slots op -> option_Forall2 (tx_rel d' txns' cur') otx o ->
  (forall j tx a, slots !! j = Some (Some tx) -> j <> i -> tx_rel d txns cur tx a -> tx_rel d' txns' cur' tx a) ->
  slots_rel d' txns' cur' (<[i := otx]> slots) (<[i := o]> op).
Proof.
  intros Hs Ho Hf j. destruct (decide (j = i)) as [->|Hne]; [rewrite !lookup_insert_eq; by constructor|].
  rewrite !lookup_insert_ne by done. specialize (Hs j). specialize (Hf j).
  inversion Hs as [x y Hxy E1 E2|]; [|constructor]. constructor.
  inversion Hxy; [|constructor]. subst. constructor. by apply Hf.
Qed.

Lemma slots_drop d txns cur slots op i :
  slots_rel d txns cur slots op -> slots_rel d txns cur (delete i slots) (delete i op).
Proof. apply map_Forall2_delete. Qed.

Lemma unique_step slots i otx :
  unique_ids slots ->
  (forall tx j txj, otx = Some tx -> slots !! j = Some (Some txj) -> j <> i -> txn_id_ txj <> txn_id_ tx) ->
  unique_ids (<[i := otx]> slots).
Proof.
  intros Hu Hf j j' tx tx' [[<- E]|[Hj Ej]]%lookup_insert_Some [[<- E']|[Hj' Ej']]%lookup_insert_Some Hid.
  - done.
  - by destruct (Hf tx j' tx' E Ej' (not_eq_sym Hj')).
  - by destruct (Hf tx' j tx E' Ej (not_eq_sym Hj)).
  - by eapply Hu.
Qed.

Lemma unique_drop slots i : unique_ids slots -> unique_ids (delete i slots).
Proof. intros Hu j j' tx tx' [_ ?]%lookup_delete_Some [_ ?]%lookup_delete_Some. by apply Hu. Qed.

(** What a step leaves of a transaction that does not take part. *)
Lemma tx_rel_frame d txns cur d' txns' cur' tx a :
  tx_rel d txns cur tx a -> txns' !! txn_id_ tx = txns !! txn_id_ tx ->
  (forall k, is_Some (a_writes a !! k) -> cur' !! k = cur !! k) ->
  (forall k, has_mode (lm_ d) (txn_id_ tx) k SHARED -> has_mode (lm_ d') (txn_id_ tx) k SHARED) ->
  tx_rel d' txns' cur' tx a.
Proof.
  intros [Ro Rw Rv Rl] Ht Hc Hl. split; [congruence|done| |by auto].
  intros k o E. rewrite Hc by (by rewrite E). by apply Rv.
Qed.

Section step.
Context base d slots s txns rs cur (HR : service_rel base (d, slots) s txns rs cur).

Lemma slot_abs j a : sp_open s !! j = Some (Some a) ->
  exists tx, slots !! j = Some (Some tx) /\ tx_rel d txns cur tx a.
Proof.
  intros E. pose proof (sr_slots _ _ _ _ _ _ HR j) as Hj. cbn [snd fst] in Hj. rewrite E in Hj.
  inversion Hj as [x y Hxy E1 E2|]. subst. inversion Hxy as [tx a' Ha|]. subst. by exists tx.
Qed.

Lemma slot_conc j tx : slots !! j = Some (Some tx) ->
  exists a, sp_open s !! j = Some (Some a) /\ tx_rel d txns cur tx a.
Proof.
  intros E. pose proof (sr_slots _ _ _ _ _ _ HR j) as Hj. cbn [snd fst] in Hj. rewrite E in Hj.
  inversion Hj as [x y Hxy E1 E2|]. subst. inversion Hxy as [tx' a Ha|]. subst. by exists a.
Qed.

Lemma slot_empty j : slots !! j = Some None <-> sp_open s !! j = Some None.
Proof.
  pose proof (sr_slots _ _ _ _ _ _ HR j) as Hj. cbn [snd fst] in Hj.
  inversion Hj as [x y Hxy E1 E2|E1 E2]; [|done]. inversion Hxy; by split.
Qed.

Lemma slot_absent j : slots !! j = None <-> sp_open s !! j = None.
Proof.
  pose proof (sr_slots _ _ _ _ _ _ HR j) as Hj. cbn [snd fst] in Hj.
  inversion Hj as [x y Hxy E1 E2|E1 E2]; by split.
Qed.

(** What a transaction wrote, it holds. *)
Lemma written_held tx a k : tx_rel d txns cur tx a -> is_Some (a_writes a !! k) ->
  holds_mode (lm_ d) (txn_id_ tx) k EXCLUSIVE.
Proof.
  intros Hr Hk. apply (dr_owned _ _ _ _ _ (sr_db _ _ _ _ _ _ HR) _ tx); [apply Hr|]. by apply (tr_writes _ _ _ _ _ Hr).
Qed.

Context i tx a (Hi : slots !! i = Some (Some tx)) (Ha : sp_open s !! i = Some (Some a))
  (Hr : tx_rel d txns cur tx a).

Lemma other_id j txj : slots !! j = Some (Some txj) -> j <> i -> txn_id_ txj <> txn_id_ tx.
Proof. intros Ej Hne E. apply Hne. by apply (sr_unique _ _ _ _ _ _ HR j i txj tx). Qed.

Lemma grantable_unwritten k : grantable (lm_ d) (txn_id_ tx) k SHARED -> unwritten s i k.
Proof.
  intros Hg j aj Ej Hne. destruct (slot_abs j aj Ej) as (txj & Hj & Hrj). apply eq_None_not_Some. intros Hs.
  destruct (Hg _ _ (written_held txj aj k Hrj Hs)) as [E|E]; [by destruct (other_id j txj)|done].
Qed.

Lemma grantable_untouched k : grantable (lm_ d) (txn_id_ tx) k EXCLUSIVE -> untouched s i k.
Proof.
  intros Hg j aj Ej Hne Hk. destruct (slot_abs j aj Ej) as (txj & Hj & Hrj).
  destruct (tr_locks _ _ _ _ _ Hrj k Hk) as [Hm|Hm]; destruct (Hg _ _ Hm) as [E|E];
    (by destruct (other_id j txj)) || done.
Qed.

(** A transaction sees the store where no other has written. *)
Lemma view_ok k m : grantable (lm_ d) (txn_id_ tx) k m -> restore (a_writes a) (sp_map s) !! k = cur !! k.
Proof.
  intros Hg. rewrite lookup_restore. destruct (a_writes a !! k) as [o|] eqn:Eo; cbn [default from_option id].
  - symmetry. by apply (tr_values _ _ _ _ _ Hr).
  - rewrite (sr_map _ _ _ _ _ _ HR). symmetry.
    apply (current_committed base rs cur (active txns) k); [apply (sr_db _ _ _ _ _ _ HR)|].
    intros (t' & ws & Ht' & Hs). rewrite active_lookup in Ht'. destruct (txns !! t') as [tx'|] eqn:Etx; [|done].
    injection Ht' as <-. unfold before_map in Hs. rewrite lookup_fmap, fmap_is_Some in Hs.
    pose proof (dr_owned _ _ _ _ _ (sr_db _ _ _ _ _ _ HR) t' tx' k Etx Hs) as Hx.
    destruct (Hg _ _ Hx) as [->|E]; [|by destruct m].
    rewrite (tr_open _ _ _ _ _ Hr) in Etx. injection Etx as <-.
    apply (tr_writes _ _ _ _ _ Hr) in Hs. rewrite Eo in Hs. by destruct Hs.
Qed.

(** The transaction of slot [i] goes on or ends, the others stay. *)
Lemma step_rel d' txns' rs' cur' otx o m dn :
  db_rep d' txns' base rs' cur' -> m = committed_map base rs' ->
  option_Forall2 (tx_rel d' txns' cur') otx o ->
  (forall tx', otx = Some tx' -> txn_id_ tx' = txn_id_ tx) ->
  (forall t', t' <> txn_id_ tx -> txns' !! t' = txns !! t') ->
  (forall t' k, t' <> txn_id_ tx -> has_mode (lm_ d) t' k SHARED -> has_mode (lm_ d') t' k SHARED) ->
  (forall t' k, t' <> txn_id_ tx -> holds_mode (lm_ d) t' k EXCLUSIVE -> cur' !! k = cur !! k) ->
  service_rel base (d', <[i := otx]> slots) (mkSpec m (<[i := o]> (sp_open s)) dn) txns' rs' cur'.
Proof.
  intros Hd Hm Ho Hid Ht Hl Hc. split; cbn [fst snd sp_map sp_open]; [exact Hd|exact Hm| |].
  - eapply slots_step; [apply (sr_slots _ _ _ _ _ _ HR)|exact Ho|]. intros j txj aj Hj Hne Hrj.
    pose proof (other_id j txj Hj Hne) as Hx.
    apply (tx_rel_frame d txns cur); [exact Hrj|by apply Ht| |intros k; by apply Hl].
    intros k Hk. apply (Hc (txn_id_ txj) k Hx). by apply (written_held txj aj).
  - apply unique_step; [apply (sr_unique _ _ _ _ _ _ HR)|]. intros tx' j txj E Hj Hne.
    rewrite (Hid tx' E). by apply (other_id j).
Qed.

Lemma kept_others d' : locks_kept (lm_ d) (lm_ d') ->
  forall t' k, t' <> txn_id_ tx -> has_mode (lm_ d) t' k SHARED -> has_mode (lm_ d') t' k SHARED.
Proof. intros Hk t' k _. apply Hk. Qed.

Lemma released_others d' :
  (forall t' k m, holds_mode (lm_ d') t' k m <-> holds_mode (lm_ d) t' k m /\ t' <> txn_id_ tx) ->
  forall t' k, t' <> txn_id_ tx -> has_mode (lm_ d) t' k SHARED -> has_mode (lm_ d') t' k SHARED.
Proof. intros Hm t' k Hne. unfold has_mode. rewrite !Hm. tauto. Qed.

(** Under an exclusive lock nobody else has one. *)
Lemma locked_apart k : grantable (lm_ d) (txn_id_ tx) k EXCLUSIVE ->
  forall t' k', t' <> txn_id_ tx -> holds_mode (lm_ d) t' k' EXCLUSIVE -> k' <> k.
Proof. intros Hg t' k' Hne Hx ->. destruct (Hg _ _ Hx) as [?|?]; done. Qed.

Definition log_grows rs rs' : Prop := rs' = rs \/ exists r, rs' = rs ++ [r].

Definition refined (q : request) (x : response) d' (otx : option Transaction) : Prop :=
  exists s' txns' rs' cur', spec_step s (Call i q x) s' /\
    service_rel base (d', <[i := otx]> slots) s' txns' rs' cur' /\ log_grows rs rs'.

Lemma refine_get k d' :
  grantable (lm_ d) (txn_id_ tx) k SHARED -> db_rep d' txns base rs cur ->
  has_mode (lm_ d') (txn_id_ tx) k SHARED -> locks_kept (lm_ d) (lm_ d') ->
  refined (ReqGet k) (match cur !! k with Some v => RespValue v | None => RespNotFound end) d' (Some tx).
Proof.
  intros Hg Hd Hm Hk. eexists _, txns, rs, cur. split; [|split; [|by left]].
  - apply (spec_call s i a (ReqGet k) _ (a_writes a) Ha); [by apply grantable_unwritten|].
    cbn [call]. by rewrite (view_ok k SHARED Hg).
  - apply step_rel; [done|apply (sr_map _ _ _ _ _ _ HR)| |by intros ? [= <-]|done|by apply kept_others|done].
    constructor. destruct Hr as [Ro Rw Rv Rl]. split; cbn [a_calls a_keys a_writes]; [done..|].
    intros k' [Hk'|Hk']%elem_of_union; [|by apply Hk, Rl]. cbn in Hk'. by apply elem_of_singleton in Hk' as ->.
Qed.

(** A key written: the entry in the write set, the value in the store. *)
Lemma tx_rel_write d' cur' k e o x q :
  tx_rel d txns cur tx a -> key_of q = Some k -> locks_kept (lm_ d) (lm_ d') ->
  holds_mode (lm_ d') (txn_id_ tx) k EXCLUSIVE -> cur' !! k = o -> (forall k', k' <> k -> cur' !! k' = cur !! k') ->
  tx_rel d' (<[txn_id_ tx := set_entry k e tx]> txns) cur' (set_entry k e tx)
    (mkAtx (a_calls a ++ [(q, x)]) (touched q ∪ a_keys a) (<[k := o]> (a_writes a))).
Proof.
  intros [Ro Rw Rv Rl] Hq Hk Hx Ho Hc. split; cbn [a_calls a_keys a_writes set_entry txn_id_ write_set_].
  - by rewrite lookup_insert_eq.
  - intros k'. destruct (decide (k' = k)) as [->|Hne]; [rewrite !lookup_insert_eq; by split; eexists|].
    by rewrite !lookup_insert_ne.
  - intros k' o' [[<- <-]|[Hne E]]%lookup_insert_Some; [done|]. rewrite Hc by done. by apply Rv.
  - unfold touched. rewrite Hq. intros k' [->%elem_of_singleton|Hk']%elem_of_union; [by right|by apply Hk, Rl].
Qed.

Lemma refine_put k v d' r :
  let tx' := set_entry k (write_entry cur tx k v) tx in
  grantable (lm_ d) (txn_id_ tx) k EXCLUSIVE ->
  db_rep d' (<[txn_id_ tx := tx']> txns) base (rs ++ [r]) (<[k := v]> cur) -> write_of (txn_id_ tx) r ->
  locks_kept (lm_ d) (lm_ d') -> holds_mode (lm_ d') (txn_id_ tx) k EXCLUSIVE ->
  refined (ReqPut k v) RespOk d' (Some tx').
Proof.
  intros tx' Hg Hd Hw Hk Hx. eexists _, _, (rs ++ [r]), _. split; [|split; [|by right; eexists]].
  - apply (spec_call s i a (ReqPut k v) RespOk (<[k := Some v]> (a_writes a)) Ha); [by apply grantable_untouched|done].
  - apply step_rel; [exact Hd| | |by intros ? [= <-]| |by apply kept_others|].
    + rewrite (committed_write d txns base rs cur _ tx r (sr_db _ _ _ _ _ _ HR) (tr_open _ _ _ _ _ Hr) Hw).
      apply (sr_map _ _ _ _ _ _ HR).
    + constructor. apply tx_rel_write; try done; [by rewrite lookup_insert_eq|].
      intros k' Hne. by rewrite lookup_insert_ne.
    + intros t' Hne. by rewrite lookup_insert_ne.
    + intros t' k' Hne Hx'. rewrite lookup_insert_ne; [done|]. by apply not_eq_sym, (locked_apart k Hg t').
Qed.

Lemma refine_delete k d' rs' :
  let tx' := delete_entry cur tx k in
  grantable (lm_ d) (txn_id_ tx) k EXCLUSIVE ->
  db_rep d' (<[txn_id_ tx := tx']> txns) base rs' (delete k cur) -> delete_log cur (txn_id_ tx) k rs rs' ->
  locks_kept (lm_ d) (lm_ d') -> holds_mode (lm_ d') (txn_id_ tx) k EXCLUSIVE ->
  refined (ReqDelete k) RespOk d' (Some tx').
Proof.
  intros tx' Hg Hd Hw Hk Hx. pose proof (view_ok k EXCLUSIVE Hg) as Hv.
  set (ws := match restore (a_writes a) (sp_map s) !! k with Some _ => <[k := None]> (a_writes a) | None => a_writes a end).
  assert (Hlog : log_grows rs rs' /\ committed_map base rs' = committed_map base rs).
  { unfold delete_log in Hw. destruct (cur !! k); [|subst; split; [by left|done]]. destruct Hw as (r & -> & Hw).
    split; [by right; eexists|].
    by apply (committed_write d txns base rs cur _ tx r (sr_db _ _ _ _ _ _ HR) (tr_open _ _ _ _ _ Hr)). }
  destruct Hlog as [Hlog Hcm]. eexists _, _, rs', _. split; [|split; [|exact Hlog]].
  - apply (spec_call s i a (ReqDelete k) RespOk ws Ha); [by apply grantable_untouched|done].
  - apply step_rel; [exact Hd| | | | |by apply kept_others|].
    + rewrite Hcm. apply (sr_map _ _ _ _ _ _ HR).
    + constructor. unfold ws, tx', delete_entry. rewrite Hv. destruct (cur !! k) as [v0|] eqn:Ev.
      * apply tx_rel_write; try done; [by rewrite lookup_delete_eq|]. intros k' Hne. by rewrite lookup_delete_ne.
      * rewrite delete_id, insert_id by (done || apply Hr). destruct Hr as [Ro Rw Rv Rl].
        split; cbn [a_calls a_keys a_writes]; [done..|].
        intros k' [Hk'|Hk']%elem_of_union; [|by apply Hk, Rl]. cbn in Hk'. apply elem_of_singleton in Hk' as ->. by right.
    + intros ? [= <-]. unfold tx', delete_entry. by destruct (cur !! k).
    + intros t' Hne. by rewrite lookup_insert_ne.
    + intros t' k' Hne Hx'. rewrite lookup_delete_ne; [done|]. by apply not_eq_sym, (locked_apart k Hg t').
Qed.

Lemma refine_end d' rs' cur' m dn :
  db_rep d' (delete (txn_id_ tx) txns) base rs' cur' -> m = committed_map base rs' ->
  (forall t' k m, holds_mode (lm_ d') t' k m <-> holds_mode (lm_ d) t' k m /\ t' <> txn_id_ tx) ->
  (forall t' k, t' <> txn_id_ tx -> holds_mode (lm_ d) t' k EXCLUSIVE -> cur' !! k = cur !! k) ->
  service_rel base (d', <[i := None]> slots) (mkSpec m (<[i := None]> (sp_open s)) dn) (delete (txn_id_ tx) txns) rs' cur'.
Proof.
  intros Hd Hm Hl Hc. apply step_rel; [exact Hd|exact Hm|constructor|done| |by apply released_others|exact Hc].
  intros t' Hne. by rewrite lookup_delete_ne.
Qed.

Lemma restore_others : forall t' k, t' <> txn_id_ tx -> holds_mode (lm_ d) t' k EXCLUSIVE ->
  restore (before_map tx) cur !! k = cur !! k.
Proof.
  intros t' k Hne Hx. apply restore_other. unfold before_map. rewrite lookup_fmap, fmap_None.
  apply eq_None_not_Some. intros Hs.
  pose proof (dr_owned _ _ _ _ _ (sr_db _ _ _ _ _ _ HR) _ tx k (tr_open _ _ _ _ _ Hr) Hs) as Hx'.
  pose proof (inv_compatible _ _ _ _ _ _ (dr_locks _ _ _ _ _ (sr_db _ _ _ _ _ _ HR)) Hx Hx' Hne). done.
Qed.

Lemma refine_outcome q x d' otx :
  outcome d txns base rs cur (txn_id_ tx) tx q x d' otx -> refined q x d' otx.
Proof.
  intros [k d1 Hg Hd Hm Hk|k v d1 r tx' Hg Hd Hw Hk Hx|k d1 rs' tx' Hg Hd Hw Hk Hx| |d1 r Hty Hid Hd Hm
    |q1 x1 d1 r Hq Hty Hd Hm].
  - by apply refine_get.
  - by apply (refine_put k v d1 r).
  - by apply (refine_delete k d1 rs').
  - eexists _, txns, rs, cur. split; [by apply (spec_call s i a ReqBegin (RespError already_open) (a_writes a) Ha)|].
    split; [|by left].
    apply step_rel; [apply (sr_db _ _ _ _ _ _ HR)|apply (sr_map _ _ _ _ _ _ HR)| |by intros ? [= <-]|done..].
    constructor. destruct Hr as [Ro Rw Rv Rl]. split; cbn [a_calls a_keys a_writes touched key_of]; [done..|].
    intros k Hk. apply Rl. set_solver.
  - eexists _, _, (rs ++ [r]), cur. split; [by apply (spec_commit s i a)|]. split; [|by right; eexists].
    apply refine_end; [exact Hd| |exact Hm|done]. rewrite (sr_map _ _ _ _ _ _ HR). symmetry.
    destruct Hr as [Ro Rw Rv Rl]. by apply (committed_commit d txns base rs cur (txn_id_ tx) tx a r (sr_db _ _ _ _ _ _ HR)).
  - eexists (fill_slot i None s), _, (rs ++ [r]), _. split; [|split; [|by right; eexists]].
    + destruct Hq as [[-> ->]|[Hq ->]]; [by apply (spec_rollback s i a)|by apply (spec_deadlock s i a)].
    + apply refine_end; [exact Hd| |exact Hm|apply restore_others].
      rewrite (committed_control base rs r) by (by right). apply (sr_map _ _ _ _ _ _ HR).
Qed.
End step.

(** ** Steps and runs *)

Lemma service_rel_init base d :
  db_rep d ∅ base [] base -> service_rel base (d, ∅) (mkSpec base ∅ []) ∅ [] base.
Proof.
  intros Hd. split; cbn [fst snd sp_map sp_open]; [exact Hd|done|apply map_Forall2_empty|].
  intros i j tx tx' E. by rewrite lookup_empty in E.
Qed.

Lemma service_rel_drop base d slots s txns rs cur i :
  service_rel base (d, slots) s txns rs cur ->
  service_rel base (d, delete i slots) (mkSpec (sp_map s) (delete i (sp_open s)) (sp_done s)) txns rs cur.
Proof.
  intros [Rd Rm Rs Ru]. split; cbn [fst snd sp_map sp_open] in *; [done..| |by apply unique_drop].
  by apply slots_drop.
Qed.

(** A slot that gets no transaction, or a new one. *)
Lemma refine_new base d slots s txns rs cur i d' tx r :
  service_rel base (d, slots) s txns rs cur -> slots !! i = Some None ->
  txns !! txn_id_ tx = None -> write_set_ tx = ∅ -> lm_ d' = lm_ d -> type r = BEGIN ->
  db_rep d' (<[txn_id_ tx := tx]> txns) base (rs ++ [r]) cur ->
  service_rel base (d', <[i := Some tx]> slots) (fill_slot i (Some (mkAtx [] ∅ ∅)) s)
    (<[txn_id_ tx := tx]> txns) (rs ++ [r]) cur.
Proof.
  intros HR Hi Hf Hw Hlm Hty Hd. split; cbn [fst snd sp_map sp_open fill_slot]; [exact Hd| | |].
  - rewrite (committed_control base rs r) by (by left). apply (sr_map _ _ _ _ _ _ HR).
  - eapply slots_step; [apply (sr_slots _ _ _ _ _ _ HR)| |].
    + constructor. split; cbn [a_keys a_writes]; [by rewrite lookup_insert_eq|intros k; rewrite Hw; by split; intros []|done|].
      intros k Hk. by apply elem_of_empty in Hk.
    + intros j txj aj Hj Hne Hrj. apply (tx_rel_frame d txns cur); [exact Hrj| |done|by rewrite Hlm].
      rewrite lookup_insert_ne; [done|]. intros E. pose proof (tr_open _ _ _ _ _ Hrj) as Ho. congruence.
  - apply unique_step; [apply (sr_unique _ _ _ _ _ _ HR)|]. intros tx' j txj [= <-] Hj Hne E.
    destruct (slot_conc base d slots s txns rs cur HR j txj Hj) as (aj & _ & Hrj).
    pose proof (tr_open _ _ _ _ _ Hrj) as Ho. congruence.
Qed.

Lemma refine_connect base d slots s txns rs cur i :
  service_rel base (d, slots) s txns rs cur ->
  service_rel base (d, <[i := None]> slots) (fill_slot i None s) txns rs cur.
Proof.
  intros [Rd Rm Rs Ru]. split; cbn [fst snd sp_map sp_open fill_slot] in *; [done..| |by apply unique_step].
  eapply slots_step; [exact Rs|constructor|done].
Qed.

Lemma service_step_refines base st s txns rs cur e st' :
  service_rel base st s txns rs cur -> service_step what st e st' ->
  exists s' txns' rs' cur', spec_step s e s' /\ service_rel base st' s' txns' rs' cur' /\ log_grows rs rs'.
Proof.
  intros HR Hs. destruct Hs as [d slots i Hn|d slots i [tx|] q x d' otx' Hi Had E|d slots i [tx|] d' otx' Hi Hroom Hu E].
  - exists (fill_slot i None s), txns, rs, cur. split; [apply spec_connect; by apply (slot_absent _ _ _ _ _ _ _ HR)|].
    split; [by apply refine_connect|by left].
  - destruct (slot_conc _ _ _ _ _ _ _ HR i tx Hi) as (a & Ha & Hr).
    destruct (open_outcome what d txns base rs cur _ tx (sr_db _ _ _ _ _ _ HR) (tr_open _ _ _ _ _ Hr) q Had)
      as (x1 & d1 & otx1 & E1 & Ho). rewrite E in E1. injection E1 as <- <- <-.
    by apply (refine_outcome _ _ _ _ _ _ _ HR i tx a Hi Ha Hr).
  - destruct (closed_outcome what d txns base rs cur q (sr_db _ _ _ _ _ _ HR) (admissible_room _ _ _ Had))
      as [(-> & tx & d1 & r & E1 & Hf & Hw & Hlm & Hty & Hd1)|(Hq & msg & E1)]; rewrite E in E1; injection E1 as -> -> ->.
    + eexists _, _, (rs ++ [r]), cur. split; [apply spec_begin; by apply (slot_empty _ _ _ _ _ _ _ HR)|].
      split; [by apply (refine_new base d)|by right; eexists].
    + exists s, txns, rs, cur. split; [apply spec_reject; [by apply (slot_empty _ _ _ _ _ _ _ HR)|done]|].
      rewrite insert_id by done. split; [done|by left].
  - destruct (slot_conc _ _ _ _ _ _ _ HR i tx Hi) as (a & Ha & Hr).
    destruct (rollback_slot d txns base rs cur _ tx (sr_db _ _ _ _ _ _ HR) (tr_open _ _ _ _ _ Hr) Hroom (Hu tx eq_refl))
      as (d1 & E1 & Ho). unfold hang_up in E.
    rewrite (bind_ok _ _ (d, Some tx) (d, Some tx) (d, Some tx)) in E by done. cbn [snd] in E.
    rewrite E1 in E. injection E as <- <-. inversion Ho as [| | | | |q x d2 r Hq Hty Hd2 Hm]; subst.
    exists (drop_slot i s), (delete (txn_id_ tx) txns), (rs ++ [r]), (restore (before_map tx) cur).
    split; [by apply (spec_hang_up s i (Some a))|]. split; [|by right; eexists].
    assert (Hend : service_rel base (d1, <[i := None]> slots) (mkSpec (sp_map s) (<[i := None]> (sp_open s)) (sp_done s))
      (delete (txn_id_ tx) txns) (rs ++ [r]) (restore (before_map tx) cur)).
    { apply (refine_end _ _ _ _ _ _ _ HR i tx Hi d1); [exact Hd2| |exact Hm|intros t1 k1; by apply (restore_others _ _ _ _ _ _ _ HR tx a Hr)].
      rewrite (committed_control base rs r) by (by right). apply (sr_map _ _ _ _ _ _ HR). }
    apply (service_rel_drop _ _ _ _ _ _ _ i) in Hend. cbn [sp_map sp_open sp_done] in Hend.
    by rewrite !delete_insert_eq in Hend.
  - injection E as <- <-. exists (drop_slot i s), txns, rs, cur. split; [|split; [by apply service_rel_drop|by left]].
    apply (spec_hang_up s i None). by apply (slot_empty _ _ _ _ _ _ _ HR).
Qed.

Lemma service_runs base st s txns rs cur es st' :
  service_rel base st s txns rs cur -> runs (service_step what) st es st' ->
  exists s' txns' rs' cur', runs spec_step s es s' /\ service_rel base st' s' txns' rs' cur' /\ rs `prefix_of` rs'.
Proof.
  intros HR Hr. revert s txns rs cur HR. induction Hr as [st|st e st1 es st2 Hs Hr IH]; intros s txns rs cur HR.
  - exists s, txns, rs, cur. split; [constructor|by split].
  - destruct (service_step_refines base st s txns rs cur e st1 HR Hs) as (s1 & txns1 & rs1 & cur1 & S1 & HR1 & Hg).
    destruct (IH s1 txns1 rs1 cur1 HR1) as (s2 & txns2 & rs2 & cur2 & S2 & HR2 & Hp).
    exists s2, txns2, rs2, cur2. split; [by eapply runs_cons|]. split; [done|].
    destruct Hg as [->|[r ->]]; [done|]. etrans; [|exact Hp]. by apply prefix_app_r.
Qed.

(** Between acknowledged commits the log grows, record by record, and what it
    says is committed stays. *)
Lemma service_quiet base st s txns rs cur es st' rs0 :
  service_rel base st s txns rs cur -> runs (service_step what) st es st' -> forallb (fun e => negb (commit_acked e)) es = true ->
  (forall l, rs0 `prefix_of` l -> l `prefix_of` rs -> committed_map base l = sp_map s) ->
  exists s' txns' rs' cur', runs spec_step s es s' /\ service_rel base st' s' txns' rs' cur' /\
    forall l, rs0 `prefix_of` l -> l `prefix_of` rs' -> committed_map base l = sp_map s'.
Proof.
  intros HR Hr. revert s txns rs cur HR. induction Hr as [st|st e st1 es st2 Hs Hr IH]; intros s txns rs cur HR Hq Hl.
  - exists s, txns, rs, cur. split; [constructor|by split].
  - cbn [forallb] in Hq. apply andb_true_iff in Hq as [He Hq].
    destruct (service_step_refines base st s txns rs cur e st1 HR Hs) as (s1 & txns1 & rs1 & cur1 & S1 & HR1 & Hg).
    pose proof (spec_step_map s e s1 S1 (proj1 (negb_true_iff _) He)) as Em.
    destruct (IH s1 txns1 rs1 cur1 HR1 Hq) as (s2 & txns2 & rs2 & cur2 & S2 & HR2 & Hp).
    { intros l H0l Hl1. rewrite Em. destruct Hg as [->|[r ->]]; [by apply Hl|].
      apply prefix_snoc_case in Hl1 as [->|Hl1]; [|by apply Hl]. rewrite <- Em. symmetry. apply (sr_map _ _ _ _ _ _ HR1). }
    exists s2, txns2, rs2, cur2. split; [by eapply runs_cons|]. by split.
Qed.
End rep.
