(* ===== verification/Server.v ===== *)
(** * The TCP server ([src/server/server.h], [server.cpp], [main.cpp])

    The kernel's sockets are reached through the calls of [Network], which are
    parameters.  [Server::run] is the loop of [loop_step]s, one for each access
    to what other threads change; between two of them a signal can call
    [stop], a thread can end and close its connection, and the threads can do
    anything to the database ([event]). *)

From Stdlib Require Import Strings.String.
From S2P Require Import Prelude.
From S2P Require Import DiskManager.
From S2P Require Import BTree.
From S2P Require Import Store.
From S2P Require Import TreeStore.
From S2P Require Import LogManager.
From S2P Require Import LockManager.
From S2P Require Import Db.
From S2P Require Import Open.

(** [socket], [setsockopt], [bind] to a port, [listen], [accept], [shutdown]
    and [close]: what they return, where the source looks at it. *)
Class Network (N : Type) : Type := {
  net_socket : N -> Z * N;
  net_setsockopt : Z -> N -> N;
  net_bind : Z -> Z -> N -> Z * N;
  net_listen : Z -> Z -> N -> Z * N;
  net_accept : Z -> N -> Z * N;
  net_shutdown : Z -> N -> N;
  net_close : Z -> N -> N;
}.

Definition DEFAULT_PORT : Z := 6380.

(** [threads]: the connections that detached threads serve. *)
Record Server (N F : Type) : Type := mkServer {
  net_ : N;
  db_ : option (DB (BTree F) F);
  listen_fd_ : Z;
  port_ : Z;
  stopping_ : bool;
  threads : list Z;
}.
Arguments mkServer {N F} net_ db_ listen_fd_ port_ stopping_ threads.
Arguments net_ {N F} s.
Arguments db_ {N F} s.
Arguments listen_fd_ {N F} s.
Arguments port_ {N F} s.
Arguments stopping_ {N F} s.
Arguments threads {N F} s.

(** Where the loop of [run] is: before [while (!stopping_.load())], before
    [accept], after an [accept] that failed, after the loop. *)
Inductive loop_pc : Type := Test | Accept | Failed | Returned.

Inductive event (D : Type) : Type :=
| Loop
| Signal
| Finish (conn_fd : Z)
| Serve (f : D -> D).
Arguments Loop {D}.
Arguments Signal {D}.
Arguments Finish {D} conn_fd.
Arguments Serve {D} f.

Section server.
Context {N F : Type} `{Network N, PosixFile F, TruncFile F}.

Abbreviation Srv := (Server N F).
Abbreviation SM := (M Srv).

Definition set_net (n : N) (s : Srv) : Srv := mkServer n (db_ s) (listen_fd_ s) (port_ s) (stopping_ s) (threads s).
Definition set_db (d : option (DB (BTree F) F)) (s : Srv) : Srv :=
  mkServer (net_ s) d (listen_fd_ s) (port_ s) (stopping_ s) (threads s).
Definition set_listen_fd (fd : Z) (s : Srv) : Srv := mkServer (net_ s) (db_ s) fd (port_ s) (stopping_ s) (threads s).
Definition set_port (p : Z) (s : Srv) : Srv := mkServer (net_ s) (db_ s) (listen_fd_ s) p (stopping_ s) (threads s).
Definition set_stopping (b : bool) (s : Srv) : Srv := mkServer (net_ s) (db_ s) (listen_fd_ s) (port_ s) b (threads s).
Definition set_threads (l : list Z) (s : Srv) : Srv := mkServer (net_ s) (db_ s) (listen_fd_ s) (port_ s) (stopping_ s) l.

(** The members before the constructor runs. *)
Definition new_Server (port : Z) (n : N) : Srv := mkServer n None (-1) port false [].

(** A system call that returns a number, and one whose result is not used. *)
Definition on_net (f : N -> Z * N) : SM Z := fun s => let '(r, n) := f (net_ s) in (Ok r, set_net n s).
Definition on_net_ (f : N -> N) : SM unit := modifyS (fun s => set_net (f (net_ s)) s).

(** [data] and [wal] are what opening the two files gave. *)
Definition Server_ctor (data wal : option F) : SM unit :=
  match Open DEFAULT_TIMEOUT_MS data wal with
  | Err e => throw e
  | Ok d =>
      do* modifyS (set_db (Some d)) in
      let* fd := on_net net_socket in
      do* modifyS (set_listen_fd fd) in
      if fd <? 0 then throw StdRuntimeError
      else
        do* on_net_ (net_setsockopt fd) in
        let* s := getS in
        let* r := on_net (net_bind fd (wrap 16 (port_ s))) in
        if r <? 0 then
          do* on_net_ (net_close fd) in
          throw StdRuntimeError
        else
          let* r := on_net (net_listen fd 128) in
          if r <? 0 then
            do* on_net_ (net_close fd) in
            throw StdRuntimeError
          else ret tt
  end.

(** The listening socket, in the destructor. *)
Definition close_listener : SM unit :=
  let* s := getS in
  if 0 <=? listen_fd_ s then on_net_ (net_close (listen_fd_ s)) else ret tt.

(** [db_->Close()], if there is a database. *)
Definition close_db : SM unit :=
  fun s =>
    match db_ s with
    | None => (Ok tt, s)
    | Some d => let '(r, d') := Close d in (r, set_db (Some d') s)
    end.

Definition Server_dtor : SM unit := do* close_listener in close_db.

Definition stop : SM unit :=
  do* modifyS (set_stopping true) in
  let* s := getS in
  if 0 <=? listen_fd_ s then
    do* on_net_ (net_shutdown (listen_fd_ s)) in
    do* on_net_ (net_close (listen_fd_ s)) in
    modifyS (set_listen_fd (-1))
  else ret tt.

Definition loop_step (pc : loop_pc) : SM loop_pc :=
  let* s := getS in
  match pc with
  | Test => ret (if stopping_ s then Returned else Accept)
  | Accept =>
      let* conn_fd := on_net (net_accept (listen_fd_ s)) in
      if conn_fd <? 0 then ret Failed
      else
        do* modifyS (set_threads (threads s ++ [conn_fd])) in
        ret Test
  | Failed => ret (if stopping_ s then Returned else Test)
  | Returned => ret Returned
  end.

(** A [ClientHandler] closes its connection when it is done. *)
Definition finish (conn_fd : Z) : SM unit :=
  let* s := getS in
  if bool_decide (conn_fd ∈ threads s) then
    do* on_net_ (net_close conn_fd) in
    modifyS (set_threads (filter (fun fd => fd <> conn_fd) (threads s)))
  else ret tt.

Definition do_event (e : event (DB (BTree F) F)) (pc : loop_pc) : SM loop_pc :=
  match e with
  | Loop => loop_step pc
  | Signal => do* stop in ret pc
  | Finish fd => do* finish fd in ret pc
  | Serve f => do* modifyS (fun s => set_db (f <$> db_ s) s) in ret pc
  end.

(** [run], for as long as the events tell. *)
Fixpoint accept_loop (es : list (event (DB (BTree F) F))) (pc : loop_pc) : SM loop_pc :=
  match es with
  | [] => ret pc
  | e :: es' => let* pc' := do_event e pc in accept_loop es' pc'
  end.

(** ** The program *)

(** What a destructor throws ends the program. *)
Definition noexcept (m : SM unit) : SM unit := try_catch m (fun _ => throw AssertionFailure).
End server.

(** [std::stoi]: white space, a sign, digits up to the first other character;
    it throws when there is no digit or the number is no [int]. *)
Definition is_space (b : byte) : bool := (Z_of_byte b =? 32) || ((9 <=? Z_of_byte b) && (Z_of_byte b <=? 13)).
Definition digit (b : byte) : option Z :=
  let z := Z_of_byte b in if (48 <=? z) && (z <=? 57) then Some (z - 48) else None.

Fixpoint skip_space (s : bytes) : bytes :=
  match s with b :: s' => if is_space b then skip_space s' else s | [] => [] end.

Fixpoint digits (acc : Z) (s : bytes) : Z :=
  match s with
  | b :: s' => match digit b with Some x => digits (10 * acc + x) s' | None => acc end
  | [] => acc
  end.

Definition stoi (s : bytes) : result Z :=
  let '(neg, t) :=
    match skip_space s with
    | b :: s' => if Z_of_byte b =? 45 then (true, s') else if Z_of_byte b =? 43 then (false, s') else (false, b :: s')
    | [] => (false, [])
    end in
  match t with
  | b :: _ =>
      match digit b with
      | None => Err StdInvalidArgument
      | Some _ =>
          let z := if neg : bool then - digits 0 t else digits 0 t in
          if (- 2 ^ 31 <=? z) && (z <? 2 ^ 31) then Ok z else Err StdOutOfRange
      end
  | [] => Err StdInvalidArgument
  end.

Definition opt_db : bytes := Eval compute in list_byte_of_string "--db".
Definition opt_port : bytes := Eval compute in list_byte_of_string "--port".
Definition default_db : bytes := Eval compute in list_byte_of_string "keyvdb.db".

(** The loop over the arguments after the program's name: each but the last
    is looked at as an option, with the next one as its value. *)
Fixpoint parse_args (args : list bytes) (db_path : bytes) (port : Z) : result (bytes * Z) :=
  match args with
  | arg :: (value :: _) as args' =>
      let db_path' := if bool_decide (arg = opt_db) then value else db_path in
      let? port' := (if bool_decide (arg = opt_port) then stoi value else Ok port) in
      parse_args args' db_path' port'
  | _ => Ok (db_path, port)
  end.

Section main.
Context {N F : Type} `{Network N, PosixFile F, TruncFile F}.

(** The exit code; [None]: still running after the events.  [files] opens the
    two files of a database. *)
Definition main (files : bytes -> option F * option F) (args : list bytes) (es : list (event (DB (BTree F) F)))
  : M (Server N F) (option Z) :=
  let* opts := query (fun _ => parse_args args default_db DEFAULT_PORT) in
  do* modifyS (set_port opts.2) in
  try_catch
    (do* Server_ctor (files opts.1).1 (files opts.1).2 in
     let* pc := accept_loop es Test in
     match pc with
     | Returned => do* noexcept Server_dtor in ret (Some 0)
     | _ => ret None
     end)
    (fun _ => ret (Some 1)).
End main.
