(* ===== verification/Samples.v ===== *)
(** * Sample pages

    Small concrete nodes, built with the operations of the source, on which
    the theorems are applied. *)

From S2P Require Import Prelude.
From S2P Require Import Buffers.
From S2P Require Import Page.
From S2P Require Import Node.
From S2P Require Import NodeSlots.
From S2P Require Import KeyOrder.
From S2P Require Import NodeCells.
From S2P Require Import NodeKinds.
From S2P Require Import NodeOps.
From S2P Require Import NodeInsert.

Definition ka : bytes := [Byte.x61].
Definition kb : bytes := [Byte.x62].
Definition kc : bytes := [Byte.x63].
Definition va : bytes := [Byte.x31; Byte.x32].
Definition vb : bytes := [Byte.x33].

(** The page that an operation leaves. *)
Definition page_after {A : Type} (m : M Page A) (p : Page) : Page := (m p).2.

Definition leaf0 : Page := page_after (init_leaf 1 INVALID_PAGE_ID) zero_page.
Definition leaf_a : Page := page_after (insert_leaf_cell ka va) leaf0.
Definition leaf_ab : Page := page_after (insert_leaf_cell kb vb) leaf_a.
Definition leaf2 : Page := page_after (init_leaf 2 INVALID_PAGE_ID) zero_page.
Definition leaf_c : Page := page_after (insert_leaf_cell kc vb) leaf2.

Definition int0 : Page := page_after (init_internal 3 INVALID_PAGE_ID) zero_page.
Definition int_a : Page := page_after (insert_separator ka 11) int0.
Definition int_ab : Page := page_after (insert_separator kb 12) int_a.
Definition int2 : Page := page_after (init_internal 4 INVALID_PAGE_ID) zero_page.
Definition int_c : Page := page_after (insert_separator kc 13) int2.

Lemma is_page_id_small (z : Z) : -1 <= z < 100 -> is_page_id z.
Proof. unfold is_page_id. lia. Qed.

(** One more cell, when it fits. *)
Lemma leaf_after (p : Page) (cells : list (bytes * bytes)) (k v : bytes) :
  node p cells -> compacted p cells -> k ∉ cells.*1 -> occupied (upsert k v cells) <= NODE_USABLE_SIZE ->
  let p' := page_after (insert_leaf_cell k v) p in
  node p' (upsert k v cells) /\ compacted p' (upsert k v cells) /\ meta p' = meta p.
Proof.
  intros Hn Hc Hk Ho p'. assert (Hfit : leaf_fits k v cells = true) by by apply bool_decide_eq_true_2.
  destruct (insert_leaf_cell_ok p cells k v Hn) as (q & E & Mt & N & C).
  rewrite Hfit in *. unfold p', page_after. rewrite E. split; [done|]. split; [|done]. apply C. by right.
Qed.

Lemma internal_after (p : Page) (cells : list (bytes * Z)) (k : bytes) (c : Z) :
  node p cells -> compacted p cells -> k ∉ cells.*1 -> is_page_id c ->
  occupied ((k, c) :: cells) <= NODE_USABLE_SIZE ->
  let p' := page_after (insert_separator k c) p in
  node p' (upsert k c cells) /\ compacted p' (upsert k c cells) /\ meta p' = meta p.
Proof.
  intros Hn Hc Hk Hid Ho p'.
  assert (Hfit : separator_fits k c cells = true) by by apply bool_decide_eq_true_2.
  destruct (insert_separator_ok p cells k c Hn Hk Hid) as (q & E & Mt & N & C).
  rewrite Hfit in *. unfold p', page_after. rewrite E. split; [done|]. split; [|done]. apply C. by right.
Qed.

Lemma fresh_leaf (pid : Z) :
  -1 <= pid < 100 ->
  let p' := page_after (init_leaf pid INVALID_PAGE_ID) zero_page in
  node p' (@nil (bytes * bytes)) /\ compacted p' (@nil (bytes * bytes)) /\
  meta p' = fresh_meta pid BTREE_LEAF INVALID_PAGE_ID.
Proof.
  intros Hid p'. destruct (init_leaf_ok pid INVALID_PAGE_ID zero_page) as (q & E & N & C & Mt);
    [apply is_page_id_small; unfold INVALID_PAGE_ID; lia..|].
  unfold p', page_after. rewrite E. split; [done|]. split; [|done].
  unfold compacted. cbn [snd]. rewrite C. done.
Qed.

Lemma fresh_internal (pid : Z) :
  -1 <= pid < 100 ->
  let p' := page_after (init_internal pid INVALID_PAGE_ID) zero_page in
  node p' (@nil (bytes * Z)) /\ compacted p' (@nil (bytes * Z)) /\
  meta p' = fresh_meta pid BTREE_INTERNAL INVALID_PAGE_ID.
Proof.
  intros Hid p'. destruct (init_internal_ok pid INVALID_PAGE_ID zero_page) as (q & E & N & C & Mt);
    [apply is_page_id_small; unfold INVALID_PAGE_ID; lia..|].
  unfold p', page_after. rewrite E. split; [done|]. split; [|done].
  unfold compacted. cbn [snd]. rewrite C. done.
Qed.

Ltac absent :=
  cbn [fmap list_fmap fst];
  repeat first [apply not_elem_of_nil | apply not_elem_of_cons; split; [done|]].

Lemma leaf0_ok : node leaf0 (@nil (bytes * bytes)) /\ compacted leaf0 (@nil (bytes * bytes)) /\
  meta leaf0 = fresh_meta 1 BTREE_LEAF INVALID_PAGE_ID.
Proof. by apply fresh_leaf. Qed.

Lemma leaf2_ok : node leaf2 (@nil (bytes * bytes)) /\ compacted leaf2 (@nil (bytes * bytes)) /\
  meta leaf2 = fresh_meta 2 BTREE_LEAF INVALID_PAGE_ID.
Proof. by apply fresh_leaf. Qed.

Lemma leaf_a_ok : node leaf_a [(ka, va)] /\ compacted leaf_a [(ka, va)] /\ meta leaf_a = meta leaf0.
Proof. destruct leaf0_ok as (N & C & _). apply (leaf_after leaf0 [] ka va N C); [absent|done]. Qed.

Lemma leaf_ab_ok : node leaf_ab [(ka, va); (kb, vb)] /\ compacted leaf_ab [(ka, va); (kb, vb)] /\
  meta leaf_ab = meta leaf_a.
Proof. destruct leaf_a_ok as (N & C & _). refine (leaf_after leaf_a _ kb vb N C _ _); [absent|done]. Qed.

Lemma leaf_c_ok : node leaf_c [(kc, vb)] /\ compacted leaf_c [(kc, vb)] /\ meta leaf_c = meta leaf2.
Proof. destruct leaf2_ok as (N & C & _). apply (leaf_after leaf2 [] kc vb N C); [absent|done]. Qed.

Lemma int0_ok : node int0 (@nil (bytes * Z)) /\ compacted int0 (@nil (bytes * Z)) /\
  meta int0 = fresh_meta 3 BTREE_INTERNAL INVALID_PAGE_ID.
Proof. by apply fresh_internal. Qed.

Lemma int2_ok : node int2 (@nil (bytes * Z)) /\ compacted int2 (@nil (bytes * Z)) /\
  meta int2 = fresh_meta 4 BTREE_INTERNAL INVALID_PAGE_ID.
Proof. by apply fresh_internal. Qed.

Lemma int_a_ok : node int_a [(ka, 11)] /\ compacted int_a [(ka, 11)] /\ meta int_a = meta int0.
Proof.
  destruct int0_ok as (N & C & _).
  refine (internal_after int0 [] ka 11 N C _ _ _); [absent|apply is_page_id_small; lia|rewrite !occupied_cons, occupied_nil, !zlen_enc_internal; unfold internal_cell_size, zlen; cbn [length ka kb kc]; klia].
Qed.

Lemma int_ab_ok : node int_ab [(ka, 11); (kb, 12)] /\ compacted int_ab [(ka, 11); (kb, 12)] /\
  meta int_ab = meta int_a.
Proof.
  destruct int_a_ok as (N & C & _).
  refine (internal_after int_a _ kb 12 N C _ _ _); [absent|apply is_page_id_small; lia|rewrite !occupied_cons, occupied_nil, !zlen_enc_internal; unfold internal_cell_size, zlen; cbn [length ka kb kc]; klia].
Qed.

Lemma int_c_ok : node int_c [(kc, 13)] /\ compacted int_c [(kc, 13)] /\ meta int_c = meta int2.
Proof.
  destruct int2_ok as (N & C & _).
  refine (internal_after int2 [] kc 13 N C _ _ _); [absent|apply is_page_id_small; lia|rewrite !occupied_cons, occupied_nil, !zlen_enc_internal; unfold internal_cell_size, zlen; cbn [length ka kb kc]; klia].
Qed.
