(* ===== verification/LogSpec.v ===== *)
(** * What the log promises

    Records read back as they were appended, LSNs and transaction ids go on
    where they stopped, scans end on any file; and what becomes of an append
    that a crash cut short. *)

From S2P Require Import Prelude.
From S2P Require Import Buffers.
From S2P Require Import DiskManager.
From S2P Require Import LogManager.
From S2P Require Import LogRep.

Section claims.
Context {F : Type} `{ReliableLog F}.

(** C18: an append to a log with the records [rs] gives the next LSN, and
    [read_all] then returns [rs] and the record, in order, with every field
    but [before_exists], which it takes from the length of the before image. *)
Theorem append_then_read (l : LogManager F) (rs : list WalRecord) (r : WalRecord) :
  log_rep l rs -> rec_ok (set_lsn (zlen rs + 1) r) -> txn_id r <= max_txn rs -> zlen rs + 2 < 2 ^ 63 ->
  exists l', append_record_locked r l = (Ok (zlen rs + 1), l') /\
    log_rep l' (rs ++ [set_lsn (zlen rs + 1) r]) /\
    read_all l' = Ok ((as_read <$> rs) ++ [as_read (set_lsn (zlen rs + 1) r)]).
Proof.
  intros Hl Hr Hm Hn. destruct (append_ok l rs r Hl Hr Hm Hn) as (l' & E & Hl'). exists l'.
  split; [done|]. split; [done|]. by rewrite (log_rep_read l' _ Hl'), fmap_app.
Qed.

(** C26: opening the file of a log again recovers exactly the counters it had,
    also with an incomplete header after the last record: LSNs and transaction
    ids go on without a gap or a repetition. *)
Theorem reopen_continues (l : LogManager F) (rs : list WalRecord) (f : F) (r : WalRecord) (n : nat) :
  log_rep l rs -> (n < 32)%nat -> content f = content (log_fd l) ++ take n (serialize r) ->
  next_lsn_ l < 2 ^ 63 -> next_txn_id_ l < 2 ^ 63 ->
  LogManager_ctor (Some f) = Ok (mkLM f (next_lsn_ l) (next_txn_id_ l)).
Proof.
  intros [[Hc Hok Hls Hnl] Hnt] Hn Hf. rewrite Hnl, Hnt, Hc in *. intros Hl Ht.
  by apply (reopen_ok f rs (take n (serialize r)) Hf Hok (torn_header r n Hn)).
Qed.

(** C30: an append that a crash cut short inside the header is ignored by
    [read_all]; one cut inside the payload makes it throw. *)
Theorem torn_append (l : LogManager F) (rs : list WalRecord) (r : WalRecord) (n : nat) :
  Forall rec_ok rs -> rec_ok r -> (n < length (serialize r))%nat ->
  content (log_fd l) = log_bytes rs ++ take n (serialize r) ->
  read_all l = if decide (n < 32)%nat then Ok (as_read <$> rs) else Err StdRuntimeError.
Proof.
  intros Hrs Hr Hn Hc. case_decide as Hlt.
  - eapply read_all_ok; [exact Hc|done|]. apply torn_header. done.
  - apply (torn_payload l rs r n Hc Hrs Hr). change (Z.to_nat WAL_HEADER_SIZE) with 32%nat. lia.
Qed.

(** C33: on a file of any content, also one that is no log, the scans of
    [scan_for_max_ids] and [read_all] end: the constructor returns and
    [read_all] returns or throws. *)
Theorem log_scans_terminate (f : F) :
  (exists l, LogManager_ctor (Some f) = Ok l) /\
  forall a b, read_all (mkLM f a b) <> Err OutOfFuel.
Proof.
  split.
  - destruct (ctor_total f) as (a & b & E). by eexists.
  - intros a b. unfold read_all. cbn [log_fd]. apply read_loop_ends; [done|]. unfold log_fuel.
    rewrite lseek_end_reliable. pose proof (zlen_nonneg (content f)). lia.
Qed.
End claims.

(** ** A sample log *)

Definition key_x : bytes := [Byte.x78].
Definition val_1 : bytes := [Byte.x31].
Definition val_2 : bytes := [Byte.x32].

Definition begin1 : WalRecord := set_lsn 1 (control_record 1 BEGIN).
Definition write1 : WalRecord := mkRecord 2 1 WRITE key_x [] val_1 false.
Definition commit1 : WalRecord := set_lsn 3 (control_record 1 COMMIT).

Definition log1 : LogManager MemFile := mkLM (log_bytes [begin1; write1]) 3 2.

Lemma sample_rec_ok : rec_ok begin1 /\ rec_ok write1 /\ rec_ok commit1.
Proof. repeat split; done. Qed.

Lemma log1_ok : log_rep log1 [begin1; write1].
Proof.
  destruct sample_rec_ok as (H1 & H2 & _). split; [split|]; try done.
  - apply Forall_cons. split; [done|]. by apply Forall_singleton.
  - intros [|[|i]] r E; [by injection E as <-..|done].
Qed.

Lemma append_then_read_witness :
  exists l', append_record_locked (control_record 1 COMMIT) log1 = (Ok 3, l') /\
    log_rep l' [begin1; write1; commit1] /\ read_all l' = Ok [begin1; write1; commit1].
Proof.
  exact (append_then_read log1 [begin1; write1] (control_record 1 COMMIT) log1_ok
    (proj2 (proj2 sample_rec_ok)) ltac:(done) ltac:(done)).
Defined.

Lemma reopen_continues_witness :
  LogManager_ctor (Some (log_fd log1 ++ take 9 (serialize commit1) : MemFile))
    = Ok (mkLM (log_fd log1 ++ take 9 (serialize commit1) : MemFile) 3 2).
Proof.
  exact (reopen_continues log1 [begin1; write1] (log_fd log1 ++ take 9 (serialize commit1) : MemFile) commit1 9
    log1_ok ltac:(lia) eq_refl ltac:(done) ltac:(done)).
Defined.

Lemma torn_append_witness :
  read_all (mkLM (log_bytes [begin1] ++ take 33 (serialize write1)) 2 2 : LogManager MemFile)
    = Err StdRuntimeError.
Proof.
  exact (torn_append (mkLM (log_bytes [begin1] ++ take 33 (serialize write1)) 2 2 : LogManager MemFile)
    [begin1] write1 33 (proj2 (Forall_singleton _ _) (proj1 sample_rec_ok))
    (proj1 (proj2 sample_rec_ok)) ltac:(vm_compute; lia) eq_refl).
Defined.
