(* ===== verification/RecoverySpec.v ===== *)
(** * What recovery promises, and two cases where it does not deliver

    From any map that a crash can leave, with any prefix of the history in the
    log, recovery gives the effect of the committed transactions; it may crash
    itself and be started again. *)

From S2P Require Import Prelude.
From S2P Require Import DiskManager.
From S2P Require Import Store.
From S2P Require Import LogManager.
From S2P Require Import LogRep.
From S2P Require Import Recovery.
From S2P Require Import History.
From S2P Require Import LogSpec.

(** Recovery of the records of a log file, possibly with a torn header. *)
Lemma recover_log {S F : Type} `{KVLaws S, ReliableLog F} (l : LogManager F) (s : S) m rs r n :
  content (log_fd l) = log_bytes rs ++ take n (serialize r) -> (n < 32)%nat ->
  Forall rec_ok rs -> Forall (fun r => as_read r = r) rs -> kv_rep s m ->
  can_all (recovery_updates rs) s = true -> Z.of_nat (size (analysis rs)) < 2 ^ 31 ->
  exists s', recover (l, s) = (Ok (Z.of_nat (size (analysis rs))), (l, s')) /\
    kv_rep s' (apply_updates (recovery_updates rs) m).
Proof.
  intros Hc Hn Hok Hread Hs Hf Hsz. apply recover_updates_ok; [|done..].
  rewrite (read_all_ok l rs _ Hc Hok (torn_header r n Hn)). by rewrite (as_read_all rs Hread).
Qed.

Lemma recovered_prefix base rs cur act rs' m :
  hist base rs cur act -> rs' `prefix_of` rs -> crash_map base rs' m ->
  apply_updates (recovery_updates rs') m = committed_map base rs'.
Proof. intros Hh Hp Hm. destruct (hist_prefix _ _ _ _ _ Hh Hp) as (c & a & Hh'). by eapply recovered. Qed.

(** An update of recovery is a write that counts. *)
Lemma recovery_update_key base rs cur act x :
  hist base rs cur act ->
  (forall r, r ∈ rs -> type r = WRITE -> txn_id r ∉ collect_ids ABORT rs -> key r <> x) ->
  x ∉ (recovery_updates rs).*1.
Proof.
  intros Hi%hist_invariant Hx. apply last_update_None. unfold recovery_updates. rewrite last_update_app.
  unfold undo_updates, redo_updates. rewrite (hi_active _ _ _ _ Hi).
  rewrite (last_update_none _ before_image x (reverse rs)).
  - apply last_update_none. intros r Hr Hw Hab%negb_true_iff%bool_decide_eq_false_1. by apply Hx.
  - intros r Hr Hw Hact%bool_decide_eq_true_1. rewrite elem_of_reverse in Hr. apply Hx; [done|done|].
    intros Hab%(hi_aborted _ _ _ _ Hi). apply elem_of_dom in Hact. rewrite Hab in Hact. by destruct Hact.
Qed.

Lemma restart_crash_map base rs cur act m k :
  hist base rs cur act -> crash_map base rs m ->
  crash_map base rs (apply_updates (take k (recovery_updates rs)) m).
Proof.
  intros Hh Hm x Hx. rewrite lookup_apply_updates. pose proof (recovery_update_key base rs cur act x Hh Hx) as Hno.
  rewrite (proj2 (last_update_None _ x)); [by apply Hm|]. intros Hin. apply Hno.
  rewrite fmap_take in Hin. by apply elem_of_take in Hin as (i & Hi & _); apply list_elem_of_lookup_2 in Hi.
Qed.

(** What the store holds while transactions are open is such a map too. *)
Lemma current_crash_map base rs cur act : hist base rs cur act -> crash_map base rs cur.
Proof.
  intros Hh k Hk. pose proof (hist_invariant _ _ _ _ Hh) as Hi. destruct (owned_dec act k) as [(t & ws & Ht & Hw)|Hno].
  - pose proof (hi_last _ _ _ _ Hi t ws k (fun t' => bool_decide (t' = t)) Ht Hw
      (bool_decide_eq_true_2 _ eq_refl)) as Hl. rewrite last_update_none in Hl; [done|].
    intros r Hr Hty Ht'%bool_decide_eq_true. apply Hk; [done..|]. rewrite Ht'.
    intros Hab%(hi_aborted _ _ _ _ Hi). congruence.
  - rewrite (hi_free _ _ _ _ Hi k Hno). unfold committed_map. rewrite lookup_apply_updates, last_update_none; [done|].
    intros r Hr Hty Hc. apply Hk; [done..|]. apply committed_iff in Hc.
    apply (hi_committed _ _ _ _ Hi _ Hc).
Qed.

(** The log of one transaction that wrote [k] and was rolled back. *)
Definition aborted_log (t : Z) (k v : bytes) : list WalRecord :=
  [set_lsn 1 (control_record t BEGIN); mkRecord 2 t WRITE k [] v false; set_lsn 3 (control_record t ABORT)].

Lemma aborted_analysis t k v : analysis (aborted_log t k v) = ∅.
Proof.
  unfold analysis, aborted_log. cbn. apply leibniz_equiv. intros x.
  rewrite elem_of_difference, elem_of_union, elem_of_singleton, elem_of_empty. tauto.
Qed.

Lemma updates_of_none P image rs :
  (forall r, r ∈ rs -> type r = WRITE -> P (txn_id r) = true -> False) -> updates_of P image rs = [].
Proof.
  intros Hn. unfold updates_of. destruct (filter _ rs) as [|r rs'] eqn:E; [done|]. exfalso.
  assert (Hr : r ∈ filter (fun r => type r = WRITE /\ P (txn_id r) = true) rs) by (rewrite E; left).
  apply list_elem_of_filter in Hr as [[Hw HP] Hr]. by eapply Hn.
Qed.

Lemma aborted_updates t k v : recovery_updates (aborted_log t k v) = [].
Proof.
  unfold recovery_updates. rewrite aborted_analysis. unfold redo_updates, undo_updates.
  rewrite !updates_of_none; [done| |].
  - intros r _ _ Hin%bool_decide_eq_true_1. by apply elem_of_empty in Hin.
  - intros r Hr Hw Hab%negb_true_iff%bool_decide_eq_false_1. apply Hab. unfold aborted_log in *.
    cbn. apply elem_of_union_l, elem_of_singleton.
    repeat (apply elem_of_cons in Hr as [->|Hr]; [done|]). by apply not_elem_of_nil in Hr.
Qed.

(** A key put with the empty value and committed. *)
Definition empty_put_log (t : Z) (k : bytes) : list WalRecord :=
  [set_lsn 1 (control_record t BEGIN); mkRecord 2 t WRITE k [] [] false; set_lsn 3 (control_record t COMMIT)].

Lemma small_log_ok t k v ty :
  0 < t < 2 ^ 63 -> zlen k < 2 ^ 32 -> zlen v < 2 ^ 32 -> ty = ABORT \/ ty = COMMIT ->
  Forall rec_ok [set_lsn 1 (control_record t BEGIN); mkRecord 2 t WRITE k [] v false; set_lsn 3 (control_record t ty)].
Proof.
  intros Ht Hk Hv Hty. apply Forall_cons. split; [by apply control_ok|].
  apply Forall_cons. split; [by split|]. apply Forall_singleton.
  by apply control_ok; [done|done|destruct Hty as [-> | ->]..].
Qed.

Section claims.
Context {S F : Type} `{KVLaws S, ReliableLog F}.


(** C17: recovery may itself crash, after any number [k] of its updates, and
    be run again: the second run still ends in the committed map. *)
Theorem recovery_restartable (l : LogManager F) (s : S) base rs cur act m k :
  hist base rs cur act -> crash_map base rs m -> log_core l rs ->
  Forall (fun r => as_read r = r) rs ->
  kv_rep s (apply_updates (take k (recovery_updates rs)) m) ->
  can_all (recovery_updates rs) s = true ->
  Z.of_nat (size (analysis rs)) < 2 ^ 31 ->
  exists s', recover (l, s) = (Ok (Z.of_nat (size (analysis rs))), (l, s')) /\
    kv_rep s' (committed_map base rs).
Proof.
  intros Hh Hm [Hc Hok _ _] Hread Hs Hf Hsz.
  destruct (recover_log l s _ rs begin1 0 ltac:(by rewrite app_nil_r) ltac:(lia) Hok Hread Hs Hf Hsz)
    as (s' & E & Hs').
  exists s'. split; [done|]. rewrite <- (recovered base rs cur act _ Hh (restart_crash_map base rs cur act m k Hh Hm)).
  done.
Qed.

(** C31: recovery skips the writes of aborted transactions, counting on the
    rollback having reached the disk.  When it has not (the commit of another
    transaction flushed the page with the write, and the crash came before the
    next flush), the write survives recovery, though nothing was committed. *)
Theorem aborted_write_survives (l : LogManager F) (s : S) (t : Z) (k v : bytes) :
  0 < t < 2 ^ 63 -> zlen k < 2 ^ 32 -> zlen v < 2 ^ 32 ->
  content (log_fd l) = log_bytes (aborted_log t k v) -> kv_rep s {[k := v]} ->
  committed_map ∅ (aborted_log t k v) = ∅ /\
  exists s', recover (l, s) = (Ok 0, (l, s')) /\ kv_rep s' {[k := v]}.
Proof.
  intros Ht Hk Hv Hc Hs. split.
  { apply map_eq. intros x. unfold committed_map. by rewrite lookup_apply_updates, last_update_none
      by (intros r _ _ Hcm%committed_iff; by apply elem_of_empty in Hcm). }
  destruct (recover_log l s {[k := v]} (aborted_log t k v) begin1 0) as (s' & E & Hs'); [|lia|..|done| | |].
  - by rewrite app_nil_r.
  - apply small_log_ok; [done..|by left].
  - by repeat (apply Forall_cons; split).
  - by rewrite aborted_updates.
  - rewrite aborted_analysis. done.
  - rewrite aborted_analysis, aborted_updates in *. by exists s'.
Qed.

(** The log writes an empty value and a deletion alike.  A key that a
    committed transaction put with the empty value, and that reads back as
    present before a crash, is gone after recovery. *)
Theorem empty_put_lost (l : LogManager F) (s : S) (m : kvmap) (t : Z) (k : bytes) :
  0 < t < 2 ^ 63 -> zlen k < 2 ^ 32 ->
  content (log_fd l) = log_bytes (empty_put_log t k) -> kv_rep s (<[k := []]> m) ->
  kv_can s (k, None) = true ->
  exists s', recover (l, s) = (Ok 0, (l, s')) /\ kv_rep s' (delete k m).
Proof.
  intros Ht Hk Hc Hs Hcan.
  assert (Ha : analysis (empty_put_log t k) = ∅).
  { unfold analysis. cbn. apply leibniz_equiv. intros x.
    rewrite elem_of_difference, elem_of_union, elem_of_singleton, elem_of_empty. tauto. }
  assert (Hu : recovery_updates (empty_put_log t k) = [(k, None)]).
  { unfold recovery_updates. rewrite Ha. done. }
  destruct (recover_log l s (<[k := []]> m) (empty_put_log t k) begin1 0) as (s' & E & Hs'); [|lia|..|done| | |].
  - by rewrite app_nil_r.
  - apply small_log_ok; [done..|by right].
  - by repeat (apply Forall_cons; split).
  - rewrite Hu. cbn [can_all]. by rewrite Hcan.
  - by rewrite Ha.
  - rewrite Ha, Hu in *. exists s'. split; [done|].
    change (apply_updates [(k, None)] (<[k := []]> m)) with (delete k (<[k := []]> m)) in Hs'.
    by rewrite delete_insert_eq in Hs'.
Qed.
End claims.

(** ** A sample crash *)

(** Transaction 1 committed, transaction 2 had just begun. *)
Definition begin2 : WalRecord := set_lsn 4 (control_record 2 BEGIN).
Definition crash_log : list WalRecord := [begin1; write1; commit1; begin2].

Lemma crash_log_hist : exists cur act, hist ∅ crash_log cur act.
Proof.
  assert (H1 : hist ∅ [begin1] ∅ {[1 := ∅]}).
  { apply (hist_begin ∅ [] ∅ ∅ begin1); [constructor|done|]. intros r Hr. by apply not_elem_of_nil in Hr. }
  assert (H2 := hist_write ∅ [begin1] ∅ {[1 := ∅]} ∅ write1 H1 eq_refl (lookup_insert_eq _ _ _)).
  specialize (H2 ltac:(intros t ws [<- _]%lookup_singleton_Some Hne; by destruct Hne) eq_refl).
  assert (H3 := hist_commit ∅ [begin1; write1] _ _ _ commit1 H2 eq_refl (lookup_insert_eq _ _ _)).
  eexists _, _. apply (hist_begin ∅ [begin1; write1; commit1] _ _ begin2 H3 eq_refl).
  intros r Hr. repeat (apply elem_of_cons in Hr as [->|Hr]; [done|]). by apply not_elem_of_nil in Hr.
Qed.

Lemma crash_log_ok : Forall rec_ok crash_log /\ Forall (fun r => as_read r = r) crash_log.
Proof.
  destruct sample_rec_ok as (H1 & H2 & H3). split.
  - apply Forall_cons. split; [done|]. apply Forall_cons. split; [done|]. apply Forall_cons. split; [done|].
    apply Forall_singleton. by apply control_ok.
  - by repeat (apply Forall_cons; split).
Qed.

Lemma crash_map_base base rs : crash_map base rs base.
Proof. by intros k _. Qed.

Definition crash_file : LogManager MemFile := mkLM (log_bytes crash_log) 5 3.


Lemma recovery_restartable_witness :
  exists s', recover (crash_file, apply_updates (take 1 (recovery_updates crash_log)) ∅ : map_store) =
      (Ok (Z.of_nat (size (analysis crash_log))), (crash_file, s')) /\
    kv_rep s' (committed_map ∅ crash_log).
Proof.
  destruct crash_log_hist as (cur & act & Hh). destruct crash_log_ok as [H1 H2].
  apply (recovery_restartable crash_file (apply_updates (take 1 (recovery_updates crash_log)) ∅ : map_store)
    ∅ crash_log cur act ∅ 1 Hh).
  - apply crash_map_base.
  - split; [done|done| |done]. intros [|[|[|[|i]]]] r E; [by injection E as <-..|done].
  - exact H2.
  - reflexivity.
  - vm_compute. reflexivity.
  - vm_compute. reflexivity.
Defined.

Lemma aborted_write_survives_witness :
  let l := mkLM (log_bytes (aborted_log 1 key_x val_1)) 4 2 : LogManager MemFile in
  committed_map ∅ (aborted_log 1 key_x val_1) = ∅ /\
  exists s', recover (l, {[key_x := val_1]} : map_store) = (Ok 0, (l, s')) /\ kv_rep s' {[key_x := val_1]}.
Proof.
  intros l. apply (aborted_write_survives l ({[key_x := val_1]} : map_store) 1 key_x val_1).
  - lia.
  - vm_compute. reflexivity.
  - vm_compute. reflexivity.
  - reflexivity.
  - reflexivity.
Defined.

Lemma empty_put_lost_witness :
  let l := mkLM (log_bytes (empty_put_log 1 key_x)) 4 2 : LogManager MemFile in
  exists s', recover (l, {[key_x := []]} : map_store) = (Ok 0, (l, s')) /\ kv_rep s' (delete key_x ∅).
Proof.
  intros l. apply (empty_put_lost l ({[key_x := []]} : map_store) ∅ 1 key_x).
  - lia.
  - vm_compute. reflexivity.
  - reflexivity.
  - reflexivity.
  - reflexivity.
Defined.
