(* ===== verification/LockSpec.v ===== *)
(** * What the lock manager promises

    On every schedule of requests, timeouts and releases: conflicting locks
    are never held together, a request is granted exactly when it conflicts
    with nobody, and [release_all] releases all. *)

From S2P Require Import Prelude.
From S2P Require Import LockManager.

(** C9: in every state of the lock table that concurrent requests, timeouts
    and releases can reach, two transactions with a lock on the same key both
    hold it in SHARED mode, and no entry without a holder is left over. *)
Theorem locks_exclude (n : Z) (l : LockManager) :
  rtc lm_step (LockManager_ctor n) l ->
  (forall t1 t2 k m1 m2, holds_mode l t1 k m1 -> holds_mode l t2 k m2 -> t1 <> t2 -> m1 = SHARED /\ m2 = SHARED) /\
  (forall k ls, lock_table_ l !! k = Some ls -> is_free ls = false).
Proof.
  intros Hs. pose proof (lm_steps_inv _ _ (lm_inv_init n) Hs) as Hi. split; [|apply (lm_used l Hi)].
  intros t1 t2 k m1 m2 H1 H2 Hne. pose proof (inv_compatible l t1 t2 k m1 m2 Hi H1 H2 Hne).
  by destruct m1, m2.
Qed.

(** C22: a request is granted at once exactly when no other transaction holds
    a conflicting lock, upgrades and repeated requests included; the requester
    then has the mode or a stronger one and the locks of the others are the
    same.  Otherwise it waits and changes nothing, and when the deadline
    passes it throws and changes nothing. *)
Theorem lock_decides (l : LockManager) (t : Z) (k : bytes) (m : LockMode) :
  lm_inv l -> t <> INVALID_TXN_ID ->
  (grantable l t k m ->
     exists l', lock t k m [] l = (Ok true, l') /\ lm_inv l' /\ has_mode l' t k m /\
       forall t' k' m', t' <> t \/ k' <> k -> holds_mode l' t' k' m' <-> holds_mode l t' k' m') /\
  (~ grantable l t k m ->
     lock t k m [] l = (Ok false, l) /\
     lock t k m [TimedOut (fun x => x)] l = (Err DeadlockException, l)).
Proof.
  intros Hi Ht. split; intros Hg.
  - destruct (lock_granted l t k m [] Hi Ht Hg) as (l' & E & Hi' & Hh & Hf & _). by exists l'.
  - split; [exact (lock_waits l t k m [] Hi Ht Hg)|]. by apply lock_times_out.
Qed.

(** C29: a waiting request is granted by the first wake-up after which no
    conflicting lock is left, whatever the other threads did before it. *)
Theorem wait_ends (l : LockManager) (t : Z) (k : bytes) (m : LockMode) (others : LockManager -> LockManager)
    (ws : list wake) :
  lm_inv l -> t <> INVALID_TXN_ID -> ~ grantable l t k m ->
  lm_inv (others l) -> grantable (others l) t k m ->
  exists l', lock t k m (Notified others :: ws) l = (Ok true, l') /\ lm_inv l' /\ has_mode l' t k m.
Proof.
  intros Hi Ht Hg Hi' Hg'. rewrite (lock_waits l t k m _ Hi Ht Hg).
  destruct (lock_granted (others l) t k m ws Hi' Ht Hg') as (l' & E & Hl & Hh & _). by exists l'.
Qed.

(** [release_all] takes every lock of the transaction, on every key, and
    no lock of another. *)
Theorem release_all_releases (l : LockManager) (t : Z) :
  lm_inv l ->
  exists l', release_all t l = (Ok tt, l') /\ lm_inv l' /\
    (forall k m, ~ holds_mode l' t k m) /\
    forall t' k m, t' <> t -> holds_mode l' t' k m <-> holds_mode l t' k m.
Proof.
  intros Hi. destruct (release_all_ok l t Hi) as (l' & E & Hi' & Hm). exists l'. split; [done|]. split; [done|].
  split; [intros k m [_ Hne]%Hm; done|]. intros t' k m Hne. rewrite Hm. tauto.
Qed.

(** ** Samples *)

Definition state_after {S A : Type} (m : M S A) (s : S) : S := (m s).2.

Definition sample_key : bytes := [Byte.x6b].

(** Transactions 1 and 2 read the key, transaction 3 is waiting to write it. *)
Definition locks1 : LockManager := state_after (lock 1 sample_key SHARED []) (LockManager_ctor 200).
Definition locks2 : LockManager := state_after (lock 2 sample_key SHARED []) locks1.

Lemma locks1_step : rtc lm_step (LockManager_ctor 200) locks1.
Proof.
  apply rtc_once. apply (step_request _ _ 1 sample_key SHARED true); [done|]. vm_compute. reflexivity.
Qed.

Lemma locks2_inv : lm_inv locks2.
Proof.
  eapply lm_step_inv; [eapply lm_steps_inv; [apply (lm_inv_init 200)|apply locks1_step]|].
  apply (step_request _ _ 2 sample_key SHARED true); [done|]. vm_compute. reflexivity.
Qed.

Lemma locks_exclude_witness :
  (forall t1 t2 k m1 m2, holds_mode locks1 t1 k m1 -> holds_mode locks1 t2 k m2 -> t1 <> t2 ->
     m1 = SHARED /\ m2 = SHARED) /\
  (forall k ls, lock_table_ locks1 !! k = Some ls -> is_free ls = false).
Proof. exact (locks_exclude 200 locks1 locks1_step). Defined.

Lemma lock_decides_witness :
  (grantable locks2 3 sample_key EXCLUSIVE ->
     exists l', lock 3 sample_key EXCLUSIVE [] locks2 = (Ok true, l') /\ lm_inv l' /\
       has_mode l' 3 sample_key EXCLUSIVE /\
       forall t' k' m', t' <> 3 \/ k' <> sample_key -> holds_mode l' t' k' m' <-> holds_mode locks2 t' k' m') /\
  (~ grantable locks2 3 sample_key EXCLUSIVE ->
     lock 3 sample_key EXCLUSIVE [] locks2 = (Ok false, locks2) /\
     lock 3 sample_key EXCLUSIVE [TimedOut (fun x => x)] locks2 = (Err DeadlockException, locks2)).
Proof. exact (lock_decides locks2 3 sample_key EXCLUSIVE locks2_inv ltac:(done)). Defined.

(** The other two readers release their locks. *)
Definition both_release (l : LockManager) : LockManager := state_after (release_all 2) (state_after (release_all 1) l).

Lemma both_release_inv : lm_inv (both_release locks2) /\ grantable (both_release locks2) 3 sample_key EXCLUSIVE.
Proof.
  assert (Hi : lm_inv (both_release locks2)).
  { eapply lm_step_inv; [eapply lm_step_inv; [apply locks2_inv|apply (step_release _ _ 1); reflexivity]|].
    apply (step_release _ _ 2). reflexivity. }
  split; [exact Hi|]. apply can_grant_ok; [exact Hi|done|]. vm_compute. reflexivity.
Qed.

Lemma locks2_refuses : ~ grantable locks2 3 sample_key EXCLUSIVE.
Proof. rewrite <- can_grant_ok; [|apply locks2_inv|done]. vm_compute. discriminate. Qed.

Lemma wait_ends_witness :
  exists l', lock 3 sample_key EXCLUSIVE [Notified both_release] locks2 = (Ok true, l') /\ lm_inv l' /\
    has_mode l' 3 sample_key EXCLUSIVE.
Proof.
  exact (wait_ends locks2 3 sample_key EXCLUSIVE both_release [] locks2_inv ltac:(done) locks2_refuses
    (proj1 both_release_inv) (proj2 both_release_inv)).
Defined.

Lemma release_all_releases_witness :
  exists l', release_all 1 locks2 = (Ok tt, l') /\ lm_inv l' /\
    (forall k m, ~ holds_mode l' 1 k m) /\
    forall t' k m, t' <> 1 -> holds_mode l' t' k m <-> holds_mode locks2 t' k m.
Proof. exact (release_all_releases locks2 1 locks2_inv). Defined.
