(* ===== verification/DbSpec.v ===== *)
(** * What transactions promise

    Atomicity, isolation and durability of the calls of concurrent
    transactions, on any store that keeps the promises of [KVLaws], and what a
    failing [fsync] does to a commit. *)

From S2P Require Import Prelude.
From S2P Require Import DiskManager.
From S2P Require Import Store.
From S2P Require Import LogManager.
From S2P Require Import LogRep.
From S2P Require Import Recovery.
From S2P Require Import History.
From S2P Require Import LockManager.
From S2P Require Import Db.
From S2P Require Import DbRep.
From S2P Require Import DbSteps.
From S2P Require Import LogSpec.
From S2P Require Import LockSpec.
From S2P Require Import RecoverySpec.

Section claims.
Context {S F : Type} `{KVLaws S, ReliableLog F}.
Implicit Types (d : DB S F) (txns : gmap Z Transaction) (tx : Transaction) (t : Z) (k v : bytes)
  (base cur : kvmap) (rs : list WalRecord).

(** C8: in every state that concurrent calls of Begin, Get, Put, Delete,
    Commit and Rollback reach from a fresh database over the map [base],
    whatever they answer (waits and deadlock timeouts included), the log file
    reads back as a history of locked writes that leads from [base] to the map
    in the store, and every uncommitted write is under an exclusive lock. *)
Theorem reachable_history d0 base d txns :
  db_rep d0 ∅ base [] base -> rtc sys_step (d0, ∅) (d, txns) ->
  exists rs cur, read_all (log_ d) = Ok rs /\ hist base rs cur (active txns) /\ kv_rep (btree_ d) cur /\
    forall t tx k, txns !! t = Some tx -> is_Some (write_set_ tx !! k) -> holds_mode (lm_ d) t k EXCLUSIVE.
Proof.
  intros Hd Hs. destruct (sys_steps_ok base (d0, ∅) (d, txns)) as (rs & cur & Hr); [by exists [], base|done|].
  cbn in Hr. exists rs, cur. split; [by eapply db_rep_read|]. split; [apply Hr|]. split; [apply Hr|].
  intros t tx k. apply (dr_owned _ _ _ _ _ Hr).
Qed.

(** C16: a Get that is granted returns, for a key the transaction has not
    written, the value left by the committed transactions of the log: no
    uncommitted write of another transaction is visible. *)
Theorem reads_are_committed d txns base rs cur t tx k dl :
  db_rep d txns base rs cur -> txns !! t = Some tx -> write_set_ tx !! k = None ->
  grantable (lm_ d) t k SHARED ->
  exists d', Get k dl (d, tx) = (Ok (Some (committed_map base rs !! k)), (d', tx)) /\
    db_rep d' txns base rs cur /\ has_mode (lm_ d') t k SHARED.
Proof.
  intros Hd Ht Hk Hg. destruct (Get_ok d txns base rs cur t tx k dl Hd Ht Hg) as (d' & E & Hd' & Hh & _).
  exists d'. split; [|by split]. rewrite E. do 3 f_equal.
  apply (current_committed base rs cur (active txns)); [apply Hd|].
  intros (t' & ws & Ht' & Hs). rewrite active_lookup in Ht'. destruct (txns !! t') as [tx'|] eqn:Etx; [|done].
  injection Ht' as <-. unfold before_map in Hs. rewrite lookup_fmap, fmap_is_Some in Hs.
  destruct (Hg t' EXCLUSIVE) as [->|Hc]; [by apply (dr_owned _ _ _ _ _ Hd t' tx')| |done].
  rewrite Ht in Etx. injection Etx as <-. rewrite Hk in Hs. by destruct Hs.
Qed.

(** C15: Rollback gives every key the transaction wrote its committed value
    back, in whatever order the write set is traversed, leaves the other keys
    alone, ends the transaction in the log and releases its locks. *)
Theorem rollback_undoes d txns base rs cur t tx :
  db_rep d txns base rs cur -> txns !! t = Some tx -> can_undo d tx = true -> zlen rs + 2 < 2 ^ 63 ->
  exists d' r cur', Rollback (d, tx) = (Ok tt, (d', set_done tx)) /\ type r = ABORT /\
    db_rep d' (delete t txns) base (rs ++ [r]) cur' /\
    (forall k, cur' !! k = if decide (is_Some (write_set_ tx !! k)) then committed_map base rs !! k else cur !! k) /\
    forall k m, ~ holds_mode (lm_ d') t k m.
Proof.
  intros Hd Ht Hf Hn. destruct (Rollback_ok d txns base rs cur t tx Hd Ht Hf Hn) as (d' & r & E & Hty & _ & Hd' & Hm).
  exists d', r, (restore (before_map tx) cur). split; [done|]. split; [done|]. split; [done|]. split.
  - intros k. rewrite lookup_restore. unfold before_map. rewrite lookup_fmap.
    destruct (write_set_ tx !! k) as [e|] eqn:Ek; [rewrite decide_True by done|by rewrite decide_False by by intros [? ?]].
    cbn. symmetry. apply (hi_before _ _ _ _ (hist_invariant _ _ _ _ (dr_hist _ _ _ _ _ Hd)) t (before_map tx)).
    + by rewrite active_lookup, Ht.
    + unfold before_map. by rewrite lookup_fmap, Ek.
  - intros k m [_ Hne]%Hm. done.
Qed.

End claims.

(** C32: when the [fsync] of a commit fails, Commit throws with the transaction
    marked as ended: its locks stay in the table, and neither the destructor
    nor a later Rollback releases them. *)
Theorem failed_commit_keeps_locks {S F : Type} `{KVStore S, PosixFile F} (d : DB S F) (tx : Transaction)
    (n : Z) (l1 l2 : LogManager F) :
  done_ tx = false -> append_commit (txn_id_ tx) (log_ d) = (Ok n, l1) -> flush l1 = (Err StdSystemError, l2) ->
  exists d', Commit (d, tx) = (Err StdSystemError, (d', set_done tx)) /\ lm_ d' = lm_ d /\
    Transaction_dtor (d', set_done tx) = (Ok tt, (d', set_done tx)) /\
    Rollback (d', set_done tx) = (Err StdRuntimeError, (d', set_done tx)).
Proof.
  intros Hdone E1 E2. exists (set_log l2 (set_log l1 d)). split; [|done].
  unfold Commit. rewrite (check_open_ok d tx _ Hdone).
  rewrite (bind_ok _ _ (d, tx) (d, set_done tx) tt) by done.
  mstep (eq_refl : txn (d, set_done tx) = (Ok (set_done tx), (d, set_done tx))). cbn [txn_id_ set_done].
  rewrite (bind_on_log _ _ d _ _ _ E1). apply bind_err. unfold on_log, zoom. cbn [fst log_ set_log].
  by rewrite E2.
Qed.

(** ** A sample database *)

Definition db0 : DB map_store MemFile := mkDB ∅ (mkLM [] 1 1) (LockManager_ctor 200).

Lemma log0_ok : log_rep (mkLM [] 1 1 : LogManager MemFile) [].
Proof. split; [split|]; done. Qed.

Lemma db0_ok : db_rep db0 ∅ ∅ [] ∅.
Proof. apply (db_rep_fresh (∅ : map_store) _ 200 ∅); [done|apply log0_ok|done]. Qed.

(** Transaction 1 has put one key. *)
Definition tx1 : Transaction := mkTxn 1 false ∅.
Definition db1 : DB map_store MemFile := state_after Begin db0.
Definition put1 : DB map_store MemFile * Transaction := state_after (Put key_x val_1 false) (db1, tx1).

Lemma put1_step : rtc sys_step (db0, ∅) (put1.1, {[1 := put1.2]}).
Proof.
  apply (rtc_l _ _ (db1, {[1 := tx1]})).
  - apply (sys_begin db0 ∅ db1 tx1); [split; done|vm_compute; reflexivity].
  - apply rtc_once. rewrite <- (insert_singleton_eq 1 put1.2 tx1).
    apply (sys_put db1 {[1 := tx1]} 1 tx1 key_x val_1 false (Ok true));
      [apply lookup_singleton_eq|split; done|done|split; done|reflexivity|].
    assert (E : (Put key_x val_1 false (db1, tx1)).1 = Ok true) by (vm_compute; reflexivity).
    unfold put1, state_after. destruct (Put _ _ _ _) as [r [d' tx']]. cbn in *. by subst.
Qed.

Lemma put1_ok : exists rs cur, db_rep put1.1 {[1 := put1.2]} ∅ rs cur /\ zlen rs = 2.
Proof.
  destruct (sys_steps_ok ∅ (db0, ∅) (put1.1, {[1 := put1.2]})) as (rs & cur & Hd);
    [by exists [], ∅; apply db0_ok|apply put1_step|].
  exists rs, cur. split; [exact Hd|]. cbn in Hd.
  pose proof (lc_next_lsn _ _ (lr_core _ _ (dr_log _ _ _ _ _ Hd))) as Hn.
  assert (next_lsn_ (log_ put1.1) = 3) as E by (vm_compute; reflexivity). rewrite E in Hn. lia.
Qed.

Lemma reachable_history_witness :
  exists rs cur, read_all (log_ put1.1) = Ok rs /\ hist ∅ rs cur (active {[1 := put1.2]}) /\
    kv_rep (btree_ put1.1) cur /\
    forall t tx k, ({[1 := put1.2]} : gmap Z Transaction) !! t = Some tx -> is_Some (write_set_ tx !! k) ->
      holds_mode (lm_ put1.1) t k EXCLUSIVE.
Proof. exact (reachable_history db0 ∅ put1.1 {[1 := put1.2]} db0_ok put1_step). Defined.

Lemma reads_are_committed_witness :
  exists rs cur d', Get [Byte.x79] false put1 = (Ok (Some (committed_map ∅ rs !! [Byte.x79])), (d', put1.2)) /\
    db_rep d' {[1 := put1.2]} ∅ rs cur /\ has_mode (lm_ d') 1 [Byte.x79] SHARED.
Proof.
  destruct put1_ok as (rs & cur & Hd & _). exists rs, cur.
  apply (reads_are_committed put1.1 {[1 := put1.2]} ∅ rs cur 1 put1.2 [Byte.x79] false Hd).
  - apply lookup_singleton_eq.
  - vm_compute. reflexivity.
  - apply can_grant_ok; [apply Hd|done|]. vm_compute. reflexivity.
Defined.

Lemma rollback_undoes_witness :
  exists rs (cur : kvmap) d' r cur', Rollback put1 = (Ok tt, (d', set_done put1.2)) /\ type r = ABORT /\
    db_rep d' (delete 1 {[1 := put1.2]}) ∅ (rs ++ [r]) cur' /\
    (forall k, cur' !! k = if decide (is_Some (write_set_ put1.2 !! k)) then committed_map ∅ rs !! k else cur !! k) /\
    forall k m, ~ holds_mode (lm_ d') 1 k m.
Proof.
  destruct put1_ok as (rs & cur & Hd & Hn). exists rs, cur.
  apply (rollback_undoes put1.1 {[1 := put1.2]} ∅ rs cur 1 put1.2 Hd).
  - apply lookup_singleton_eq.
  - vm_compute. reflexivity.
  - rewrite Hn. done.
Defined.


(** A file whose [fsync] fails. *)
Record BadFile : Type := mkBad { written : bytes }.
#[export] Instance bad_posix : PosixFile BadFile := {|
  lseek_end f := zlen (written f);
  pread n off f := None;
  pwrite bs off f := (zlen bs, mkBad (written f ++ bs));
  fsync f := (-1, f);
|}.

Lemma failed_commit_keeps_locks_witness :
  let d := mkDB ∅ (mkLM (mkBad []) 1 1) locks2 : DB map_store BadFile in
  exists d', Commit (d, tx1) = (Err StdSystemError, (d', set_done tx1)) /\ lm_ d' = locks2 /\
    Transaction_dtor (d', set_done tx1) = (Ok tt, (d', set_done tx1)) /\
    Rollback (d', set_done tx1) = (Err StdRuntimeError, (d', set_done tx1)).
Proof.
  intros d. eapply (failed_commit_keeps_locks d tx1); [reflexivity|vm_compute; reflexivity|vm_compute; reflexivity].
Defined.
