(* ===== verification/OpenSpec.v ===== *)
(** * What opening a database promises

    From two empty files a database over the empty map; after a crash the map
    of the committed transactions, made durable; after [Close] the map that
    was there.  And what a crash right after the first [Open] leaves. *)

From S2P Require Import Prelude.
From S2P Require Import NodeKinds.
From S2P Require Import NodeCells.
From S2P Require Import KeyOrder.
From S2P Require Import Node.
From S2P Require Import DiskManager.
From S2P Require Import BufferPool.
From S2P Require Import BTree.
From S2P Require Import TreeInsert.
From S2P Require Import Store.
From S2P Require Import TreeStore.
From S2P Require Import LogManager.
From S2P Require Import LogRep.
From S2P Require Import Recovery.
From S2P Require Import History.
From S2P Require Import LockManager.
From S2P Require Import Db.
From S2P Require Import DbRep.
From S2P Require Import DbSteps.
From S2P Require Import Open.
From S2P Require Import OpenRep.
From S2P Require Import LogSpec.
From S2P Require Import LockSpec.
From S2P Require Import RecoverySpec.

Section claims.
Context {F : Type} `{ReliableLog F}.
Implicit Types (f g : F) (d : DB (BTree F) F) (txns : gmap Z Transaction) (m base : kvmap)
  (rs : list WalRecord).

Lemma db_rep_opened d n m :
  tree_map (btree_ d) m -> log_rep (log_ d) [] -> lm_ d = LockManager_ctor n ->
  map_Forall (fun _ v => val_ok v) m -> db_rep d ∅ m [] m.
Proof. intros Ht Hl Hlm Hv. destruct d as [t l lm]. cbn in *. subst. by apply db_rep_fresh. Qed.

(** On two empty files [Open] makes a database over the empty map. *)
Theorem open_fresh (n : Z) f g :
  content f = [] -> content g = [] ->
  exists d, Open n (Some f) (Some g) = Ok d /\ db_rep d ∅ ∅ [] ∅.
Proof.
  intros Hf Hg. pose proof (ctor_empty g Hg) as Eg.
  destruct (Open_new n f g _ Hf Eg) as (d & E & Ht & Hl & Hlm & _). exists d. split; [done|].
  apply (db_rep_opened d n); [done| |done|done]. rewrite Hl. split; [|done].
  split; [done|constructor| |done]. intros i r Hi. by rewrite lookup_nil in Hi.
Qed.

(** What a crash leaves of a database is opened again. *)
Lemma reopen_after_crash (n : Z) base d txns f g m rs cur rs' r (j : nat) :
  db_rep d txns base rs cur -> map_Forall (fun _ v => val_ok v) base -> rs' `prefix_of` rs ->
  content g = log_bytes rs' ++ take j (serialize r) -> (j < 32)%nat ->
  data_file (content f) m -> crash_map base rs' m ->
  can_all (recovery_updates rs') (opened_tree f) = true -> Z.of_nat (size (analysis rs')) < 2 ^ 31 ->
  exists d', Open n (Some f) (Some g) = Ok d' /\
    db_rep d' ∅ (committed_map base rs') [] (committed_map base rs') /\
    (file_pages (content (data_of d')) < 2 ^ 31 ->
     data_file (content (data_of d')) (committed_map base rs')).
Proof.
  intros Hd Hbase Hpre Hg Hj Hf Hm Hfit Hsz.
  destruct Hpre as [rest ->]. pose proof (lc_ok _ _ (lr_core _ _ (dr_log _ _ _ _ _ Hd))) as Hok.
  pose proof (dr_read _ _ _ _ _ Hd) as Hread. apply Forall_app in Hok as [Hok _], Hread as [Hread _].
  destruct (ctor_total g) as (a & b & Eg).
  destruct (Open_existing n f g _ m (committed_map base rs') (Z.of_nat (size (analysis rs'))) Hf Eg)
    as (d' & E & Ht & Hl & Hlm & Hdf).
  - intros Ht. change (kv_rep (opened_tree f) m) in Ht.
    destruct (recover_log (S := BTree F) (mkLM g a b) (opened_tree f) m rs' r j Hg Hj Hok Hread Ht Hfit Hsz) as (t' & Er & Ht').
    exists t'. split; [exact Er|].
    by rewrite <- (recovered_prefix _ _ _ _ rs' m (dr_hist _ _ _ _ _ Hd) (prefix_app_r _ _ _ (reflexivity _)) Hm).
  - exists d'. split; [exact E|]. split; [|exact Hdf]. apply (db_rep_opened d' n); [done..|].
    apply committed_vals; [exact Hok|]. exact Hbase.
Qed.


Lemma Close_ok d txns base rs cur :
  db_rep d txns base rs cur ->
  exists d', Close d = (Ok tt, d') /\ tree_map (btree_ d') cur /\ log_rep (log_ d') [] /\ lm_ d' = lm_ d /\
    (file_pages (content (data_of d')) < 2 ^ 31 -> data_file (content (data_of d')) cur).
Proof.
  intros Hd. destruct (sync_file (btree_ d) cur (dr_store _ _ _ _ _ Hd)) as (t' & E & Ht & Hf).
  destruct (truncate_ok (log_ d)) as (l' & El & Hl). exists (mkDB t' l' (lm_ d)).
  split; [|by split_and!]. unfold Close.
  rewrite (bind_ok _ _ d (set_btree t' d) tt) by (by apply on_tree_eq).
  by rewrite (zoom_eq log_ set_log truncate _ l' (Ok tt)).
Qed.

(** C25: [Close] and [Open] on the files it leaves give a database with the
    entries that the tree had.  The log is gone with [Close], so that this
    includes the writes of transactions that are still open: they can not be
    undone any more. *)
Theorem close_then_open (n : Z) d txns base rs cur :
  db_rep d txns base rs cur ->
  exists d', Close d = (Ok tt, d') /\
    (file_pages (content (data_of d')) < 2 ^ 31 ->
     exists d'', Open n (Some (data_of d')) (Some (wal_of d')) = Ok d'' /\ db_rep d'' ∅ cur [] cur).
Proof.
  intros Hd. destruct (Close_ok d txns base rs cur Hd) as (d' & E & Ht & Hl & _ & Hf). exists d'. split; [exact E|].
  intros Hs. destruct (ctor_total (wal_of d')) as (a & b & Eg).
  destruct (Open_existing n _ _ _ cur cur 0 (Hf Hs) Eg) as (d'' & E2 & Ht2 & Hl2 & Hlm & _).
  - intros Htm. eexists. split; [|exact Htm].
    assert (Er : read_all (mkLM (wal_of d') a b) = Ok []) by exact (log_rep_read _ _ Hl).
    unfold recover. by rewrite (bind_query _ _ (mkLM (wal_of d') a b, _) []).
  - exists d''. split; [exact E2|]. apply (db_rep_opened d'' n); [done..|]. apply (dr_vals _ _ _ _ _ Hd).
Qed.
End claims.

(** The file names the root page before the page itself has reached it.
    When the process dies between the first [Open] and the first flush, the
    next [Open] succeeds and every access to the tree fails an assertion. *)
Theorem unflushed_root_unusable (n : Z) :
  exists d d', Open n (Some ([] : MemFile)) (Some ([] : MemFile)) = Ok d /\ db_rep d ∅ ∅ [] ∅ /\
    Open n (Some (data_of d)) (Some (wal_of d)) = Ok d' /\
    forall k, (BTree.get k (btree_ d')).1 = Err AssertionFailure.
Proof.
  destruct (open_fresh n ([] : MemFile) ([] : MemFile)) as (d & E & Hd); [done..|].
  assert (Hk : forall k, match Open n (Some ([] : MemFile)) (Some ([] : MemFile)) with
    | Ok d => match Open n (Some (data_of d)) (Some (wal_of d)) with
      | Ok d' => (BTree.get k (btree_ d')).1 = Err AssertionFailure
      | Err _ => False
      end
    | Err _ => False
    end) by (intros k; vm_compute; reflexivity).
  rewrite E in Hk. destruct (Open n (Some (data_of d)) (Some (wal_of d))) as [d'|e] eqn:E'; [|destruct (Hk [])].
  exists d, d'. split; [exact E|]. split; [exact Hd|]. split; [exact E'|exact Hk].
Qed.

(** ** A sample life of a database *)

Definition opened : result (DB (BTree MemFile) MemFile) -> DB (BTree MemFile) MemFile :=
  fun r => match r with Ok d => d | Err _ => mkDB (mkBTree (BufferPool_ctor (FreeList.mkFL (mkDM [] 0) [])) 0)
                                        (mkLM [] 1 1) (LockManager_ctor 0) end.

Definition new_db : DB (BTree MemFile) MemFile := opened (Open 200 (Some ([] : MemFile)) (Some ([] : MemFile))).

Lemma open_fresh_witness :
  exists d, Open 200 (Some ([] : MemFile)) (Some ([] : MemFile)) = Ok d /\ db_rep d ∅ ∅ [] ∅.
Proof. apply (open_fresh 200 ([] : MemFile) ([] : MemFile)); reflexivity. Defined.

Lemma new_db_ok : db_rep new_db ∅ ∅ [] ∅.
Proof.
  destruct (open_fresh 200 ([] : MemFile) ([] : MemFile)) as (d & E & Hd); [done..|].
  unfold new_db. rewrite E. exact Hd.
Qed.

(** Transaction 1 has begun. *)
Definition life1 : DB (BTree MemFile) MemFile := (Begin new_db).2.
Definition life_tx : Transaction := mkTxn 1 false ∅.

Lemma life_begin : Begin new_db = (Ok life_tx, life1).
Proof.
  assert (E : (Begin new_db).1 = Ok life_tx) by (vm_compute; reflexivity).
  unfold life1. rewrite <- E. apply surjective_pairing.
Qed.

(** It puts five entries of almost a quarter of a page, and commits. *)
Definition wide_key (n : nat) : bytes := [byte_of_Z (Z.of_nat n)].
Definition wide_val : bytes := replicate 980 Byte.x2a.
Definition wide_entries : list (bytes * bytes) := (fun n => (wide_key n, wide_val)) <$> seq 1 5.
Definition life2 : DB (BTree MemFile) MemFile * Transaction :=
  default (life1, life_tx) (put_all wide_entries (life1, life_tx)).
Definition life3 : DB (BTree MemFile) MemFile := (Commit (life2.1, life2.2)).2.1.

Lemma life_puts : put_all wide_entries (life1, life_tx) = Some (life2.1, life2.2).
Proof.
  rewrite <- surjective_pairing. unfold life2.
  assert (E : match put_all wide_entries (life1, life_tx) with Some _ => true | None => false end = true)
    by (vm_compute; reflexivity).
  destruct (put_all wide_entries (life1, life_tx)) as [st|]; [reflexivity|discriminate].
Qed.

Lemma life_steps : rtc sys_step (new_db, ∅) (life3, ∅).
Proof.
  refine (write_and_commit new_db life1 life_tx wide_entries life2.1 life2.2 life3 _ life_begin life_puts _ eq_refl);
    vm_compute; reflexivity.
Qed.

(** The data file as [Close] leaves it, without entries. *)
Definition empty_file : MemFile := data_of (state_after Close new_db).

Lemma empty_file_ok : data_file (content empty_file) ∅.
Proof.
  destruct (Close_ok new_db ∅ ∅ [] ∅ new_db_ok) as (d' & E & _ & _ & _ & Hf).
  unfold empty_file, state_after. rewrite E. apply Hf.
  assert (E' : (Close new_db).2 = d') by by rewrite E. rewrite <- E'. vm_compute. reflexivity.
Qed.

(** The process dies after the log was flushed and before the pages were, with
    part of another record in the log.  Recovery inserts the five entries again
    and splits the root: the committed keys are there, in a tree of two
    levels. *)
Definition wide_write (n : nat) : WalRecord := mkRecord (Z.of_nat n + 1) 1 WRITE (wide_key n) [] wide_val false.
Definition life_log : list WalRecord :=
  begin1 :: (wide_write <$> seq 1 5) ++ [set_lsn 7 (control_record 1 COMMIT)].
Definition life_wal : MemFile := log_bytes life_log ++ take 5 (serialize begin1).


Lemma close_then_open_witness :
  exists d' d'', Close new_db = (Ok tt, d') /\
    Open 200 (Some (data_of d')) (Some (wal_of d')) = Ok d'' /\ db_rep d'' ∅ ∅ [] ∅.
Proof.
  destruct (close_then_open 200 new_db ∅ ∅ [] ∅ new_db_ok) as (d' & E & Ho).
  destruct Ho as (d'' & E2 & Hd2).
  - assert (E' : (Close new_db).2 = d') by (rewrite E; reflexivity). rewrite <- E'. vm_compute. reflexivity.
  - exists d', d''. split; [exact E|]. split; [exact E2|exact Hd2].
Defined.
