(* ===== verification/SessionSpec.v ===== *)
(** * What a session promises

    The bytes of a client are served as the requests they encode, however the
    stream is cut; a client that goes away has its transaction rolled back;
    and the payload of a rejected request is not skipped. *)

From S2P Require Import Prelude.
From S2P Require Import DiskManager.
From S2P Require Import Store.
From S2P Require Import LogManager.
From S2P Require Import LogRep.
From S2P Require Import LockManager.
From S2P Require Import History.
From S2P Require Import Db.
From S2P Require Import DbRep.
From S2P Require Import DbSteps.
From S2P Require Import ClientHandler.
From S2P Require Import SessionRep.
From S2P Require Import SessionRun.
From S2P Require Import LogSpec.
From S2P Require Import DbSpec.

Section loop.
Context {K S F : Type} `{ReliableSocket K, KVStore S, PosixFile F}.
Context (what : exn -> bytes).
Implicit Types (k : K) (d : DB S F) (reqs : list request) (others : list (Others (DB S F))).

Lemma run_all fuel others reqs k st rest xs st' st'' :
  Forall fits_wire reqs -> in_sync what others reqs st ->
  serve_all what others reqs st = (Ok xs, st') -> hang_up st' = (Ok tt, st'') ->
  pending k = concat (enc_request <$> reqs) ++ rest -> zlen rest < 5 -> (length reqs < fuel)%nat ->
  exists k', run what fuel others (handler k st) = (Ok tt, handler (sock_close k') st'') /\
    sent k' = sent k ++ concat (enc_response <$> xs).
Proof.
  intros Hwire. revert fuel others k st xs. induction Hwire as [|r reqs Hr _ IH];
    intros [|fuel] others k st xs Hsync Es Eh Hp Hrest Hfuel; try (simpl in Hfuel; lia); cbn [serve_all] in Es.
  - injection Es as <- <-. cbn [fmap list_fmap concat app] in Hp. rewrite <- Hp in Hrest.
    destruct (run_end what fuel others k st st'' Hrest Eh) as (k' & E & Sk). exists k'. split; [exact E|].
    by rewrite Sk, app_nil_r.
  - destruct Hsync as [Hs1 Hs2]. cbn [fmap list_fmap concat] in Hp. rewrite <- app_assoc in Hp.
    destruct (run_round what fuel others r k st _ Hp) as (k1 & P1 & S1 & ->). cbv zeta.
    set (o := next_others others) in *. set (st1 := (before o st.1, st.2)) in *.
    rewrite (bind_ok _ _ st st1 tt) in Es by done.
    destruct (serve what (during o) r st1) as [[x|e] st2] eqn:Ex; [|by rewrite (bind_err _ _ _ _ _ Ex) in Es].
    rewrite (bind_ok _ _ _ _ _ Ex) in Es.
    destruct (serve_all what (tail others) reqs st2) as [[ys|e] st3] eqn:Ey; [|by rewrite (bind_err _ _ _ _ _ Ey) in Es].
    rewrite (bind_ok _ _ _ _ _ Ey) in Es. injection Es as <- <-.
    destruct (dispatch_serve what (during o) r k1 st1 x st2 _ Hr P1 Hs1 Ex) as (k2 & E2 & P2 & S2).
    destruct (IH fuel (tail others) k2 st2 ys Hs2 Ey Eh P2 Hrest ltac:(simpl in Hfuel; lia)) as (k' & E' & S').
    exists k'. split; [by mstep E2|]. rewrite S', S2, S1. cbn [fmap list_fmap concat]. by rewrite <- app_assoc.
Qed.
End loop.

Section claims.
Context {K S F : Type} `{ReliableSocket K, KVStore S, PosixFile F}.
Context (what : exn -> bytes).
Implicit Types (k : K) (d : DB S F) (reqs : list request) (others : list (Others (DB S F))).


(** a GET that comes without a transaction is answered with an error and
    its payload stays in the stream.  Requests that the key contains, after
    three bytes, are then served: one request gets several responses. *)
Theorem rejected_payload_is_served (fuel : nat) reqs k d pad rest xs st' st'' :
  let key := pad ++ concat (enc_request <$> reqs) in
  length pad = 3%nat -> zlen key < 256 -> pending k = enc_request (ReqGet key) ++ rest -> zlen rest < 5 ->
  Forall fits_wire reqs -> in_sync what [] reqs (d, None) ->
  serve_all what [] reqs (d, None) = (Ok xs, st') -> hang_up st' = (Ok tt, st'') -> (length reqs < fuel)%nat ->
  exists k', run what (2 + fuel) [] (mkHandler k d None) = (Ok tt, mkHandler (sock_close k') st''.1 st''.2) /\
    sent (sock_close k') =
      sent k ++ concat (enc_response <$> RespError no_txn_begin :: RespError unknown_opcode :: xs).
Proof.
  intros key Hpad Hlen Hp Hr Hw Hs E Eh Hf. set (st := (d, None) : DB S F * option Transaction).
  destruct (run_round what (Datatypes.S fuel) [] (ReqGet key) k st rest Hp) as (k1 & P1 & S1 & E1).
  destruct (dispatch_closed what [] (ReqGet key) k1 d (RespError no_txn_begin) st eq_refl) as (k2 & E2 & P2 & S2).
  destruct pad as [|a [|b [|c [|]]]]; try done. cbn [payload_of] in P1.
  assert (He : enc_string key = byte_of_Z 0 :: [byte_of_Z (zlen key); a; b; c] ++ concat (enc_request <$> reqs)).
  { unfold enc_string, be_enc.
    change (le_enc 2 (zlen key)) with [byte_of_Z (zlen key); byte_of_Z (zlen key / 256)].
    pose proof (zlen_nonneg key). by rewrite Z.div_small by lia. }
  rewrite He in P1. rewrite P1, <- app_comm_cons, <- app_assoc in P2.
  destruct (read_exact_ok k2 1 [byte_of_Z 0] _ P2 eq_refl) as (k3 & E3 & P3 & S3).
  destruct (read_exact_ok k3 4 [byte_of_Z (zlen key); a; b; c] _ P3 eq_refl) as (k4 & E4 & P4 & S4).
  destruct (answers_send _ _ (send_error_ok unknown_opcode) k4 st _ st eq_refl) as (k5 & E5 & P5 & S5).
  rewrite P4 in P5. destruct (run_all what fuel [] reqs k5 st rest xs st' st'' Hw Hs E Eh P5 Hr Hf) as (k' & E' & S').
  exists k'. split.
  - change (run what (2 + fuel) [] (handler k st) = (Ok tt, handler (sock_close k') st'')). cbn [Nat.add].
    rewrite E1. cbv zeta. cbn [next_others before during tail fst snd st].
    rewrite (bind_ok _ _ _ _ _ E2). cbn [run].
    rewrite (bind_on_conn _ _ k2 k3 st _ E3), (bind_on_conn _ _ k3 k4 st _ E4).
    rewrite (bind_ok _ _ (handler k4 st) (handler k5 st) tt) by exact E5. exact E'.
  - rewrite close_sent, S', S5, S4, S3, S2, S1. cbn [fmap list_fmap concat]. by rewrite <- !app_assoc.
Qed.
End claims.

(** C24: when the connection ends, also in the middle of a header, the open
    transaction is rolled back: the database goes on without it, its writes
    are undone in the history and its locks are free. *)
Theorem disconnect_rolls_back {K S F : Type} `{ReliableSocket K, KVLaws S, ReliableLog F}
    (what : exn -> bytes) (fuel : nat) others (k : K) (d : DB S F) txns base rs cur t tx :
  db_rep d txns base rs cur -> txns !! t = Some tx -> can_undo d tx = true -> zlen rs + 2 < 2 ^ 63 ->
  zlen (pending k) < 5 ->
  exists k' d' r cur', run what (Datatypes.S fuel) others (mkHandler k d (Some tx)) = (Ok tt, mkHandler k' d' None) /\
    type r = ABORT /\ db_rep d' (delete t txns) base (rs ++ [r]) cur' /\ sent k' = sent k /\
    forall k m, ~ holds_mode (lm_ d') t k m.
Proof.
  intros Hd Ht Hfit Hn Hp.
  destruct (Rollback_ok d txns base rs cur t tx Hd Ht Hfit Hn) as (d' & r & E & Hty & _ & Hd' & Hm).
  assert (Eh : hang_up (d, Some tx) = (Ok tt, (d', None))).
  { unfold hang_up. mstep (eq_refl : getS (d, Some tx) = (Ok (d, Some tx), (d, Some tx))). cbn [snd].
    assert (E1 : try_catch (on_slot Rollback) (fun _ => ret tt) (d, Some tx) = (Ok tt, (d', Some (set_done tx)))).
    { unfold try_catch, on_slot. cbn [fst snd]. by rewrite E. }
    by mstep E1. }
  destruct (run_end what fuel others k (d, Some tx) (d', None) Hp Eh) as (k' & E' & Sk).
  eexists (sock_close k'), d', r, _. split; [exact E'|]. split; [done|]. split; [exact Hd'|].
  split; [by rewrite close_sent|]. by intros k0 m [_ Hne]%Hm.
Qed.

(** ** A sample session *)

Definition no_message (e : exn) : bytes := [].

(** A client that puts a key, reads it and commits, on a connection that
    passes two bytes at a time. *)
Definition sample_reqs : list request := [ReqBegin; ReqPut key_x val_1; ReqGet key_x; ReqCommit].
Definition sample_conn (reqs : list request) : MemSocket := mkMS (concat (enc_request <$> reqs) ++ [Byte.x01]) [] 1.
Definition sample_end (reqs : list request) : DB map_store MemFile * option Transaction :=
  (serve_all no_message [] reqs (db0, None)).2.

Lemma eq_state {S A : Type} (m : M S A) (s : S) r : (m s).1 = r -> m s = (r, (m s).2).
Proof. intros <-. apply surjective_pairing. Qed.

Lemma hang_up_closed (st : DB map_store MemFile * option Transaction) : st.2 = None -> hang_up st = (Ok tt, st).
Proof. destruct st as [d [tx|]]; done. Qed.

Lemma sample_serves reqs xs :
  (serve_all no_message [] reqs (db0, None)).1 = Ok xs ->
  serve_all no_message [] reqs (db0, None) = (Ok xs, sample_end reqs).
Proof. intros <-. apply surjective_pairing. Qed.

Lemma sample_wire reqs : forallb fits_wireb reqs = true -> Forall fits_wire reqs.
Proof.
  induction reqs as [|r reqs IH]; cbn [forallb]; [constructor|]. intros [Hr Hs]%andb_true_iff.
  apply Forall_cons. split; [by apply fits_wireb_ok|by apply IH].
Qed.


(** A GET whose key holds the frame of a BEGIN. *)
Definition smuggler : bytes := [Byte.x00; Byte.x00; Byte.x00] ++ concat (enc_request <$> [ReqBegin]).

Lemma rejected_payload_is_served_witness :
  exists k' d', run no_message 4 [] (mkHandler (mkMS (enc_request (ReqGet smuggler)) [] 1) db0 None) =
      (Ok tt, mkHandler (sock_close k') d' None) /\
    ms_out (sock_close k') =
      concat (enc_response <$> [RespError no_txn_begin; RespError unknown_opcode; RespOk]).
Proof.
  set (st := sample_end [ReqBegin]).
  destruct (rejected_payload_is_served no_message 2 [ReqBegin] (mkMS (enc_request (ReqGet smuggler)) [] 1) db0
    [Byte.x00; Byte.x00; Byte.x00] [] [RespOk] st (hang_up st).2) as (k' & E' & Hs).
  - reflexivity.
  - vm_compute. reflexivity.
  - symmetry. apply app_nil_r.
  - vm_compute. reflexivity.
  - by apply Forall_singleton.
  - split; [by left|exact I].
  - apply sample_serves. vm_compute. reflexivity.
  - apply eq_state. vm_compute. reflexivity.
  - cbn. lia.
  - exists k', (hang_up st).2.1. assert (E : (hang_up st).2.2 = None) by (vm_compute; reflexivity).
    rewrite E in E'. split; [exact E'|exact Hs].
Defined.

Lemma disconnect_rolls_back_witness :
  exists k' d' r cur' rs, run no_message 1 [] (mkHandler (mkMS [Byte.x02; Byte.x00] [] 0) put1.1 (Some put1.2)) =
      (Ok tt, mkHandler k' d' None) /\
    type r = ABORT /\ db_rep d' (delete 1 {[1 := put1.2]}) ∅ (rs ++ [r]) cur' /\ ms_out k' = [] /\
    forall k m, ~ holds_mode (lm_ d') 1 k m.
Proof.
  destruct put1_ok as (rs & cur & Hd & Hn).
  destruct (disconnect_rolls_back no_message 0 [] (mkMS [Byte.x02; Byte.x00] [] 0) put1.1 {[1 := put1.2]} ∅ rs cur 1
    put1.2 Hd) as (k' & d' & r & cur' & Hall).
  - apply lookup_singleton_eq.
  - vm_compute. reflexivity.
  - lia.
  - vm_compute. reflexivity.
  - exists k', d', r, cur', rs. exact Hall.
Defined.
