(* ===== verification/ServiceSpec.v ===== *)
(** * What the server promises to its clients

    However the requests of any number of clients interleave, the committed
    transactions are serializable in the order of their commits, every request
    gets an answer, and what was acknowledged as committed is there after a
    crash. *)

From S2P Require Import Prelude.
From S2P Require Import Node.
From S2P Require Import DiskManager.
From S2P Require Import BTree.
From S2P Require Import Store.
From S2P Require Import TreeStore.
From S2P Require Import LogManager.
From S2P Require Import LogRep.
From S2P Require Import Recovery.
From S2P Require Import History.
From S2P Require Import LockManager.
From S2P Require Import Db.
From S2P Require Import DbRep.
From S2P Require Import DbSteps.
From S2P Require Import Open.
From S2P Require Import OpenRep.
From S2P Require Import ClientHandler.
From S2P Require Import SessionRep.
From S2P Require Import Serial.
From S2P Require Import Service.
From S2P Require Import ServiceRep.
From S2P Require Import LogSpec.
From S2P Require Import LockSpec.
From S2P Require Import RecoverySpec.
From S2P Require Import DbSpec.
From S2P Require Import OpenSpec.
From S2P Require Import SessionSpec.

Section claims.
Context {S F : Type} `{KVLaws S, ReliableLog F}.
Context (what : exn -> bytes).
Implicit Types (d : DB S F) (slots : gmap Z (option Transaction)) (base : kvmap) (es : list event).

(** C1: transactions are serializable: take any run of the server on a fresh
    database, with any number of connections whose requests and disconnects
    interleave in any way.  Running the transactions whose COMMIT was answered
    with OK one after the other, in the order of the commits, on the map
    [base] gives exactly the answers that the clients got, and the map that
    the log holds as committed. *)
Theorem service_serializable d0 base es d slots
    (Hd : db_rep d0 ∅ base [] base) (Hr : runs (service_step what) (d0, ∅) es (d, slots)) :
  exists rs, read_all (log_ d) = Ok rs /\ serial base (committed_of es) = Some (committed_map base rs).
Proof.
  destruct (service_runs what base (d0, ∅) (mkSpec base ∅ []) ∅ [] base es (d, slots)) as (s & txns & rs & cur & Hs & HR & _);
    [by apply service_rel_init|exact Hr|].
  exists rs. split; [by apply (db_rep_read d txns base rs cur), HR|].
  rewrite <- (sr_map _ _ _ _ _ _ HR). by apply spec_observed.
Qed.

End claims.


(** What is in the data file when a COMMIT has been answered. *)
Lemma committed_file {F : Type} `{ReliableLog F} (what : exn -> bytes) (d1 d2 : DB (BTree F) F) base s txns rs cur
    slots1 slots2 i :
  service_rel base (d1, slots1) s txns rs cur ->
  service_step what (d1, slots1) (Call i ReqCommit RespOk) (d2, slots2) ->
  kv_rep (btree_ d2) cur /\
  (file_pages (content (data_of d2)) < 2 ^ 31 -> data_file (content (data_of d2)) cur).
Proof.
  intros HR Hs. inversion Hs as [|? ? ? [tx|] ? ? ? otx' Hi Had E|]; subst.
  - destruct (slot_conc _ _ _ _ _ _ _ HR i tx Hi) as (a & _ & Ht). pose proof (sr_db _ _ _ _ _ _ HR) as Hd.
    destruct (commit_outcome what d1 txns base rs cur _ tx Hd (tr_open _ _ _ _ _ Ht) (admissible_room _ _ _ Had))
      as (d' & E1 & _ & Hb).
    change (serve what [] ReqCommit (d1, Some tx)) with (serve_open what [] ReqCommit (d1, Some tx)) in E.
    rewrite E in E1. injection E1 as -> ->. destruct (sync_file (btree_ d1) cur (dr_store _ _ _ _ _ Hd)) as (t' & Et & Hm & Hf).
    assert (Eb : btree_ d' = t') by (rewrite Hb; change (kv_sync (btree_ d1)) with (sync (btree_ d1)); by rewrite Et).
    unfold data_of. rewrite Eb. by split.
  - destruct (closed_outcome what d1 txns base rs cur ReqCommit (sr_db _ _ _ _ _ _ HR) (admissible_room _ _ _ Had))
      as [[Hq _]|(_ & msg & E1)]; [done|]. by rewrite E in E1.
Qed.

(** C2: a server that is killed right after it has answered a COMMIT with OK,
    at any point of a run with any number of clients, some of which have open
    transactions: opening the two files it leaves gives a database that holds
    the map of the acknowledged transactions run serially.  The writes of the
    open ones, which the commit has flushed with its own, are undone. *)
Theorem commit_survives_kill {F : Type} `{ReliableLog F} (what : exn -> bytes) (n : Z)
    (d0 d1 d2 : DB (BTree F) F) (base : kvmap) (es : list event) slots1 slots2 (i : Z) (rs : list WalRecord)
    (Hd0 : db_rep d0 ∅ base [] base) (Hr : runs (service_step what) (d0, ∅) es (d1, slots1))
    (Hc : service_step what (d1, slots1) (Call i ReqCommit RespOk) (d2, slots2))
    (Hread : read_all (log_ d2) = Ok rs) (Hpages : file_pages (content (data_of d2)) < 2 ^ 31)
    (Hfit : can_all (recovery_updates rs) (opened_tree (data_of d2)) = true)
    (Hsz : Z.of_nat (size (analysis rs)) < 2 ^ 31) :
  exists d' M, Open n (Some (data_of d2)) (Some (wal_of d2)) = Ok d' /\
    serial base (committed_of (es ++ [Call i ReqCommit RespOk])) = Some M /\ db_rep d' ∅ M [] M.
Proof.
  destruct (service_runs what base (d0, ∅) (mkSpec base ∅ []) ∅ [] base es (d1, slots1))
    as (s1 & txns1 & l1 & cur1 & S1 & HR1 & _); [by apply service_rel_init|exact Hr|].
  destruct (service_step_refines what base _ _ _ _ _ _ _ HR1 Hc) as (s2 & txns2 & l2 & cur2 & S2 & HR2 & _).
  destruct (committed_file what d1 d2 base s1 txns1 l1 cur1 slots1 slots2 i HR1 Hc) as [Hst Hf].
  pose proof (sr_db _ _ _ _ _ _ HR2) as Hd2. cbn [fst] in Hd2.
  rewrite (kv_rep_unique _ _ _ Hst (dr_store _ _ _ _ _ Hd2)) in Hf.
  rewrite (db_rep_read d2 txns2 base l2 cur2 Hd2) in Hread. injection Hread as ->.
  destruct (reopen_after_crash n base d2 txns2 (data_of d2) (wal_of d2) cur2 rs cur2 rs begin1 0 Hd2
    (dr_vals _ _ _ _ _ Hd0) (reflexivity _)) as (d' & E & Hd' & _); [|lia|by apply Hf| |done|done|].
  - rewrite app_nil_r. apply (lc_content _ _ (lr_core _ _ (dr_log _ _ _ _ _ Hd2))).
  - apply (current_crash_map base rs cur2 (active txns2)), Hd2.
  - exists d', (committed_map base rs). split; [exact E|]. split; [|exact Hd'].
    rewrite <- (sr_map _ _ _ _ _ _ HR2). apply (spec_observed base (es ++ [Call i ReqCommit RespOk])).
    eapply runs_app; [exact S1|]. eapply runs_cons; [exact S2|constructor].
Qed.

(** ** Two clients *)

(** Requests served in a row, as long as there is room for them, and what they
    answer. *)
Section play.
Context {S F : Type} `{KVLaws S, ReliableLog F}.

Fixpoint play (qs : list (Z * request)) (st : DB S F * gmap Z (option Transaction)) :
    option (list event * (DB S F * gmap Z (option Transaction))) :=
  match qs with
  | [] => Some ([], st)
  | (i, q) :: qs' =>
      otx ← st.2 !! i;
      if admissible st.1 otx q then
        match serve no_message [] q (st.1, otx) with
        | (Ok x, (d', otx')) => r ← play qs' (d', <[i := otx']> st.2); Some (Call i q x :: r.1, r.2)
        | _ => None
        end
      else None
  end.

Lemma play_runs qs st es st' : play qs st = Some (es, st') -> runs (service_step no_message) st es st'.
Proof.
  revert st es. induction qs as [|[i q] qs IH]; intros [d slots] es E; cbn [play fst snd] in E.
  - injection E as <- <-. constructor.
  - destruct (slots !! i) as [otx|] eqn:Ei; [|done]. cbn [mbind option_bind] in E.
    destruct (admissible d otx q) eqn:Ea; [|done].
    destruct (serve no_message [] q (d, otx)) as [[x|e] [d' otx']] eqn:Es; [|done].
    destruct (play qs (d', <[i := otx']> slots)) as [[es1 st1]|] eqn:Er; [|done]. injection E as <- <-.
    eapply runs_cons; [|by apply IH]. by apply (service_call no_message d slots i otx q x d' otx').
Qed.

(** The run of the requests that all have room. *)
Lemma play_default qs st :
  bool_decide (is_Some (play qs st)) = true ->
  let p := default ([], st) (play qs st) in runs (service_step no_message) st p.1 p.2.
Proof.
  intros Hs%bool_decide_eq_true. destruct (play qs st) as [[es st']|] eqn:E; [|by destruct Hs]. by apply (play_runs qs).
Qed.
End play.

(** Client 2 reads what client 1 has written and not committed: it has to
    wait, times out and starts again. *)
Definition two_connects : list event := [Connect 1; Connect 2].
Definition two_state : DB map_store MemFile * gmap Z (option Transaction) := (db0, <[2 := None]> (<[1 := None]> ∅)).
Definition two_requests : list (Z * request) :=
  [(1, ReqBegin); (2, ReqBegin); (1, ReqPut key_x val_1); (2, ReqGet key_x); (1, ReqCommit);
   (2, ReqBegin); (2, ReqGet key_x); (2, ReqDelete key_x); (2, ReqGet key_x); (2, ReqCommit)].
Definition two_played : list event * (DB map_store MemFile * gmap Z (option Transaction)) := default ([], two_state) (play two_requests two_state).

Lemma two_runs : runs (service_step no_message) (db0, ∅) (two_connects ++ two_played.1) two_played.2.
Proof.
  eapply (runs_app _ _ _ two_state).
  - eapply runs_cons; [by apply service_connect|]. eapply runs_cons; [by apply service_connect|]. constructor.
  - apply (play_default two_requests). vm_compute. reflexivity.
Qed.

Definition two_committed : list (list exchange) :=
  [[(ReqPut key_x val_1, RespOk)];
   [(ReqGet key_x, RespValue val_1); (ReqDelete key_x, RespOk); (ReqGet key_x, RespNotFound)]].

Lemma service_serializable_witness :
  committed_of (two_connects ++ two_played.1) = two_committed /\
  exists rs, read_all (log_ two_played.2.1) = Ok rs /\ serial ∅ two_committed = Some (committed_map ∅ rs).
Proof.
  assert (E : committed_of (two_connects ++ two_played.1) = two_committed) by (vm_compute; reflexivity).
  split; [exact E|]. rewrite <- E.
  apply (service_serializable no_message db0 ∅ (two_connects ++ two_played.1) two_played.2.1 two_played.2.2 db0_ok).
  rewrite <- surjective_pairing. exact two_runs.
Defined.


(** ** An acknowledged commit and a crash *)

Abbreviation tree_state := (DB (BTree MemFile) MemFile * gmap Z (option Transaction))%type.

(** A client puts the five wide entries and commits, which splits the root,
    and begins another transaction. *)
Definition ack_requests : list (Z * request) :=
  (1, ReqBegin) :: ((fun e => (1, ReqPut e.1 e.2)) <$> wide_entries) ++ [(1, ReqCommit)].
Definition ack_state : tree_state := (new_db, <[1 := None]> ∅).
Definition ack_played : list event * tree_state := default ([], ack_state) (play ack_requests ack_state).
Definition ack_more : list event * tree_state :=
  default ([], ack_played.2) (play [(1, ReqBegin)] ack_played.2).

Lemma ack_plays :
  bool_decide (is_Some (play ack_requests ack_state)) = true /\
  bool_decide (is_Some (play [(1, ReqBegin)] ack_played.2)) = true.
Proof. split; vm_compute; reflexivity. Qed.

Lemma ack_run1 : runs (service_step no_message) (new_db, ∅) (Connect 1 :: ack_played.1) ack_played.2.
Proof.
  apply (runs_cons _ _ _ ack_state); [by apply service_connect|].
  exact (play_default ack_requests ack_state (proj1 ack_plays)).
Qed.

Lemma ack_run2 : runs (service_step no_message) ack_played.2 ack_more.1 ack_more.2.
Proof. exact (play_default [(1, ReqBegin)] ack_played.2 (proj2 ack_plays)). Qed.

Definition ack_puts : list exchange := (fun e => (ReqPut e.1 e.2, RespOk)) <$> wide_entries.

Lemma ack_events : committed_of (Connect 1 :: ack_played.1) = [ack_puts] /\ ack_more.1 = [Call 1 ReqBegin RespOk].
Proof. vm_compute. split; reflexivity. Qed.

Definition begin_again : WalRecord := set_lsn 8 (control_record 2 BEGIN).

Lemma ack_logs :
  read_all (log_ ack_played.2.1) = Ok life_log /\ read_all (log_ ack_more.2.1) = Ok (life_log ++ [begin_again]).
Proof. vm_compute. split; reflexivity. Qed.


(** ** A commit next to an open transaction, and a kill *)

(** Client 2 has written, and not committed, when client 1 commits. *)
Definition kill_requests : list (Z * request) :=
  [(1, ReqBegin); (2, ReqBegin)] ++ ((fun e => (1, ReqPut e.1 e.2)) <$> wide_entries) ++ [(2, ReqPut key_x val_1)].
Definition kill_state : tree_state := (new_db, <[2 := None]> (<[1 := None]> ∅)).
Definition kill_played : list event * tree_state := default ([], kill_state) (play kill_requests kill_state).
Definition kill_commit : list event * tree_state :=
  default ([], kill_played.2) (play [(1, ReqCommit)] kill_played.2).

Lemma kill_plays :
  bool_decide (is_Some (play kill_requests kill_state)) = true /\
  bool_decide (is_Some (play [(1, ReqCommit)] kill_played.2)) = true /\
  kill_commit.1 = [Call 1 ReqCommit RespOk] /\
  committed_of ((Connect 1 :: Connect 2 :: kill_played.1) ++ [Call 1 ReqCommit RespOk]) = [ack_puts].
Proof. split_and!; vm_compute; reflexivity. Qed.

Lemma kill_run : runs (service_step no_message) (new_db, ∅) (Connect 1 :: Connect 2 :: kill_played.1) kill_played.2.
Proof.
  apply (runs_cons _ _ _ (new_db, <[1 := None]> ∅)); [by apply service_connect|].
  apply (runs_cons _ _ _ kill_state); [by apply service_connect|].
  exact (play_default kill_requests kill_state (proj1 kill_plays)).
Qed.

Lemma kill_step : service_step no_message kill_played.2 (Call 1 ReqCommit RespOk) kill_commit.2.
Proof.
  apply runs_one. rewrite <- (proj1 (proj2 (proj2 kill_plays))).
  exact (play_default [(1, ReqCommit)] kill_played.2 (proj1 (proj2 kill_plays))).
Qed.

Definition kill_log : list WalRecord :=
  match read_all (log_ kill_commit.2.1) with Ok rs => rs | Err _ => [] end.

Lemma kill_read : read_all (log_ kill_commit.2.1) = Ok kill_log.
Proof.
  assert (E : match read_all (log_ kill_commit.2.1) with Ok _ => true | Err _ => false end = true) by (vm_compute; reflexivity).
  unfold kill_log. destruct (read_all (log_ kill_commit.2.1)); [reflexivity|discriminate].
Qed.

Lemma commit_survives_kill_witness :
  exists d', Open 200 (Some (data_of kill_commit.2.1)) (Some (wal_of kill_commit.2.1)) = Ok d' /\
    db_rep d' ∅ (list_to_map wide_entries) [] (list_to_map wide_entries).
Proof.
  pose proof kill_run as Hr. pose proof kill_step as Hc.
  rewrite (surjective_pairing kill_played.2) in Hr, Hc. rewrite (surjective_pairing kill_commit.2) in Hc.
  destruct (commit_survives_kill no_message 200 new_db _ _ ∅ _ _ _ 1 kill_log new_db_ok Hr Hc kill_read)
    as (d' & M & E & Es & Hd).
  - vm_compute. reflexivity.
  - vm_compute. reflexivity.
  - vm_compute. reflexivity.
  - exists d'. split; [exact E|]. rewrite (proj2 (proj2 (proj2 kill_plays))) in Es.
    assert (Em : serial ∅ [ack_puts] = Some (list_to_map wide_entries)) by (vm_compute; reflexivity).
    rewrite Em in Es. injection Es as <-. exact Hd.
Defined.
