(* ===== verification/ServerSpec.v ===== *)
(** * What the server does with sockets

    Every descriptor is closed once; a signal ends the accept loop; and a
    server that can not have its port leaves a new database unusable. *)

From S2P Require Import Prelude.
From S2P Require Import DiskManager.
From S2P Require Import BTree.
From S2P Require Import Store.
From S2P Require Import TreeStore.
From S2P Require Import LogManager.
From S2P Require Import LogRep.
From S2P Require Import LockManager.
From S2P Require Import Db.
From S2P Require Import Open.
From S2P Require Import Server.
From S2P Require Import LogSpec.
From S2P Require Import OpenSpec.

(** What a call that makes a descriptor does to the open ones. *)
Definition opens (before : gset Z) (fd : Z) (after : gset Z) : Prop :=
  (fd < 0 /\ after = before) \/ (0 <= fd /\ (fd ∉ before) /\ after = {[fd]} ∪ before).

(** Sockets as POSIX has them.  Of [close] nothing is said for a descriptor
    that is not open. *)
Class ReliableNetwork (N : Type) `{Network N} : Type := {
  open_fds : N -> gset Z;
  fds_valid : forall n fd, fd ∈ open_fds n -> 0 <= fd;
  socket_law : forall n, opens (open_fds n) (net_socket n).1 (open_fds (net_socket n).2);
  accept_law : forall fd n, opens (open_fds n) (net_accept fd n).1 (open_fds (net_accept fd n).2);
  accept_bad : forall fd n, fd ∉ open_fds n -> (net_accept fd n).1 < 0;
  setsockopt_law : forall fd n, open_fds (net_setsockopt fd n) = open_fds n;
  bind_law : forall fd p n, open_fds (net_bind fd p n).2 = open_fds n;
  listen_law : forall fd b n, open_fds (net_listen fd b n).2 = open_fds n;
  shutdown_law : forall fd n, open_fds (net_shutdown fd n) = open_fds n;
  close_law : forall fd n, fd ∈ open_fds n -> open_fds (net_close fd n) = open_fds n ∖ {[fd]};
}.

(** ** Sockets in memory *)

(** Descriptors, and how many connections are waiting. *)
Record MemNet : Type := mkMN { mn_fds : gset Z; mn_waiting : nat }.

Definition mn_open (n : MemNet) : gset Z := filter (fun fd => 0 <= fd) (mn_fds n).
Definition next_fd (X : gset Z) : Z := 1 + foldr Z.max 0 (elements X).

Lemma next_fd_fresh X : 0 <= next_fd X /\ next_fd X ∉ X.
Proof.
  unfold next_fd. assert (Hm : forall l : list Z, 0 <= foldr Z.max 0 l /\ forall x, x ∈ l -> x <= foldr Z.max 0 l).
  { induction l as [|y l [IH1 IH2]]; cbn [foldr]; [split; [done|]; by intros x ?%not_elem_of_nil|].
    split; [lia|]. intros x [->|Hx]%elem_of_cons; [lia|]. specialize (IH2 x Hx). lia. }
  destruct (Hm (elements X)) as [H0 H1]. split; [lia|]. intros Hx. specialize (H1 _ ltac:(by apply elem_of_elements)). lia.
Qed.

Definition mn_add (w : nat) (n : MemNet) : Z * MemNet :=
  (next_fd (mn_fds n), mkMN ({[next_fd (mn_fds n)]} ∪ mn_fds n) w).

#[export] Instance mem_net : Network MemNet := {|
  net_socket n := mn_add (mn_waiting n) n;
  net_setsockopt fd n := n;
  net_bind fd p n := (0, n);
  net_listen fd b n := (0, n);
  net_accept fd n :=
    match mn_waiting n with
    | S w => if decide (fd ∈ mn_open n) then mn_add w n else (-1, n)
    | O => (-1, n)
    end;
  net_shutdown fd n := n;
  net_close fd n := mkMN (mn_fds n ∖ {[fd]}) (mn_waiting n);
|}.

Lemma mn_add_law w n : opens (mn_open n) (mn_add w n).1 (mn_open (mn_add w n).2).
Proof.
  destruct (next_fd_fresh (mn_fds n)) as [H0 H1]. right. cbn [mn_add fst snd]. split; [done|].
  unfold mn_open. cbn [mn_fds]. split; [by rewrite elem_of_filter; intros [_ ?]|].
  apply set_eq. intros x. rewrite elem_of_filter, !elem_of_union, elem_of_filter, elem_of_singleton. split; [tauto|].
  intros [->|?]; tauto.
Qed.

#[export, refine] Instance mem_net_reliable : ReliableNetwork MemNet := {| open_fds := mn_open |}.
Proof.
  - intros n fd Hfd. unfold mn_open in Hfd. by apply elem_of_filter in Hfd as [? _].
  - intros n. apply mn_add_law.
  - intros fd n. cbn. destruct (mn_waiting n) as [|w]; [by left|]. case_decide; [apply mn_add_law|by left].
  - intros fd n Hfd. cbn. destruct (mn_waiting n) as [|w]; [done|]. by rewrite decide_False.
  - done.
  - done.
  - done.
  - done.
  - intros fd n _. unfold mn_open. cbn [net_close mem_net mn_fds]. apply set_eq. intros x.
    rewrite elem_of_filter, !elem_of_difference, elem_of_filter. tauto.
Defined.

Section server.
Context {N F : Type} `{ReliableNetwork N, PosixFile F, TruncFile F}.
Implicit Types (s : Server N F) (n : N) (base : gset Z) (fd : Z) (pc : loop_pc)
  (es : list (event (DB (BTree F) F))).

(** ** Descriptors *)

Definition listening s : gset Z := if 0 <=? listen_fd_ s then {[listen_fd_ s]} else ∅.
Definition conns s : gset Z := list_to_set (threads s).

(** Besides [base], the listening socket and the connections of the threads
    are open, all different. *)
Record fds_ok base s : Prop := {
  fo_open : open_fds (net_ s) = base ∪ listening s ∪ conns s;
  fo_nodup : NoDup (threads s);
  fo_base : base ## listening s ∪ conns s;
  fo_apart : listening s ## conns s;
}.

Lemma fds_ok_net base s s' :
  fds_ok base s -> open_fds (net_ s') = open_fds (net_ s) -> listen_fd_ s' = listen_fd_ s ->
  threads s' = threads s -> fds_ok base s'.
Proof.
  intros [Fo Fn Fb Fa] En El Et. unfold listening, conns in *.
  split; unfold listening, conns; rewrite ?En, ?El, ?Et; done.
Qed.

(** A connection that is accepted is a new descriptor. *)
Lemma fds_ok_accept base s n fd :
  fds_ok base s -> opens (open_fds (net_ s)) fd (open_fds n) -> 0 <= fd ->
  fds_ok base (set_threads (threads s ++ [fd]) (set_net n s)).
Proof.
  intros [Fo Fn Fb Fa] [[Hneg _]|(_ & Hnew & En)] Hfd; [lia|]. rewrite Fo in Hnew, En.
  unfold conns in *. assert (Hl : fd ∉ threads s) by (intros Hin; apply Hnew; set_solver).
  split; unfold listening, conns; cbn [net_ listen_fd_ threads set_threads set_net]; fold (listening s).
  - rewrite En, list_to_set_app_L. set_solver.
  - apply NoDup_app. split; [done|]. split; [|apply NoDup_singleton]. intros x Hx ->%list_elem_of_singleton. done.
  - rewrite list_to_set_app_L. set_solver.
  - rewrite list_to_set_app_L. set_solver.
Qed.

Lemma conns_filter (l : list Z) fd : list_to_set (filter (fun x => x <> fd) l) =@{gset Z} list_to_set l ∖ {[fd]}.
Proof. apply set_eq. intros x. rewrite elem_of_list_to_set, list_elem_of_filter. set_solver. Qed.

Lemma fds_ok_finish base s fd :
  fds_ok base s -> fd ∈ threads s ->
  fds_ok base (set_threads (filter (fun x => x <> fd) (threads s)) (set_net (net_close fd (net_ s)) s)).
Proof.
  intros [Fo Fn Fb Fa] Hin. unfold conns in *.
  assert (Hc : fd ∈ (list_to_set (threads s) : gset Z)) by by apply elem_of_list_to_set.
  assert (Hbase : fd ∉ base) by set_solver. assert (Hlist : fd ∉ listening s) by set_solver.
  split; unfold listening, conns; cbn [net_ listen_fd_ threads set_threads set_net]; fold (listening s).
  - rewrite close_law, Fo, conns_filter by (rewrite Fo; set_solver). set_solver.
  - by apply NoDup_filter.
  - rewrite conns_filter. set_solver.
  - rewrite conns_filter. set_solver.
Qed.

(** The listening socket goes, and is not closed again. *)
Lemma fds_ok_unlisten base s :
  fds_ok base s -> 0 <= listen_fd_ s ->
  open_fds (net_close (listen_fd_ s) (net_shutdown (listen_fd_ s) (net_ s))) = base ∪ conns s /\
  open_fds (net_close (listen_fd_ s) (net_ s)) = base ∪ conns s.
Proof.
  intros [Fo Fn Fb Fa] Hl. unfold listening in *. rewrite (proj2 (Z.leb_le _ _)) in * by done.
  split; rewrite close_law; rewrite ?shutdown_law, Fo; set_solver.
Qed.

Lemma stop_ok base s : fds_ok base s ->
  exists s', stop s = (Ok tt, s') /\ fds_ok base s' /\ stopping_ s' = true /\ listen_fd_ s' < 0 /\ threads s' = threads s.
Proof.
  intros Hs. unfold stop. mstep (eq_refl : modifyS (set_stopping true) s = (Ok tt, set_stopping true s)).
  mstep (eq_refl : getS (set_stopping true s) = (Ok (set_stopping true s), set_stopping true s)).
  cbn [listen_fd_ set_stopping]. destruct (Z.leb_spec 0 (listen_fd_ s)) as [Hl|Hl].
  - eexists. split; [done|]. cbn [set_listen_fd stopping_ listen_fd_ threads]. split; [|done].
    destruct (fds_ok_unlisten base s Hs Hl) as [E _]. destruct Hs as [Fo Fn Fb Fa].
    split; cbn; [rewrite E; set_solver|done|set_solver|set_solver].
  - eexists. split; [done|]. split; [|done]. by apply (fds_ok_net base s).
Qed.

Lemma loop_step_ok base s pc : fds_ok base s ->
  exists pc' s', loop_step pc s = (Ok pc', s') /\ fds_ok base s'.
Proof.
  intros Hs. unfold loop_step. mstep (eq_refl : getS s = (Ok s, s)).
  destruct pc; [by eexists _, _| |by eexists _, _|by eexists _, _].
  pose proof (accept_law (listen_fd_ s) (net_ s)) as Ha. unfold on_net, bind.
  destruct (net_accept (listen_fd_ s) (net_ s)) as [fd n] eqn:E. cbn [fst snd] in Ha.
  destruct (Z.ltb_spec fd 0) as [Hneg|Hpos]; eexists _, _; (split; [done|]).
  - destruct Ha as [[_ En]|[? _]]; [|lia]. by apply (fds_ok_net base s).
  - by apply fds_ok_accept.
Qed.

Lemma do_event_ok base s pc e : fds_ok base s ->
  exists pc' s', do_event e pc s = (Ok pc', s') /\ fds_ok base s'.
Proof.
  intros Hs. destruct e as [| |fd|f]; cbn [do_event].
  - by apply loop_step_ok.
  - destruct (stop_ok base s Hs) as (s' & E & Hs' & _). mstep E. by exists pc, s'.
  - unfold finish. rewrite bind_assoc. mstep (eq_refl : getS s = (Ok s, s)). case_bool_decide as Hin.
    + eexists pc, _. split; [done|]. by apply fds_ok_finish.
    + by exists pc, s.
  - eexists pc, _. split; [done|]. by apply (fds_ok_net base s).
Qed.

Lemma accept_loop_ok base s pc es : fds_ok base s ->
  exists pc' s', accept_loop es pc s = (Ok pc', s') /\ fds_ok base s'.
Proof.
  revert s pc. induction es as [|e es IH]; intros s pc Hs; cbn [accept_loop]; [by exists pc, s|].
  destruct (do_event_ok base s pc e Hs) as (pc1 & s1 & E & Hs1). mstep E. by apply IH.
Qed.

(** The constructor keeps the listening socket when it succeeds, and nothing
    when it throws. *)
Lemma ctor_fds data wal s1 (r : result unit) port n :
  Server_ctor data wal (new_Server port n : Server N F) = (r, s1) ->
  match r with
  | Ok _ => fds_ok (open_fds n) s1 /\ stopping_ s1 = false /\ threads s1 = [] /\ 0 <= listen_fd_ s1
  | Err _ => open_fds (net_ s1) = open_fds n
  end.
Proof.
  unfold Server_ctor. destruct (Open DEFAULT_TIMEOUT_MS data wal) as [d|e]; [|by intros [= <- <-]].
  unfold bind, on_net, on_net_, modifyS, getS, throw, ret, set_db, new_Server. cbn.
  pose proof (socket_law n) as Hs. destruct (net_socket n) as [fd n1]. cbn [fst snd] in Hs.
  destruct (Z.ltb_spec fd 0) as [Hneg|Hpos].
  { intros [= <- <-]. cbn. destruct Hs as [[_ E]|[? _]]; [done|lia]. }
  destruct Hs as [[? _]|(_ & Hnew & E1)]; [lia|].
  assert (Hclose : forall n', open_fds n' = open_fds n1 -> open_fds (net_close fd n') = open_fds n)
    by (intros n' E; rewrite close_law, E, E1; set_solver).
  cbn. pose proof (bind_law fd (wrap 16 port) (net_setsockopt fd n1)) as Hb. rewrite setsockopt_law in Hb.
  destruct (net_bind fd (wrap 16 port) (net_setsockopt fd n1)) as [rb n2]. cbn [snd] in Hb.
  destruct (rb <? 0); [intros [= <- <-]; cbn; by apply Hclose|]. cbn.
  pose proof (listen_law fd 128 n2) as Hl. rewrite Hb in Hl. destruct (net_listen fd 128 n2) as [rl n3]. cbn [snd] in Hl.
  destruct (rl <? 0); [intros [= <- <-]; cbn; by apply Hclose|].
  intros [= <- <-]. cbn. split; [|done].
  split; unfold listening, conns; cbn; rewrite ?(proj2 (Z.leb_le 0 fd) Hpos); [rewrite Hl, E1; set_solver|constructor|set_solver|set_solver].
Qed.

Lemma close_listener_ok base s : fds_ok base s ->
  exists s', close_listener s = (Ok tt, s') /\ open_fds (net_ s') = base ∪ conns s.
Proof.
  intros Hs. unfold close_listener. mstep (eq_refl : getS s = (Ok s, s)).
  destruct (Z.leb_spec 0 (listen_fd_ s)) as [Hl|Hl]; eexists; (split; [done|]).
  - by apply fds_ok_unlisten.
  - destruct Hs as [Fo _ _ _]. rewrite Fo. unfold listening. rewrite (proj2 (Z.leb_gt _ _)) by done. set_solver.
Qed.

(** C37: no descriptor is lost and none is closed twice: [close] is only called
    on open ones (the law of [close] has this as its hypothesis).  A
    constructor that throws leaves the sockets as they were; from one that
    succeeds on, through any run of the accept loop, with signals that call
    [stop] and threads that end at any point, the open sockets are the
    listening one, until [stop], and the connections of the threads that run;
    and after the destructor the latter only. *)
Theorem server_descriptors data wal port n :
  let '(r, s1) := Server_ctor data wal (new_Server port n : Server N F) in
  match r with
  | Err _ => open_fds (net_ s1) = open_fds n
  | Ok _ => forall es, exists pc s2, accept_loop es Test s1 = (Ok pc, s2) /\
      open_fds (net_ s2) = open_fds n ∪ listening s2 ∪ conns s2 /\ NoDup (threads s2) /\
      open_fds n ## listening s2 ∪ conns s2 /\ listening s2 ## conns s2 /\
      open_fds (net_ (Server_dtor s2).2) = open_fds n ∪ conns s2
  end.
Proof.
  destruct (Server_ctor data wal (new_Server port n)) as [r s1] eqn:E. pose proof (ctor_fds data wal s1 r port n E) as Hr.
  destruct r as [[]|e]; [|exact Hr]. destruct Hr as [Hs _]. intros es.
  destruct (accept_loop_ok _ s1 Test es Hs) as (pc & s2 & E2 & Hs2). exists pc, s2. split; [exact E2|].
  pose proof Hs2 as [Fo Fn Fb Fa]. split_and!; [done..|].
  destruct (close_listener_ok _ s2 Hs2) as (s3 & E3 & Ho). unfold Server_dtor. rewrite (bind_ok _ _ _ _ _ E3).
  unfold close_db. destruct (db_ s3) as [d|]; [|exact Ho]. by destruct (Close d).
Qed.

(** ** Stopping *)

Definition is_loop (e : event (DB (BTree F) F)) : bool := match e with Loop => true | _ => false end.
Definition loops (es : list (event (DB (BTree F) F))) : nat := length (filter (fun e => is_loop e = true) es).

(** How many steps of the loop are left when it has to stop. *)
Definition rank (pc : loop_pc) : nat := match pc with Accept => 2 | Test | Failed => 1 | Returned => 0 end.

Definition stopped s : Prop := stopping_ s = true /\ listen_fd_ s < 0.

Lemma stopped_event s pc e : stopped s ->
  exists pc' s', do_event e pc s = (Ok pc', s') /\ stopped s' /\ threads s' ⊆ threads s /\
    (rank pc' <= rank pc - (if is_loop e then 1 else 0))%nat.
Proof.
  intros Hs. pose proof Hs as [Hst Hl]. destruct e as [| |fd|f]; cbn [do_event is_loop].
  - unfold loop_step. mstep (eq_refl : getS s = (Ok s, s)). rewrite Hst.
    destruct pc; [by eexists _, _| |by eexists _, _|by eexists _, _].
    pose proof (accept_bad (listen_fd_ s) (net_ s)) as Ha. unfold on_net, bind.
    destruct (net_accept (listen_fd_ s) (net_ s)) as [fd n]. cbn [fst] in Ha.
    destruct (Z.ltb_spec fd 0) as [Hneg|Hpos]; [by eexists _, _|].
    exfalso. specialize (Ha ltac:(intros Hv%fds_valid; lia)). lia.
  - unfold stop. rewrite bind_assoc. mstep (eq_refl : modifyS (set_stopping true) s = (Ok tt, set_stopping true s)).
    rewrite bind_assoc. mstep (eq_refl : getS (set_stopping true s) = (Ok (set_stopping true s), set_stopping true s)).
    cbn [listen_fd_ set_stopping]. rewrite (proj2 (Z.leb_gt _ _)) by done.
    eexists _, _. split; [done|]. split; [by split|]. split; [done|lia].
  - unfold finish. rewrite bind_assoc. mstep (eq_refl : getS s = (Ok s, s)). case_bool_decide.
    + eexists pc, _. split; [done|]. split; [by split|]. split; [|lia].
      cbn [threads set_threads]. intros x [_ Hx]%list_elem_of_filter. done.
    + exists pc, s. split; [done|]. split; [done|]. split; [done|lia].
  - eexists pc, _. split; [done|]. split; [by split|]. split; [done|lia].
Qed.

Lemma stopped_loop s pc es : stopped s -> (rank pc <= loops es)%nat ->
  exists s', accept_loop es pc s = (Ok Returned, s') /\ threads s' ⊆ threads s.
Proof.
  revert s pc. induction es as [|e es IH]; intros s pc Hs Hrk; cbn [accept_loop].
  - destruct pc; cbn in Hrk; try lia. by exists s.
  - destruct (stopped_event s pc e Hs) as (pc1 & s1 & E & Hs1 & Hsub & Hle). mstep E.
    destruct (IH s1 pc1 Hs1) as (s' & E' & Hsub').
    { unfold loops in Hrk. rewrite filter_cons in Hrk. unfold loops. case_decide as Hd; cbn [length] in Hrk.
      - rewrite Hd in Hle. lia.
      - apply not_true_is_false in Hd. rewrite Hd in Hle. lia. }
    exists s'. split; [done|]. by etrans.
Qed.

(** C38: a signal ends the server: whenever the signal handler calls [stop], in
    whatever state the accept loop is, also between its test and [accept], the
    loop returns after at most two of its steps, whatever else happens in
    between, and takes no more connections. *)
Theorem stop_ends_run data wal port n s1 es1 pc s2 es2
    (Hctor : Server_ctor data wal (new_Server port n : Server N F) = (Ok tt, s1))
    (Hrun : accept_loop es1 Test s1 = (Ok pc, s2)) (Hloops : (2 <= loops es2)%nat) :
  exists s3, accept_loop (Signal :: es2) pc s2 = (Ok Returned, s3) /\ threads s3 ⊆ threads s2.
Proof.
  pose proof (ctor_fds data wal s1 (Ok tt) port n Hctor) as [Hs _].
  destruct (accept_loop_ok _ s1 Test es1 Hs) as (pc' & s2' & E & Hs2). rewrite Hrun in E. injection E as <- <-.
  destruct (stop_ok _ s2 Hs2) as (s' & Es & _ & Hst & Hl & Ht).
  destruct (stopped_loop s' pc es2) as (s3 & E3 & Hsub); [by split|destruct pc; cbn; lia|].
  exists s3. split; [|by rewrite <- Ht]. cbn [accept_loop do_event]. rewrite bind_assoc. by mstep Es.
Qed.
End server.

(** ** A server that does not start *)

Lemma ctor_busy {N F : Type} `{Network N, PosixFile F, TruncFile F} (f g : F) (s : Server N F) d :
  (forall fd p n, (net_bind fd p n).1 < 0) -> Open DEFAULT_TIMEOUT_MS (Some f) (Some g) = Ok d ->
  exists s', Server_ctor (Some f) (Some g) s = (Err StdRuntimeError, s') /\ db_ s' = Some d.
Proof.
  intros Hbind E. unfold Server_ctor. rewrite E.
  unfold bind, on_net, on_net_, modifyS, getS, throw, set_db. cbn.
  destruct (net_socket (net_ s)) as [fd n1]. destruct (Z.ltb_spec fd 0) as [Hneg|Hpos]; [by eexists|]. cbn.
  pose proof (Hbind fd (wrap 16 (port_ s)) (net_setsockopt fd n1)) as Hb.
  destruct (net_bind fd (wrap 16 (port_ s)) (net_setsockopt fd n1)) as [rb n2]. cbn [fst] in Hb.
  destruct (Z.ltb_spec rb 0) as [_|Hge]; [by eexists|lia].
Qed.


(** ** Samples *)

(** All ports are taken. *)
Record BusyNet : Type := mkBusy { busy_net : MemNet }.
#[export] Instance busy : Network BusyNet := {|
  net_socket n := let '(r, m) := net_socket (busy_net n) in (r, mkBusy m);
  net_setsockopt fd n := n;
  net_bind fd p n := (-1, n);
  net_listen fd b n := (-1, n);
  net_accept fd n := (-1, n);
  net_shutdown fd n := n;
  net_close fd n := mkBusy (net_close fd (busy_net n));
|}.

Definition new_files (path : bytes) : option MemFile * option MemFile := (Some [], Some []).
(** [keyvdb-server --port 80] *)
Definition sample_args : list bytes := [opt_port; [Byte.x38; Byte.x30]].


(** Two clients come, one of them goes, and the signal finds the server in
    [accept]. *)
Definition sample_events : list (event (DB (BTree MemFile) MemFile)) := [Loop; Loop; Loop; Loop; Finish 2; Loop].
Definition started : Server MemNet MemFile :=
  (Server_ctor (Some ([] : MemFile)) (Some ([] : MemFile)) (new_Server 6380 (mkMN ∅ 5))).2.
Definition running : Server MemNet MemFile := (accept_loop sample_events Test started).2.

Lemma stop_ends_run_witness :
  threads running = [3] /\
  exists s3, accept_loop [Signal; Loop; Loop] Accept running = (Ok Returned, s3) /\ threads s3 ⊆ threads running.
Proof.
  assert (E1 : (Server_ctor (Some ([] : MemFile)) (Some ([] : MemFile)) (new_Server 6380 (mkMN ∅ 5))).1 = Ok tt)
    by (vm_compute; reflexivity).
  assert (E2 : (accept_loop sample_events Test started).1 = Ok Accept) by (vm_compute; reflexivity).
  split; [vm_compute; reflexivity|].
  apply (stop_ends_run (Some ([] : MemFile)) (Some ([] : MemFile)) 6380 (mkMN ∅ 5) started sample_events Accept running
    [Loop; Loop]).
  - unfold started. rewrite <- E1. apply surjective_pairing.
  - unfold running. rewrite <- E2. apply surjective_pairing.
  - vm_compute. lia.
Defined.
