(* ===== verification/Demo.v ===== *)
(** * The demo program ([src/src/main.cpp])

    It opens a new database, writes, reads, rolls back and deletes in a few
    transactions, closes the database and opens it again.  [demo] is the list
    of the lines it prints; the last example runs it. *)

From Stdlib Require Import Strings.String.
From S2P Require Import Prelude.
From S2P Require Import DiskManager.
From S2P Require Import BTree.
From S2P Require Import Store.
From S2P Require Import TreeStore.
From S2P Require Import LogManager.
From S2P Require Import LogRep.
From S2P Require Import LockManager.
From S2P Require Import Db.
From S2P Require Import Open.

Local Open Scope string_scope.

Section demo.
Context {F : Type} `{PosixFile F, TruncFile F}.

(** The database, and the lines printed so far. *)
Abbreviation DM := (M (DB (BTree F) F * list string)).
Abbreviation TxM := (M (DB (BTree F) F * Transaction)).

Definition puts (s : string) : DM unit := modifyS (fun st => (st.1, (st.2 ++ [s])%list)).

Definition str (s : string) : bytes := list_byte_of_string s.
Definition c_str (v : bytes) : string := string_of_list_byte v.

(** The calls of a program with one thread: no lock is waited for. *)
Definition demo_get (k : string) : TxM (option bytes) :=
  let* r := Get (str k) true in match r with Some v => ret v | None => throw OutOfFuel end.
Definition demo_put (k v : string) : TxM unit :=
  let* b := Put (str k) (str v) true in if b : bool then ret tt else throw OutOfFuel.
Definition demo_delete (k : string) : TxM unit :=
  let* b := Delete (str k) true in if b : bool then ret tt else throw OutOfFuel.

(** [auto txn = db->Begin();] and the destructor at the end of the block. *)
Definition with_txn {A : Type} (body : TxM A) : DM A :=
  fun st =>
    match Begin st.1 with
    | (Err e, d) => (Err e, (d, st.2))
    | (Ok tx, d) =>
        let '(r, st1) := body (d, tx) in
        let '(_, (d2, _)) := Transaction_dtor st1 in
        (r, (d2, st.2))
    end.

Definition or_null (v : option bytes) (null : string) : string := match v with Some b => c_str b | None => null end.
Definition true_false (v : option bytes) : string := match v with Some _ => "true" | None => "false" end.

Definition demo_commit : DM unit :=
  do* with_txn (do* demo_put "name" "KeyVDB" in
                do* demo_put "version" "1.0.0" in
                do* demo_put "author" "learning-in-public" in
                Commit) in
  puts "[2] Committed: name, version, author.".

Definition demo_read : DM unit :=
  let* r := with_txn (let* name := demo_get "name" in
                      let* version := demo_get "version" in
                      let* missing := demo_get "does_not_exist" in
                      do* Rollback in
                      ret (name, version, missing)) in
  do* puts ("[3] Get(name)    = " ++ or_null r.1.1 "(null)") in
  do* puts ("    Get(version) = " ++ or_null r.1.2 "(null)") in
  puts ("    Get(missing) = " ++ or_null r.2 "(null — expected)").

(** The first transaction has ended when the second one begins, so that its
    destructor does nothing and may come first. *)
Definition demo_rollback : DM unit :=
  do* with_txn (do* demo_put "temp" "this will be rolled back" in Rollback) in
  let* v := with_txn (let* v := demo_get "temp" in do* Rollback in ret v) in
  puts ("[4] Rolled-back key 'temp' present: " ++ true_false v ++ " (expected: false)").

Definition demo_erase : DM unit :=
  do* with_txn (do* demo_delete "author" in Commit) in
  let* v := with_txn (let* v := demo_get "author" in do* Rollback in ret v) in
  puts ("[5] Deleted 'author' — present after delete: " ++ true_false v ++ " (expected: false)").

Definition demo_reopened : DM unit :=
  let* r := with_txn (let* name := demo_get "name" in
                      let* version := demo_get "version" in
                      let* author := demo_get "author" in
                      do* Rollback in
                      ret (name, version, author)) in
  do* puts "[8] After reopen:" in
  do* puts ("    Get(name)    = " ++ or_null r.1.1 "(null)") in
  do* puts ("    Get(version) = " ++ or_null r.1.2 "(null)") in
  puts ("    Get(author)  = " ++ or_null r.2 "(null)" ++ " (deleted, expected null)").

Definition demo_close : DM unit := zoom fst (fun d st => (d, st.2)) Close.

Definition demo_intro : list string :=
  ["KeyVDB Phase 1 — embedded key-value store demo"; "Build: sanitizers active (ASan + UBSan)"; "";
   "[1] Database opened (new)."].
Definition demo_end : list string := [""; "All checks passed. KeyVDB Phase 1 is working correctly."].

(** [main], on two files that were removed and made again. *)
Definition demo (data wal : F) : result (list string) :=
  let? db := Open DEFAULT_TIMEOUT_MS (Some data) (Some wal) in
  match (do* demo_commit in do* demo_read in do* demo_rollback in do* demo_erase in
         do* demo_close in puts "[6] DB closed cleanly.") (db, demo_intro) with
  | (Err e, _) => Err e
  | (Ok _, (d, out)) =>
      let? db' := Open DEFAULT_TIMEOUT_MS (Some (data_of d)) (Some (wal_of d)) in
      match (do* puts "[7] DB reopened (WAL recovery ran)." in do* demo_reopened in demo_close) (db', out) with
      | (Err e, _) => Err e
      | (Ok _, (_, out')) => Ok (out' ++ demo_end)%list
      end
  end.
End demo.

(** What the demo is written to print. *)
Example demo_prints : demo ([] : MemFile) ([] : MemFile) = Ok
  (demo_intro ++
   ["[2] Committed: name, version, author.";
    "[3] Get(name)    = KeyVDB";
    "    Get(version) = 1.0.0";
    "    Get(missing) = (null — expected)";
    "[4] Rolled-back key 'temp' present: false (expected: false)";
    "[5] Deleted 'author' — present after delete: false (expected: false)";
    "[6] DB closed cleanly.";
    "[7] DB reopened (WAL recovery ran).";
    "[8] After reopen:";
    "    Get(name)    = KeyVDB";
    "    Get(version) = 1.0.0";
    "    Get(author)  = (null) (deleted, expected null)"] ++ demo_end)%list.
Proof. vm_compute. reflexivity. Qed.
