(* ===== verification/TreeSpec.v ===== *)
(** * What the operations of the tree do to its entries

    On trees of any height: insertion, removal and lookup are those of a finite
    map as long as the entries are small and a leaf that underflows is settled
    by its neighbours, and a lookup visits a number of pages logarithmic in
    their number.  Where this
    ends: larger entries can be dropped, and a removal can take other entries
    with it. *)

From S2P Require Import Prelude.
From S2P Require Import Buffers.
From S2P Require Import Node.
From S2P Require Import KeyOrder.
From S2P Require Import DiskManager.
From S2P Require Import BTree.
From S2P Require Import Tree.
From S2P Require Import TreeSplit.
From S2P Require Import TreeInsert.
From S2P Require Import TreeRemove.
From S2P Require Import Store.
From S2P Require Import TreeStore.
From S2P Require Import Db.
From S2P Require Import Open.
From S2P Require Import LogManager.
From S2P Require Import LogRep.
From S2P Require Import LogSpec.
From S2P Require Import OpenRep.
From S2P Require Import OpenSpec.

(** ** Samples *)

(** Values of 900 bytes under falling one-byte keys; twelve of them and the
    removal of the seventh key from below. *)
Definition nth_key (n : nat) : bytes := [byte_of_Z (10 * Z.of_nat n)].
Definition falling (n : nat) : list update :=
  (fun i => (nth_key i, Some (replicate 900 Byte.x2a))) <$> reverse (seq 1 n).
Definition fatal_ops : list update := falling 12 ++ [(nth_key 7, None)].

(** Two entries of half a page, and one of three quarters between them. *)
Definition large_ops : list update :=
  [(nth_key 1, Some (replicate 2000 Byte.x2a)); (nth_key 3, Some (replicate 2000 Byte.x2a));
   (nth_key 2, Some (replicate 3000 Byte.x2a))].

(** Seven such values in three leaves, of which two are removed: the leaf of the
    first one borrows an entry, that of the second one is merged with its
    neighbour. *)
Definition rebalanced : list update := falling 7 ++ [(nth_key 5, None); (nth_key 7, None)].

(** ** Insertion and removal *)

Section updates.
Context {F : Type} `{ReliableLog F}.
Implicit Types (t : BTree F) (m : gmap bytes bytes) (key value : bytes) (f g : F).

(** C4: [BTree::insert] is insertion into a finite map, on a tree of any
    height and whatever has to be split: when an entry takes at most a quarter
    of a page, slot included, and the file is not within 33 pages of the limit
    of the page ids, [insert] fails no assertion and throws nothing, the tree
    holds the map with the new entry, and at most 33 pages were added. *)
Theorem insert_refines_map t m key value
    (Ht : tree_map t m) (Hn : tree_pages t + 33 < 2 ^ 31)
    (Hkv : leaf_cell_size (zlen key) (zlen value) + 2 <= 1010) :
  exists t', insert key value t = (Ok tt, t') /\ tree_map t' (<[key := value]> m) /\
    tree_pages t <= tree_pages t' <= tree_pages t + 33.
Proof. exact (tree_map_insert t m key value Ht Hn Hkv). Qed.

(** C5: [BTree::remove] is deletion from a finite map, and says whether the key
    was there, on a tree of any height, whenever [can_remove] holds of the
    pages: the leaf of the key is the root, does not underflow, or is settled by
    its neighbours: it borrows an entry from the left, or from the right when it
    is a first child, or as a first or last child it is merged with its only
    neighbour and the parent needs no fix in its turn; the root goes when it
    has lost its last separator.  The file keeps its pages. *)
Theorem remove_refines_map t m key (Ht : tree_map t m) (Hc : can_remove key t = true) :
  exists t', BTree.remove key t = (Ok (bool_decide (is_Some (m !! key))), t') /\ tree_map t' (delete key m) /\
    tree_pages t' = tree_pages t.
Proof. exact (tree_map_remove t m key Ht Hc). Qed.

(** C10: a new database finds what was inserted and not removed: after
    [DB::Open] on two empty files and any sequence of insertions and removals
    that the tree can do, [BTree::get] of any key gives the value that the last
    of them left.  The tree can do any sequence of insertions of small entries,
    up to some sixty million; a removal when its leaf stays half full or its
    neighbours settle it ([can_remove]). *)
Theorem updates_are_found (n : Z) f g (us : list update) key (Hf : content f = []) (Hg : content g = []) :
  exists d, Open n (Some f) (Some g) = Ok d /\
    (can_all us (btree_ d) = true -> exists t t', for_each us do_update (btree_ d) = (Ok tt, t) /\
       BTree.get key t = (Ok (apply_updates us ∅ !! key), t')) /\
    (Forall small_insert us -> 33 * zlen us + 2 < 2 ^ 31 -> can_all us (btree_ d) = true).
Proof.
  destruct (Open_new n f g _ Hf (ctor_empty g Hg)) as (d & E & Ht & _ & _ & Hn). exists d. split; [exact E|]. split.
  - intros Hc. change (kv_rep (btree_ d) ∅) in Ht. destruct (do_updates_ok (btree_ d) ∅ us Ht Hc) as (t & Eu & Ht').
    destruct (tree_map_get t _ key Ht') as (t' & Eg & _). by exists t, t'.
  - intros Hs Hlen. apply (inserts_can (btree_ d) ∅ us Ht Hs). lia.
Qed.

End updates.

Lemma new_tree_map : tree_map (btree_ new_db) ∅ /\ tree_pages (btree_ new_db) <= 2.
Proof.
  destruct (Open_new 200 ([] : MemFile) ([] : MemFile) (mkLM ([] : MemFile) 1 1)) as (d & E & Ht & _ & _ & Hn);
    [done|by apply ctor_empty|].
  unfold new_db. rewrite E. by split.
Qed.

Lemma insert_refines_map_witness :
  exists t', insert key_x val_1 (btree_ new_db) = (Ok tt, t') /\ tree_map t' {[key_x := val_1]} /\
    tree_pages (btree_ new_db) <= tree_pages t' <= tree_pages (btree_ new_db) + 33.
Proof.
  apply (insert_refines_map (btree_ new_db) ∅ key_x val_1).
  - apply new_tree_map.
  - pose proof (proj2 new_tree_map) as Hn. revert Hn. generalize (tree_pages (btree_ new_db)). intros z Hz. lia.
  - vm_compute. discriminate.
Defined.

(** The entry that was borrowed is found. *)
Lemma updates_are_found_witness :
  exists d t t', Open 200 (Some ([] : MemFile)) (Some ([] : MemFile)) = Ok d /\
    for_each rebalanced do_update (btree_ d) = (Ok tt, t) /\
    BTree.get (nth_key 3) t = (Ok (Some (replicate 900 Byte.x2a)), t').
Proof.
  assert (E : apply_updates rebalanced ∅ !! nth_key 3 = Some (replicate 900 Byte.x2a)) by (vm_compute; reflexivity).
  assert (Hc : can_all rebalanced (btree_ new_db) = true) by (vm_compute; reflexivity).
  assert (H0 : content ([] : MemFile) = []) by reflexivity.
  destruct (updates_are_found 200 ([] : MemFile) ([] : MemFile) rebalanced (nth_key 3) H0 H0) as (d & Eo & Hu & _).
  assert (Ed : new_db = d) by (unfold new_db; rewrite Eo; reflexivity). rewrite Ed in Hc.
  destruct (Hu Hc) as (t & t' & Et & Eg). rewrite E in Eg. exists d, t, t'.
  split; [exact Eo|]. split; [exact Et|exact Eg].
Defined.

(** The last child of the root is merged with its neighbour. *)
Lemma remove_refines_map_witness :
  let t := (for_each (falling 7) do_update (btree_ new_db)).2 in
  let m := apply_updates (falling 7) ∅ in
  exists t', BTree.remove (nth_key 7) t = (Ok (bool_decide (is_Some (m !! nth_key 7))), t') /\
    tree_map t' (delete (nth_key 7) m) /\ tree_pages t' = tree_pages t.
Proof.
  cbv zeta. assert (Hf : can_all (falling 7) (btree_ new_db) = true) by (vm_compute; reflexivity).
  assert (Hc : can_remove (nth_key 7) (for_each (falling 7) do_update (btree_ new_db)).2 = true) by (vm_compute; reflexivity).
  pose proof new_tree_map as [H0 _]. change (kv_rep (btree_ new_db) ∅) in H0.
  destruct (do_updates_ok (btree_ new_db) ∅ (falling 7) H0 Hf) as (t & E & Ht).
  rewrite E in Hc |- *. exact (remove_refines_map t _ (nth_key 7) Ht Hc).
Defined.



