(* ===== verification/NodeSpec.v ===== *)
(** * What a node promises

    A leaf is a finite map from keys to values, an internal node a sorted list
    of separators with children; the theorems below are the contract of
    [node.h], each with an instance on a concrete page. *)

From S2P Require Import Prelude.
From S2P Require Import Buffers.
From S2P Require Import Page.
From S2P Require Import Node.
From S2P Require Import NodeSlots.
From S2P Require Import KeyOrder.
From S2P Require Import NodeCells.
From S2P Require Import NodeKinds.
From S2P Require Import NodeOps.
From S2P Require Import NodeInsert.
From S2P Require Import NodeSplit.
From S2P Require Import NodeMerge.
From S2P Require Import NodeSeparator.
From S2P Require Import Tree.
From S2P Require Import NodeCalls.
From S2P Require Import Samples.

(** ** Search *)

Lemma ld_fuel (off n : Z) (p : Page) : ld off n p <> Err OutOfFuel.
Proof. unfold ld. by destruct (in_bounds off n p). Qed.

Lemma result_bind_fuel {A B : Type} (r : result A) (f : A -> result B) :
  r <> Err OutOfFuel -> (forall a, f a <> Err OutOfFuel) -> result_bind r f <> Err OutOfFuel.
Proof. intros Hr Hf. destruct r as [a|e]; [apply Hf|]. simpl. congruence. Qed.

Lemma ld_u_fuel (off n : Z) (p : Page) : ld_u n off p <> Err OutOfFuel.
Proof. apply result_bind_fuel; [apply ld_fuel|done]. Qed.

Lemma key_at_fuel (i : Z) (p : Page) : key_at i p <> Err OutOfFuel.
Proof.
  unfold key_at. apply result_bind_fuel; [apply ld_u_fuel|]. intros n.
  apply result_bind_fuel; [by destruct (i <? n)|]. intros _.
  apply result_bind_fuel; [apply ld_u_fuel|]. intros off.
  apply result_bind_fuel; [apply ld_u_fuel|]. intros klen. apply ld_fuel.
Qed.

Lemma lower_bound_loop_fuel (fuel : nat) (key : bytes) (p : Page) (lo hi : Z) :
  0 <= lo -> hi < 65536 -> hi - lo < 2 ^ Z.of_nat fuel ->
  lower_bound_loop fuel key lo hi p <> Err OutOfFuel.
Proof.
  revert lo hi. induction fuel as [|fuel IH]; intros lo hi Hlo Hhi Hf; cbn [lower_bound_loop].
  - change (2 ^ Z.of_nat 0) with 1 in Hf. by rewrite (proj2 (Z.ltb_ge _ _)) by lia.
  - destruct (Z.ltb_spec lo hi) as [Hlt|]; [|done].
    rewrite Nat2Z.inj_succ, Z.pow_succ_r in Hf by lia.
    assert (Hd : hi - lo = 2 * ((hi - lo) / 2) + (hi - lo) mod 2) by (apply Z.div_mod; lia).
    assert (Hm : 0 <= (hi - lo) mod 2 < 2) by (apply Z.mod_pos_bound; lia).
    set (mid := lo + (hi - lo) / 2) in *. unfold wrap. change (2 ^ 16) with 65536.
    rewrite (Z.mod_small mid), (Z.mod_small (mid + 1)) by lia.
    apply result_bind_fuel; [apply key_at_fuel|]. intros k.
    destruct (key_ltb k key); apply IH; lia.
Qed.

(** [Node::lower_bound] terminates on every page, whatever its bytes: the
    binary search halves a 16-bit interval, so seventeen rounds are enough. *)
Theorem lower_bound_terminates (key : bytes) (p : Page) : lower_bound key p <> Err OutOfFuel.
Proof.
  unfold lower_bound. destruct (num_keys p) as [n|e] eqn:E.
  - assert (0 <= n < 65536).
    { unfold num_keys, ld_u in E. destruct (ld (data OFF_NUM_KEYS) 2 p) as [bs|] eqn:El; [|done].
      simpl in E. injection E as <-. pose proof (le_dec_range bs) as Hr. unfold ld in El.
      destruct (in_bounds (data OFF_NUM_KEYS) 2 p) eqn:Eb; [|done]. injection El as <-.
      apply in_bounds_true in Eb as (H1 & H2 & H3). rewrite zlen_rd in Hr by done. done. }
    cbn [result_bind]. apply lower_bound_loop_fuel; [lia|lia|]. unfold LOWER_BOUND_FUEL.
    change (2 ^ Z.of_nat 17) with 131072. lia.
  - simpl. intros [= ->]. by apply (ld_u_fuel (data OFF_NUM_KEYS) 2 p).
Qed.

(** On a leaf, [lower_bound] returns the index of the first key that is
    not below the one searched for, and the key is in the leaf exactly when it
    is at that index, with its value. *)
Theorem lower_bound_finds (p : Page) (cells : list (bytes * bytes)) (key : bytes) (Hp : node p cells) :
  exists i : nat, lower_bound key p = Ok (Z.of_nat i) /\ is_lower_bound fst key cells i /\
    kv_map cells !! key =
      match cells !! i with
      | Some c => if bool_decide (c.1 = key) then Some c.2 else None
      | None => None
      end.
Proof.
  pose proof (lb_index_spec fst key cells (node_sorted _ _ Hp)) as Hlb.
  exists (lb_index fst key cells). split; [|split; [done|]].
  - apply (lower_bound_holds p cells (node_holds _ _ Hp) key (node_sorted _ _ Hp)).
  - by apply kv_map_lookup_at; [apply (node_sorted _ _ Hp)|].
Qed.

Lemma lower_bound_finds_witness :
  exists i : nat, lower_bound kb leaf_ab = Ok (Z.of_nat i) /\
    is_lower_bound fst kb [(ka, va); (kb, vb)] i /\
    kv_map [(ka, va); (kb, vb)] !! kb =
      match [(ka, va); (kb, vb)] !! i with
      | Some c => if bool_decide (c.1 = kb) then Some c.2 else None
      | None => None
      end.
Proof. apply (lower_bound_finds leaf_ab _ kb). apply leaf_ab_ok. Defined.

(** ** Any calls *)

(** C11: the pages of nodes are well typed: whatever methods are called on a
    fresh leaf or internal node, in any order and with any arguments that the
    header allows, the page is a node of that id whose cells lie in the page
    side by side, with keys in order.  The next call, whatever it is, reads and
    writes inside the page and ends; it succeeds when it passes the assertions
    at its head, and else changes nothing. *)
Theorem node_calls_typed (pid parent : Z) (p : Page) (c : node_call)
    (Hpid : is_page_id pid) (Hpar : is_page_id parent) (Hp : reached pid parent p) (Hc : wanted c p) :
  is_node p /\ pg_id p = pid /\
  do_call c p = (if accepted c p then Ok tt else Err AssertionFailure, (do_call c p).2) /\
  if accepted c p then is_node (do_call c p).2 /\ pg_type (do_call c p).2 = pg_type p else (do_call c p).2 = p.
Proof.
  destruct (reached_node pid parent p Hpid Hpar Hp) as [Hn Hid]. pose proof (node_call_ok p c Hn Hc) as Hw.
  split; [exact Hn|]. split; [exact Hid|]. unfold runs_well in Hw. destruct (accepted c p); [|by rewrite Hw].
  destruct Hw as (p' & E & N & Ht & _). by rewrite E.
Qed.

(** A leaf with one entry; its first child is asked for. *)
Lemma node_calls_typed_witness :
  let p := (do_call (CInsertLeafCell ka va) (init_leaf 5 0 zero_page).2).2 in
  is_node p /\ pg_id p = 5 /\ do_call (CKeyAt 0) p = (Ok tt, p) /\ do_call (CChildAt 0) p = (Err AssertionFailure, p).
Proof.
  set (p := (do_call (CInsertLeafCell ka va) (init_leaf 5 0 zero_page).2).2). cbv zeta.
  assert (Hr : reached 5 0 p) by (apply reached_call; [apply reached_leaf|exact I]).
  assert (H5 : is_page_id 5) by (vm_compute; split; congruence).
  assert (Hz : is_page_id 0) by (vm_compute; split; congruence).
  assert (Hw : wanted (CKeyAt 0) p) by (cbn [wanted]; lia). assert (Hw' : wanted (CChildAt 0) p) by (cbn [wanted]; lia).
  destruct (node_calls_typed 5 0 p (CKeyAt 0) H5 Hz Hr Hw) as (Hn & Hid & E & _).
  destruct (node_calls_typed 5 0 p (CChildAt 0) H5 Hz Hr Hw') as (_ & _ & E' & _).
  assert (A : accepted (CKeyAt 0) p = true) by (vm_compute; reflexivity).
  assert (A' : accepted (CChildAt 0) p = false) by (vm_compute; reflexivity).
  rewrite A in E. rewrite A' in E'. split; [exact Hn|]. split; [exact Hid|]. split; [exact E|exact E'].
Defined.

(** ** Leaves as maps *)

(** C12: [insert_leaf_cell] inserts or overwrites: it returns [true] exactly
    when the cells with the new entry fit in a page, and the leaf then holds
    the map with the key bound to the value.  When it returns [false], the old
    entry of the key, if there was one of another size, is gone.  The keys
    stay sorted and the links of the node do not change. *)
Theorem insert_leaf_cell_refines (p : Page) (cells : list (bytes * bytes)) (k v : bytes)
    (Hp : node p cells) :
  exists p' cells', insert_leaf_cell k v p = (Ok (leaf_fits k v cells), p') /\
    node p' cells' /\ meta p' = meta p /\
    kv_map cells' = if leaf_fits k v cells then <[k := v]> (kv_map cells) else delete k (kv_map cells).
Proof.
  pose proof (node_sorted _ _ Hp) as Hs. destruct (insert_leaf_cell_ok p cells k v Hp) as (p' & E & Mt & N & _).
  exists p', (if leaf_fits k v cells then upsert k v cells else remove_key k cells).
  split; [exact E|]. split; [exact N|]. split; [exact Mt|].
  destruct (leaf_fits k v cells); [by apply kv_map_upsert|by apply kv_map_remove_key].
Qed.

Lemma insert_leaf_cell_refines_witness :
  exists p' cells', insert_leaf_cell ka vb leaf_ab = (Ok (leaf_fits ka vb [(ka, va); (kb, vb)]), p') /\
    node p' cells' /\ meta p' = meta leaf_ab /\
    kv_map cells' = if leaf_fits ka vb [(ka, va); (kb, vb)]
      then <[ka := vb]> (kv_map [(ka, va); (kb, vb)]) else delete ka (kv_map [(ka, va); (kb, vb)]).
Proof. apply (insert_leaf_cell_refines leaf_ab). apply leaf_ab_ok. Defined.

(** [remove_cell] of slot [i] deletes the key of that slot from the leaf
    and nothing else; the cell area is not touched. *)
Theorem remove_cell_refines (p : Page) (cells : list (bytes * bytes)) (i : nat) (k v : bytes)
    (Hp : node p cells) (Hi : cells !! i = Some (k, v)) :
  exists p' cells', remove_cell (Z.of_nat i) p = (Ok tt, p') /\ node p' cells' /\
    kv_map cells' = delete k (kv_map cells) /\ meta p' = meta p /\ pg_ce p' = pg_ce p.
Proof.
  pose proof (node_sorted _ _ Hp) as Hs. assert (Hlt := lookup_lt_Some _ _ _ Hi).
  destruct (node_remove p cells i Hp Hlt) as (p' & E & N & C & Mt). exists p', (delete i cells).
  split; [exact E|]. split; [exact N|]. split; [|done].
  rewrite <- (remove_key_present k cells i (k, v) Hs Hi eq_refl). by apply kv_map_remove_key.
Qed.

Lemma remove_cell_refines_witness :
  exists p' cells', remove_cell (Z.of_nat 0) leaf_ab = (Ok tt, p') /\ node p' cells' /\
    kv_map cells' = delete ka (kv_map [(ka, va); (kb, vb)]) /\ meta p' = meta leaf_ab /\
    pg_ce p' = pg_ce leaf_ab.
Proof. apply (remove_cell_refines leaf_ab _ 0 ka va); [apply leaf_ab_ok|reflexivity]. Defined.

(** [compact] keeps every cell and every link of the node and leaves no
    dead byte: afterwards the free space is all that the live cells and their
    slots do not occupy. *)
Theorem compact_reclaims {A : Type} `{NodeKind A, !CompactLaw A} (p : Page) (cells : list A)
    (Hp : node p cells) :
  exists p', compact p = (Ok tt, p') /\ node p' cells /\ meta p' = meta p /\
    free_space p' = Ok (NODE_USABLE_SIZE - occupied cells).
Proof.
  destruct (compact_ok p cells Hp) as (p' & E & N & C & Mt). exists p'.
  split; [exact E|]. split; [exact N|]. split; [exact Mt|].
  rewrite (free_space_holds p' cells (node_holds _ _ N)). unfold compacted in C. rewrite C.
  rewrite (holds_fe p' cells (node_holds _ _ N)). unfold occupied. f_equal. klia.
Qed.

Lemma compact_reclaims_witness :
  exists p', compact leaf_ab = (Ok tt, p') /\ node p' [(ka, va); (kb, vb)] /\
    meta p' = meta leaf_ab /\
    free_space p' = Ok (NODE_USABLE_SIZE - occupied [(ka, va); (kb, vb)]).
Proof. apply (compact_reclaims leaf_ab). apply leaf_ab_ok. Defined.

(** ** Splitting *)

(** C19: [split_into] of a leaf keeps every entry: a prefix of the cells stays,
    the rest goes to the right node, both parts are non-empty, and the left one
    takes at most half of the bytes (or one cell).  The separator is the first
    key of the right node, which becomes the right sibling with the old one
    behind it. *)
Theorem split_leaf_partitions (p q : Page) (cells : list (bytes * bytes))
    (Hp : node p cells) (Hc : compacted p cells) (H2 : (2 <= length cells)%nat)
    (Hq : node q (@nil (bytes * bytes))) (Hcq : compacted q (@nil (bytes * bytes))) :
  exists k v l r p' q', split_into (p, q) = (Ok k, (p', q')) /\
    cells = l ++ (k, v) :: r /\ l <> [] /\
    ((length l <= 1)%nat \/ occupied l <= occupied cells / 2) /\
    node p' l /\ node q' ((k, v) :: r) /\
    meta p' = (pg_id p, pg_type p, (pg_parent p, pg_id q, pg_left p, pg_first p)) /\
    meta q' = (pg_id q, pg_type q, (pg_parent p, pg_right p, pg_id p, pg_first q)).
Proof.
  destruct (split_leaf_ok p q cells Hp Hc H2 Hq Hcq)
    as (r & [k v] & p' & q' & E & (Hr & Hb & _) & Hi & N & _ & N' & _ & Mp & Mq).
  exists k, v, (take r cells), (drop (S r) cells), p', q'.
  rewrite (drop_S _ _ _ Hi) in N'. split; [exact E|].
  split; [by rewrite <- (drop_S _ _ _ Hi), take_drop|].
  assert (Hlen : length (take r cells) = r) by (rewrite length_take; lia).
  split; [intros E'; rewrite E' in Hlen; simpl in Hlen; lia|].
  split; [by rewrite Hlen|]. done.
Qed.

Lemma split_leaf_partitions_witness :
  exists k v l r p' q', split_into (leaf_ab, leaf2) = (Ok k, (p', q')) /\
    [(ka, va); (kb, vb)] = l ++ (k, v) :: r /\ l <> [] /\
    ((length l <= 1)%nat \/ occupied l <= occupied [(ka, va); (kb, vb)] / 2) /\
    node p' l /\ node q' ((k, v) :: r) /\
    meta p' = (pg_id leaf_ab, pg_type leaf_ab, (pg_parent leaf_ab, pg_id leaf2, pg_left leaf_ab, pg_first leaf_ab)) /\
    meta q' = (pg_id leaf2, pg_type leaf2, (pg_parent leaf_ab, pg_right leaf_ab, pg_id leaf_ab, pg_first leaf2)).
Proof.
  apply split_leaf_partitions; [apply leaf_ab_ok|apply leaf_ab_ok|simpl; lia|apply leaf2_ok|apply leaf2_ok].
Defined.

(** C20: [split_into] of an internal node promotes one separator: the keys
    below it stay, those above go to the right node, whose first child is the
    child of the promoted key; no child is lost. *)
Theorem split_internal_promotes (p q : Page) (cells : list (bytes * Z))
    (Hp : node p cells) (Hc : compacted p cells) (H2 : (2 <= length cells)%nat)
    (Hq : node q (@nil (bytes * Z))) (Hcq : compacted q (@nil (bytes * Z))) :
  exists k c l r p' q', split_into (p, q) = (Ok k, (p', q')) /\
    cells = l ++ (k, c) :: r /\ l <> [] /\ node p' l /\ node q' r /\
    pg_first q' = c /\ meta p' = meta p /\ pg_parent q' = pg_parent p.
Proof.
  destruct (split_internal_ok p q cells Hp Hc H2 Hq Hcq)
    as (mid & k & c & p' & q' & E & (Hr & _) & Hi & N & _ & N' & _ & Mp & Mq).
  exists k, c, (take mid cells), (drop (S mid) cells), p', q'. split; [exact E|].
  split; [by rewrite <- (drop_S _ _ _ Hi), take_drop|].
  assert (Hlen : length (take mid cells) = mid) by (rewrite length_take; lia).
  split; [intros E'; rewrite E' in Hlen; simpl in Hlen; lia|].
  split; [done|]. split; [done|]. unfold meta in Mq. by injection Mq.
Qed.

Lemma split_internal_promotes_witness :
  exists k c l r p' q', split_into (int_ab, int2) = (Ok k, (p', q')) /\
    [(ka, 11); (kb, 12)] = l ++ (k, c) :: r /\ l <> [] /\ node p' l /\ node q' r /\
    pg_first q' = c /\ meta p' = meta int_ab /\ pg_parent q' = pg_parent int_ab.
Proof.
  apply split_internal_promotes; [apply int_ab_ok|apply int_ab_ok|simpl; lia|apply int2_ok|apply int2_ok].
Defined.

(** After a split the retried insertion succeeds, when no entry takes more
    than a quarter of a page: both halves of a full leaf have room for one more
    entry of that size.  [BTree::insert] relies on this without checking the
    result of the second insertion. *)
Theorem split_makes_room (cells : list (bytes * bytes)) (r : nat) (k v : bytes)
    (Hocc : occupied cells <= NODE_USABLE_SIZE)
    (Hsmall : Forall (fun c => leaf_cell_size (zlen c.1) (zlen c.2) + 2 <= 1010) cells)
    (Hkv : leaf_cell_size (zlen k) (zlen v) + 2 <= 1010) (Hr : split_balanced cells r) :
  leaf_fits k v (take r cells) = true /\ leaf_fits k v (drop r cells) = true.
Proof.
  destruct (split_leaf_room cells r 1010 Hocc) as [Hl Hd]; [|lia|done|].
  - eapply Forall_impl; [exact Hsmall|]. intros [k' v'] Hx. cbn beta in *. by rewrite zlen_enc_leaf.
  - split; apply bool_decide_eq_true_2; (etrans; [apply occupied_upsert_le|]);
      rewrite zlen_enc_leaf; lia.
Qed.

Lemma split_makes_room_witness :
  leaf_fits kc vb (take 1 [(ka, va); (kb, vb)]) = true /\
  leaf_fits kc vb (drop 1 [(ka, va); (kb, vb)]) = true.
Proof.
  apply split_makes_room; [by vm_compute|by repeat constructor|by vm_compute|].
  split; [simpl; lia|]. split; [by left|by vm_compute].
Defined.

(** ** Merging and borrowing *)

(** Two neighbouring leaves that both underflow merge: no [assert] fails,
    whatever the fragmentation of their pages, the left one then holds all the
    entries in order and its right link skips the absorbed leaf. *)
Theorem merge_underflowing_leaves (p q : Page) (cl cr : list (bytes * bytes))
    (Hp : node p cl) (Hq : node q cr) (Hs : sorted_cells fst (cl ++ cr))
    (Hup : underflow p = Ok true) (Huq : underflow q = Ok true) :
  exists p', merge_leaf (p, q) = (Ok tt, (p', q)) /\ node p' (cl ++ cr) /\
    pg_right p' = pg_right q /\ pg_left p' = pg_left p.
Proof.
  pose proof (underflow_small p cl Hp Hup) as H1. pose proof (underflow_small q cr Hq Huq) as H2.
  change (NODE_USABLE_SIZE / 2) with 2020 in *.
  destruct (merge_leaf_ok p q cl cr Hp Hq Hs) as (p' & E & N & Mt); [klia|].
  exists p'. split; [exact E|]. split; [exact N|]. unfold meta in Mt. by injection Mt.
Qed.

Lemma compacted_underflow {A : Type} `{NodeKind A} (p : Page) (cells : list A) :
  node p cells -> compacted p cells -> occupied cells < NODE_USABLE_SIZE / 2 -> underflow p = Ok true.
Proof.
  intros Hn Hc Ho. rewrite (underflow_holds p cells Hn). f_equal. apply Z.ltb_lt.
  rewrite (holds_fe p cells (node_holds _ _ Hn)). unfold compacted in Hc. rewrite Hc.
  unfold occupied in Ho. klia.
Qed.

Lemma merge_underflowing_leaves_witness :
  exists p', merge_leaf (leaf_ab, leaf_c) = (Ok tt, (p', leaf_c)) /\
    node p' ([(ka, va); (kb, vb)] ++ [(kc, vb)]) /\
    pg_right p' = pg_right leaf_c /\ pg_left p' = pg_left leaf_ab.
Proof.
  apply merge_underflowing_leaves.
  - apply leaf_ab_ok.
  - apply leaf_c_ok.
  - repeat constructor.
  - destruct leaf_ab_ok as (N & C & _). by apply (compacted_underflow _ _ N C).
  - destruct leaf_c_ok as (N & C & _). by apply (compacted_underflow _ _ N C).
Defined.

(** Borrowing from the left leaf moves its last entry to the front of the
    node: the entries of the two leaves in order are the same, and the new
    separator is the first key of the node. *)
Theorem steal_left_leaf_moves (p q : Page) (cl cr : list (bytes * bytes)) (k v : bytes)
    (Hq : node q (cl ++ [(k, v)])) (Hp : node p cr) (Hs : sorted_cells fst ((k, v) :: cr))
    (Ho : occupied ((k, v) :: cr) <= NODE_USABLE_SIZE) :
  exists p' q' cl' cr', steal_left_leaf (p, q) = (Ok k, (p', q')) /\ node p' cr' /\ node q' cl' /\
    cl' ++ cr' = (cl ++ [(k, v)]) ++ cr /\ head cr' = Some (k, v) /\
    meta p' = meta p /\ meta q' = meta q.
Proof.
  destruct (steal_left_leaf_ok p q cl cr k v Hq Hp Hs Ho) as (p' & q' & E & Np & Nq & Mp & Mq).
  exists p', q', cl, ((k, v) :: cr). split; [exact E|]. split; [exact Np|]. split; [exact Nq|].
  split; [by rewrite <- app_assoc|done].
Qed.

Lemma steal_left_leaf_moves_witness :
  exists p' q' cl' cr', steal_left_leaf (leaf_c, leaf_ab) = (Ok kb, (p', q')) /\ node p' cr' /\ node q' cl' /\
    cl' ++ cr' = ([(ka, va)] ++ [(kb, vb)]) ++ [(kc, vb)] /\ head cr' = Some (kb, vb) /\
    meta p' = meta leaf_c /\ meta q' = meta leaf_ab.
Proof.
  apply steal_left_leaf_moves; [apply leaf_ab_ok|apply leaf_c_ok|by repeat constructor|by vm_compute].
Defined.

Lemma route_below (c : Z) (cells : list (bytes * Z)) (x : bytes) :
  (forall k, k ∈ cells.*1 -> key_lt x k) -> route c cells x = c.
Proof.
  destruct cells as [|[k d] cells]; [done|]. intros Hk. cbn [route].
  by rewrite (Hk k ltac:(left) : key_ltb x k = true).
Qed.

Lemma route_above (c : Z) (cells : list (bytes * Z)) (k : bytes) (d : Z) (x : bytes) :
  sorted_cells fst (cells ++ [(k, d)]) -> ~ key_lt x k -> route c (cells ++ [(k, d)]) x = d.
Proof.
  intros Hs Hx. revert c. induction cells as [|[k' d'] cells IH]; intros c; cbn [app route].
  - destruct (key_ltb x k) eqn:E; [by destruct Hx|done].
  - inversion Hs as [|? ? Hs' Hall]; subst. rewrite Forall_app in Hall. destruct Hall as [_ Hall].
    apply Forall_inv in Hall. simpl in Hall.
    destruct (key_ltb x k') eqn:E; [|by apply IH].
    exfalso. apply Hx. by eapply key_lt_trans.
Qed.

(** Borrowing from the left sibling of an internal node loses a subtree
    from sight.  [k] is the last separator of the left node, [c] its child, and
    [x] a key between [k] and the keys of this node: before, [x] leads to [c].
    The new separator is [k], so [x] now leads to this node, and there to its
    old first child instead of [c]: the parent's separator, which was to come
    down, was dropped. *)
Theorem steal_left_internal_misroutes (p q : Page) (cl cr : list (bytes * Z)) (k x : bytes) (c : Z)
    (Hq : node q (cl ++ [(k, c)])) (Hp : node p cr) (Hs : sorted_cells fst ((k, pg_first p) :: cr))
    (Ho : occupied ((k, pg_first p) :: cr) <= NODE_USABLE_SIZE)
    (Hx : ~ key_lt x k) (Hxr : forall y, y ∈ cr.*1 -> key_lt x y) :
  exists p' q' cr', steal_left_internal (p, q) = (Ok (k, c), (p', q')) /\ node p' cr' /\
    route (pg_first q) (cl ++ [(k, c)]) x = c /\
    route (pg_first p') cr' x = pg_first p.
Proof.
  destruct (steal_left_internal_ok p q cl cr k c Hq Hp Hs Ho) as (p' & q' & E & Np & Nq & _ & Mp).
  exists p', q', ((k, pg_first p) :: cr). split; [exact E|]. split; [exact Np|].
  split; [apply route_above; [apply (node_sorted _ _ Hq)|done]|].
  cbn [route]. destruct (key_ltb x k) eqn:Ek; [by destruct Hx|]. by apply route_below.
Qed.

Lemma steal_left_internal_misroutes_witness :
  exists p' q' cr', steal_left_internal (int_c, int_ab) = (Ok (kb, 12), (p', q')) /\ node p' cr' /\
    route (pg_first int_ab) ([(ka, 11)] ++ [(kb, 12)]) (kb ++ va) = 12 /\
    route (pg_first p') cr' (kb ++ va) = pg_first int_c.
Proof.
  apply (steal_left_internal_misroutes int_c int_ab [(ka, 11)] [(kc, 13)]);
    [apply int_ab_ok|apply int_c_ok|by repeat constructor| |done|].
  - rewrite !occupied_cons, occupied_nil, !zlen_enc_internal. by vm_compute.
  - by intros y ->%list_elem_of_singleton.
Defined.
