(* ===== verification/StorageSpec.v ===== *)
(** * What the storage layer promises

    Disk manager, free list and buffer pool on a reliable file: what is
    written is read back, page 0 keeps the list and the root, and the pool is
    transparent. *)

From stdpp Require Import functions.
From S2P Require Import Prelude.
From S2P Require Import Buffers.
From S2P Require Import Page.
From S2P Require Import DiskManager.
From S2P Require Import FreeList.
From S2P Require Import BufferPool.
From S2P Require Import PoolSpec.
From S2P Require Import PoolOps.

(** ** Sample stores, in a file in memory *)

Definition file2 : DiskManager MemFile := mkDM (replicate (Z.to_nat (2 * PAGE_SIZE)) Byte.x00) 2.

Lemma file2_ok : dm_ok file2.
Proof.
  split; [done|]. unfold file2, zlen. cbn [fd num_pages content mem_reliable].
  rewrite length_replicate. done.
Qed.

Definition empty_file : MemFile := [].

(** The free list after [load] of an empty file, and a pool on it. *)
Definition list0 : FreeList MemFile := (load (mkFL (mkDM empty_file 0) [])).2.
Definition pool0 : BufferPool MemFile := BufferPool_ctor list0.

Lemma list0_ok :
  fl_synced list0 /\ free_pages_ list0 = [] /\ num_pages (dm list0) = 1 /\
  p0_root (page0 list0) = INVALID_PAGE_ID.
Proof.
  destruct (load_empty (mkFL (mkDM empty_file 0) [])) as (fl' & E & Hs & Hf & N & R); [by split|done|done|].
  unfold list0. rewrite E. exact (conj Hs (conj Hf (conj N R))).
Qed.

Lemma pool0_ok : pool_rep ∅ [] pool0 (a_init list0).
Proof.
  destruct list0_ok as (Hs & Hf & N & _).
  apply BufferPool_ctor_ok; [exact Hs|rewrite Hf; constructor|rewrite Hf; by intros id ?%not_elem_of_nil].
Qed.

(** ** Claims *)

Section claims.
Context {F : Type} `{ReliableFile F}.

(** A page written to the file is read back as it was written, and the
    other pages as they were. *)
Theorem read_after_write (d : DiskManager F) (pid j : Z) (p buf : Page)
    (Hd : dm_ok d) (Hp : 0 <= pid < num_pages d) (Hj : 0 <= j < num_pages d)
    (Hlen : zlen p = PAGE_SIZE) (Hbuf : zlen buf = PAGE_SIZE) :
  exists d', write_page pid p d = (Ok tt, d') /\
    read_page j (d', buf) = (Ok tt, (d', if decide (j = pid) then p else disk_page d j)).
Proof.
  destruct (write_page_ok d p pid Hd Hp Hlen) as (d' & E & N & [D S]). exists d'. split; [exact E|].
  rewrite read_page_ok by (done || by rewrite N). by rewrite S by by rewrite N.
Qed.

(** C28: [save] followed by [load], in a process that starts with an empty
    list, gives the same free pages back, whatever the order of the list, and
    does not disturb the root slot that lives in the same page. *)
Theorem free_list_round_trip (fl : FreeList F) (Hok : fl_ok fl) :
  exists fl', save fl = (Ok tt, fl') /\
    load (mkFL (dm fl') []) = (Ok tt, mkFL (dm fl') (free_pages_ fl)) /\
    root_page_id fl' = (Ok (p0_root (page0 fl)), fl').
Proof.
  destruct (save_saved fl Hok) as (fl' & E & Hf & (Hok' & Hc & Hids) & N & R & _).
  exists fl'. split; [exact E|]. split.
  - rewrite load_ok; [|apply (fl_dm _ Hok')|apply (fl_pos _ Hok')|exact Hc]. cbn [dm].
    change (page0 (mkFL (dm fl') [])) with (page0 fl'). by rewrite Hids, Hf.
  - rewrite root_page_id_ok by done. by rewrite R.
Qed.

(** [set_root_page_id] is durable at once: [root_page_id] of the file as
    it then is returns the id, and the stored free list is unchanged. *)
Theorem root_round_trip (fl : FreeList F) (id : Z) (Hs : fl_synced fl) (Hid : is_page_id id) :
  exists fl', set_root_page_id id fl = (Ok tt, fl') /\ root_page_id fl' = (Ok id, fl') /\
    load (mkFL (dm fl') []) = (Ok tt, mkFL (dm fl') (free_pages_ fl)).
Proof.
  destruct (set_root_synced fl id Hs Hid) as (fl' & E & (Hok & Hc & Hids) & Hf & R & _).
  exists fl'. split; [exact E|]. split; [by rewrite root_page_id_ok, R|].
  rewrite load_ok; [|apply (fl_dm _ Hok)|apply (fl_pos _ Hok)|exact Hc]. cbn [dm].
  change (page0 (mkFL (dm fl') [])) with (page0 fl'). by rewrite Hids, Hf.
Qed.

(** A freed page is the next one allocated, and the list is then what it
    was, in memory and in page 0. *)
Theorem free_then_allocate (fl : FreeList F) (id : Z) (Hok : fl_ok fl) (Hid : is_page_id id)
    (Hroom : zlen (free_pages_ fl) < MAX_FREE_PAGES) :
  exists fl1 fl2, free id fl = (Ok tt, fl1) /\ allocate fl1 = (Ok id, fl2) /\
    free_pages_ fl2 = free_pages_ fl /\ fl_synced fl2.
Proof.
  destruct (free_ok fl id Hok Hid Hroom) as (fl1 & E1 & Hf1 & (Hok1 & _) & _).
  destruct (allocate_some fl1 id Hok1) as (fl2 & E2 & Hf2 & Hs2 & _).
  { rewrite Hf1. apply last_snoc. }
  exists fl1, fl2. split; [exact E1|]. split; [exact E2|]. split; [|exact Hs2].
  rewrite Hf1 in Hf2. by apply app_inj_tail in Hf2 as [<- _].
Qed.

(** C13: [fetch_page] is transparent.  As long as fewer pages are pinned than
    frames are usable, a page of the store can be fetched, evicting an
    unpinned one if need be, and the content of every page, the pins of the
    other pages and the pointers to them are as before. *)
Theorem fetch_page_transparent (b : BufferPool F) (a : APool) (D : gset Z) (L : list (Z * Z)) (pid : Z)
    (Hr : pool_rep D L b a) (Hc : (length L < a_cap a)%nat) (Hp : 0 < pid < a_num a)
    (Hf : pid ∉ a_free a) (Hid : pg_id (a_page a pid) = pid) :
  exists i b', fetch_page pid b = (Ok (Some i), b') /\ pool_rep D ((pid, i) :: L) b' a.
Proof. exact (fetch_ok D L b a pid Hr Hc Hp Hf Hid). Qed.

(** C21: [new_page] hands out a page that is not in use, freed ids first, and
    keeps the content of every other page. *)
Theorem new_page_fresh (b : BufferPool F) (a : APool) (D : gset Z) (L : list (Z * Z))
    (Hr : pool_rep D L b a) (Hc : (length L < a_cap a)%nat) (Hn : a_num a + 1 < 2 ^ 31) :
  exists i p b', new_page b = (Ok (Some (i, a_new_id a)), b') /\
    pool_rep D ((a_new_id a, i) :: L) b' (a_new p a) /\ pg_id p = a_new_id a /\
    (a_new_id a ∈ a_free a \/ a_new_id a = a_num a) /\
    forall j, j <> a_new_id a -> a_page (a_new p a) j = a_page a j.
Proof.
  destruct (new_page_ok D L b a Hr Hc Hn) as (i & p & b' & E & Hid & _ & Hr').
  exists i, p, b'. split; [exact E|]. split; [exact Hr'|]. split; [done|]. split.
  - unfold a_new_id. destruct (last (a_free a)) as [id|] eqn:El; [left|by right].
    apply last_Some in El as [l ->]. apply elem_of_app. right. by left.
  - intros j Hj. rewrite a_new_page. by rewrite decide_False.
Qed.

(** C27: [flush_all] puts every page of the store on disk, in whatever order
    the hash table is visited, and leaves the pool usable. *)
Theorem flush_all_durable (b : BufferPool F) (a : APool) (L : list (Z * Z)) (order : list (Z * Z))
    (Hr : pool_rep ∅ L b a) (Ho : order ≡ₚ map_to_list (page_table_ b)) :
  exists b', flush_all_in order b = (Ok tt, b') /\ pool_rep ∅ L b' a /\
    forall j, 0 < j < a_num a -> disk_page (dm (pool_fl b')) j = a_page a j.
Proof.
  destruct (flush_all_in_ok L order b a Hr) as (b' & E & Hr' & _ & Hd).
  { intros j i. rewrite Ho. by rewrite elem_of_map_to_list. }
  exists b'. split; [exact E|]. split; [done|]. intros j Hj. apply Hd; [done|].
  destruct (page_table_ b !! j) as [i|] eqn:Hp.
  - left. apply list_elem_of_fmap. exists (j, i). split; [done|].
    rewrite Ho. by apply elem_of_map_to_list.
  - right. rewrite <- (pr_page _ _ _ _ Hr j Hj). unfold bp_page. by rewrite Hp.
Qed.

(** Deleting a cached page loses a frame for good: the frame goes neither
    back to [free_frames_] nor into the LRU list, so one page less can be in
    the pool from then on. *)
Theorem delete_page_leaks_frame (b : BufferPool F) (a : APool) (D : gset Z) (L : list (Z * Z)) (pid i : Z)
    (Hr : pool_rep D L b a) (Hp : page_table_ b !! pid = Some i) (HL : pid ∉ L.*1)
    (Hroom : zlen (a_free a) < MAX_FREE_PAGES) :
  exists b', delete_page pid b = (Ok tt, b') /\
    (length (free_frames_ b') + length (lru_list_ b'))%nat =
      pred (length (free_frames_ b) + length (lru_list_ b)).
Proof.
  destruct (cached_lookup D b pid i (pr_inv _ _ _ _ Hr) Hp) as (f & _ & _ & _ & Hrange & _).
  rewrite (pr_num _ _ _ _ Hr) in Hrange.
  assert (Hnf : pid ∉ a_free a).
  { intros Hin. destruct (pr_free _ _ _ _ Hr pid Hin) as [_ Hn]. congruence. }
  destruct (delete_page_ok D L b a pid Hr HL Hrange Hnf Hroom) as (p & b' & E & Hr').
  exists b'. split; [exact E|]. pose proof (pr_cap _ _ _ _ Hr) as C. pose proof (pr_cap _ _ _ _ Hr') as C'.
  rewrite Hp in C'. simpl in C'. unfold cap in *. congruence.
Qed.
End claims.

(** ** Instances *)

(** The pool after a first page was made, and after it was unpinned. *)
Definition pool1 : BufferPool MemFile := (new_page pool0).2.
Definition pool2 : BufferPool MemFile := (unpin_page 1 true pool1).2.

Lemma a_init0_id : a_new_id (a_init list0) = 1 /\ a_free (a_init list0) = [] /\ a_num (a_init list0) = 1.
Proof. destruct list0_ok as (_ & Hf & N & _). unfold a_new_id, a_init. cbn [a_free a_num]. rewrite Hf, N. split; [reflexivity|split; reflexivity]. Qed.

Lemma pool1_ok :
  exists i p, pool_rep ∅ [(1, i)] pool1 (a_new p (a_init list0)) /\ pg_id p = 1 /\
    (forall j, a_page (a_new p (a_init list0)) j = if decide (j = 1) then p else a_page (a_init list0) j) /\
    a_num (a_new p (a_init list0)) = 2 /\ a_free (a_new p (a_init list0)) = [] /\
    a_cap (a_new p (a_init list0)) = 64%nat.
Proof.
  destruct a_init0_id as (Hid & Hf & Hn).
  destruct (new_page_ok ∅ [] pool0 (a_init list0) pool0_ok) as (i & p & b' & E & Hp & _ & Hr).
  { exact (Nat.lt_0_succ 63). } { rewrite Hn. lia. }
  rewrite Hid in *. exists i, p. unfold pool1. rewrite E. split; [exact Hr|]. split; [done|].
  split; [intros j; rewrite a_new_page; by rewrite Hid|].
  unfold a_new. rewrite Hf. cbn [last a_num a_free a_cap]. rewrite Hn.
  split; [reflexivity|split; reflexivity].
Qed.

Lemma pool2_ok :
  exists i a, pool_rep ∅ [] pool2 a /\ page_table_ pool2 !! 1 = Some i /\ a_free a = [].
Proof.
  destruct pool1_ok as (i & p & Hr & _ & _ & _ & Hf & _).
  destruct (unpin_ok ∅ [(1, i)] [] pool1 _ 1 i true Hr) as (b' & E & Hr' & Hpt); [done|done|].
  exists i, (a_new p (a_init list0)). unfold pool2. rewrite E. split; [|split; [|done]].
  - rewrite (difference_disjoint_L ∅ {[1]}) in Hr' by (apply disjoint_empty_l). exact Hr'.
  - cbn [snd]. rewrite Hpt. apply (pr_ptr _ _ _ _ Hr). by left.
Qed.

Lemma read_after_write_witness :
  exists d', write_page 1 zero_page file2 = (Ok tt, d') /\
    read_page 0 (d', zero_page) = (Ok tt, (d', if decide (0 = 1) then zero_page else disk_page file2 0)).
Proof.
  apply (read_after_write file2 1 0 zero_page zero_page file2_ok);
    [by split|by split|exact zlen_zero_page|exact zlen_zero_page].
Defined.

Lemma free_list_round_trip_witness :
  exists fl', save list0 = (Ok tt, fl') /\
    load (mkFL (dm fl') []) = (Ok tt, mkFL (dm fl') (free_pages_ list0)) /\
    root_page_id fl' = (Ok (p0_root (page0 list0)), fl').
Proof. apply free_list_round_trip. apply list0_ok. Defined.

Lemma root_round_trip_witness :
  exists fl', set_root_page_id 7 list0 = (Ok tt, fl') /\ root_page_id fl' = (Ok 7, fl') /\
    load (mkFL (dm fl') []) = (Ok tt, mkFL (dm fl') (free_pages_ list0)).
Proof. apply (root_round_trip list0 7); [apply list0_ok|split; lia]. Defined.

Lemma free_then_allocate_witness :
  exists fl1 fl2, free 5 list0 = (Ok tt, fl1) /\ allocate fl1 = (Ok 5, fl2) /\
    free_pages_ fl2 = free_pages_ list0 /\ fl_synced fl2.
Proof.
  apply (free_then_allocate list0 5); [apply list0_ok|split; lia|].
  destruct list0_ok as (_ & Hf & _). rewrite Hf. done.
Defined.

Lemma fetch_page_transparent_witness :
  exists i a i' b', pool_rep ∅ [(1, i)] pool1 a /\
    fetch_page 1 pool1 = (Ok (Some i'), b') /\ pool_rep ∅ [(1, i'); (1, i)] b' a.
Proof.
  destruct pool1_ok as (i & p & Hr & Hp & Hpg & Hn & Hf & Hc).
  destruct (fetch_page_transparent pool1 _ ∅ [(1, i)] 1 Hr) as (i' & b' & E & Hr').
  - rewrite Hc. simpl. lia.
  - rewrite Hn. lia.
  - rewrite Hf. apply not_elem_of_nil.
  - rewrite Hpg. exact Hp.
  - exists i, (a_new p (a_init list0)), i', b'. split; [exact Hr|]. split; [exact E|exact Hr'].
Defined.

Lemma new_page_fresh_witness :
  exists i p b', new_page pool0 = (Ok (Some (i, a_new_id (a_init list0))), b') /\
    pool_rep ∅ [(a_new_id (a_init list0), i)] b' (a_new p (a_init list0)) /\
    pg_id p = a_new_id (a_init list0) /\
    (a_new_id (a_init list0) ∈ a_free (a_init list0) \/ a_new_id (a_init list0) = a_num (a_init list0)) /\
    forall j, j <> a_new_id (a_init list0) -> a_page (a_new p (a_init list0)) j = a_page (a_init list0) j.
Proof.
  destruct a_init0_id as (_ & _ & Hn).
  apply (new_page_fresh pool0 (a_init list0) ∅ [] pool0_ok); [exact (Nat.lt_0_succ 63)|rewrite Hn; lia].
Defined.

Lemma flush_all_durable_witness :
  exists a b', flush_all_in (map_to_list (page_table_ pool2)) pool2 = (Ok tt, b') /\
    pool_rep ∅ [] b' a /\ forall j, 0 < j < a_num a -> disk_page (dm (pool_fl b')) j = a_page a j.
Proof.
  destruct pool2_ok as (i & a & Hr & _ & _). exists a.
  exact (flush_all_durable pool2 a [] (map_to_list (page_table_ pool2)) Hr (Permutation_refl _)).
Defined.

Lemma delete_page_leaks_frame_witness :
  exists b', delete_page 1 pool2 = (Ok tt, b') /\
    (length (free_frames_ b') + length (lru_list_ b'))%nat =
      pred (length (free_frames_ pool2) + length (lru_list_ pool2)).
Proof.
  destruct pool2_ok as (i & a & Hr & Hp & Hf).
  apply (delete_page_leaks_frame pool2 a ∅ [] 1 i Hr Hp); [apply not_elem_of_nil|].
  rewrite Hf. done.
Defined.
